(** * Verification of the on-demand video-frame decoding pipeline

    A shallow embedding of [src/video-asset/webcodec-helper.js] (timeline
    builder, batch feeder, decoder output handler, load callbacks, canvas
    fallback, decoder configuration record) and of [disposeVideoAsset] and
    [stepFrame] from the video-asset demo page, together with the
    properties the specification states about them and further properties
    of the code.

    Conventions of the embedding.
    - JavaScript arrays are lists; arrays that may have holes
      ([new Array(n)], writes by index) are lists of options, [None] being
      a hole, and reading a hole or past the end yields [None]
      ([undefined]).
    - Asset objects live in an object store and the registry
      [window._videoAssets] maps identifiers to addresses, so that closures
      holding on to an asset (timers, suspended output handlers) keep
      mutating the same object after it has been deregistered.
    - Console output, decoder calls, timers and calls into the rendering
      engine are recorded as a trace of [Event]s.
    - Frame counts handed to the feeder are JavaScript numbers restricted
      to the integers and the three non-finite values; a fractional count
      or frame index is outside the embedding.  Frame indices and pixel
      dimensions are integers.
    - Timestamps, durations and frame rates are computed in IEEE 754
      binary64 as the source computes them: every division and
      multiplication rounds to the nearest number, ties to even
      ([SpecFloat] of the standard library with 53 bits of precision), and
      [Math.round] and [Math.floor] are exact on the number they are
      given.  The fields of the container the numbers are read from
      ([cts], [dts], [duration], [timescale], the two halves of a frame
      rate) are integers, and the timescale of a track is positive.
    - Tests of the source that the types of the embedding decide once and
      for all ([typeof x === 'number'], [Array.isArray(x)] on fields that
      only ever hold numbers or arrays) are left out, and so is debug
      logging.
    - [decoder.close], [decoder.decode], [decoder.configure],
      [frame.allocationSize], [frame.copyTo] and the canvas calls can
      throw, as the [try] blocks of the source provide for.  The calls the
      source makes outside any [try] (into the rendering engine, the
      native allocator, the demuxer's [flush]) return normally in the
      functions named after the source; for the decoder output handler
      the functions whose names end in [_in] take what these calls do (the
      allocator handing out no block or aborting, a call into the engine
      throwing) as a further argument.  The bytes of the native buffer
      are not modelled, only which blocks are live. *)

From Stdlib Require Import ZArith QArith Qround.
From Stdlib Require SpecFloat.
From stdpp Require Import gmap strings list sorting.

Local Open Scope Z_scope.

(** ** JavaScript numbers and arrays *)

Inductive jsnum :=
| JInt (z : Z)
| JPosInf
| JNegInf
| JNaN.

(** [Number.isFinite(x)] *)
Definition isFinite (x : jsnum) : bool :=
  match x with JInt _ => true | _ => false end.

(** [x <= z] for an integer [z] *)
Definition jsnum_leZ (x : jsnum) (z : Z) : bool :=
  match x with
  | JInt a => a <=? z
  | JNegInf => true
  | JPosInf | JNaN => false
  end.

(** [x < z] for an integer [z] *)
Definition jsnum_ltZ (x : jsnum) (z : Z) : bool :=
  match x with
  | JInt a => a <? z
  | JNegInf => true
  | JPosInf | JNaN => false
  end.

(** [z + x] for an integer [z] *)
Definition jsnum_addZ (z : Z) (x : jsnum) : jsnum :=
  match x with
  | JInt a => JInt (z + a)
  | other => other
  end.

(** [x === y]: [NaN] is not equal to itself. *)
Definition jsnum_strict_eq (x y : jsnum) : bool :=
  match x, y with
  | JInt a, JInt b => a =? b
  | JPosInf, JPosInf => true
  | JNegInf, JNegInf => true
  | _, _ => false
  end.

(** The integer a finite number denotes (0 for the others; only used
    behind an [isFinite] test). *)
Definition jsnum_toZ (x : jsnum) : Z :=
  match x with JInt a => a | _ => 0 end.

(** *** Binary64 arithmetic

    A number is a binary64 value; [Number z] is the number nearest to the
    integer [z] (the integer itself up to [2^53]), and division and
    multiplication round their exact result to the nearest number. *)
Definition float64 : Type := SpecFloat.spec_float.

Definition Number (z : Z) : float64 :=
  SpecFloat.binary_normalize 53 1024 z 0 false.

Definition js_div (x y : float64) : float64 := SpecFloat.SFdiv 53 1024 x y.

Definition js_mul (x y : float64) : float64 := SpecFloat.SFmul 53 1024 x y.

(** [Number.isFinite(x)] on a number *)
Definition js_finite (x : float64) : bool :=
  match x with
  | SpecFloat.S754_zero _ | SpecFloat.S754_finite _ _ _ => true
  | SpecFloat.S754_infinity _ | SpecFloat.S754_nan => false
  end.

(** The rational a finite number is (0 for an infinity or [NaN], which
    no quotient or product of the container's integer fields is unless it
    exceeds [2^1023]). *)
Definition valueOf (x : float64) : Q :=
  match x with
  | SpecFloat.S754_finite s m e =>
      (inject_Z (if s then Z.neg m else Z.pos m) * Qpower 2 e)%Q
  | _ => 0%Q
  end.

(** The number a frame rate kept as a rational stands for: the quotient
    of its two halves, which is the rational itself when that is a
    number. *)
Definition NumberQ (q : Q) : float64 :=
  js_div (Number (Qnum q)) (Number (Z.pos (Qden q))).

(** [Math.round]: the nearest integer, halves rounded up. *)
Definition js_round (x : float64) : Z := Qfloor (valueOf x + (1 # 2))%Q.

(** [Math.floor] *)
Definition js_floor (x : float64) : Z := Qfloor (valueOf x).

(** [arr[i]] on an array with holes, [i] a natural number. *)
Definition js_get {A} (arr : list (option A)) (i : nat) : option A :=
  mjoin (arr !! i).

(** [arr[i]] for an integer [i]; a negative index is an absent property. *)
Definition js_index {A} (arr : list (option A)) (i : Z) : option A :=
  if i <? 0 then None else js_get arr (Z.to_nat i).

(** [arr[i] = v]: writing past the end extends the array with holes. *)
Definition js_set {A} (i : nat) (v : A) (arr : list (option A))
  : list (option A) :=
  if (i <? length arr)%nat then <[i := Some v]> arr
  else arr ++ replicate (i - length arr) None ++ [Some v].

(** ** Coded samples *)

(** A sample as the demuxer hands it over. *)
Record Sample := mkSample {
  cts : option Z;
  dts : option Z;
  is_sync : bool;
  duration : option Z;
  data : list Byte.byte
}.

(** A sample of [asset.samples]: the demuxer's fields, the fields added on
    arrival and the frame index stamped by the timeline builder. *)
Record NSample := mkNSample {
  raw : Sample;
  decodeIndex : nat;
  compositionTimestamp : option Z;
  timestampMicros : Z;
  frameIndex : option nat
}.

Definition getCompositionTimestamp (sample : Sample) : option Z :=
  match cts sample with
  | Some c => Some c
  | None =>
      match dts sample with
      | Some d => Some d
      | None => None
      end
  end.

(** [fps ? Math.round(1e6 / fps) : 0] *)
Definition frameDurationMicros (fps : Q) : Z :=
  if Qeq_bool fps 0 then 0
  else js_round (js_div (Number 1000000) (NumberQ fps)).

Definition convertTimestampToMicros
    (compositionTimestamp : option Z) (timescale : positive)
    (decodeIndex : nat) (fps : Q) : Z :=
  match compositionTimestamp with
  | Some c =>
      if js_finite (Number c) then
        js_round (js_mul (js_div (Number c) (Number (Z.pos timescale)))
                    (Number 1000000))
      else Z.of_nat decodeIndex * frameDurationMicros fps
  | None => Z.of_nat decodeIndex * frameDurationMicros fps
  end.

(** ** Decode queue entries, canvases, copy methods *)

(** [qe_id] is the identity of the entry object: [indexOf] compares
    entries by identity, not by content. *)
Record QueueEntry := mkQueueEntry {
  qe_id : nat;
  sampleIndex : nat;
  qe_frameIndex : option nat;
  deliver : bool;
  timestamp : Z
}.

Record CanvasObj := mkCanvas {
  canvas_width : Z;
  canvas_height : Z
}.

Inductive CopyMethod := Direct | Canvas.

(** ** Assets

    The fields of the object literal registered by the loader that the
    modelled functions read or write, and the properties added later
    ([samples], [currentFetchRange], [copyMethod], [useStrideSize]).
    [decoder] is a handle into the decoder store; [canvasCleanup] records
    whether a clean-up closure is installed; [fps] is the rational the
    number in the field is. *)

Record Asset := mkAsset {
  ptr : option N;
  decoder : nat;
  width : Z;
  height : Z;
  timescale : positive;
  fps : Q;
  totalFrames : Z;
  initialPrefillFrames : Z;
  isInitialPrefill : bool;
  currentPrefillIndex : Z;
  frameBytes : N;
  canvas : option CanvasObj;
  canvasCleanup : bool;
  pendingPrefetch : option (Z * jsnum);
  prefillRequested : bool;
  decodeQueue : list QueueEntry;
  decodeQueueByTimestamp : gmap Z (list QueueEntry);
  frameToDecode : list (option nat);
  decodeToFrame : list (option nat);
  frameTimestamps : list (option Z);
  samples : option (list NSample);
  currentFetchRange : option (Z * Z);
  copyMethod : option CopyMethod;
  useStrideSize : bool
}.

Definition set_ptr (v : option N) (a : Asset) : Asset :=
  mkAsset v (a.(decoder)) (a.(width)) (a.(height)) (a.(timescale)) (a.(fps))
    (a.(totalFrames)) (a.(initialPrefillFrames)) (a.(isInitialPrefill))
    (a.(currentPrefillIndex)) (a.(frameBytes)) (a.(canvas))
    (a.(canvasCleanup)) (a.(pendingPrefetch)) (a.(prefillRequested))
    (a.(decodeQueue)) (a.(decodeQueueByTimestamp)) (a.(frameToDecode))
    (a.(decodeToFrame)) (a.(frameTimestamps)) (a.(samples))
    (a.(currentFetchRange)) (a.(copyMethod)) (a.(useStrideSize)).

Definition set_width (v : Z) (a : Asset) : Asset :=
  mkAsset (a.(ptr)) (a.(decoder)) v (a.(height)) (a.(timescale)) (a.(fps))
    (a.(totalFrames)) (a.(initialPrefillFrames)) (a.(isInitialPrefill))
    (a.(currentPrefillIndex)) (a.(frameBytes)) (a.(canvas))
    (a.(canvasCleanup)) (a.(pendingPrefetch)) (a.(prefillRequested))
    (a.(decodeQueue)) (a.(decodeQueueByTimestamp)) (a.(frameToDecode))
    (a.(decodeToFrame)) (a.(frameTimestamps)) (a.(samples))
    (a.(currentFetchRange)) (a.(copyMethod)) (a.(useStrideSize)).

Definition set_height (v : Z) (a : Asset) : Asset :=
  mkAsset (a.(ptr)) (a.(decoder)) (a.(width)) v (a.(timescale)) (a.(fps))
    (a.(totalFrames)) (a.(initialPrefillFrames)) (a.(isInitialPrefill))
    (a.(currentPrefillIndex)) (a.(frameBytes)) (a.(canvas))
    (a.(canvasCleanup)) (a.(pendingPrefetch)) (a.(prefillRequested))
    (a.(decodeQueue)) (a.(decodeQueueByTimestamp)) (a.(frameToDecode))
    (a.(decodeToFrame)) (a.(frameTimestamps)) (a.(samples))
    (a.(currentFetchRange)) (a.(copyMethod)) (a.(useStrideSize)).

Definition set_isInitialPrefill (v : bool) (a : Asset) : Asset :=
  mkAsset (a.(ptr)) (a.(decoder)) (a.(width)) (a.(height)) (a.(timescale))
    (a.(fps)) (a.(totalFrames)) (a.(initialPrefillFrames)) v
    (a.(currentPrefillIndex)) (a.(frameBytes)) (a.(canvas))
    (a.(canvasCleanup)) (a.(pendingPrefetch)) (a.(prefillRequested))
    (a.(decodeQueue)) (a.(decodeQueueByTimestamp)) (a.(frameToDecode))
    (a.(decodeToFrame)) (a.(frameTimestamps)) (a.(samples))
    (a.(currentFetchRange)) (a.(copyMethod)) (a.(useStrideSize)).

Definition set_currentPrefillIndex (v : Z) (a : Asset) : Asset :=
  mkAsset (a.(ptr)) (a.(decoder)) (a.(width)) (a.(height)) (a.(timescale))
    (a.(fps)) (a.(totalFrames)) (a.(initialPrefillFrames))
    (a.(isInitialPrefill)) v (a.(frameBytes)) (a.(canvas)) (a.(canvasCleanup))
    (a.(pendingPrefetch)) (a.(prefillRequested)) (a.(decodeQueue))
    (a.(decodeQueueByTimestamp)) (a.(frameToDecode)) (a.(decodeToFrame))
    (a.(frameTimestamps)) (a.(samples)) (a.(currentFetchRange))
    (a.(copyMethod)) (a.(useStrideSize)).

Definition set_frameBytes (v : N) (a : Asset) : Asset :=
  mkAsset (a.(ptr)) (a.(decoder)) (a.(width)) (a.(height)) (a.(timescale))
    (a.(fps)) (a.(totalFrames)) (a.(initialPrefillFrames))
    (a.(isInitialPrefill)) (a.(currentPrefillIndex)) v (a.(canvas))
    (a.(canvasCleanup)) (a.(pendingPrefetch)) (a.(prefillRequested))
    (a.(decodeQueue)) (a.(decodeQueueByTimestamp)) (a.(frameToDecode))
    (a.(decodeToFrame)) (a.(frameTimestamps)) (a.(samples))
    (a.(currentFetchRange)) (a.(copyMethod)) (a.(useStrideSize)).

Definition set_canvas (v : option CanvasObj) (a : Asset) : Asset :=
  mkAsset (a.(ptr)) (a.(decoder)) (a.(width)) (a.(height)) (a.(timescale))
    (a.(fps)) (a.(totalFrames)) (a.(initialPrefillFrames))
    (a.(isInitialPrefill)) (a.(currentPrefillIndex)) (a.(frameBytes)) v
    (a.(canvasCleanup)) (a.(pendingPrefetch)) (a.(prefillRequested))
    (a.(decodeQueue)) (a.(decodeQueueByTimestamp)) (a.(frameToDecode))
    (a.(decodeToFrame)) (a.(frameTimestamps)) (a.(samples))
    (a.(currentFetchRange)) (a.(copyMethod)) (a.(useStrideSize)).

Definition set_canvasCleanup (v : bool) (a : Asset) : Asset :=
  mkAsset (a.(ptr)) (a.(decoder)) (a.(width)) (a.(height)) (a.(timescale))
    (a.(fps)) (a.(totalFrames)) (a.(initialPrefillFrames))
    (a.(isInitialPrefill)) (a.(currentPrefillIndex)) (a.(frameBytes))
    (a.(canvas)) v (a.(pendingPrefetch)) (a.(prefillRequested))
    (a.(decodeQueue)) (a.(decodeQueueByTimestamp)) (a.(frameToDecode))
    (a.(decodeToFrame)) (a.(frameTimestamps)) (a.(samples))
    (a.(currentFetchRange)) (a.(copyMethod)) (a.(useStrideSize)).

Definition set_pendingPrefetch (v : option (Z * jsnum)) (a : Asset) : Asset :=
  mkAsset (a.(ptr)) (a.(decoder)) (a.(width)) (a.(height)) (a.(timescale))
    (a.(fps)) (a.(totalFrames)) (a.(initialPrefillFrames))
    (a.(isInitialPrefill)) (a.(currentPrefillIndex)) (a.(frameBytes))
    (a.(canvas)) (a.(canvasCleanup)) v (a.(prefillRequested))
    (a.(decodeQueue)) (a.(decodeQueueByTimestamp)) (a.(frameToDecode))
    (a.(decodeToFrame)) (a.(frameTimestamps)) (a.(samples))
    (a.(currentFetchRange)) (a.(copyMethod)) (a.(useStrideSize)).

Definition set_prefillRequested (v : bool) (a : Asset) : Asset :=
  mkAsset (a.(ptr)) (a.(decoder)) (a.(width)) (a.(height)) (a.(timescale))
    (a.(fps)) (a.(totalFrames)) (a.(initialPrefillFrames))
    (a.(isInitialPrefill)) (a.(currentPrefillIndex)) (a.(frameBytes))
    (a.(canvas)) (a.(canvasCleanup)) (a.(pendingPrefetch)) v (a.(decodeQueue))
    (a.(decodeQueueByTimestamp)) (a.(frameToDecode)) (a.(decodeToFrame))
    (a.(frameTimestamps)) (a.(samples)) (a.(currentFetchRange))
    (a.(copyMethod)) (a.(useStrideSize)).

Definition set_decodeQueue (v : list QueueEntry) (a : Asset) : Asset :=
  mkAsset (a.(ptr)) (a.(decoder)) (a.(width)) (a.(height)) (a.(timescale))
    (a.(fps)) (a.(totalFrames)) (a.(initialPrefillFrames))
    (a.(isInitialPrefill)) (a.(currentPrefillIndex)) (a.(frameBytes))
    (a.(canvas)) (a.(canvasCleanup)) (a.(pendingPrefetch))
    (a.(prefillRequested)) v (a.(decodeQueueByTimestamp)) (a.(frameToDecode))
    (a.(decodeToFrame)) (a.(frameTimestamps)) (a.(samples))
    (a.(currentFetchRange)) (a.(copyMethod)) (a.(useStrideSize)).

Definition set_decodeQueueByTimestamp (v : gmap Z (list QueueEntry)) (a : Asset) : Asset :=
  mkAsset (a.(ptr)) (a.(decoder)) (a.(width)) (a.(height)) (a.(timescale))
    (a.(fps)) (a.(totalFrames)) (a.(initialPrefillFrames))
    (a.(isInitialPrefill)) (a.(currentPrefillIndex)) (a.(frameBytes))
    (a.(canvas)) (a.(canvasCleanup)) (a.(pendingPrefetch))
    (a.(prefillRequested)) (a.(decodeQueue)) v (a.(frameToDecode))
    (a.(decodeToFrame)) (a.(frameTimestamps)) (a.(samples))
    (a.(currentFetchRange)) (a.(copyMethod)) (a.(useStrideSize)).

Definition set_frameToDecode (v : list (option nat)) (a : Asset) : Asset :=
  mkAsset (a.(ptr)) (a.(decoder)) (a.(width)) (a.(height)) (a.(timescale))
    (a.(fps)) (a.(totalFrames)) (a.(initialPrefillFrames))
    (a.(isInitialPrefill)) (a.(currentPrefillIndex)) (a.(frameBytes))
    (a.(canvas)) (a.(canvasCleanup)) (a.(pendingPrefetch))
    (a.(prefillRequested)) (a.(decodeQueue)) (a.(decodeQueueByTimestamp)) v
    (a.(decodeToFrame)) (a.(frameTimestamps)) (a.(samples))
    (a.(currentFetchRange)) (a.(copyMethod)) (a.(useStrideSize)).

Definition set_decodeToFrame (v : list (option nat)) (a : Asset) : Asset :=
  mkAsset (a.(ptr)) (a.(decoder)) (a.(width)) (a.(height)) (a.(timescale))
    (a.(fps)) (a.(totalFrames)) (a.(initialPrefillFrames))
    (a.(isInitialPrefill)) (a.(currentPrefillIndex)) (a.(frameBytes))
    (a.(canvas)) (a.(canvasCleanup)) (a.(pendingPrefetch))
    (a.(prefillRequested)) (a.(decodeQueue)) (a.(decodeQueueByTimestamp))
    (a.(frameToDecode)) v (a.(frameTimestamps)) (a.(samples))
    (a.(currentFetchRange)) (a.(copyMethod)) (a.(useStrideSize)).

Definition set_frameTimestamps (v : list (option Z)) (a : Asset) : Asset :=
  mkAsset (a.(ptr)) (a.(decoder)) (a.(width)) (a.(height)) (a.(timescale))
    (a.(fps)) (a.(totalFrames)) (a.(initialPrefillFrames))
    (a.(isInitialPrefill)) (a.(currentPrefillIndex)) (a.(frameBytes))
    (a.(canvas)) (a.(canvasCleanup)) (a.(pendingPrefetch))
    (a.(prefillRequested)) (a.(decodeQueue)) (a.(decodeQueueByTimestamp))
    (a.(frameToDecode)) (a.(decodeToFrame)) v (a.(samples))
    (a.(currentFetchRange)) (a.(copyMethod)) (a.(useStrideSize)).

Definition set_samples (v : option (list NSample)) (a : Asset) : Asset :=
  mkAsset (a.(ptr)) (a.(decoder)) (a.(width)) (a.(height)) (a.(timescale))
    (a.(fps)) (a.(totalFrames)) (a.(initialPrefillFrames))
    (a.(isInitialPrefill)) (a.(currentPrefillIndex)) (a.(frameBytes))
    (a.(canvas)) (a.(canvasCleanup)) (a.(pendingPrefetch))
    (a.(prefillRequested)) (a.(decodeQueue)) (a.(decodeQueueByTimestamp))
    (a.(frameToDecode)) (a.(decodeToFrame)) (a.(frameTimestamps)) v
    (a.(currentFetchRange)) (a.(copyMethod)) (a.(useStrideSize)).

Definition set_currentFetchRange (v : option (Z * Z)) (a : Asset) : Asset :=
  mkAsset (a.(ptr)) (a.(decoder)) (a.(width)) (a.(height)) (a.(timescale))
    (a.(fps)) (a.(totalFrames)) (a.(initialPrefillFrames))
    (a.(isInitialPrefill)) (a.(currentPrefillIndex)) (a.(frameBytes))
    (a.(canvas)) (a.(canvasCleanup)) (a.(pendingPrefetch))
    (a.(prefillRequested)) (a.(decodeQueue)) (a.(decodeQueueByTimestamp))
    (a.(frameToDecode)) (a.(decodeToFrame)) (a.(frameTimestamps))
    (a.(samples)) v (a.(copyMethod)) (a.(useStrideSize)).

Definition set_copyMethod (v : option CopyMethod) (a : Asset) : Asset :=
  mkAsset (a.(ptr)) (a.(decoder)) (a.(width)) (a.(height)) (a.(timescale))
    (a.(fps)) (a.(totalFrames)) (a.(initialPrefillFrames))
    (a.(isInitialPrefill)) (a.(currentPrefillIndex)) (a.(frameBytes))
    (a.(canvas)) (a.(canvasCleanup)) (a.(pendingPrefetch))
    (a.(prefillRequested)) (a.(decodeQueue)) (a.(decodeQueueByTimestamp))
    (a.(frameToDecode)) (a.(decodeToFrame)) (a.(frameTimestamps))
    (a.(samples)) (a.(currentFetchRange)) v (a.(useStrideSize)).

Definition set_useStrideSize (v : bool) (a : Asset) : Asset :=
  mkAsset (a.(ptr)) (a.(decoder)) (a.(width)) (a.(height)) (a.(timescale))
    (a.(fps)) (a.(totalFrames)) (a.(initialPrefillFrames))
    (a.(isInitialPrefill)) (a.(currentPrefillIndex)) (a.(frameBytes))
    (a.(canvas)) (a.(canvasCleanup)) (a.(pendingPrefetch))
    (a.(prefillRequested)) (a.(decodeQueue)) (a.(decodeQueueByTimestamp))
    (a.(frameToDecode)) (a.(decodeToFrame)) (a.(frameTimestamps))
    (a.(samples)) (a.(currentFetchRange)) (a.(copyMethod)) v.

(** ** The presentation timeline *)

Record TimelineEntry := mkTimelineEntry {
  te_decodeIndex : nat;
  te_timestampMicros : Z
}.

(** The comparator handed to [sort]. *)
Definition compareEntries (a b : TimelineEntry) : Z :=
  if negb (te_timestampMicros a =? te_timestampMicros b)
  then te_timestampMicros a - te_timestampMicros b
  else Z.of_nat (te_decodeIndex a) - Z.of_nat (te_decodeIndex b).

Definition entry_le (a b : TimelineEntry) : Prop := compareEntries a b <= 0.

#[global] Instance entry_le_dec : RelDecision entry_le.
Proof. intros a b. unfold entry_le. apply Z_le_dec. Defined.

(** The four objects the [forEach] of the builder writes to. *)
Record Tables := mkTables {
  t_frameToDecode : list (option nat);
  t_frameTimestamps : list (option Z);
  t_decodeToFrame : list (option nat);
  t_samples : list NSample
}.

Definition stampSample (timescale : positive) (fps : Q)
    (index : nat) (sample : NSample) : NSample :=
  let cTimestamp := getCompositionTimestamp (raw sample) in
  mkNSample (raw sample) (decodeIndex sample) cTimestamp
    (convertTimestampToMicros cTimestamp timescale index fps)
    (frameIndex sample).

Definition timelineOf (timescale : positive) (fps : Q)
    (samples : list NSample) : list TimelineEntry :=
  imap (fun decodeIndex sample =>
          mkTimelineEntry decodeIndex
            (convertTimestampToMicros (getCompositionTimestamp (raw sample))
               timescale decodeIndex fps))
       samples.

Definition setFrameIndex (frame : nat) (sample : NSample) : NSample :=
  mkNSample (raw sample) (decodeIndex sample) (compositionTimestamp sample)
    (timestampMicros sample) (Some frame).

(** One round of the [forEach] callback. *)
Definition fillEntry (entry : TimelineEntry) (frameIndex : nat) (t : Tables)
  : Tables :=
  mkTables
    (js_set frameIndex (te_decodeIndex entry) (t_frameToDecode t))
    (js_set frameIndex (te_timestampMicros entry) (t_frameTimestamps t))
    (js_set (te_decodeIndex entry) frameIndex (t_decodeToFrame t))
    (alter (setFrameIndex frameIndex) (te_decodeIndex entry) (t_samples t)).

Fixpoint fillTables (timeline : list TimelineEntry) (frameIndex : nat)
    (t : Tables) : Tables :=
  match timeline with
  | [] => t
  | entry :: rest => fillTables rest (S frameIndex) (fillEntry entry frameIndex t)
  end.

Definition buildTables (timescale : positive) (fps : Q)
    (samples : list NSample) : Tables :=
  let timeline := timelineOf timescale fps samples in
  let stamped := imap (stampSample timescale fps) samples in
  fillTables (merge_sort entry_le timeline) 0
    (mkTables [] [] (replicate (length timeline) None) stamped).

Definition updatePresentationTimeline (asset : Asset) : Asset :=
  match samples asset with
  | None | Some [] =>
      set_frameTimestamps []
        (set_decodeToFrame [] (set_frameToDecode [] asset))
  | Some ss =>
      let t := buildTables (timescale asset) (fps asset) ss in
      set_frameTimestamps (t_frameTimestamps t)
        (set_decodeToFrame (t_decodeToFrame t)
           (set_frameToDecode (t_frameToDecode t)
              (set_samples (Some (t_samples t)) asset)))
  end.

(** [count] is an integer or not finite; the source has no test that it
    is an integer, and applies the same tests to a fractional count. *)
Definition hasFramesForRange (asset : Asset) (start : Z) (count : jsnum)
  : bool :=
  if negb (isFinite count) || jsnum_leZ count 0 then false
  else if (length (frameToDecode asset) =? 0)%nat then false
  else
    let endFrame := start + jsnum_toZ count - 1 in
    if Z.of_nat (length (frameToDecode asset)) <=? endFrame then false
    else
      forallb (fun frame => bool_decide (is_Some (js_index (frameToDecode asset) frame)))
              (seqZ start (endFrame - start + 1)).

(** ** The world: registry, object store, decoders, native heap, player *)

Inductive DecoderState := Unconfigured | Configured | Closed.

#[global] Instance DecoderState_eq_dec : EqDecision DecoderState.
Proof. solve_decision. Defined.

(** The demo page's player object, as far as the modelled code reads or
    writes it. *)
Record Player := mkPlayer {
  videoAssetId : string;
  videoReady : bool;
  surface : bool;
  playing : bool
}.

(** What the page offers for the canvas fallback. *)
Inductive Platform := HasOffscreenCanvas | HasDocument | NoCanvas.

Record World := mkWorld {
  videoAssets : option (gmap string nat);  (* [window._videoAssets] *)
  objects : gmap nat Asset;                (* asset objects, by address *)
  decoders : gmap nat DecoderState;
  wasmLive : gmap N N;                     (* live native blocks: size *)
  wasmNext : N;                            (* next address [_malloc] returns *)
  nextEntry : nat;                         (* next queue-entry identity *)
  player : Player;
  platform : Platform
}.

Definition set_videoAssets (v : option (gmap string nat)) (w : World) : World :=
  mkWorld v (objects w) (decoders w) (wasmLive w) (wasmNext w) (nextEntry w)
    (player w) (platform w).

Definition set_objects (v : gmap nat Asset) (w : World) : World :=
  mkWorld (videoAssets w) v (decoders w) (wasmLive w) (wasmNext w)
    (nextEntry w) (player w) (platform w).

Definition set_decoders (v : gmap nat DecoderState) (w : World) : World :=
  mkWorld (videoAssets w) (objects w) v (wasmLive w) (wasmNext w)
    (nextEntry w) (player w) (platform w).

Definition set_wasm (live : gmap N N) (next : N) (w : World) : World :=
  mkWorld (videoAssets w) (objects w) (decoders w) live next (nextEntry w)
    (player w) (platform w).

Definition set_nextEntry (v : nat) (w : World) : World :=
  mkWorld (videoAssets w) (objects w) (decoders w) (wasmLive w) (wasmNext w)
    v (player w) (platform w).

Definition set_player (v : Player) (w : World) : World :=
  mkWorld (videoAssets w) (objects w) (decoders w) (wasmLive w) (wasmNext w)
    (nextEntry w) v (platform w).

(** [window._videoAssets?.[assetId]]: the address of the registered asset
    and the object it denotes. *)
Definition lookupAsset (w : World) (assetId : string) : option (nat * Asset) :=
  match videoAssets w with
  | None => None
  | Some registry =>
      match registry !! assetId with
      | None => None
      | Some addr =>
          match objects w !! addr with
          | None => None
          | Some asset => Some (addr, asset)
          end
      end
  end.

(** Writing back the asset object at [addr]. *)
Definition storeAsset (addr : nat) (asset : Asset) (w : World) : World :=
  set_objects (<[addr := asset]> (objects w)) w.

(** [Module._malloc(size)] when the allocator has a block to hand out: a
    fresh non-null block.  The source never tests the result; what the
    output handler does when there is none is in [ensureBuffer_in]. *)
Definition malloc (size : N) (w : World) : N * World :=
  let p := N.max 1 (wasmNext w) in
  (p, set_wasm (<[p := size]> (wasmLive w)) (p + N.max 1 size)%N w).

(** [Module._free(p)] *)
Definition free (p : N) (w : World) : World :=
  set_wasm (delete p (wasmLive w)) (wasmNext w) w.

(** A pointer field is truthy when it is neither [null] nor 0. *)
Definition ptr_truthy (p : option N) : bool :=
  match p with
  | Some n => negb (n =? 0)%N
  | None => false
  end.

(** ** Events *)

Record Rect := mkRect {
  rect_x : Z;
  rect_y : Z;
  rect_width : Z;
  rect_height : Z
}.

Record Chunk := mkChunk {
  chunk_key : bool;                (* [type]: "key" or "delta" *)
  chunk_timestamp : Z;
  chunk_data : list Byte.byte;
  chunk_duration : option Z
}.

Inductive TimerCallback :=
| RetryFeedBatch (assetId : string) (start : Z) (count : jsnum)
| ClearFetchRange (asset : nat).

Inductive Event :=
| EvWarn (msg : string)
| EvError (msg : string)
| EvLog (msg : string)
| EvFlush
| EvDecode (decoder : nat) (sampleIndex : nat) (chunk : Chunk)
| EvSetTimeout (callback : TimerCallback) (delay : Z)
| EvFrameClose
| EvCopyTo (rect : Rect)
| EvCanvasCopy (rect : Rect)
| EvOnPrefetchFrame (assetId : string) (frame : nat) (p : option N)
    (width height : Z)
| EvRender
| EvDecoderClose (decoder : nat)
| EvCanvasCleanup
| EvCreateWebAsset (assetId : string)
| EvSetVideoAssetInfo (assetId : string) (totalFrames : Z) (fps : Q)
    (prefill : Z)
| EvReject (reason : string)
| EvResolve.

(** ** Arrival of samples *)

(** The object literal the loader registers under the asset identifier. *)
Definition newAsset (ptr : N) (decoder : nat) (codedWidth codedHeight : Z)
    (timescale : positive) (fps : Q) (totalFrames initialPrefillFrames : Z)
    (frameBytes : N) : Asset :=
  mkAsset (Some ptr) decoder codedWidth codedHeight timescale fps totalFrames
    initialPrefillFrames true 0 frameBytes None false None false [] ∅ [] [] []
    None None None false.

(** The sample pushed by [onSamples] for an arriving [sample]. *)
Definition normalizeSample (timescale : positive) (fps : Q)
    (index : nat) (sample : Sample) : NSample :=
  let cTimestamp := getCompositionTimestamp sample in
  mkNSample sample index cTimestamp
    (convertTimestampToMicros cTimestamp timescale index fps) None.

(** The [for ... of sampleList] loop of [onSamples]. *)
Definition appendSamples (timescale : positive) (fps : Q)
    (samples : list NSample) (sampleList : list Sample) : list NSample :=
  foldl (fun acc sample =>
           acc ++ [normalizeSample timescale fps (length acc) sample])
        samples sampleList.

(** ** The batch feeder *)

(** The in-flight test at the head of [feedBatch]: a fetch range is
    recorded and the request does not lie wholly before or after it. *)
Definition overlapsFetch (asset : Asset) (start : Z) (count : jsnum) : bool :=
  match currentFetchRange asset with
  | None => false
  | Some (fetchStart, fetchEnd) =>
      let requestEnd := jsnum_addZ (start - 1) count in
      negb (jsnum_ltZ requestEnd fetchStart || (fetchEnd <? start))
  end.

(** [!asset.pendingPrefetch || pendingPrefetch.start !== start ||
    pendingPrefetch.count !== count] *)
Definition pendingDiffers (asset : Asset) (start : Z) (count : jsnum) : bool :=
  match pendingPrefetch asset with
  | None => true
  | Some (pstart, pcount) =>
      negb (pstart =? start) || negb (jsnum_strict_eq pcount count)
  end.

(** [Math.min(...xs)] and [Math.max(...xs)] on a non-empty list. *)
Definition list_min (xs : list nat) : nat :=
  match xs with
  | [] => 0%nat
  | x :: rest => foldr Nat.min x rest
  end.

Definition list_max (xs : list nat) : nat := foldr Nat.max 0%nat xs.

Definition sync_at (ss : list NSample) (i : nat) : bool :=
  match ss !! i with
  | Some sample => is_sync (raw sample)
  | None => false
  end.

(** The backward scan [for (i = minDecodeIndex; i >= 0; i--)]. *)
Fixpoint scanKeyframe (ss : list NSample) (i : nat) : option nat :=
  if sync_at ss i then Some i
  else match i with
       | O => None
       | S j => scanKeyframe ss j
       end.

Definition findKeyframe (ss : list NSample) (minDecodeIndex : nat) : nat :=
  match scanKeyframe ss minDecodeIndex with
  | Some i => i
  | None => minDecodeIndex
  end.

(** The frames of the request that have a decode index, and those decode
    indices, in request order. *)
Definition requestedFrames (frameToDecode : list (option nat))
    (start requestEndFrameExclusive : Z) : list Z :=
  filter (fun frame => is_Some (js_index frameToDecode frame))
         (seqZ start (requestEndFrameExclusive - start)).

Definition decodeIndicesFor (frameToDecode : list (option nat))
    (start requestEndFrameExclusive : Z) : list nat :=
  omap (js_index frameToDecode)
       (seqZ start (requestEndFrameExclusive - start)).

Definition makeChunk (tscale : positive) (sample : NSample) : Chunk :=
  mkChunk (is_sync (raw sample)) (timestampMicros sample) (data (raw sample))
    (match duration (raw sample) with
     | Some d =>
         Some (js_round (js_mul (js_div (Number d) (Number (Z.pos tscale)))
                           (Number 1000000)))
     | None => None
     end).

(** [existing.push(entry)] or [map.set(timestamp, [entry])] *)
Definition bucketPush (entry : QueueEntry)
    (buckets : gmap Z (list QueueEntry)) : gmap Z (list QueueEntry) :=
  match buckets !! timestamp entry with
  | Some existing => <[timestamp entry := existing ++ [entry]]> buckets
  | None => <[timestamp entry := [entry]]> buckets
  end.

(** The state the submission loop threads: the asset object, the next
    entry identity and the events so far. *)
Record FeedState := mkFeedState {
  fs_asset : Asset;
  fs_nextEntry : nat;
  fs_trace : list Event
}.

(** The queue entry pushed for [samples[index]]: [decodeToFrame] is the
    table read at entry of [feedBatch], [id] the identity of the new
    object.  A sample of [asset.samples] always carries its
    [timestampMicros], so the entry's timestamp is read off the sample. *)
Definition makeEntry (decodeToFrame : list (option nat))
    (framesToDeliver : list Z) (id index : nat) (sample : NSample)
  : QueueEntry :=
  let frameIndexRaw := js_get decodeToFrame index in
  mkQueueEntry id index frameIndexRaw
    (match frameIndexRaw with
     | Some f => bool_decide (Z.of_nat f ∈ framesToDeliver)
     | None => false
     end)
    (timestampMicros sample).

(** One round of the [while] loop of [feedBatch], for [samples[index]];
    [decoderState] decides whether [decoder.decode] throws. *)
Definition submitSample (decodeToFrame : list (option nat))
    (framesToDeliver : list Z) (decoderState : option DecoderState)
    (ss : list NSample) (index : nat) (st : FeedState) : FeedState :=
  match ss !! index with
  | None => st
  | Some sample =>
      let asset := fs_asset st in
      let queueEntry :=
        makeEntry decodeToFrame framesToDeliver (fs_nextEntry st) index sample in
      let asset1 := set_decodeQueue (decodeQueue asset ++ [queueEntry]) asset in
      let asset2 :=
        set_decodeQueueByTimestamp
          (bucketPush queueEntry (decodeQueueByTimestamp asset1)) asset1 in
      let chunk := makeChunk (timescale asset) sample in
      let decodeEvents :=
        EvDecode (decoder asset) index chunk ::
        (if bool_decide (decoderState = Some Configured) then []
         else [EvError "decode() failed"]) in
      mkFeedState asset2 (S (fs_nextEntry st)) (fs_trace st ++ decodeEvents)
  end.

Definition submitRange (decodeToFrame : list (option nat))
    (framesToDeliver : list Z) (decoderState : option DecoderState)
    (ss : list NSample) (keyframeIndex decodeEndExclusive : nat)
    (st : FeedState) : FeedState :=
  foldl (fun st index =>
           submitSample decodeToFrame framesToDeliver decoderState ss index st)
        st (seq keyframeIndex (decodeEndExclusive - keyframeIndex)).

Definition feedBatch (assetId : string) (start : Z) (count : jsnum)
    (w : World) : World * list Event :=
  match lookupAsset w assetId with
  | None => (w, [EvWarn "[feedBatch] Skipped: asset not found"])
  | Some (addr, asset) =>
      if overlapsFetch asset start count then (w, [])
      else
        match samples asset with
        | None => (w, [EvWarn "[feedBatch] Decoder or samples unavailable"])
        | Some ss =>
            if (length (frameToDecode asset) =? 0)%nat
            then (w, [EvWarn "[feedBatch] Decoder or samples unavailable"])
            else if negb (hasFramesForRange asset start count) then
              let fresh := pendingDiffers asset start count in
              let asset1 :=
                if fresh then set_pendingPrefetch (Some (start, count)) asset
                else asset in
              (storeAsset addr asset1 w,
               (if fresh then [EvFlush] else []) ++
               [EvSetTimeout (RetryFeedBatch assetId start count) 16])
            else
              let asset1 := set_pendingPrefetch None asset in
              let frameToDecode := frameToDecode asset in
              let decodeToFrame := decodeToFrame asset in
              let requestEndFrameExclusive :=
                Z.min (start + jsnum_toZ count)
                      (Z.of_nat (length frameToDecode)) in
              let framesToDeliver :=
                requestedFrames frameToDecode start requestEndFrameExclusive in
              let decodeIndicesForRequest :=
                decodeIndicesFor frameToDecode start requestEndFrameExclusive in
              match decodeIndicesForRequest with
              | [] =>
                  let asset2 :=
                    if pendingDiffers asset1 start count
                    then set_pendingPrefetch (Some (start, count)) asset1
                    else asset1 in
                  (storeAsset addr asset2 w,
                   [EvSetTimeout (RetryFeedBatch assetId start count) 16])
              | _ :: _ =>
                  let asset2 :=
                    set_currentFetchRange
                      (Some (start, requestEndFrameExclusive - 1)) asset1 in
                  let minDecodeIndex := list_min decodeIndicesForRequest in
                  let maxDecodeIndex := list_max decodeIndicesForRequest in
                  let keyframeIndex := findKeyframe ss minDecodeIndex in
                  let decodeEndExclusive :=
                    Nat.min (maxDecodeIndex + 1) (length ss) in
                  let st :=
                    submitRange decodeToFrame framesToDeliver
                      (decoders w !! decoder asset) ss keyframeIndex
                      decodeEndExclusive
                      (mkFeedState asset2 (nextEntry w) []) in
                  (set_nextEntry (fs_nextEntry st)
                     (storeAsset addr (fs_asset st) w),
                   fs_trace st ++ [EvSetTimeout (ClearFetchRange addr) 100])
              end
        end
  end.

(** What the timers scheduled by [feedBatch] do when they fire. *)
Definition fireTimer (callback : TimerCallback) (w : World)
  : World * list Event :=
  match callback with
  | RetryFeedBatch assetId start count => feedBatch assetId start count w
  | ClearFetchRange addr =>
      match objects w !! addr with
      | Some asset => (storeAsset addr (set_currentFetchRange None asset) w, [])
      | None => (w, [])
      end
  end.

(** [player.Module.prefetchFrames], as installed by [setupWebCodecHooks]. *)
Definition prefetchFrames (assetId : string) (start : Z) (count : jsnum)
    (w : World) : World * list Event :=
  let w1 :=
    match lookupAsset w assetId with
    | Some (addr, asset) => storeAsset addr (set_isInitialPrefill false asset) w
    | None => w
    end in
  feedBatch assetId start count w1.

(** ** Reading traces *)

(** The sample indices handed to [decoder.decode], in call order. *)
Definition submitted (trace : list Event) : list nat :=
  omap (fun ev => match ev with
                  | EvDecode _ index _ => Some index
                  | _ => None
                  end) trace.

Definition timeouts (trace : list Event) : list (TimerCallback * Z) :=
  omap (fun ev => match ev with
                  | EvSetTimeout callback delay => Some (callback, delay)
                  | _ => None
                  end) trace.

Definition is_flush (ev : Event) : bool :=
  match ev with EvFlush => true | _ => false end.

(** How often the demuxer was asked to flush. *)
Definition flushes (trace : list Event) : nat :=
  length (filter (fun ev => is_flush ev = true) trace).

(** The frame indices of the queue entries tagged deliverable, and of
    those decoded only to reach them, in queue order. *)
Definition deliverableFrames (queue : list QueueEntry) : list (option nat) :=
  qe_frameIndex <$> filter (fun e => deliver e = true) queue.

Definition scaffoldFrames (queue : list QueueEntry) : list (option nat) :=
  qe_frameIndex <$> filter (fun e => deliver e = false) queue.

(** ** The loader's closure

    The variables of [loadWebCodecVideoAsset] its callbacks share: the
    asset identifier, the running [frameIndex], the [resolved] flag, the
    state of the promise it returned and, once [onReady] has run, the
    track's geometry and the [samples] array. *)

Inductive PromiseState :=
| Pending
| Resolved
| Rejected (reason : string).

Record Load := mkLoad {
  ld_assetId : string;
  ld_frameIndex : nat;
  ld_resolved : bool;
  ld_promise : PromiseState;
  ld_codedWidth : Z;
  ld_codedHeight : Z;
  ld_timescale : positive;
  ld_trackId : nat;
  ld_initialPrefillFrames : Z;
  ld_samples : list NSample
}.

Definition set_ld_frameIndex (v : nat) (ld : Load) : Load :=
  mkLoad (ld_assetId ld) v (ld_resolved ld) (ld_promise ld) (ld_codedWidth ld)
    (ld_codedHeight ld) (ld_timescale ld) (ld_trackId ld)
    (ld_initialPrefillFrames ld) (ld_samples ld).

(** ** The decoder output handler *)

(** A decoded frame: what the handler reads from it, and how its methods
    behave when called ([allocationSize]: the size, or [None] if it
    throws; [copyToOk]: whether [copyTo] resolves; [canvasDrawOk]: whether
    drawing the frame on a canvas and reading the pixels back works). *)
Record VideoFrame := mkVideoFrame {
  vf_timestamp : Z;
  displayWidth : Z;
  displayHeight : Z;
  codedWidth : Z;
  codedHeight : Z;
  visibleRect : option Rect;
  allocationSize : option N;
  copyToOk : bool;
  canvasDrawOk : bool
}.

(** [a || b] on numbers *)
Definition js_or (a b : Z) : Z := if a =? 0 then b else a.

(** [queue.indexOf(entry)] followed by [splice(idx, 1)]: the first
    occurrence of the very same object is taken out. *)
Fixpoint removeEntry (entry : QueueEntry) (queue : list QueueEntry)
  : list QueueEntry :=
  match queue with
  | [] => []
  | x :: rest =>
      if (qe_id x =? qe_id entry)%nat then rest
      else x :: removeEntry entry rest
  end.

(** Rule 1: a non-empty bucket for the output's timestamp. *)
Definition takeByTimestamp (asset : Asset) (ts : Z)
  : option (QueueEntry * Asset) :=
  let timestampMap := decodeQueueByTimestamp asset in
  match timestampMap !! ts with
  | Some (queueEntry :: rest) =>
      let timestampMap1 :=
        match rest with
        | [] => delete ts timestampMap
        | _ :: _ => <[ts := rest]> timestampMap
        end in
      Some (queueEntry,
            set_decodeQueue (removeEntry queueEntry (decodeQueue asset))
              (set_decodeQueueByTimestamp timestampMap1 asset))
  | _ => None
  end.

(** Rule 2: the head of the flat queue. *)
Definition takeQueueHead (asset : Asset) : option (QueueEntry * Asset) :=
  match decodeQueue asset with
  | [] => None
  | queueEntry :: rest =>
      let timestampMap := decodeQueueByTimestamp asset in
      let timestampMap1 :=
        match timestampMap !! timestamp queueEntry with
        | Some entries =>
            match removeEntry queueEntry entries with
            | [] => delete (timestamp queueEntry) timestampMap
            | remaining => <[timestamp queueEntry := remaining]> timestampMap
            end
        | None => timestampMap
        end in
      Some (queueEntry,
            set_decodeQueueByTimestamp timestampMap1
              (set_decodeQueue rest asset))
  end.

(** The queue entry an output with timestamp [ts] is attributed to, if
    any, and the asset without it. *)
Definition matchOutput (asset : Asset) (ts : Z) : option QueueEntry * Asset :=
  match takeByTimestamp asset ts with
  | Some (queueEntry, asset1) => (Some queueEntry, asset1)
  | None =>
      match takeQueueHead asset with
      | Some (queueEntry, asset1) => (Some queueEntry, asset1)
      | None => (None, asset)
      end
  end.

(** [ensureCanvasForAsset] *)
Definition ensureCanvasForAsset (pf : Platform) (asset : Asset)
    (width height : Z) : Asset :=
  match canvas asset with
  | None =>
      match pf with
      | HasOffscreenCanvas => set_canvas (Some (mkCanvas width height)) asset
      | HasDocument =>
          set_canvasCleanup true
            (set_canvas (Some (mkCanvas width height)) asset)
      | NoCanvas => asset
      end
  | Some c =>
      if negb (canvas_width c =? width) || negb (canvas_height c =? height)
      then set_canvas (Some (mkCanvas width height)) asset
      else asset
  end.

(** [try { copyFrameViaCanvas(...); wasmBuffer.set(...) } catch { ... }]:
    the asset afterwards, the events and whether the copy succeeded. *)
Definition canvasCopy (pf : Platform) (frame : VideoFrame) (asset : Asset)
    (rect : Rect) (width height : Z) : Asset * list Event * bool :=
  let asset1 := ensureCanvasForAsset pf asset width height in
  match canvas asset1 with
  | None =>
      (asset1, [EvCanvasCopy rect; EvError "Canvas fallback failed"], false)
  | Some _ =>
      if canvasDrawOk frame then (asset1, [EvCanvasCopy rect], true)
      else
        (asset1, [EvCanvasCopy rect; EvError "Canvas fallback failed"], false)
  end.

(** From [if (copySucceeded)] to the end of the handler, the calls into
    the engine and [_free] returning ([finishCopy_in] has the runs they
    leave by an exception). *)
Definition finishCopy (assetId : string) (addr : nat) (asset : Asset)
    (target : nat) (frameWidth frameHeight : Z) (requiredBytes : N)
    (copySucceeded : bool) (w : World) : World * list Event :=
  if copySucceeded then
    let asset1 :=
      set_frameBytes requiredBytes
        (set_height frameHeight (set_width frameWidth asset)) in
    let asset2 :=
      if isInitialPrefill asset1
      then set_currentPrefillIndex (currentPrefillIndex asset1 + 1) asset1
      else asset1 in
    (storeAsset addr asset2 w,
     EvOnPrefetchFrame assetId target (ptr asset1) frameWidth frameHeight ::
     (if surface (player w) && negb (playing (player w))
      then [EvRender] else []) ++
     [EvFrameClose])
  else
    match ptr asset with
    | Some p =>
        if ptr_truthy (ptr asset) then
          (storeAsset addr (set_frameBytes 0 (set_ptr None asset)) (free p w),
           [EvError "[VideoDecoder] Failed to copy decoded frame";
            EvFrameClose])
        else
          (storeAsset addr asset w,
           [EvError "[VideoDecoder] Failed to copy decoded frame";
            EvFrameClose])
    | None =>
        (storeAsset addr asset w,
         [EvError "[VideoDecoder] Failed to copy decoded frame";
          EvFrameClose])
    end.

(** A handler suspended at [await frame.copyTo(...)]: the asset object it
    holds on to and the locals it needs afterwards. *)
Record Suspended := mkSuspended {
  su_addr : nat;
  su_frame : VideoFrame;
  su_target : nat;
  su_rect : Rect;
  su_frameWidth : Z;
  su_frameHeight : Z;
  su_requiredBytes : N
}.

(** The visible rectangle of the frame clamped to the coded size, the
    size of the output and the bytes one row-major RGBA copy of it takes. *)
Record Geometry := mkGeometry {
  g_rect : Rect;
  g_frameWidth : Z;
  g_frameHeight : Z;
  g_strideBytes : N
}.

Definition frameGeometry (ld : Load) (frame : VideoFrame) : Geometry :=
  let defaultWidth :=
    js_or (displayWidth frame) (js_or (codedWidth frame) (ld_codedWidth ld)) in
  let defaultHeight :=
    js_or (displayHeight frame)
      (js_or (codedHeight frame) (ld_codedHeight ld)) in
  let vr :=
    match visibleRect frame with
    | Some r => r
    | None => mkRect 0 0 defaultWidth defaultHeight
    end in
  let frameWidth := Z.max 1 (rect_width vr) in
  let frameHeight := Z.max 1 (rect_height vr) in
  let stride := frameWidth * 4 in
  let codedW := js_or (codedWidth frame) defaultWidth in
  let codedH := js_or (codedHeight frame) defaultHeight in
  let rect :=
    mkRect (Z.min (Z.max (rect_x vr) 0) (Z.max 0 (codedW - frameWidth)))
           (Z.min (Z.max (rect_y vr) 0) (Z.max 0 (codedH - frameHeight)))
           frameWidth frameHeight in
  mkGeometry rect frameWidth frameHeight (Z.to_N (stride * frameHeight)).

(** [requiredBytes]: the stride-based size once [allocationSize] is known
    to throw, else what [allocationSize] says, switching to the
    stride-based size for good when it throws. *)
Definition sizeBuffer (frame : VideoFrame) (g : Geometry) (asset : Asset)
  : N * Asset * list Event :=
  if useStrideSize asset then (g_strideBytes g, asset, [])
  else
    match allocationSize frame with
    | Some n => (n, asset, [])
    | None =>
        (g_strideBytes g, set_useStrideSize true asset,
         [EvWarn "frame.allocationSize failed, switching to stride-based size."])
    end.

(** Release and re-allocate the shared buffer when it is missing or too
    small, the allocator handing out a block. *)
Definition ensureBuffer (requiredBytes : N) (asset : Asset) (w : World)
  : Asset * World :=
  if negb (ptr_truthy (ptr asset)) || (frameBytes asset <? requiredBytes)%N
  then
    let w0 :=
      match ptr asset with
      | Some p => if ptr_truthy (ptr asset) then free p w else w
      | None => w
      end in
    let '(p, w1) := malloc requiredBytes w0 in
    (set_frameBytes requiredBytes (set_ptr (Some p) asset), w1)
  else (asset, w).

(** The handler from the warm-up test up to the copy: either it runs to
    its end (canvas method cached) or it suspends at [await copyTo]. *)
Definition deliverFrame (ld : Load) (addr : nat) (asset : Asset)
    (target : nat) (frame : VideoFrame) (w : World)
  : World * list Event * option Suspended :=
  if isInitialPrefill asset
     && (initialPrefillFrames asset <=? currentPrefillIndex asset)
  then (storeAsset addr asset w, [EvFrameClose], None)
  else
    let g := frameGeometry ld frame in
    let '(requiredBytes, asset1, sizeEvents) := sizeBuffer frame g asset in
    let '(asset2, w1) := ensureBuffer requiredBytes asset1 w in
    match copyMethod asset2 with
    | Some Canvas =>
        let '(asset3, copyEvents, copySucceeded) :=
          canvasCopy (platform w1) frame asset2 (g_rect g) (g_frameWidth g)
            (g_frameHeight g) in
        let '(w2, endEvents) :=
          finishCopy (ld_assetId ld) addr asset3 target (g_frameWidth g)
            (g_frameHeight g) requiredBytes copySucceeded w1 in
        (w2, sizeEvents ++ copyEvents ++ endEvents, None)
    | _ =>
        (storeAsset addr asset2 w1, sizeEvents ++ [EvCopyTo (g_rect g)],
         Some (mkSuspended addr frame target (g_rect g) (g_frameWidth g)
                 (g_frameHeight g) requiredBytes))
    end.

(** The handler from its entry to its end or to the [await]. *)
Definition decoderOutput_begin (ld : Load) (frame : VideoFrame) (w : World)
  : Load * World * list Event * option Suspended :=
  match lookupAsset w (ld_assetId ld) with
  | None => (ld, w, [EvFrameClose], None)
  | Some (addr, asset) =>
      match matchOutput asset (vf_timestamp frame) with
      | (Some queueEntry, asset1) =>
          let targetFrameIndex :=
            match qe_frameIndex queueEntry with
            | Some f => f
            | None => sampleIndex queueEntry
            end in
          let ld1 :=
            set_ld_frameIndex
              (Nat.max (ld_frameIndex ld) (targetFrameIndex + 1)) ld in
          if negb (deliver queueEntry)
          then (ld1, storeAsset addr asset1 w, [EvFrameClose], None)
          else
            let '(w1, events, suspended) :=
              deliverFrame ld1 addr asset1 targetFrameIndex frame w in
            (ld1, w1, events, suspended)
      | (None, asset1) =>
          let targetFrameIndex := ld_frameIndex ld in
          let ld1 := set_ld_frameIndex (S (ld_frameIndex ld)) ld in
          let '(w1, events, suspended) :=
            deliverFrame ld1 addr asset1 targetFrameIndex frame w in
          (ld1, w1,
           EvWarn "[VideoDecoder] decoded frame with no queue metadata"
           :: events, suspended)
      end
  end.

(** The handler after [await frame.copyTo(...)] has settled, run on the
    state the asset object is in by then. *)
Definition decoderOutput_resume (ld : Load) (k : Suspended) (w : World)
  : World * list Event :=
  match objects w !! su_addr k with
  | None => (w, [EvFrameClose])
  | Some asset =>
      if copyToOk (su_frame k) then
        let '(asset1, events) :=
          match copyMethod asset with
          | None =>
              (set_copyMethod (Some Direct) asset,
               [EvLog "[VideoDecoder] Using direct copyTo method"])
          | Some _ => (asset, [])
          end in
        let '(w1, endEvents) :=
          finishCopy (ld_assetId ld) (su_addr k) asset1 (su_target k)
            (su_frameWidth k) (su_frameHeight k) (su_requiredBytes k) true w in
        (w1, events ++ endEvents)
      else
        let '(asset1, events) :=
          match copyMethod asset with
          | None =>
              (set_copyMethod (Some Canvas) asset,
               [EvWarn "VideoFrame.copyTo failed, switching to canvas fallback."])
          | Some _ => (asset, [])
          end in
        let '(asset2, copyEvents, copySucceeded) :=
          canvasCopy (platform w) (su_frame k) asset1 (su_rect k)
            (su_frameWidth k) (su_frameHeight k) in
        let '(w1, endEvents) :=
          finishCopy (ld_assetId ld) (su_addr k) asset2 (su_target k)
            (su_frameWidth k) (su_frameHeight k) (su_requiredBytes k)
            copySucceeded w in
        (w1, events ++ copyEvents ++ endEvents)
  end.

(** The whole handler when nothing else runs while it awaits [copyTo]. *)
Definition decoderOutput (ld : Load) (frame : VideoFrame) (w : World)
  : Load * World * list Event :=
  match decoderOutput_begin ld frame w with
  | (ld1, w1, events, None) => (ld1, w1, events)
  | (ld1, w1, events, Some k) =>
      let '(w2, rest) := decoderOutput_resume ld1 k w1 in
      (ld1, w2, events ++ rest)
  end.

(** How often the frame was closed, and how often the canvas fallback
    was entered. *)
Definition is_close (ev : Event) : bool :=
  match ev with EvFrameClose => true | _ => false end.

Definition is_canvasCopy (ev : Event) : bool :=
  match ev with EvCanvasCopy _ => true | _ => false end.

Definition closes (trace : list Event) : nat :=
  length (filter (fun ev => is_close ev = true) trace).

Definition canvasCopies (trace : list Event) : nat :=
  length (filter (fun ev => is_canvasCopy ev = true) trace).

(** ** The decoder output handler and the calls it does not guard

    Between the [try] around [allocationSize] and [frame.close()] the
    handler calls [_free] and [_malloc], makes a [Uint8Array] view of the
    block, and calls [player.app.onPrefetchFrame] and [player.app.render],
    none of them inside a [try].  [Native] says what these calls do
    during one run of the handler; [decoderOutput] above is the handler
    when the allocator hands out a block and every call returns.
    ([HEAPU8.fill] and the console never throw.) *)

Inductive Allocation :=
| Allocates          (* a fresh block *)
| ReturnsNull        (* no block: the null pointer *)
| Aborts.            (* an exception *)

Record Native := mkNative {
  nv_free : bool;                (* [player.Module._free(ptr)] returns *)
  nv_malloc : Allocation;        (* [player.Module._malloc(requiredBytes)] *)
  nv_view : bool;                (* [new Uint8Array(...)] returns *)
  nv_onPrefetchFrame : bool;     (* [player.app.onPrefetchFrame(...)] returns *)
  nv_render : bool               (* [player.app.render(...)] returns *)
}.

(** The allocator hands out a block and every call returns. *)
Definition quiet (nv : Native) : bool :=
  match nv_malloc nv with
  | Allocates =>
      nv_free nv && nv_view nv && nv_onPrefetchFrame nv && nv_render nv
  | _ => false
  end.

(** No call throws (the allocator may return the null pointer). *)
Definition returning (nv : Native) : bool :=
  match nv_malloc nv with
  | Aborts => false
  | _ => nv_free nv && nv_view nv && nv_onPrefetchFrame nv && nv_render nv
  end.

(** How a run of the handler, or of a part of it, ends. *)
Inductive Exit :=
| Returned
| Awaiting (k : Suspended)   (* suspended at [await frame.copyTo(...)] *)
| Thrown.                    (* left by an exception *)

Definition exitOf (suspended : option Suspended) : Exit :=
  match suspended with
  | None => Returned
  | Some k => Awaiting k
  end.

(** From [if (copySucceeded)] to the end of the handler.  The fields of
    the asset are written before [onPrefetchFrame] is called; an
    exception from it or from [render] leaves the handler before
    [frame.close()] and before the warm-up index is moved on, and so does
    an exception from [_free] after a failed copy, before the pointer is
    reset. *)
Definition finishCopy_in (nv : Native) (assetId : string) (addr : nat)
    (asset : Asset) (target : nat) (frameWidth frameHeight : Z)
    (requiredBytes : N) (copySucceeded : bool) (w : World)
  : World * list Event * Exit :=
  if copySucceeded then
    let asset1 :=
      set_frameBytes requiredBytes
        (set_height frameHeight (set_width frameWidth asset)) in
    let call :=
      EvOnPrefetchFrame assetId target (ptr asset1) frameWidth frameHeight in
    if negb (nv_onPrefetchFrame nv)
    then (storeAsset addr asset1 w, [call], Thrown)
    else if surface (player w) && negb (playing (player w))
            && negb (nv_render nv)
    then (storeAsset addr asset1 w, [call; EvRender], Thrown)
    else
      (finishCopy assetId addr asset target frameWidth frameHeight
         requiredBytes true w, Returned)
  else if ptr_truthy (ptr asset) && negb (nv_free nv)
  then
    (storeAsset addr asset w,
     [EvError "[VideoDecoder] Failed to copy decoded frame"], Thrown)
  else
    (finishCopy assetId addr asset target frameWidth frameHeight
       requiredBytes false w, Returned).

(** Release and re-allocate the shared buffer when it is missing or too
    small: the result of [_malloc] is stored untested, and an exception
    from it leaves the asset pointing at the block just released. *)
Definition ensureBuffer_in (nv : Native) (requiredBytes : N) (asset : Asset)
    (w : World) : Asset * World * Exit :=
  if negb (ptr_truthy (ptr asset)) || (frameBytes asset <? requiredBytes)%N
  then
    if ptr_truthy (ptr asset) && negb (nv_free nv) then (asset, w, Thrown)
    else
    let w0 :=
      match ptr asset with
      | Some p => if ptr_truthy (ptr asset) then free p w else w
      | None => w
      end in
    match nv_malloc nv with
    | Allocates =>
        let '(p, w1) := malloc requiredBytes w0 in
        (set_frameBytes requiredBytes (set_ptr (Some p) asset), w1, Returned)
    | ReturnsNull =>
        (set_frameBytes requiredBytes (set_ptr (Some 0%N) asset), w0,
         Returned)
    | Aborts => (asset, w0, Thrown)
    end
  else (asset, w, Returned).

(** The handler from the warm-up test up to the copy. *)
Definition deliverFrame_in (nv : Native) (ld : Load) (addr : nat)
    (asset : Asset) (target : nat) (frame : VideoFrame) (w : World)
  : World * list Event * Exit :=
  if isInitialPrefill asset
     && (initialPrefillFrames asset <=? currentPrefillIndex asset)
  then (storeAsset addr asset w, [EvFrameClose], Returned)
  else
    let g := frameGeometry ld frame in
    let '(requiredBytes, asset1, sizeEvents) := sizeBuffer frame g asset in
    match ensureBuffer_in nv requiredBytes asset1 w with
    | (asset2, w1, Thrown) => (storeAsset addr asset2 w1, sizeEvents, Thrown)
    | (asset2, w1, _) =>
        if negb (nv_view nv)
        then (storeAsset addr asset2 w1, sizeEvents, Thrown)
        else
          match copyMethod asset2 with
          | Some Canvas =>
              let '(asset3, copyEvents, copySucceeded) :=
                canvasCopy (platform w1) frame asset2 (g_rect g)
                  (g_frameWidth g) (g_frameHeight g) in
              let '(w2, endEvents, exit) :=
                finishCopy_in nv (ld_assetId ld) addr asset3 target
                  (g_frameWidth g) (g_frameHeight g) requiredBytes
                  copySucceeded w1 in
              (w2, sizeEvents ++ copyEvents ++ endEvents, exit)
          | _ =>
              (storeAsset addr asset2 w1, sizeEvents ++ [EvCopyTo (g_rect g)],
               Awaiting
                 (mkSuspended addr frame target (g_rect g) (g_frameWidth g)
                    (g_frameHeight g) requiredBytes))
          end
    end.

(** The handler from its entry to its end, to the [await] or to the
    exception that leaves it. *)
Definition decoderOutput_begin_in (nv : Native) (ld : Load)
    (frame : VideoFrame) (w : World) : Load * World * list Event * Exit :=
  match lookupAsset w (ld_assetId ld) with
  | None => (ld, w, [EvFrameClose], Returned)
  | Some (addr, asset) =>
      match matchOutput asset (vf_timestamp frame) with
      | (Some queueEntry, asset1) =>
          let targetFrameIndex :=
            match qe_frameIndex queueEntry with
            | Some f => f
            | None => sampleIndex queueEntry
            end in
          let ld1 :=
            set_ld_frameIndex
              (Nat.max (ld_frameIndex ld) (targetFrameIndex + 1)) ld in
          if negb (deliver queueEntry)
          then (ld1, storeAsset addr asset1 w, [EvFrameClose], Returned)
          else
            let '(w1, events, exit) :=
              deliverFrame_in nv ld1 addr asset1 targetFrameIndex frame w in
            (ld1, w1, events, exit)
      | (None, asset1) =>
          let targetFrameIndex := ld_frameIndex ld in
          let ld1 := set_ld_frameIndex (S (ld_frameIndex ld)) ld in
          let '(w1, events, exit) :=
            deliverFrame_in nv ld1 addr asset1 targetFrameIndex frame w in
          (ld1, w1,
           EvWarn "[VideoDecoder] decoded frame with no queue metadata"
           :: events, exit)
      end
  end.

(** The handler after [await frame.copyTo(...)] has settled. *)
Definition decoderOutput_resume_in (nv : Native) (ld : Load) (k : Suspended)
    (w : World) : World * list Event * Exit :=
  match objects w !! su_addr k with
  | None => (w, [EvFrameClose], Returned)
  | Some asset =>
      if copyToOk (su_frame k) then
        let '(asset1, events) :=
          match copyMethod asset with
          | None =>
              (set_copyMethod (Some Direct) asset,
               [EvLog "[VideoDecoder] Using direct copyTo method"])
          | Some _ => (asset, [])
          end in
        let '(w1, endEvents, exit) :=
          finishCopy_in nv (ld_assetId ld) (su_addr k) asset1 (su_target k)
            (su_frameWidth k) (su_frameHeight k) (su_requiredBytes k) true w in
        (w1, events ++ endEvents, exit)
      else
        let '(asset1, events) :=
          match copyMethod asset with
          | None =>
              (set_copyMethod (Some Canvas) asset,
               [EvWarn "VideoFrame.copyTo failed, switching to canvas fallback."])
          | Some _ => (asset, [])
          end in
        let '(asset2, copyEvents, copySucceeded) :=
          canvasCopy (platform w) (su_frame k) asset1 (su_rect k)
            (su_frameWidth k) (su_frameHeight k) in
        let '(w1, endEvents, exit) :=
          finishCopy_in nv (ld_assetId ld) (su_addr k) asset2 (su_target k)
            (su_frameWidth k) (su_frameHeight k) (su_requiredBytes k)
            copySucceeded w in
        (w1, events ++ copyEvents ++ endEvents, exit)
  end.

(** The whole handler when nothing else runs while it awaits [copyTo]. *)
Definition decoderOutput_in (nv : Native) (ld : Load) (frame : VideoFrame)
    (w : World) : Load * World * list Event * Exit :=
  match decoderOutput_begin_in nv ld frame w with
  | (ld1, w1, events, Awaiting k) =>
      let '(w2, rest, exit) := decoderOutput_resume_in nv ld1 k w1 in
      (ld1, w2, events ++ rest, exit)
  | result => result
  end.

(** ** Loading: the callbacks of [loadWebCodecVideoAsset] *)

(** [videoTrack.avg_frame_rate] as the demuxer may report it. *)
Inductive FrameRate :=
| RateAbsent
| RateRatio (num : Z) (den : positive)   (* the string "num/den" *)
| RateNumber (q : Q)
| RateOther.

(** A track of [info.tracks], with the outcome of handing its
    configuration to [decoder.configure] ([None]: accepted, [Some msg]: a
    [TypeError] thrown on the spot). *)
Record Track := mkTrack {
  tr_video : bool;
  tr_id : nat;
  tr_width : Z;
  tr_height : Z;
  tr_avg_frame_rate : FrameRate;
  tr_timescale : positive;
  tr_nb_samples : Z;
  tr_duration : Z;
  tr_configureThrows : option string
}.

Definition set_ld_promise (v : PromiseState) (ld : Load) : Load :=
  mkLoad (ld_assetId ld) (ld_frameIndex ld) (ld_resolved ld) v
    (ld_codedWidth ld) (ld_codedHeight ld) (ld_timescale ld) (ld_trackId ld)
    (ld_initialPrefillFrames ld) (ld_samples ld).

Definition set_ld_resolved (v : bool) (ld : Load) : Load :=
  mkLoad (ld_assetId ld) (ld_frameIndex ld) v (ld_promise ld)
    (ld_codedWidth ld) (ld_codedHeight ld) (ld_timescale ld) (ld_trackId ld)
    (ld_initialPrefillFrames ld) (ld_samples ld).

Definition set_ld_samples (v : list NSample) (ld : Load) : Load :=
  mkLoad (ld_assetId ld) (ld_frameIndex ld) (ld_resolved ld) (ld_promise ld)
    (ld_codedWidth ld) (ld_codedHeight ld) (ld_timescale ld) (ld_trackId ld)
    (ld_initialPrefillFrames ld) v.

(** The closure a call of the loader for [assetId] starts with. *)
Definition startLoad (assetId : string) : Load :=
  mkLoad assetId 0 false Pending 0 0 1 0 0 [].

(** [reject(reason)]: settles the promise if it is still pending. *)
Definition reject (reason : string) (ld : Load) : Load * list Event :=
  match ld_promise ld with
  | Pending => (set_ld_promise (Rejected reason) ld, [EvReject reason])
  | _ => (ld, [])
  end.

(** [resolve()] behind the [resolved] flag. *)
Definition resolveOnce (ld : Load) : Load * list Event :=
  if ld_resolved ld then (ld, [])
  else
    match ld_promise ld with
    | Pending =>
        (set_ld_resolved true (set_ld_promise Resolved ld), [EvResolve])
    | _ => (set_ld_resolved true ld, [])
    end.

Definition parseFps (rate : FrameRate) : Q :=
  match rate with
  | RateRatio num den => valueOf (js_div (Number num) (Number (Z.pos den)))
  | RateNumber q => if Qeq_bool q 0 then 30 else q
  | RateAbsent | RateOther => 30
  end.

(** [mp4boxFile.onReady], the allocator handing out a block.  The frame
    count is a binary64 product; the quotient for [maxFrames] divides
    [96 * 1024 * 1024] by an integer, and the floor of its binary64 value
    is the integer quotient (a quotient of integers below [2^53] that is
    not an integer lies further from the next one than rounding moves
    it); division by 0 is [Infinity], of which [Math.min] takes 10. *)
Definition onReady (tracks : list Track) (ld : Load) (w : World)
  : Load * World * list Event :=
  match List.find tr_video tracks with
  | None =>
      let '(ld1, events) := reject "No video track found." ld in
      (ld1, w, events)
  | Some videoTrack =>
      let codedWidth := tr_width videoTrack in
      let codedHeight := tr_height videoTrack in
      let fps := parseFps (tr_avg_frame_rate videoTrack) in
      let timescale := tr_timescale videoTrack in
      let totalFrames :=
        js_or (tr_nb_samples videoTrack)
          (js_floor (js_mul (js_div (Number (tr_duration videoTrack))
                                (Number (Z.pos timescale)))
                        (NumberQ fps))) in
      let frameBytes := codedWidth * codedHeight * 4 in
      let initialPrefillFrames :=
        if frameBytes =? 0 then 10
        else Z.min 10 (96 * 1024 * 1024 / frameBytes) in
      let '(p, w1) := malloc (Z.to_N frameBytes) w in
      let decoder := fresh (dom (decoders w1)) in
      let w2 := set_decoders (<[decoder := Unconfigured]> (decoders w1)) w1 in
      match tr_configureThrows videoTrack with
      | Some msg =>
          (* the exception leaves [onReady] and the promise executor *)
          let '(ld1, events) := reject msg ld in
          (ld1, w2, events)
      | None =>
          let w3 := set_decoders (<[decoder := Configured]> (decoders w2)) w2 in
          let addr := fresh (dom (objects w3)) in
          let asset :=
            newAsset p decoder codedWidth codedHeight timescale fps
              totalFrames initialPrefillFrames (Z.to_N frameBytes) in
          let registry :=
            match videoAssets w3 with
            | Some registry => registry
            | None => ∅
            end in
          let w4 :=
            set_videoAssets (Some (<[ld_assetId ld := addr]> registry))
              (storeAsset addr asset w3) in
          (mkLoad (ld_assetId ld) (ld_frameIndex ld) (ld_resolved ld)
             (ld_promise ld) codedWidth codedHeight timescale
             (tr_id videoTrack) initialPrefillFrames [],
           w4,
           [EvCreateWebAsset (ld_assetId ld);
            EvSetVideoAssetInfo (ld_assetId ld) totalFrames fps
              initialPrefillFrames])
      end
  end.

(** [mp4boxFile.onError] *)
Definition onError (e : string) (ld : Load) (w : World)
  : Load * World * list Event :=
  let '(ld1, events) := reject ("MP4Box error: " ++ e) ld in
  (ld1, w, events).

(** The [error] callback of the decoder. *)
Definition decoderError (e : string) (ld : Load) (w : World)
  : Load * World * list Event :=
  let '(ld1, events) := reject ("VideoDecoder error: " ++ e) ld in
  (ld1, w, events).

(** [mp4boxFile.onSamples] *)
Definition onSamples (id : nat) (sampleList : list Sample) (ld : Load)
    (w : World) : Load * World * list Event :=
  match lookupAsset w (ld_assetId ld) with
  | None => (ld, w, [])
  | Some (addr, asset) =>
      if negb (id =? ld_trackId ld)%nat then (ld, w, [])
      else
        let arrived :=
          appendSamples (ld_timescale ld) (fps asset) (ld_samples ld)
            sampleList in
        let asset1 :=
          updatePresentationTimeline (set_samples (Some arrived) asset) in
        let ld1 :=
          set_ld_samples
            (match samples asset1 with Some ss => ss | None => arrived end)
            ld in
        let w1 := storeAsset addr asset1 w in
        let '(w2, events2) :=
          match pendingPrefetch asset1 with
          | Some (pstart, pcount) =>
              if hasFramesForRange asset1 pstart pcount then
                feedBatch (ld_assetId ld) pstart pcount
                  (storeAsset addr (set_pendingPrefetch None asset1) w1)
              else (w1, [])
          | None => (w1, [])
          end in
        match objects w2 !! addr with
        | Some asset2 =>
            if negb (prefillRequested asset2)
               && hasFramesForRange asset2 0
                    (JInt (ld_initialPrefillFrames ld))
            then
              let w3 := storeAsset addr (set_prefillRequested true asset2) w2 in
              let '(w4, events4) :=
                feedBatch (ld_assetId ld) 0
                  (JInt (ld_initialPrefillFrames ld)) w3 in
              let '(ld2, events5) := resolveOnce ld1 in
              (ld2, w4, events2 ++ events4 ++ events5)
            else (ld1, w2, events2)
        | None => (ld1, w2, events2)
        end
  end.

(** ** Disposal *)

(** [decoder.close()]: throws on a decoder that is already closed, or
    when there is no decoder. *)
Definition closeDecoder (d : nat) (w : World) : option World :=
  match decoders w !! d with
  | Some Closed | None => None
  | Some _ => Some (set_decoders (<[d := Closed]> (decoders w)) w)
  end.

Definition set_videoReady (v : bool) (p : Player) : Player :=
  mkPlayer (videoAssetId p) v (surface p) (playing p).

(** [disposeVideoAsset] of the demo page's player. *)
Definition disposeVideoAsset (w : World) : World * list Event :=
  match videoAssets w with
  | None => (w, [])
  | Some assets =>
      match lookupAsset w (videoAssetId (player w)) with
      | None => (w, [])
      | Some (addr, asset) =>
          let '(w1, closeEvents) :=
            if bool_decide (decoders w !! decoder asset = Some Closed)
            then (w, [])
            else
              match closeDecoder (decoder asset) w with
              | Some w' => (w', [EvDecoderClose (decoder asset)])
              | None => (w, [EvWarn "Failed to close previous decoder:"])
              end in
          let '(asset1, w2) :=
            match ptr asset with
            | Some p =>
                if ptr_truthy (ptr asset)
                then (set_frameBytes 0 (set_ptr None asset), free p w1)
                else (asset, w1)
            | None => (asset, w1)
            end in
          let cleanupEvents :=
            if canvasCleanup asset1 then [EvCanvasCleanup] else [] in
          let asset2 :=
            set_decodeQueue []
              (set_prefillRequested false
                 (set_pendingPrefetch None
                    (set_canvasCleanup false (set_canvas None asset1)))) in
          let w3 := storeAsset addr asset2 w2 in
          let w4 :=
            set_videoAssets (Some (delete (videoAssetId (player w)) assets)) w3 in
          (set_player (set_videoReady false (player w4)) w4,
           closeEvents ++ cleanupEvents)
      end
  end.

(** ** Everything that can happen to the world

    The event loop runs one callback at a time; each action below is one
    such callback, run on the loader's closure and the world.  A decoder
    output that reaches the direct copy is split in two actions: the part
    up to [await frame.copyTo], and the part after it, which may run after
    any number of other actions. *)

Inductive Action :=
| ActPrepare                       (* [prepareVideo]: dispose, start a load *)
| ActReady (tracks : list Track)
| ActParseError (e : string)
| ActDecoderError (e : string)
| ActSamples (id : nat) (sampleList : list Sample)
| ActOutput (frame : VideoFrame)
| ActCopySettled (k : Suspended)
| ActPrefetch (assetId : string) (start : Z) (count : jsnum)
| ActTimer (callback : TimerCallback)
| ActDispose.

Definition run (action : Action) (ld : Load) (w : World)
  : Load * World * list Event :=
  match action with
  | ActPrepare =>
      let '(w1, events) := disposeVideoAsset w in
      (startLoad (videoAssetId (player w)), w1, events)
  | ActReady tracks => onReady tracks ld w
  | ActParseError e => onError e ld w
  | ActDecoderError e => decoderError e ld w
  | ActSamples id sampleList => onSamples id sampleList ld w
  | ActOutput frame => (decoderOutput_begin ld frame w).1
  | ActCopySettled k =>
      let '(w1, events) := decoderOutput_resume ld k w in (ld, w1, events)
  | ActPrefetch assetId start count =>
      let '(w1, events) := prefetchFrames assetId start count w in
      (ld, w1, events)
  | ActTimer callback =>
      let '(w1, events) := fireTimer callback w in (ld, w1, events)
  | ActDispose =>
      let '(w1, events) := disposeVideoAsset w in (ld, w1, events)
  end.

Fixpoint runAll (actions : list Action) (ld : Load) (w : World)
  : Load * World * list Event :=
  match actions with
  | [] => (ld, w, [])
  | action :: rest =>
      let '(ld1, w1, events) := run action ld w in
      let '(ld2, w2, events') := runAll rest ld1 w1 in
      (ld2, w2, events ++ events')
  end.

(** ** Streams and worlds used in the scenarios *)

(** A sample with composition time [c] (in units of the timescale). *)
Definition sampleAt (c : Z) (sync : bool) : Sample :=
  mkSample (Some c) (Some c) sync (Some 1000) [].

(** [n] samples in presentation order, 1000 ticks apart, with a keyframe
    every [period] samples ([period = 0]: no keyframe at all). *)
Definition regularStream (n period : nat) : list Sample :=
  (fun i => sampleAt (Z.of_nat i * 1000)
              (if (period =? 0)%nat then false else (i mod period =? 0)%nat))
  <$> seq 0 n.

Definition demoPlayer : Player := mkPlayer "asset#2" true true false.

(** The asset the loader has registered and [onSamples] has filled from
    [sampleList]: 30 frames per second, a timescale of 30000. *)
Definition loadedAsset (sampleList : list Sample) : Asset :=
  let fresh := newAsset 1 0 64 64 30000 30 (Z.of_nat (length sampleList)) 10
                 16384 in
  updatePresentationTimeline
    (set_samples (Some (appendSamples 30000 30 [] sampleList)) fresh).

(** A world holding just that asset, at address 0, its decoder configured
    and nothing in flight. *)
Definition loadedWorld (sampleList : list Sample) : World :=
  mkWorld (Some {[ "asset#2" := 0%nat ]})
          {[ 0%nat := loadedAsset sampleList ]}
          {[ 0%nat := Configured ]}
          {[ 1%N := 16384%N ]} 16385 0 demoPlayer HasOffscreenCanvas.

(** The same world while a fetch of frames [fetchStart..fetchEnd] is in
    flight. *)
Definition fetchingWorld (sampleList : list Sample) (fetchStart fetchEnd : Z)
  : World :=
  storeAsset 0
    (set_currentFetchRange (Some (fetchStart, fetchEnd))
       (loadedAsset sampleList))
    (loadedWorld sampleList).


(** The world right after the loader has registered the asset: no sample
    has arrived yet and the timeline is empty. *)
Definition registeredWorld : World :=
  mkWorld (Some {[ "asset#2" := 0%nat ]})
          {[ 0%nat := newAsset 1 0 64 64 30000 30 300 10 16384 ]}
          {[ 0%nat := Configured ]}
          {[ 1%N := 16384%N ]} 16385 0 demoPlayer HasOffscreenCanvas.

(** A page on which no video has been prepared yet. *)
Definition blankWorld : World :=
  mkWorld None ∅ ∅ ∅ 1 0 demoPlayer HasOffscreenCanvas.

(** A 64x64 video track of 40 samples at 30 frames per second whose
    configuration the decoder accepts. *)
Definition demoTrack : Track :=
  mkTrack true 1 64 64 (RateRatio 30 1) 30000 40 40000 None.

Definition audioTrack : Track :=
  mkTrack false 2 0 0 RateAbsent 44100 0 0 None.

(** A decoded 64x64 frame with timestamp [ts]; [direct] says whether its
    [copyTo] works. *)
Definition demoFrame (ts : Z) (direct : bool) : VideoFrame :=
  mkVideoFrame ts 64 64 64 64 None (Some 16384%N) direct true.

(** Four samples of which the second and third share their composition
    time, so that two queue entries share the timestamp 33333. *)
Definition twinStream : list Sample :=
  [sampleAt 0 true; sampleAt 1000 false; sampleAt 1000 false;
   sampleAt 2000 false].

(** The world after all four samples of [twinStream] have been requested
    and submitted. *)
Definition twinWorld : World :=
  (feedBatch "asset#2" 0 (JInt 4) (loadedWorld twinStream)).1.

(** The asset of [twinWorld]. *)
Definition twinAsset : Asset :=
  match objects twinWorld !! 0%nat with
  | Some asset => asset
  | None => loadedAsset twinStream
  end.

(** Four samples stored in decode order 0, 3, 1, 2 of their presentation
    times, as a stream with reordered (bidirectionally predicted) frames
    has them. *)
Definition reorderedStream : list Sample :=
  [sampleAt 0 true; sampleAt 3000 false; sampleAt 1000 false;
   sampleAt 2000 false].

(** The world in which frame 0 of a three-sample stream has been
    requested and its sample handed to the decoder. *)
Definition requestedWorld : World :=
  (feedBatch "asset#2" 0 (JInt 1) (loadedWorld (regularStream 3 1))).1.

(** A run of the output handler during which the allocator has a block to
    hand out and [player.app.onPrefetchFrame] throws. *)
Definition throwingEngine : Native := mkNative true Allocates true false true.


(** ** The decoder configuration record

    [buildAVCCDescription] assembles the AVC decoder configuration record
    from the [avcC] box of the track when the demuxer did not provide
    one.  A [Uint8Array] is a list of integers; storing a number into one
    keeps its residue modulo 256. *)

(** A parameter set of the box; [nalu] is its [data], if it has any. *)
Record ParameterSet := mkParameterSet {
  nalu : option (list Z)
}.

(** The [avcC] box: [SPS] and [PPS] are absent or arrays, [ext] is the
    trailing extension when it is a [Uint8Array]. *)
Record AvcC := mkAvcC {
  AVCProfileIndication : Z;
  profile_compatibility : Z;
  AVCLevelIndication : Z;
  SPS : option (list ParameterSet);
  PPS : option (list ParameterSet);
  ext : option (list Z)
}.

(** The conversion applied when a number is stored into a [Uint8Array]. *)
Definition u8 (x : Z) : Z := x mod 256.

(** The array under construction and the running [offset]. *)
Definition Writer : Type := list Z * nat.

(** [avcc[offset++] = v] *)
Definition put (v : Z) (st : Writer) : Writer :=
  (<[st.2 := u8 v]> st.1, S st.2).

(** [avcc.set(bytes, offset); offset += bytes.length] *)
Definition setAt (bytes : list Z) (st : Writer) : Writer :=
  (list_inserts st.2 bytes st.1, (st.2 + length bytes)%nat).

(** [arr[0]?.data] *)
Definition firstData (sets : list ParameterSet) : option (list Z) :=
  match sets !! 0%nat with
  | Some set => nalu set
  | None => None
  end.

Definition buildAVCCDescription (avcC : option AvcC) : option (list Z) :=
  match avcC with
  | None => None
  | Some box =>
      match SPS box, PPS box with
      | Some spsList, Some ppsList =>
          match firstData spsList, firstData ppsList with
          | Some sps, Some pps =>
              let extLength :=
                match ext box with Some e => length e | None => 0%nat end in
              let len := (11 + length sps + length pps + extLength)%nat in
              let spsLength := Z.of_nat (length sps) in
              let ppsLength := Z.of_nat (length pps) in
              let st := (replicate len 0, 0%nat) in
              let st := put 1 st in
              let st := put (AVCProfileIndication box) st in
              let st := put (js_or (profile_compatibility box) 0) st in
              let st := put (AVCLevelIndication box) st in
              let st := put 255 st in
              let st := put 225 st in
              let st := put (Z.land (Z.shiftr spsLength 8) 255) st in
              let st := put (Z.land spsLength 255) st in
              let st := setAt sps st in
              let st := put 1 st in
              let st := put (Z.land (Z.shiftr ppsLength 8) 255) st in
              let st := put (Z.land ppsLength 255) st in
              let st := setAt pps st in
              let st :=
                match ext box with
                | Some e => setAt e st
                | None => st
                end in
              Some st.1
          | _, _ => None
          end
      | _, _ => None
      end
  end.

(** The writer once the bytes [pre] are in place, [m] zero bytes still
    to be written. *)
Definition ready (pre : list Z) (m : nat) : Writer :=
  (pre ++ replicate m 0, length pre).

(** ** Stepping through frames on the demo page *)

(** The frame [stepFrame(direction)] hands to [setFrame], or [None] when
    it returns early because no video is ready; [current], [start] and
    [endFrame] are the engine's current, first and last frame. *)
Definition stepFrame (ready : bool) (current start endFrame direction : Z)
  : option Z :=
  if negb ready then None
  else
    let target := current + direction in
    let target := if target <? start then start else target in
    let target := if endFrame <? target then endFrame else target in
    Some target.

(** An 8192x4096 video track: one RGBA frame takes 128 MB. *)
Definition wideTrack : Track :=
  mkTrack true 1 8192 4096 (RateRatio 30 1) 30000 40 40000 None.

(** The frames a decoder emits for the samples of [asset], in decode
    order, each copied directly. *)
Definition framesOf (asset : Asset) : list VideoFrame :=
  match samples asset with
  | Some ss => (fun sample => demoFrame (timestampMicros sample) true) <$> ss
  | None => []
  end.

(** An [avcC] box of a Baseline-profile stream with one SPS of four
    bytes, one PPS of two and no extension. *)
Definition demoAvcC : AvcC :=
  mkAvcC 66 192 30
    (Some [mkParameterSet (Some [103; 66; 192; 30])])
    (Some [mkParameterSet (Some [104; 206])])
    None.

(** A decoded 64x64 frame that can be copied neither directly nor
    through a canvas. *)
Definition brokenFrame (ts : Z) : VideoFrame :=
  mkVideoFrame ts 64 64 64 64 None (Some 16384%N) false false.

(** A decoded 128x128 frame, four times the size of the buffer the
    loader allocated for the 64x64 track. *)
Definition largeFrame (ts : Z) : VideoFrame :=
  mkVideoFrame ts 128 128 128 128 None (Some 65536%N) true true.

(** Runs of the output handler during which every call returns: the
    allocator hands out a block, or has none left and returns the null
    pointer. *)
Definition calm : Native := mkNative true Allocates true true true.

Definition exhausted : Native := mkNative true ReturnsNull true true true.

(** ** Statements of the specification *)

(** The number of samples the asset holds. *)
Definition sampleCount (asset : Asset) : nat :=
  match samples asset with Some ss => length ss | None => 0%nat end.

(** The claim of the specification about the scan: the index it settles
    on is at or before [minDecodeIndex] and holds a keyframe or is the
    first sample of the stream. *)
Definition keyframe_or_first (ss : list NSample) (minDecodeIndex : nat) : Prop :=
  let k := findKeyframe ss minDecodeIndex in
  (k ≤ minDecodeIndex)%nat ∧ (sync_at ss k = true ∨ k = 0%nat).

(** What [feedBatch] promises about an entry it pushes, [dtf] being the
    decode-to-frame table and [wanted] the frames to deliver. *)
Definition entry_tagged (dtf : list (option nat)) (wanted : list Z)
    (e : QueueEntry) : Prop :=
  qe_frameIndex e = js_get dtf (sampleIndex e) ∧
  (deliver e = true ↔
   ∃ f, qe_frameIndex e = Some f ∧ Z.of_nat f ∈ wanted).

(** The outcome the specification describes for a batch request: with
    [ds] the decode indices of the requested frames, every sample from the
    keyframe found for [min ds] through [max ds] is handed to the decoder,
    in decode order; one queue entry is pushed per such sample; and an entry
    is tagged deliverable exactly when its resolved frame index lies in
    [[start, start + count)]. *)
Definition request_submitted (w : World) (assetId : string) (start : Z)
    (count : jsnum) : Prop :=
  ∃ addr asset asset' ss,
    lookupAsset w assetId = Some (addr, asset) ∧
    samples asset = Some ss ∧
    objects (feedBatch assetId start count w).1 !! addr = Some asset' ∧
    let c := jsnum_toZ count in
    let ds := decodeIndicesFor (frameToDecode asset) start (start + c) in
    let keyframeIndex := findKeyframe ss (list_min ds) in
    let maxDecodeIndex := list_max ds in
    Some <$> ds = js_index (frameToDecode asset) <$> seqZ start c ∧
    (keyframeIndex ≤ maxDecodeIndex < length ss)%nat ∧
    submitted (feedBatch assetId start count w).2
    = seq keyframeIndex (maxDecodeIndex + 1 - keyframeIndex) ∧
    ∃ new,
      decodeQueue asset' = decodeQueue asset ++ new ∧
      sampleIndex <$> new
      = seq keyframeIndex (maxDecodeIndex + 1 - keyframeIndex) ∧
      Forall (λ e,
                qe_frameIndex e = js_get (decodeToFrame asset) (sampleIndex e) ∧
                (deliver e = true ↔
                 ∃ f, qe_frameIndex e = Some f ∧
                      start ≤ Z.of_nat f < start + c)) new.

(** The readiness gate as the specification words it: the call submits
    nothing, leaves the request recorded as pending, schedules a retry of
    the same request after 16 ms and nudges the demuxer to flush. *)
Definition gated_with_retry (w : World) (assetId : string) (start : Z)
    (count : jsnum) : Prop :=
  let result := feedBatch assetId start count w in
  submitted result.2 = [] ∧
  (∃ addr asset', lookupAsset result.1 assetId = Some (addr, asset') ∧
                  pendingPrefetch asset' = Some (start, count)) ∧
  timeouts result.2 = [(RetryFeedBatch assetId start count, 16)] ∧
  flushes result.2 = 1%nat.

(** The parts of an asset a submission would touch. *)
Definition inFlight (asset : Asset)
  : option (Z * Z) * list QueueEntry * gmap Z (list QueueEntry) :=
  (currentFetchRange asset, decodeQueue asset, decodeQueueByTimestamp asset).

(** The outcome the specification promises for a fatal load failure: the
    promise is rejected with a message and no asset is registered under
    the identifier. *)
Definition failed_cleanly (ld : Load) (w : World) : Prop :=
  (∃ reason, ld_promise ld = Rejected reason ∧ reason ≠ "") ∧
  lookupAsset w (ld_assetId ld) = None.

(** The timeline tables and the stamped samples of the asset are those
    the timeline builder produces from some sample list. *)
Definition timeline_built (asset : Asset) : Prop :=
  ∃ a0, samples asset = samples (updatePresentationTimeline a0) ∧
        frameToDecode asset = frameToDecode (updatePresentationTimeline a0) ∧
        decodeToFrame asset = decodeToFrame (updatePresentationTimeline a0).

(** [a'] is a later state of the asset object [a]: a cached copy method
    is still cached, and a timeline that was built by the builder still
    is. *)
Definition succeeds (a a' : Asset) : Prop :=
  (∀ m, copyMethod a = Some m → copyMethod a' = Some m) ∧
  (timeline_built a → timeline_built a').

(** [w'] is a later state of the world [w]: every asset object is still
    there, in a later state, and any new one has a built timeline. *)
Definition keeps (w w' : World) : Prop :=
  (∀ addr a, objects w !! addr = Some a →
             ∃ a', objects w' !! addr = Some a' ∧ succeeds a a') ∧
  (∀ addr a', objects w' !! addr = Some a' →
              is_Some (objects w !! addr) ∨ timeline_built a').

(** Every asset object of [w] that has a copy method cached still has the
    same one cached in [w']. *)
Definition keeps_method (w w' : World) : Prop :=
  ∀ addr asset m,
    objects w !! addr = Some asset → copyMethod asset = Some m →
    ∃ asset', objects w' !! addr = Some asset' ∧ copyMethod asset' = Some m.

(** Every asset object of the world has a built timeline. *)
Definition all_built (w : World) : Prop :=
  ∀ addr asset, objects w !! addr = Some asset → timeline_built asset.

(** The claim of the specification about the cached direct method: an
    output for an asset that has it cached does not enter the canvas
    fallback. *)
Definition direct_excludes_canvas (ld : Load) (frame : VideoFrame)
    (w : World) : Prop :=
  ∀ addr asset,
    lookupAsset w (ld_assetId ld) = Some (addr, asset) →
    copyMethod asset = Some Direct →
    canvasCopies (decoderOutput ld frame w).2 = 0%nat.

(** The queued entries with timestamp [ts], oldest first. *)
Definition bucketOf (ts : Z) (queue : list QueueEntry) : list QueueEntry :=
  filter (λ e, timestamp e = ts) queue.

(** The queue and its per-timestamp index agree: entries are distinct
    objects, and the bucket of each timestamp holds exactly the queued
    entries with that timestamp, in queue order, empty buckets being
    absent. *)
Definition queue_consistent (asset : Asset) : Prop :=
  NoDup (qe_id <$> decodeQueue asset) ∧
  ∀ ts, decodeQueueByTimestamp asset !! ts
        = match bucketOf ts (decodeQueue asset) with
          | [] => None
          | bucket => Some bucket
          end.

(** The frame indices handed to the consumer. *)
Definition delivered (trace : list Event) : list nat :=
  omap (fun ev => match ev with
                  | EvOnPrefetchFrame _ frame _ _ _ => Some frame
                  | _ => None
                  end) trace.

(** Queue and buckets agree and every queued entry was created before
    the [n]-th entry object. *)
Definition queues_ok (n : nat) (asset : Asset) : Prop :=
  queue_consistent asset ∧
  Forall (λ e, (qe_id e < n)%nat) (decodeQueue asset).

(** The three matching rules, in order, with what each does to the
    bucket and to the flat queue. *)
Definition follows_rules (asset : Asset) (ts : Z) : Prop :=
  match decodeQueueByTimestamp asset !! ts with
  | Some (first :: rest) =>
      (matchOutput asset ts).1 = Some first ∧
      decodeQueueByTimestamp (matchOutput asset ts).2 !! ts
      = match rest with [] => None | _ :: _ => Some rest end ∧
      decodeQueue (matchOutput asset ts).2
      = removeEntry first (decodeQueue asset)
  | _ =>
      match decodeQueue asset with
      | head :: rest =>
          (matchOutput asset ts).1 = Some head ∧
          decodeQueue (matchOutput asset ts).2 = rest ∧
          decodeQueueByTimestamp (matchOutput asset ts).2 !! timestamp head
          = match decodeQueueByTimestamp asset !! timestamp head with
            | Some entries =>
                match removeEntry head entries with
                | [] => None
                | remaining => Some remaining
                end
            | None => None
            end
      | [] => matchOutput asset ts = (None, asset)
      end
  end.

(** What matching achieves on a consistent asset: the entry matched is
    the oldest one queued for the timestamp, else the oldest one queued;
    afterwards it is in neither the queue nor any bucket, every other
    entry still is, and queue and buckets agree. *)
Definition removes_matched (asset : Asset) (ts : Z) : Prop :=
  queue_consistent (matchOutput asset ts).2 ∧
  (matchOutput asset ts).1
  = match bucketOf ts (decodeQueue asset), decodeQueue asset with
    | first :: _, _ => Some first
    | [], head :: _ => Some head
    | [], [] => None
    end ∧
  ∀ e, (matchOutput asset ts).1 = Some e →
       e ∈ decodeQueue asset ∧
       decodeQueue (matchOutput asset ts).2
       = filter (λ x, qe_id x ≠ qe_id e) (decodeQueue asset) ∧
       (e ∉ decodeQueue (matchOutput asset ts).2) ∧
       ∀ ts' bucket,
         decodeQueueByTimestamp (matchOutput asset ts).2 !! ts' = Some bucket →
         e ∉ bucket.

(** The claim of the specification about the decoded frame: however a
    run of the output handler ends, the frame has been closed exactly
    once by then. *)
Definition closed_exactly_once (nv : Native) (ld : Load) (frame : VideoFrame)
    (w : World) : Prop :=
  closes (decoderOutput_in nv ld frame w).1.2 = 1%nat.


(** ** Further notions used by the properties of the code *)

(** The presentation timestamp the timeline builder computes for the
    sample [s] stored at decode index [i]. *)
Definition microsAt (asset : Asset) (i : nat) (s : NSample) : Z :=
  convertTimestampToMicros (getCompositionTimestamp (raw s))
    (timescale asset) i (fps asset).

(** The sample the builder leaves at decode index [i] when it gave it
    presentation frame [f]. *)
Definition stamped (asset : Asset) (i f : nat) (s : NSample) : NSample :=
  mkNSample (raw s) (decodeIndex s) (getCompositionTimestamp (raw s))
    (microsAt asset i s) (Some f).

(** The timestamps of the samples, listed in decode order. *)
Definition decodeOrderTimestamps (asset : Asset) : list Z :=
  match samples asset with
  | Some ss => imap (microsAt asset) ss
  | None => []
  end.

(** Timestamps never decrease along the decode order: the stream has no
    reordered frames. *)
Definition in_decode_order (asset : Asset) : Prop :=
  Sorted Z.le (decodeOrderTimestamps asset).

(** An asset with its decode queue and its per-timestamp buckets
    replaced. *)
Definition withQueues (queue : list QueueEntry)
    (buckets : gmap Z (list QueueEntry)) (asset : Asset) : Asset :=
  set_decodeQueueByTimestamp buckets (set_decodeQueue queue asset).

(** The fields of an asset the feeder only ever reads. *)
Definition feederInputs (asset : Asset) :=
  (samples asset, frameToDecode asset, decodeToFrame asset,
   frameTimestamps asset, ptr asset, frameBytes asset, copyMethod asset,
   isInitialPrefill asset, prefillRequested asset, currentPrefillIndex asset).

(** The parts of the world the feeder never writes: the registry, the
    decoder states, the native heap, the page and the platform. *)
Definition feederSurroundings (w : World) :=
  (videoAssets w, decoders w, wasmLive w, wasmNext w, player w, platform w).

(** The actions that begin a load or hand it a new track. *)
Definition starts_load (action : Action) : bool :=
  match action with
  | ActPrepare | ActReady _ => true
  | _ => false
  end.

(** The buffer pointers handed to the rendering engine, in call order. *)
Definition deliveredPointers (trace : list Event) : list (option N) :=
  omap (fun ev => match ev with
                  | EvOnPrefetchFrame _ _ p _ _ => Some p
                  | _ => None
                  end) trace.

(** The shared pixel buffer of the asset, if it has one, is a live block
    of the native heap at least [frameBytes] long.  An asset whose
    pointer is [null] or 0 (after a failed copy, after disposal) has
    none, and nothing is said about it. *)
Definition buffer_ok (asset : Asset) (w : World) : Prop :=
  ∀ p, ptr asset = Some p → ptr_truthy (Some p) = true →
       ∃ n, wasmLive w !! p = Some n ∧ (frameBytes asset ≤ n)%N.

(** The warm-up bookkeeping of an asset. *)
Definition warmUp (asset : Asset) : bool * Z * Z :=
  (isInitialPrefill asset, initialPrefillFrames asset,
   currentPrefillIndex asset).

(** The number of bytes the output handler needs for [frame]. *)
Definition requiredBytesFor (ld : Load) (frame : VideoFrame) (asset : Asset)
  : N :=
  (sizeBuffer frame (frameGeometry ld frame) asset).1.1.

(** What one run of the output handler may do to an asset whose warm-up
    bookkeeping was [(warming, prefill, index)]: either it delivers
    nothing and leaves the index alone, or it delivers one frame in a
    live buffer of at least [bytes] bytes, which during warm-up requires
    [index < prefill] and moves the index on by one. *)
Definition output_outcome (bytes : N) (before : bool * Z * Z)
    (asset' : Asset) (w' : World) (trace : list Event) : Prop :=
  let '(warming, prefill, index) := before in
  buffer_ok asset' w' ∧
  isInitialPrefill asset' = warming ∧
  initialPrefillFrames asset' = prefill ∧
  ((delivered trace = [] ∧ deliveredPointers trace = [] ∧
    currentPrefillIndex asset' = index) ∨
   (∃ f q n,
      delivered trace = [f] ∧ deliveredPointers trace = [Some q] ∧
      q ≠ 0%N ∧ ptr asset' = Some q ∧
      wasmLive w' !! q = Some n ∧ (bytes ≤ n)%N ∧
      frameBytes asset' = bytes ∧
      (warming = true → index < prefill) ∧
      currentPrefillIndex asset' = index + (if warming then 1 else 0))).

(** The output handler run on each of [frames] in turn, none of the
    runs overlapping another. *)
Definition decodeAll (frames : list VideoFrame) (ld : Load) (w : World)
  : Load * World * list Event :=
  foldl (fun st frame =>
           let '(ld1, w1, events) := st in
           let '(ld2, w2, events') := decoderOutput ld1 frame w1 in
           (ld2, w2, events ++ events'))
        (ld, w, []) frames.

(** A run of the handler up to the copy, followed at once by the rest of
    it when it suspended there. *)
Definition settle (ld : Load) (r : World * list Event * option Suspended)
  : World * list Event :=
  match r with
  | (w1, events, None) => (w1, events)
  | (w1, events, Some k) =>
      let '(w2, rest) := decoderOutput_resume ld k w1 in
      (w2, events ++ rest)
  end.

(** The state of the submission loop with the warm-up flag of its asset
    set to [b]. *)
Definition warmed (b : bool) (st : FeedState) : FeedState :=
  mkFeedState (set_isInitialPrefill b (fs_asset st)) (fs_nextEntry st)
    (fs_trace st).

(** ** Runs in which no copy is overtaken

    The callbacks that follow a successful [onReady], each decoder output
    running to its end (or to the exception that leaves it) before the
    next callback starts; [nv] is what the allocator and the engine do
    during that output. *)

Inductive Step :=
| StepSamples (id : nat) (sampleList : list Sample)
| StepOutput (nv : Native) (frame : VideoFrame)
| StepPrefetch (assetId : string) (start : Z) (count : jsnum)
| StepTimer (callback : TimerCallback)
| StepDecoderError (e : string).

Definition step (s : Step) (ld : Load) (w : World)
  : Load * World * list Event :=
  match s with
  | StepSamples id sampleList => onSamples id sampleList ld w
  | StepOutput nv frame => (decoderOutput_in nv ld frame w).1
  | StepPrefetch assetId start count =>
      let '(w1, events) := prefetchFrames assetId start count w in
      (ld, w1, events)
  | StepTimer callback =>
      let '(w1, events) := fireTimer callback w in (ld, w1, events)
  | StepDecoderError e => decoderError e ld w
  end.

Fixpoint steps (ss : list Step) (ld : Load) (w : World)
  : Load * World * list Event :=
  match ss with
  | [] => (ld, w, [])
  | s :: rest =>
      let '(ld1, w1, events) := step s ld w in
      let '(ld2, w2, events') := steps rest ld1 w1 in
      (ld2, w2, events ++ events')
  end.

(** During the step the allocator hands out a block whenever the output
    handler asks for one, and none of its unguarded calls throws. *)
Definition undisturbed (s : Step) : bool :=
  match s with
  | StepOutput nv _ => quiet nv
  | _ => true
  end.

(** The loader's asset is registered and its buffer, if it has one, is a
    live block of at least [frameBytes] bytes. *)
Definition serving (ld : Load) (w : World) : Prop :=
  ∃ addr asset, lookupAsset w (ld_assetId ld) = Some (addr, asset) ∧
                buffer_ok asset w.

(** [w'] has the registry and the native heap of [w], and every asset
    object of [w] is still there with the same buffer. *)
Definition buffers_kept (w w' : World) : Prop :=
  videoAssets w' = videoAssets w ∧ wasmLive w' = wasmLive w ∧
  ∀ addr a, objects w !! addr = Some a →
            ∃ a', objects w' !! addr = Some a' ∧
                  ptr a' = ptr a ∧ frameBytes a' = frameBytes a.
(** * Properties *)

(** ** The presentation timeline *)

Section array_facts.
Context {A : Type}.
Implicit Types (arr : list (option A)) (v : A).

Lemma js_set_push arr v : js_set (length arr) v arr = arr ++ [Some v].
Proof.
  unfold js_set. rewrite (proj2 (Nat.ltb_ge _ _)) by lia.
  by rewrite Nat.sub_diag.
Qed.

Lemma js_set_length_lt arr i v :
  (i < length arr)%nat → length (js_set i v arr) = length arr.
Proof.
  intros Hi. unfold js_set. rewrite (proj2 (Nat.ltb_lt _ _)) by done.
  apply length_insert.
Qed.

Lemma js_get_set_eq arr i v :
  (i < length arr)%nat → js_get (js_set i v arr) i = Some v.
Proof.
  intros Hi. unfold js_get, js_set.
  rewrite (proj2 (Nat.ltb_lt _ _)) by done.
  by rewrite list_lookup_insert_eq.
Qed.

Lemma js_get_set_ne arr i j v :
  (i < length arr)%nat → i ≠ j → js_get (js_set i v arr) j = js_get arr j.
Proof.
  intros Hi Hne. unfold js_get, js_set.
  rewrite (proj2 (Nat.ltb_lt _ _)) by done.
  by rewrite list_lookup_insert_ne.
Qed.

Lemma js_get_Some_lt arr i v : js_get arr i = Some v → (i < length arr)%nat.
Proof.
  unfold js_get. destruct (arr !! i) eqn:E; [|done].
  intros _. by eapply lookup_lt_Some.
Qed.

Lemma js_get_dense (l : list A) i : js_get (Some <$> l) i = l !! i.
Proof. unfold js_get. rewrite list_lookup_fmap. by destruct (l !! i). Qed.
End array_facts.

Section fill.
Implicit Types (es : list TimelineEntry) (t : Tables).

(** Filling from frame index [length (t_frameToDecode t)] appends the
    decode indices in timeline order. *)
Lemma fillTables_frameToDecode es : ∀ t,
  t_frameToDecode (fillTables es (length (t_frameToDecode t)) t)
  = t_frameToDecode t ++ (Some <$> (te_decodeIndex <$> es)).
Proof.
  induction es as [|e es IH]; intros t; simpl.
  - by rewrite app_nil_r.
  - specialize (IH (fillEntry e (length (t_frameToDecode t)) t)).
    simpl in IH. rewrite js_set_push in IH.
    rewrite length_app in IH. simpl in IH.
    rewrite Nat.add_1_r in IH. rewrite IH.
    by rewrite <- app_assoc.
Qed.

Lemma fillTables_decodeToFrame_length es : ∀ k t,
  Forall (λ e, (te_decodeIndex e < length (t_decodeToFrame t))%nat) es →
  length (t_decodeToFrame (fillTables es k t)) = length (t_decodeToFrame t).
Proof.
  induction es as [|e es IH]; intros k t Hall; simpl; [done|].
  inversion Hall as [|? ? He Hes]; subst.
  rewrite IH; simpl.
  - by apply js_set_length_lt.
  - rewrite js_set_length_lt by done. done.
Qed.

Lemma fillTables_samples_length es : ∀ k t,
  length (t_samples (fillTables es k t)) = length (t_samples t).
Proof.
  induction es as [|e es IH]; intros k t; simpl; [done|].
  rewrite IH. simpl. apply length_alter.
Qed.

(** Decode indices the timeline does not mention keep their slot. *)
Lemma fillTables_decodeToFrame_other es : ∀ k t d,
  Forall (λ e, (te_decodeIndex e < length (t_decodeToFrame t))%nat) es →
  d ∉ te_decodeIndex <$> es →
  js_get (t_decodeToFrame (fillTables es k t)) d = js_get (t_decodeToFrame t) d.
Proof.
  induction es as [|e es IH]; intros k t d Hall Hd; simpl; [done|].
  inversion Hall as [|? ? He Hes]; subst.
  rewrite fmap_cons, not_elem_of_cons in Hd. destruct Hd as [Hne Hd].
  rewrite IH; simpl.
  - by apply js_get_set_ne.
  - by rewrite js_set_length_lt.
  - done.
Qed.

(** The [j]-th entry of the timeline receives frame index [k + j]. *)
Lemma fillTables_decodeToFrame_at es : ∀ k t j e,
  Forall (λ e, (te_decodeIndex e < length (t_decodeToFrame t))%nat) es →
  NoDup (te_decodeIndex <$> es) →
  es !! j = Some e →
  js_get (t_decodeToFrame (fillTables es k t)) (te_decodeIndex e)
  = Some (k + j)%nat.
Proof.
  induction es as [|e0 es IH]; intros k t j e Hall Hnd Hj; [done|].
  inversion Hall as [|? ? He Hes]; subst.
  rewrite fmap_cons in Hnd. apply NoDup_cons in Hnd as [Hnotin Hnd].
  destruct j as [|j]; simpl in *.
  - injection Hj as ->.
    rewrite fillTables_decodeToFrame_other; simpl.
    + rewrite js_get_set_eq by done. f_equal. lia.
    + by rewrite js_set_length_lt.
    + done.
  - rewrite (IH (S k) _ j e); simpl.
    + f_equal. lia.
    + by rewrite js_set_length_lt.
    + done.
    + done.
Qed.
End fill.

Section timeline.
Variables (tscale : positive) (rate : Q).
Implicit Types (ss : list NSample).

Lemma timelineOf_decodeIndex ss :
  te_decodeIndex <$> timelineOf tscale rate ss = seq 0 (length ss).
Proof.
  unfold timelineOf. rewrite fmap_imap.
  rewrite <- (list_fmap_id (seq 0 (length ss))).
  rewrite <- (imap_seq_0 ss id).
  by apply imap_ext.
Qed.

Lemma timelineOf_length ss : length (timelineOf tscale rate ss) = length ss.
Proof. apply length_imap. Qed.

Lemma sorted_decodeIndex ss :
  te_decodeIndex <$> merge_sort entry_le (timelineOf tscale rate ss)
  ≡ₚ seq 0 (length ss).
Proof.
  rewrite <- timelineOf_decodeIndex.
  apply fmap_Permutation, merge_sort_Permutation.
Qed.

(** The tables of any rearrangement of the timeline are mutually
    inverse; the order the sort settles on plays no part in this. *)
Lemma fillTables_inverse ss (es : list TimelineEntry) :
  te_decodeIndex <$> es ≡ₚ seq 0 (length ss) →
  let t := fillTables es 0
             (mkTables [] [] (replicate (length ss) None)
                (imap (stampSample tscale rate) ss)) in
  t_frameToDecode t = Some <$> (te_decodeIndex <$> es) ∧
  length (t_decodeToFrame t) = length ss ∧
  ∀ f d, (te_decodeIndex <$> es) !! f = Some d →
         js_get (t_decodeToFrame t) d = Some f.
Proof.
  intros Hperm t.
  assert (Hall : Forall (λ e, (te_decodeIndex e < length ss)%nat) es).
  { apply Forall_forall. intros e He.
    assert (Hin : te_decodeIndex e ∈ seq 0 (length ss)).
    { rewrite <- Hperm. by apply list_elem_of_fmap_2. }
    apply elem_of_seq in Hin. lia. }
  assert (Hnd : NoDup (te_decodeIndex <$> es)).
  { rewrite Hperm. apply NoDup_seq. }
  split; [|split].
  - subst t.
    apply (fillTables_frameToDecode es
             (mkTables [] [] (replicate (length ss) None)
                (imap (stampSample tscale rate) ss))).
  - subst t. rewrite fillTables_decodeToFrame_length; simpl.
    + apply length_replicate.
    + by rewrite length_replicate.
  - intros f d Hf. rewrite list_lookup_fmap in Hf.
    destruct (es !! f) as [e|] eqn:He; [|done]. injection Hf as <-.
    subst t. rewrite (fillTables_decodeToFrame_at es 0 _ f e); simpl.
    + done.
    + by rewrite length_replicate.
    + done.
    + done.
Qed.
End timeline.

(** *** The order the sort settles on

    The comparator orders timeline entries by timestamp and then by decode
    index; this order is total and antisymmetric, so a timeline has exactly
    one sorted rearrangement and the sorting algorithm plays no part. *)

#[local] Instance entry_le_total : Total entry_le.
Proof.
  intros a b. unfold entry_le, compareEntries.
  destruct (Z.eqb_spec (te_timestampMicros a) (te_timestampMicros b));
    destruct (Z.eqb_spec (te_timestampMicros b) (te_timestampMicros a));
    simpl; lia.
Qed.

#[local] Instance entry_le_trans : Transitive entry_le.
Proof.
  intros a b c. unfold entry_le, compareEntries.
  destruct (Z.eqb_spec (te_timestampMicros a) (te_timestampMicros b));
    destruct (Z.eqb_spec (te_timestampMicros b) (te_timestampMicros c));
    destruct (Z.eqb_spec (te_timestampMicros a) (te_timestampMicros c));
    simpl; lia.
Qed.

#[local] Instance entry_le_antisym : AntiSymm (=) entry_le.
Proof.
  intros [da ta] [db tb]. unfold entry_le, compareEntries. simpl.
  destruct (Z.eqb_spec ta tb); destruct (Z.eqb_spec tb ta); simpl;
    intros H1 H2; f_equal; lia.
Qed.

Lemma sorted_timeline_unique (timeline sorted : list TimelineEntry) :
  Sorted entry_le sorted → sorted ≡ₚ timeline →
  sorted = merge_sort entry_le timeline.
Proof.
  intros Hsorted Hperm. apply (Sorted_unique entry_le); [done| |].
  - apply Sorted_merge_sort. apply _.
  - by rewrite merge_sort_Permutation.
Qed.

(** What the builder leaves in the asset. *)
Lemma updatePresentationTimeline_tables asset :
  ∃ order : list nat,
    order ≡ₚ seq 0 (sampleCount asset) ∧
    frameToDecode (updatePresentationTimeline asset) = Some <$> order ∧
    length (decodeToFrame (updatePresentationTimeline asset))
    = sampleCount asset ∧
    (∀ f d, order !! f = Some d →
            js_get (decodeToFrame (updatePresentationTimeline asset)) d
            = Some f) ∧
    sampleCount (updatePresentationTimeline asset) = sampleCount asset.
Proof.
  unfold updatePresentationTimeline, sampleCount.
  destruct (samples asset) as [[|s ss]|] eqn:Hs.
  - exists []. simpl. rewrite Hs. by repeat split.
  - set (l := s :: ss).
    pose proof (sorted_decodeIndex (timescale asset) (fps asset) l) as Hperm.
    destruct (fillTables_inverse (timescale asset) (fps asset) l _ Hperm)
      as (Hftd & Hlen & Hinv).
    exists (te_decodeIndex <$>
              merge_sort entry_le (timelineOf (timescale asset) (fps asset) l)).
    unfold buildTables. rewrite timelineOf_length.
    repeat split; try done.
    simpl. rewrite fillTables_samples_length. simpl. by rewrite length_imap.
  - exists []. simpl. rewrite Hs. by repeat split.
Qed.

(** C1. For every sample list the timeline builder processes, the two
    tables it leaves in the asset are mutually inverse bijections between
    presentation frames and decode indices: both have one slot per sample,
    [decodeToFrame[frameToDecode[f]] = f] for every presentation frame
    [f], and every decode index is the image of exactly one frame. *)
Theorem timeline_bijection (asset : Asset) :
  let a' := updatePresentationTimeline asset in
  let n := sampleCount asset in
  length (frameToDecode a') = n ∧
  length (decodeToFrame a') = n ∧
  (∀ f, (f < n)%nat →
     ∃ d, (d < n)%nat ∧ js_get (frameToDecode a') f = Some d ∧
          js_get (decodeToFrame a') d = Some f) ∧
  (∀ d, (d < n)%nat →
     ∃ f, (f < n)%nat ∧ js_get (decodeToFrame a') d = Some f ∧
          js_get (frameToDecode a') f = Some d ∧
          ∀ f', js_get (frameToDecode a') f' = Some d → f' = f).
Proof.
  intros a' n. subst a' n.
  destruct (updatePresentationTimeline_tables asset)
    as (order & Hperm & Hftd & Hlen & Hinv & _).
  assert (Hlo : length order = sampleCount asset).
  { by rewrite Hperm, length_seq. }
  assert (Hnd : NoDup order) by (rewrite Hperm; apply NoDup_seq).
  assert (Hrange : ∀ d, d ∈ order ↔ (d < sampleCount asset)%nat).
  { intros d. rewrite Hperm, elem_of_seq. lia. }
  rewrite Hftd. split; [by rewrite length_fmap|]. split; [done|]. split.
  - intros f Hf.
    destruct (lookup_lt_is_Some_2 order f) as [d Hd]; [lia|].
    exists d. split; [|split].
    + apply Hrange. by eapply list_elem_of_lookup_2.
    + by rewrite js_get_dense.
    + by apply Hinv.
  - intros d Hd. apply Hrange in Hd.
    apply list_elem_of_lookup in Hd as [f Hf].
    exists f. split; [|split; [|split]].
    + apply lookup_lt_Some in Hf. lia.
    + by apply Hinv.
    + by rewrite js_get_dense.
    + intros f' Hf'. rewrite js_get_dense in Hf'.
      by eapply NoDup_lookup.
Qed.

(** On a stream stored in decode order 0, 3, 1, 2 the tables are the two
    permutations inverse to each other. *)
Example reordered_timeline :
  frameToDecode (loadedAsset reorderedStream)
  = [Some 0; Some 2; Some 3; Some 1]%nat ∧
  decodeToFrame (loadedAsset reorderedStream)
  = [Some 0; Some 3; Some 1; Some 2]%nat ∧
  frameTimestamps (loadedAsset reorderedStream)
  = [Some 0; Some 33333; Some 66667; Some 100000].
Proof. by vm_compute. Qed.

Lemma timeline_bijection_witness :
  ∃ d, js_get (frameToDecode (loadedAsset reorderedStream)) 1 = Some d ∧
       js_get (decodeToFrame (loadedAsset reorderedStream)) d = Some 1%nat.
Proof.
  destruct (timeline_bijection
              (set_samples
                 (Some (appendSamples 30000 30 [] reorderedStream))
                 (newAsset 1 0 64 64 30000 30 4 10 16384)))
    as (_ & _ & Hframes & _).
  destruct (Hframes 1%nat) as (d & _ & Hd & Hf).
  - vm_compute. lia.
  - exists d. split; [exact Hd | exact Hf].
Defined.
(** ** The readiness gate *)

Lemma hasFramesForRange_true asset start count :
  hasFramesForRange asset start count = true →
  ∃ c, count = JInt c ∧ 0 < c ∧ 0 ≤ start ∧
       start + c ≤ Z.of_nat (length (frameToDecode asset)) ∧
       ∀ f, start ≤ f < start + c →
            is_Some (js_index (frameToDecode asset) f).
Proof.
  unfold hasFramesForRange.
  destruct count as [c| | |]; simpl; try done.
  destruct (Z.leb_spec c 0) as [|Hc]; [done|].
  destruct (length (frameToDecode asset) =? 0)%nat; [done|].
  destruct (Z.leb_spec (Z.of_nat (length (frameToDecode asset)))
              (start + c - 1)) as [|Hlen]; [done|].
  intros Hall. apply Is_true_true, forallb_True in Hall.
  rewrite Forall_forall in Hall.
  assert (Hcov : ∀ f, start ≤ f < start + c →
                      is_Some (js_index (frameToDecode asset) f)).
  { intros f Hf. eapply bool_decide_unpack, (Hall f).
    apply elem_of_seqZ. lia. }
  exists c. repeat split; try done; try lia.
  destruct (Hcov start) as [d Hd]; [lia|].
  unfold js_index in Hd. destruct (Z.ltb_spec start 0); [done|lia].
Qed.

Lemma hasFramesForRange_not_positive asset start count :
  isFinite count = false ∨ jsnum_leZ count 0 = true →
  hasFramesForRange asset start count = false.
Proof.
  unfold hasFramesForRange. intros [->| ->]; simpl; [done|].
  by rewrite orb_true_r.
Qed.

(** ** The keyframe scan *)

Lemma scanKeyframe_Some ss : ∀ m k,
  scanKeyframe ss m = Some k →
  (k ≤ m)%nat ∧ sync_at ss k = true ∧
  ∀ i, (k < i ≤ m)%nat → sync_at ss i = false.
Proof.
  induction m as [|m IH]; intros k; simpl.
  - destruct (sync_at ss 0) eqn:E; [|done].
    intros [= <-]. split; [done|]. split; [done|]. intros i Hi. lia.
  - destruct (sync_at ss (S m)) eqn:E.
    + intros [= <-]. split; [done|]. split; [done|]. intros i Hi. lia.
    + intros Hk. destruct (IH k Hk) as (Hle & Hsync & Hnone).
      split; [lia|]. split; [done|].
      intros i Hi. destruct (decide (i = S m)) as [->|]; [done|].
      apply Hnone. lia.
Qed.

Lemma scanKeyframe_None ss : ∀ m,
  scanKeyframe ss m = None → ∀ i, (i ≤ m)%nat → sync_at ss i = false.
Proof.
  induction m as [|m IH]; simpl.
  - destruct (sync_at ss 0) eqn:E; [done|].
    intros _ i Hi. by replace i with 0%nat by lia.
  - destruct (sync_at ss (S m)) eqn:E; [done|].
    intros Hk i Hi. destruct (decide (i = S m)) as [->|]; [done|].
    apply IH; [done|lia].
Qed.

Lemma findKeyframe_le ss m : (findKeyframe ss m ≤ m)%nat.
Proof.
  unfold findKeyframe. destruct (scanKeyframe ss m) as [k|] eqn:E; [|done].
  by apply scanKeyframe_Some in E as (? & _).
Qed.

(** C2, as stated, fails: in a stream of three samples none of which is a
    keyframe, a request for frame 2 alone makes [feedBatch] start decoding
    at sample 2, which is neither a keyframe nor the first sample. *)
Lemma keyframe_or_first_fails :
  let w := loadedWorld (regularStream 3 0) in
  submitted (feedBatch "asset#2" 2 (JInt 1) w).2 = [2%nat] ∧
  ∃ ss, samples (loadedAsset (regularStream 3 0)) = Some ss ∧
        findKeyframe ss 2 = 2%nat ∧
        ¬ keyframe_or_first ss 2.
Proof.
  split; [by vm_compute|].
  eexists. split; [by vm_compute|]. split; [by vm_compute|].
  unfold keyframe_or_first. intros [_ [Hsync|Hzero]].
  - vm_compute in Hsync. discriminate.
  - vm_compute in Hzero. discriminate.
Qed.

(** C2, amended. The backward scan from [minDecodeIndex] settles on an
    index at or before [minDecodeIndex]; no sample strictly between that
    index and [minDecodeIndex] is a keyframe; and the sample at that index
    is a true keyframe, unless no sample at or before [minDecodeIndex] is
    one, in which case the index is [minDecodeIndex] itself. *)
Theorem keyframe_scan_nearest (ss : list NSample) (minDecodeIndex : nat) :
  let k := findKeyframe ss minDecodeIndex in
  (k ≤ minDecodeIndex)%nat ∧
  (∀ i, (k < i ≤ minDecodeIndex)%nat → sync_at ss i = false) ∧
  (sync_at ss k = true ∨
   (k = minDecodeIndex ∧
    ∀ i, (i ≤ minDecodeIndex)%nat → sync_at ss i = false)).
Proof.
  unfold findKeyframe.
  destruct (scanKeyframe ss minDecodeIndex) as [k|] eqn:E; simpl.
  - apply scanKeyframe_Some in E as (Hle & Hsync & Hnone). auto.
  - split; [done|]. split; [intros i Hi; lia|].
    right. split; [done|]. by apply scanKeyframe_None.
Qed.

(** ** Submission *)

Section extrema.
Implicit Types (xs : list nat).

Lemma list_max_ub xs x : x ∈ xs → (x ≤ list_max xs)%nat.
Proof.
  unfold list_max. induction xs as [|y xs IH]; simpl.
  - by intros ?%elem_of_nil.
  - intros [->|Hin]%elem_of_cons; [lia|]. specialize (IH Hin). lia.
Qed.

Lemma list_max_bound xs n :
  (0 < n)%nat → Forall (λ x, (x < n)%nat) xs → (list_max xs < n)%nat.
Proof.
  unfold list_max. intros Hn. induction 1 as [|y xs Hy _ IH]; simpl; lia.
Qed.

Lemma foldr_min_lb xs : ∀ x0 x,
  x ∈ x0 :: xs → (foldr Nat.min x0 xs ≤ x)%nat.
Proof.
  induction xs as [|y xs IH]; intros x0 x; simpl.
  - intros ->%list_elem_of_singleton. done.
  - intros [->|[->|Hin]%elem_of_cons]%elem_of_cons.
    + specialize (IH x0 x0 ltac:(left)). lia.
    + lia.
    + specialize (IH x0 x ltac:(by right)). lia.
Qed.

Lemma list_min_lb xs x : x ∈ xs → (list_min xs ≤ x)%nat.
Proof.
  destruct xs as [|x0 xs]; [by intros ?%elem_of_nil|].
  apply foldr_min_lb.
Qed.
End extrema.

Section submit.
Variables (dtf : list (option nat)) (wanted : list Z)
          (dstate : option DecoderState) (ss : list NSample).

Lemma makeEntry_tagged id index sample :
  entry_tagged dtf wanted (makeEntry dtf wanted id index sample).
Proof.
  unfold entry_tagged, makeEntry. simpl. split; [done|].
  destruct (js_get dtf index) as [f|].
  - rewrite bool_decide_eq_true. split.
    + intros Hin. by exists f.
    + by intros (f' & [= <-] & Hin).
  - split; [done|]. by intros (f' & [=] & _).
Qed.

Lemma submitSample_present index sample st :
  ss !! index = Some sample →
  let st' := submitSample dtf wanted dstate ss index st in
  submitted (fs_trace st') = submitted (fs_trace st) ++ [index] ∧
  decodeQueue (fs_asset st')
  = decodeQueue (fs_asset st)
    ++ [makeEntry dtf wanted (fs_nextEntry st) index sample].
Proof.
  intros Hs. unfold submitSample. rewrite Hs. simpl. split; [|done].
  unfold submitted. rewrite omap_app. f_equal. simpl.
  by destruct (bool_decide (dstate = Some Configured)).
Qed.

Lemma submitRange_decoded keyframeIndex decodeEndExclusive :
  (decodeEndExclusive ≤ length ss)%nat → ∀ st,
  let st' := submitRange dtf wanted dstate ss keyframeIndex
               decodeEndExclusive st in
  submitted (fs_trace st')
  = submitted (fs_trace st)
    ++ seq keyframeIndex (decodeEndExclusive - keyframeIndex) ∧
  ∃ new, decodeQueue (fs_asset st') = decodeQueue (fs_asset st) ++ new ∧
         sampleIndex <$> new
         = seq keyframeIndex (decodeEndExclusive - keyframeIndex) ∧
         Forall (entry_tagged dtf wanted) new.
Proof.
  intros Hend. unfold submitRange.
  assert (Hall : Forall (λ i, (i < length ss)%nat)
                   (seq keyframeIndex (decodeEndExclusive - keyframeIndex))).
  { apply Forall_seq. intros i Hi. lia. }
  induction Hall as [|i idxs Hi _ IH]; intros st; simpl.
  - rewrite app_nil_r. split; [done|]. exists []. by rewrite app_nil_r.
  - destruct (lookup_lt_is_Some_2 ss i Hi) as [sample Hs].
    destruct (submitSample_present i sample st Hs) as [Htr Hq].
    destruct (IH (submitSample dtf wanted dstate ss i st))
      as (Htr' & new & Hq' & Hidx & Htag).
    split.
    + rewrite Htr', Htr. by rewrite <- app_assoc.
    + exists (makeEntry dtf wanted (fs_nextEntry st) i sample :: new).
      split; [|split].
      * rewrite Hq', Hq. by rewrite <- app_assoc.
      * by rewrite fmap_cons, Hidx.
      * constructor; [apply makeEntry_tagged|done].
Qed.
End submit.

Lemma filter_Forall_id {A} (P : A → Prop) `{!∀ x, Decision (P x)}
    (l : list A) :
  Forall P l → filter P l = l.
Proof.
  induction 1 as [|x l Hx _ IH]; [done|].
  by rewrite filter_cons_True, IH.
Qed.

Section request.
Variables (ftd : list (option nat)) (start c : Z).
Hypothesis covered :
  ∀ f, start ≤ f < start + c → is_Some (js_index ftd f).

Lemma requestedFrames_covered :
  requestedFrames ftd start (start + c) = seqZ start c.
Proof.
  unfold requestedFrames. replace (start + c - start) with c by lia.
  apply filter_Forall_id, Forall_forall. intros f Hf.
  apply covered. apply elem_of_seqZ in Hf. lia.
Qed.

Lemma decodeIndicesFor_covered :
  Some <$> decodeIndicesFor ftd start (start + c)
  = js_index ftd <$> seqZ start c.
Proof.
  unfold decodeIndicesFor. replace (start + c - start) with c by lia.
  assert (Hall : Forall (λ f, is_Some (js_index ftd f)) (seqZ start c)).
  { apply Forall_forall. intros f Hf. apply covered.
    apply elem_of_seqZ in Hf. lia. }
  induction Hall as [|f fs [d Hd] _ IH]; [done|].
  change (omap (js_index ftd) (f :: fs))
    with (match js_index ftd f with
          | Some d => d :: omap (js_index ftd) fs
          | None => omap (js_index ftd) fs
          end).
  by rewrite Hd, !fmap_cons, IH, Hd.
Qed.
End request.

Lemma match_nonempty {A B} (l : list A) (x y : B) :
  l ≠ [] → match l with [] => x | _ :: _ => y end = y.
Proof. by destruct l. Qed.

Lemma feedBatch_submits w assetId addr asset start count :
  lookupAsset w assetId = Some (addr, asset) →
  timeline_built asset →
  overlapsFetch asset start count = false →
  hasFramesForRange asset start count = true →
  request_submitted w assetId start count.
Proof.
  intros Hlook (a0 & Hs0 & Hf0 & _) Hover Hgate.
  destruct (hasFramesForRange_true _ _ _ Hgate)
    as (c & -> & Hc & Hstart & Hend & Hcov).
  destruct (updatePresentationTimeline_tables a0)
    as (order & Hperm & Hftd & _ & _ & Hcount).
  rewrite <- Hf0 in Hftd.
  assert (Hcount' : sampleCount asset = sampleCount a0).
  { rewrite <- Hcount. unfold sampleCount. by rewrite Hs0. }
  clear Hcount. rename Hcount' into Hcount.
  (* the timeline is not empty, so the samples are there *)
  assert (Hlen : length (frameToDecode asset) = sampleCount asset).
  { rewrite Hftd, length_fmap, Hperm, length_seq. by rewrite Hcount. }
  assert (Hpos : (0 < length (frameToDecode asset))%nat) by lia.
  destruct (samples asset) as [ss|] eqn:Hss;
    [|unfold sampleCount in Hlen; rewrite Hss in Hlen; lia].
  assert (Hn : length ss = length (frameToDecode asset)).
  { unfold sampleCount in Hlen. by rewrite Hss in Hlen. }
  (* the decode indices of the request *)
  simpl jsnum_toZ.
  set (ds := decodeIndicesFor (frameToDecode asset) start (start + c)).
  pose proof (decodeIndicesFor_covered _ _ _ Hcov) as Hds. fold ds in Hds.
  assert (Hbound : Forall (λ d, (d < length ss)%nat) ds).
  { apply Forall_forall. intros d Hd.
    assert (Hin : Some d ∈ Some <$> ds) by by apply list_elem_of_fmap_2.
    rewrite Hds in Hin. apply list_elem_of_fmap in Hin as (f & Hf & _).
    unfold js_index in Hf. destruct (f <? 0); [done|].
    symmetry in Hf. rewrite Hftd, js_get_dense in Hf.
    assert (Hd' : d ∈ order) by by eapply list_elem_of_lookup_2.
    rewrite Hperm in Hd'. apply elem_of_seq in Hd'.
    rewrite Hn, Hlen, Hcount. lia. }
  assert (Hne : ds ≠ []).
  { intros Hnil. rewrite Hnil in Hds. rewrite seqZ_cons in Hds by lia.
    done. }
  assert (Hmax : (list_max ds < length ss)%nat).
  { apply list_max_bound; [lia|done]. }
  assert (Hminmax : (list_min ds ≤ list_max ds)%nat).
  { destruct ds as [|d ds'] eqn:Eds; [done|].
    etrans; [apply (list_min_lb _ d); by left|].
    apply list_max_ub. by left. }
  pose proof (findKeyframe_le ss (list_min ds)) as Hkf.
  (* run the feeder *)
  assert (Hrun :
    feedBatch assetId start (JInt c) w
    = let st := submitRange (decodeToFrame asset)
                  (requestedFrames (frameToDecode asset) start (start + c))
                  (decoders w !! decoder asset) ss
                  (findKeyframe ss (list_min ds)) (list_max ds + 1)
                  (mkFeedState
                     (set_currentFetchRange (Some (start, start + c - 1))
                        (set_pendingPrefetch None asset))
                     (nextEntry w) []) in
      (set_nextEntry (fs_nextEntry st) (storeAsset addr (fs_asset st) w),
       fs_trace st ++ [EvSetTimeout (ClearFetchRange addr) 100])).
  { unfold feedBatch. rewrite Hlook, Hover, Hss.
    destruct (Nat.eqb_spec (length (frameToDecode asset)) 0) as [E0|_];
      [lia|].
    rewrite Hgate. simpl negb. cbv beta iota zeta. simpl jsnum_toZ.
    rewrite (Z.min_l (start + c)) by lia.
    fold ds. rewrite (match_nonempty ds) by done.
    by rewrite (Nat.min_l (list_max ds + 1)) by lia. }
  assert (Hfit : (list_max ds + 1 ≤ length ss)%nat) by lia.
  destruct (submitRange_decoded (decodeToFrame asset)
              (requestedFrames (frameToDecode asset) start (start + c))
              (decoders w !! decoder asset) ss
              (findKeyframe ss (list_min ds)) (list_max ds + 1) Hfit
              (mkFeedState
                 (set_currentFetchRange (Some (start, start + c - 1))
                    (set_pendingPrefetch None asset))
                 (nextEntry w) []))
    as (Htrace & new & Hqueue & Hidx & Htag).
  eexists addr, asset, _, ss.
  split; [done|]. split; [done|]. split.
  { rewrite Hrun. simpl. apply lookup_insert_eq. }
  cbv zeta. simpl jsnum_toZ. fold ds.
  split; [done|]. split; [lia|]. split.
  { rewrite Hrun. simpl. unfold submitted in *.
    rewrite omap_app, Htrace. simpl. by rewrite app_nil_r. }
  exists new. split; [done|]. split; [done|].
  eapply Forall_impl; [exact Htag|].
  intros e [Hfi Hdel]. split; [done|]. rewrite Hdel.
  rewrite requestedFrames_covered by done.
  split; intros (f & Hf & Hin); exists f; (split; [done|]).
  - apply elem_of_seqZ in Hin. lia.
  - apply elem_of_seqZ. lia.
Qed.

Lemma lookupAsset_loadedWorld sampleList :
  lookupAsset (loadedWorld sampleList) "asset#2"
  = Some (0%nat, loadedAsset sampleList).
Proof. reflexivity. Qed.

Lemma lookupAsset_fetchingWorld sampleList fetchStart fetchEnd :
  lookupAsset (fetchingWorld sampleList fetchStart fetchEnd) "asset#2"
  = Some (0%nat,
          set_currentFetchRange (Some (fetchStart, fetchEnd))
            (loadedAsset sampleList)).
Proof. reflexivity. Qed.


(** ** The readiness gate in [feedBatch] *)

Lemma lookupAsset_Some w assetId addr asset :
  lookupAsset w assetId = Some (addr, asset) → objects w !! addr = Some asset.
Proof.
  unfold lookupAsset. destruct (videoAssets w) as [registry|]; [|done].
  destruct (registry !! assetId) as [addr'|]; [|done].
  destruct (objects w !! addr') as [asset'|] eqn:E; [|done].
  by intros [= <- <-].
Qed.

Lemma lookupAsset_storeAsset w assetId addr asset asset' :
  lookupAsset w assetId = Some (addr, asset) →
  lookupAsset (storeAsset addr asset' w) assetId = Some (addr, asset').
Proof.
  unfold lookupAsset, storeAsset. simpl.
  destruct (videoAssets w) as [registry|]; [|done].
  destruct (registry !! assetId) as [addr'|]; [|done].
  destruct (objects w !! addr') as [asset0|] eqn:E; [|done].
  intros [= <- <-]. by rewrite lookup_insert_eq.
Qed.

Lemma jsnum_strict_eq_true x y : jsnum_strict_eq x y = true → x = y.
Proof.
  destruct x, y; simpl; try done. intros H. f_equal. by apply Z.eqb_eq.
Qed.

(** After the gate has turned a request away the request is the pending
    one, whether it was recorded just now or before. *)
Lemma pending_recorded asset start count :
  pendingPrefetch
    (if pendingDiffers asset start count
     then set_pendingPrefetch (Some (start, count)) asset else asset)
  = Some (start, count).
Proof.
  unfold pendingDiffers.
  destruct (pendingPrefetch asset) as [[pstart pcount]|] eqn:E; [|done].
  destruct (Z.eqb_spec pstart start) as [->|]; [|done]. simpl.
  destruct (jsnum_strict_eq pcount count) eqn:Eq; [|done]. simpl.
  apply jsnum_strict_eq_true in Eq as ->. done.
Qed.

Lemma inFlight_pending asset start count :
  inFlight (if pendingDiffers asset start count
            then set_pendingPrefetch (Some (start, count)) asset else asset)
  = inFlight asset.
Proof. by destruct (pendingDiffers asset start count). Qed.

(** A request the gate turns away leaves every asset's queue, buckets and
    fetch range alone and hands nothing to the decoder. *)
Lemma feedBatch_gated w assetId addr asset start count :
  lookupAsset w assetId = Some (addr, asset) →
  hasFramesForRange asset start count = false →
  submitted (feedBatch assetId start count w).2 = [] ∧
  ∀ addr', inFlight <$> objects (feedBatch assetId start count w).1 !! addr'
           = inFlight <$> objects w !! addr'.
Proof.
  intros Hlook Hgate. unfold feedBatch. rewrite Hlook.
  destruct (overlapsFetch asset start count); [done|].
  destruct (samples asset) as [ss|]; [|done].
  destruct (length (frameToDecode asset) =? 0)%nat; [done|].
  rewrite Hgate. simpl. split.
  - by destruct (pendingDiffers asset start count).
  - intros addr'. destruct (decide (addr = addr')) as [<-|Hne].
    + rewrite lookup_insert_eq, (lookupAsset_Some _ _ _ _ Hlook). simpl.
      f_equal. apply inFlight_pending.
    + by rewrite lookup_insert_ne.
Qed.

(** C7, as stated, fails twice over.  Called before any sample has
    arrived, [feedBatch] returns at the "samples unavailable" guard: the
    request is neither recorded as pending nor retried.  And a retry finds
    its request already recorded as pending, so it schedules the next retry
    without flushing the demuxer: only the first attempt flushes. *)
Lemma gate_without_retry_or_flush :
  (feedBatch "asset#2" 0 (JInt 10) registeredWorld
   = (registeredWorld, [EvWarn "[feedBatch] Decoder or samples unavailable"]) ∧
   ¬ gated_with_retry registeredWorld "asset#2" 0 (JInt 10)) ∧
  (let w := loadedWorld (regularStream 3 1) in
   let first := feedBatch "asset#2" 5 (JInt 2) w in
   let retry := fireTimer (RetryFeedBatch "asset#2" 5 (JInt 2)) first.1 in
   flushes first.2 = 1%nat ∧
   timeouts first.2 = [(RetryFeedBatch "asset#2" 5 (JInt 2), 16)] ∧
   flushes retry.2 = 0%nat ∧
   ¬ gated_with_retry first.1 "asset#2" 5 (JInt 2)).
Proof.
  split.
  - split; [reflexivity|].
    intros (_ & _ & Htimeouts & _). vm_compute in Htimeouts. discriminate.
  - split; [by vm_compute|]. split; [by vm_compute|]. split; [by vm_compute|].
    intros (_ & _ & _ & Hflush). vm_compute in Hflush. discriminate.
Qed.

(** C7, amended. Whenever [feedBatch] is called for a registered asset
    before the timeline has a decode index for every frame of
    [[start, start + count)], it hands nothing to the decoder and leaves
    queue and fetch range alone.  If moreover samples have arrived, the
    timeline is not empty and no overlapping fetch is in flight, it leaves
    the request recorded as pending and schedules exactly one retry of the
    same request after 16 ms, which runs [feedBatch] again; the demuxer is
    flushed once if the request was not already the pending one, and not
    at all otherwise, as on a retry, which finds its request recorded. *)
Theorem readiness_gate (w : World) (assetId : string) (addr : nat)
    (asset : Asset) (start : Z) (count : jsnum) :
  lookupAsset w assetId = Some (addr, asset) →
  hasFramesForRange asset start count = false →
  let result := feedBatch assetId start count w in
  submitted result.2 = [] ∧
  (∀ addr', inFlight <$> objects result.1 !! addr'
            = inFlight <$> objects w !! addr') ∧
  (overlapsFetch asset start count = false →
   samples asset ≠ None →
   frameToDecode asset ≠ [] →
   (∃ asset', lookupAsset result.1 assetId = Some (addr, asset') ∧
              pendingPrefetch asset' = Some (start, count) ∧
              (isFinite count = true →
               pendingDiffers asset' start count = false)) ∧
   timeouts result.2 = [(RetryFeedBatch assetId start count, 16)] ∧
   flushes result.2
   = (if pendingDiffers asset start count then 1 else 0)%nat ∧
   ∀ w', fireTimer (RetryFeedBatch assetId start count) w'
         = feedBatch assetId start count w').
Proof.
  intros Hlook Hgate result.
  destruct (feedBatch_gated _ _ _ _ _ _ Hlook Hgate) as [Hsub Hsame].
  split; [done|]. split; [done|].
  intros Hover Hsamples Hftd. subst result. unfold feedBatch.
  rewrite Hlook, Hover.
  destruct (samples asset) as [ss|]; [|done].
  destruct (Nat.eqb_spec (length (frameToDecode asset)) 0) as [E0|_].
  { by destruct (frameToDecode asset). }
  rewrite Hgate. simpl. split; [|split; [|split]].
  - eexists. split; [by eapply lookupAsset_storeAsset|].
    split; [apply pending_recorded|].
    intros Hfin. unfold pendingDiffers at 1. rewrite pending_recorded.
    destruct count as [c| | |]; try done. simpl. by rewrite !Z.eqb_refl.
  - by destruct (pendingDiffers asset start count).
  - by destruct (pendingDiffers asset start count).
  - done.
Qed.

Lemma readiness_gate_witness :
  let w := loadedWorld (regularStream 3 1) in
  let result := feedBatch "asset#2" 5 (JInt 2) w in
  submitted result.2 = [] ∧
  timeouts result.2 = [(RetryFeedBatch "asset#2" 5 (JInt 2), 16)] ∧
  flushes result.2 = 1%nat.
Proof.
  intros w result.
  destruct (readiness_gate w "asset#2" 0%nat
              (loadedAsset (regularStream 3 1)) 5 (JInt 2))
    as (Hsub & _ & Hrest).
  - reflexivity.
  - vm_compute. reflexivity.
  - destruct Hrest as (_ & Htimeouts & Hflush & _).
    + reflexivity.
    + discriminate.
    + vm_compute. discriminate.
    + split; [exact Hsub|]. split; [exact Htimeouts | exact Hflush].
Defined.

(** C10. [hasFramesForRange] answers [false] whenever [count] is not
    finite or [count <= 0], whatever the asset and [start]; so a
    [feedBatch] call with such a count never hands a sample to the decoder,
    never queues an entry and never records an in-flight fetch range,
    however much of the timeline has been built. *)
Theorem nonpositive_count_inert (w : World) (assetId : string) (start : Z)
    (count : jsnum) :
  isFinite count = false ∨ jsnum_leZ count 0 = true →
  (∀ asset start', hasFramesForRange asset start' count = false) ∧
  submitted (feedBatch assetId start count w).2 = [] ∧
  ∀ addr, inFlight <$> objects (feedBatch assetId start count w).1 !! addr
          = inFlight <$> objects w !! addr.
Proof.
  intros Hcount.
  split; [intros; by apply hasFramesForRange_not_positive|].
  destruct (lookupAsset w assetId) as [[addr asset]|] eqn:Hlook.
  - apply (feedBatch_gated w assetId addr asset); [done|].
    by apply hasFramesForRange_not_positive.
  - unfold feedBatch. by rewrite Hlook.
Qed.

Lemma nonpositive_count_inert_witness :
  let w := loadedWorld (regularStream 300 30) in
  submitted (feedBatch "asset#2" 45 (JInt 0) w).2 = [] ∧
  submitted (feedBatch "asset#2" 45 (JInt (-3)) w).2 = [] ∧
  submitted (feedBatch "asset#2" 45 JNaN w).2 = [].
Proof.
  intros w. split; [|split].
  - apply (nonpositive_count_inert w "asset#2" 45 (JInt 0)). by right.
  - apply (nonpositive_count_inert w "asset#2" 45 (JInt (-3))). by right.
  - apply (nonpositive_count_inert w "asset#2" 45 JNaN). by left.
Defined.

(** ** The decoder output handler: closing the frame *)

(** Name the outcome of the call of [finishCopy] (of [canvasCopy]) the
    goal mentions, recording what [lemma] says about that call; [ok] is
    whether the canvas copy succeeded. *)
Ltac name_finishCopy lemma H :=
  match goal with
  | |- context [finishCopy ?a ?b ?c ?d ?e ?f ?g ?h ?i] =>
      pose proof (lemma a b c d e f g h i) as H;
      destruct (finishCopy a b c d e f g h i) as [? ?]
  end.

Ltac name_canvasCopy lemma H :=
  match goal with
  | |- context [canvasCopy ?a ?b ?c ?d ?e ?f] =>
      pose proof (lemma a b c d e f) as H;
      destruct (canvasCopy a b c d e f) as [[? ?] ok]
  end.

Lemma closes_app t1 t2 : closes (t1 ++ t2) = (closes t1 + closes t2)%nat.
Proof. unfold closes. by rewrite filter_app, length_app. Qed.

Lemma canvasCopies_app t1 t2 :
  canvasCopies (t1 ++ t2) = (canvasCopies t1 + canvasCopies t2)%nat.
Proof. unfold canvasCopies. by rewrite filter_app, length_app. Qed.

Lemma finishCopy_closes assetId addr asset target fw fh bytes ok w :
  closes (finishCopy assetId addr asset target fw fh bytes ok w).2 = 1%nat.
Proof.
  unfold finishCopy. destruct ok.
  - simpl. by destruct (surface (player w) && negb (playing (player w))).
  - destruct (ptr asset) as [p|]; [|done].
    by destruct (ptr_truthy (Some p)).
Qed.

Lemma canvasCopy_closes pf frame asset rect fw fh :
  closes (canvasCopy pf frame asset rect fw fh).1.2 = 0%nat.
Proof.
  unfold canvasCopy.
  destruct (canvas (ensureCanvasForAsset pf asset fw fh)); [|done].
  by destruct (canvasDrawOk frame).
Qed.

Lemma sizeBuffer_closes frame g asset :
  closes (sizeBuffer frame g asset).2 = 0%nat.
Proof.
  unfold sizeBuffer. destruct (useStrideSize asset); [done|].
  by destruct (allocationSize frame).
Qed.

(** Up to the copy, the frame is closed once if the handler ends there
    and not at all if it suspends. *)
Lemma deliverFrame_closes ld addr asset target frame w :
  closes (deliverFrame ld addr asset target frame w).1.2
  = match (deliverFrame ld addr asset target frame w).2 with
    | None => 1%nat
    | Some _ => 0%nat
    end.
Proof.
  unfold deliverFrame.
  destruct (isInitialPrefill asset
            && (initialPrefillFrames asset <=? currentPrefillIndex asset));
    [done|].
  cbv zeta.
  pose proof (sizeBuffer_closes frame (frameGeometry ld frame) asset) as Hsize.
  destruct (sizeBuffer frame (frameGeometry ld frame) asset)
    as [[bytes asset1] sizeEvents].
  simpl in Hsize.
  destruct (ensureBuffer bytes asset1 w) as [asset2 w1].
  destruct (copyMethod asset2) as [[|]|]; simpl.
  - by rewrite closes_app, Hsize.
  - name_canvasCopy canvasCopy_closes Hc.
    name_finishCopy finishCopy_closes Hf.
    simpl in *. rewrite !closes_app, Hsize, Hc, Hf. done.
  - by rewrite closes_app, Hsize.
Qed.

Lemma decoderOutput_begin_closes ld frame w :
  closes (decoderOutput_begin ld frame w).1.2
  = match (decoderOutput_begin ld frame w).2 with
    | None => 1%nat
    | Some _ => 0%nat
    end.
Proof.
  unfold decoderOutput_begin.
  destruct (lookupAsset w (ld_assetId ld)) as [[addr asset]|]; [|done].
  destruct (matchOutput asset (vf_timestamp frame)) as [[entry|] asset1].
  - destruct (deliver entry); simpl; [|done].
    match goal with
    | |- context [deliverFrame ?l ?a ?s ?t ?f ?w] =>
        pose proof (deliverFrame_closes l a s t f w) as H;
        destruct (deliverFrame l a s t f w) as [[w1 events] suspended]
    end.
    done.
  - match goal with
    | |- context [deliverFrame ?l ?a ?s ?t ?f ?w] =>
        pose proof (deliverFrame_closes l a s t f w) as H;
        destruct (deliverFrame l a s t f w) as [[w1 events] suspended]
    end.
    simpl in *. done.
Qed.

Lemma decoderOutput_resume_closes ld k w :
  closes (decoderOutput_resume ld k w).2 = 1%nat.
Proof.
  unfold decoderOutput_resume.
  destruct (objects w !! su_addr k) as [asset|]; [|done].
  destruct (copyToOk (su_frame k)).
  - set (cached := match copyMethod asset with None => _ | Some _ => _ end).
    assert (Hc : closes cached.2 = 0%nat).
    { subst cached. by destruct (copyMethod asset). }
    destruct cached as [asset1 events].
    name_finishCopy finishCopy_closes Hf.
    simpl in *. rewrite closes_app, Hc, Hf. done.
  - set (cached := match copyMethod asset with None => _ | Some _ => _ end).
    assert (Hc : closes cached.2 = 0%nat).
    { subst cached. by destruct (copyMethod asset). }
    destruct cached as [asset1 events].
    name_canvasCopy canvasCopy_closes Hcc.
    name_finishCopy finishCopy_closes Hf.
    simpl in *. rewrite !closes_app, Hc, Hcc, Hf. done.
Qed.

(** The handler when every call it makes outside a [try] returns: a run
    that does not suspend closes the frame once; a run that suspends at
    the direct copy has not closed it yet, and closes it once when it
    resumes, whatever has happened to the world in between. *)
Lemma handler_closes_once :
  (∀ ld frame w, closes (decoderOutput ld frame w).2 = 1%nat) ∧
  (∀ ld frame w,
     match (decoderOutput_begin ld frame w).2 with
     | None => closes (decoderOutput_begin ld frame w).1.2 = 1%nat
     | Some k =>
         closes (decoderOutput_begin ld frame w).1.2 = 0%nat ∧
         ∀ ld' w', closes (decoderOutput_resume ld' k w').2 = 1%nat
     end).
Proof.
  split.
  - intros ld frame w. unfold decoderOutput.
    pose proof (decoderOutput_begin_closes ld frame w) as Hb.
    destruct (decoderOutput_begin ld frame w) as [[[ld1 w1] events] [k|]];
      simpl in *; [|done].
    pose proof (decoderOutput_resume_closes ld1 k w1) as Hr.
    destruct (decoderOutput_resume ld1 k w1) as [w2 rest]. simpl in *.
    rewrite closes_app. lia.
  - intros ld frame w.
    pose proof (decoderOutput_begin_closes ld frame w) as Hb.
    destruct ((decoderOutput_begin ld frame w).2) as [k|]; [|done].
    split; [done|]. intros ld' w'. apply decoderOutput_resume_closes.
Qed.

(** *** Every way out of the handler *)

Lemma returning_fields nv :
  returning nv = true →
  nv_malloc nv ≠ Aborts ∧ nv_free nv = true ∧ nv_view nv = true ∧
  nv_onPrefetchFrame nv = true ∧ nv_render nv = true.
Proof.
  unfold returning. destruct (nv_malloc nv); try done;
    by intros [[[? ?]%andb_true_iff ?]%andb_true_iff ?]%andb_true_iff.
Qed.

Lemma finishCopy_in_closes nv assetId addr asset target fw fh bytes ok w :
  let result := finishCopy_in nv assetId addr asset target fw fh bytes ok w in
  closes result.1.2 = match result.2 with Returned => 1%nat | _ => 0%nat end ∧
  (returning nv = true → result.2 = Returned) ∧
  (∀ k, result.2 ≠ Awaiting k).
Proof.
  unfold finishCopy_in. destruct ok.
  - destruct (nv_onPrefetchFrame nv) eqn:Hp; simpl.
    + destruct (surface (player w) && negb (playing (player w))); simpl.
      * destruct (nv_render nv) eqn:Hr; simpl.
        -- split; [done|]. by split.
        -- split; [done|]. split; [|done].
           intros (_ & _ & _ & _ & ?)%returning_fields. congruence.
      * split; [done|]. by split.
    + split; [done|]. split; [|done].
      intros (_ & _ & _ & ? & _)%returning_fields. congruence.
  - destruct (ptr_truthy (ptr asset) && negb (nv_free nv)) eqn:Hfree.
    + cbv zeta. cbn [fst snd]. split; [done|]. split; [|done].
      intros (_ & Hf & _)%returning_fields. rewrite Hf in Hfree.
      by rewrite andb_false_r in Hfree.
    + cbv zeta. cbn [fst snd].
      split; [apply (finishCopy_closes _ _ _ _ _ _ _ false)|]. by split.
Qed.

Lemma ensureBuffer_in_exit nv bytes asset w :
  (returning nv = true → (ensureBuffer_in nv bytes asset w).2 = Returned) ∧
  (∀ k, (ensureBuffer_in nv bytes asset w).2 ≠ Awaiting k).
Proof.
  unfold ensureBuffer_in.
  destruct (negb (ptr_truthy (ptr asset)) || (frameBytes asset <? bytes)%N);
    [|done].
  destruct (ptr_truthy (ptr asset) && negb (nv_free nv)) eqn:Hfree.
  - split; [|done]. intros (_ & Hf & _)%returning_fields.
    rewrite Hf in Hfree. by rewrite andb_false_r in Hfree.
  - split.
    + intros (Hm & _)%returning_fields. by destruct (nv_malloc nv).
    + by destruct (nv_malloc nv).
Qed.

(** Up to the copy: the frame is closed once if the handler returns
    there, and not at all if it suspends or is left by an exception. *)
Lemma deliverFrame_in_closes nv ld addr asset target frame w :
  let result := deliverFrame_in nv ld addr asset target frame w in
  closes result.1.2 = match result.2 with Returned => 1%nat | _ => 0%nat end ∧
  (returning nv = true → result.2 ≠ Thrown).
Proof.
  unfold deliverFrame_in.
  destruct (isInitialPrefill asset
            && (initialPrefillFrames asset <=? currentPrefillIndex asset));
    [done|].
  cbv zeta.
  pose proof (sizeBuffer_closes frame (frameGeometry ld frame) asset) as Hsize.
  destruct (sizeBuffer frame (frameGeometry ld frame) asset)
    as [[bytes asset1] sizeEvents].
  simpl in Hsize.
  destruct (ensureBuffer_in_exit nv bytes asset1 w) as [Hret Hnot].
  destruct (ensureBuffer_in nv bytes asset1 w) as [[asset2 w1] exit].
  simpl in Hret, Hnot.
  assert (Hview : returning nv = true → nv_view nv = true).
  { by intros (_ & _ & ? & _)%returning_fields. }
  assert (Hrest :
    let result :=
      if negb (nv_view nv)
      then (storeAsset addr asset2 w1, sizeEvents, Thrown)
      else
        match copyMethod asset2 with
        | Some Canvas =>
            let '(asset3, copyEvents, copySucceeded) :=
              canvasCopy (platform w1) frame asset2
                (g_rect (frameGeometry ld frame))
                (g_frameWidth (frameGeometry ld frame))
                (g_frameHeight (frameGeometry ld frame)) in
            let '(w2, endEvents, exit) :=
              finishCopy_in nv (ld_assetId ld) addr asset3 target
                (g_frameWidth (frameGeometry ld frame))
                (g_frameHeight (frameGeometry ld frame)) bytes
                copySucceeded w1 in
            (w2, sizeEvents ++ copyEvents ++ endEvents, exit)
        | _ =>
            (storeAsset addr asset2 w1,
             sizeEvents ++ [EvCopyTo (g_rect (frameGeometry ld frame))],
             Awaiting
               (mkSuspended addr frame target
                  (g_rect (frameGeometry ld frame))
                  (g_frameWidth (frameGeometry ld frame))
                  (g_frameHeight (frameGeometry ld frame)) bytes))
        end in
    closes result.1.2
    = match result.2 with Returned => 1%nat | _ => 0%nat end ∧
    (returning nv = true → result.2 ≠ Thrown)).
  { destruct (nv_view nv) eqn:Hv; simpl.
    - destruct (copyMethod asset2) as [[|]|]; simpl.
      + by rewrite closes_app, Hsize.
      + name_canvasCopy canvasCopy_closes Hc.
        match goal with
        | |- context [finishCopy_in ?n ?a ?b ?c ?d ?e ?f ?g ?h ?i] =>
            destruct (finishCopy_in_closes n a b c d e f g h i)
              as (Hf & Hfr & _);
            destruct (finishCopy_in n a b c d e f g h i) as [[w2 ends] ex]
        end.
        simpl in *. rewrite !closes_app, Hsize, Hc, Hf.
        split; [done|]. intros Hr. by rewrite (Hfr Hr).
      + by rewrite closes_app, Hsize.
    - split; [done|]. intros Hr. apply Hview in Hr. congruence. }
  destruct exit; [exact Hrest|by destruct (Hnot k)|].
  simpl. split; [done|]. intros Hr. by specialize (Hret Hr).
Qed.

Lemma decoderOutput_begin_in_closes nv ld frame w :
  let result := decoderOutput_begin_in nv ld frame w in
  closes result.1.2 = match result.2 with Returned => 1%nat | _ => 0%nat end ∧
  (returning nv = true → result.2 ≠ Thrown).
Proof.
  unfold decoderOutput_begin_in.
  destruct (lookupAsset w (ld_assetId ld)) as [[addr asset]|]; [|done].
  destruct (matchOutput asset (vf_timestamp frame)) as [[entry|] asset1].
  - destruct (deliver entry); simpl; [|done].
    match goal with
    | |- context [deliverFrame_in ?n ?l ?a ?s ?t ?f ?w] =>
        pose proof (deliverFrame_in_closes n l a s t f w) as H;
        destruct (deliverFrame_in n l a s t f w) as [[w1 events] exit]
    end.
    done.
  - match goal with
    | |- context [deliverFrame_in ?n ?l ?a ?s ?t ?f ?w] =>
        pose proof (deliverFrame_in_closes n l a s t f w) as H;
        destruct (deliverFrame_in n l a s t f w) as [[w1 events] exit]
    end.
    simpl in *. done.
Qed.

Lemma decoderOutput_resume_in_closes nv ld k w :
  let result := decoderOutput_resume_in nv ld k w in
  closes result.1.2 = match result.2 with Returned => 1%nat | _ => 0%nat end ∧
  (returning nv = true → result.2 = Returned) ∧
  (∀ k', result.2 ≠ Awaiting k').
Proof.
  unfold decoderOutput_resume_in.
  destruct (objects w !! su_addr k) as [asset|]; [|done].
  destruct (copyToOk (su_frame k)).
  - set (cached := match copyMethod asset with None => _ | Some _ => _ end).
    assert (Hc : closes cached.2 = 0%nat).
    { subst cached. by destruct (copyMethod asset). }
    destruct cached as [asset1 events].
    match goal with
    | |- context [finishCopy_in ?n ?a ?b ?c ?d ?e ?f ?g ?h ?i] =>
        destruct (finishCopy_in_closes n a b c d e f g h i) as (Hf & Hfr & Hfa);
        destruct (finishCopy_in n a b c d e f g h i) as [[w2 ends] ex]
    end.
    simpl in *. by rewrite closes_app, Hc, Hf.
  - set (cached := match copyMethod asset with None => _ | Some _ => _ end).
    assert (Hc : closes cached.2 = 0%nat).
    { subst cached. by destruct (copyMethod asset). }
    destruct cached as [asset1 events].
    name_canvasCopy canvasCopy_closes Hcc.
    match goal with
    | |- context [finishCopy_in ?n ?a ?b ?c ?d ?e ?f ?g ?h ?i] =>
        destruct (finishCopy_in_closes n a b c d e f g h i) as (Hf & Hfr & Hfa);
        destruct (finishCopy_in n a b c d e f g h i) as [[w2 ends] ex]
    end.
    simpl in *. by rewrite !closes_app, Hc, Hcc, Hf.
Qed.

(** *** The handler of the source as a case of the general one *)

Lemma quiet_fields nv :
  quiet nv = true →
  nv_malloc nv = Allocates ∧ nv_free nv = true ∧ nv_view nv = true ∧
  nv_onPrefetchFrame nv = true ∧ nv_render nv = true.
Proof.
  unfold quiet. destruct (nv_malloc nv); try done.
  by intros [[[? ?]%andb_true_iff ?]%andb_true_iff ?]%andb_true_iff.
Qed.

Lemma finishCopy_in_quiet nv assetId addr asset target fw fh bytes ok w :
  quiet nv = true →
  finishCopy_in nv assetId addr asset target fw fh bytes ok w
  = (finishCopy assetId addr asset target fw fh bytes ok w, Returned).
Proof.
  intros (_ & Hf & _ & Hp & Hr)%quiet_fields. unfold finishCopy_in.
  rewrite Hp, Hr, Hf. simpl. rewrite !andb_false_r. by destruct ok.
Qed.

Lemma ensureBuffer_in_quiet nv bytes asset w :
  quiet nv = true →
  ensureBuffer_in nv bytes asset w = (ensureBuffer bytes asset w, Returned).
Proof.
  intros (Hm & Hf & _)%quiet_fields. unfold ensureBuffer_in, ensureBuffer.
  rewrite Hm, Hf. cbn [negb]. rewrite andb_false_r.
  destruct (negb (ptr_truthy (ptr asset)) || (frameBytes asset <? bytes)%N);
    [|done].
  by destruct (malloc _ _).
Qed.

Lemma deliverFrame_in_quiet nv ld addr asset target frame w :
  quiet nv = true →
  deliverFrame_in nv ld addr asset target frame w
  = ((deliverFrame ld addr asset target frame w).1,
     exitOf (deliverFrame ld addr asset target frame w).2).
Proof.
  intros Hq. unfold deliverFrame_in, deliverFrame.
  destruct (isInitialPrefill asset
            && (initialPrefillFrames asset <=? currentPrefillIndex asset));
    [done|].
  cbv zeta.
  destruct (sizeBuffer frame (frameGeometry ld frame) asset)
    as [[bytes asset1] sizeEvents].
  rewrite (ensureBuffer_in_quiet _ _ _ _ Hq).
  destruct (ensureBuffer bytes asset1 w) as [asset2 w1].
  destruct (quiet_fields nv Hq) as (_ & _ & -> & _). simpl.
  destruct (copyMethod asset2) as [[|]|]; [done| |done].
  destruct (canvasCopy _ _ _ _ _ _) as [[asset3 copyEvents] ok].
  rewrite (finishCopy_in_quiet _ _ _ _ _ _ _ _ _ _ Hq).
  by destruct (finishCopy _ _ _ _ _ _ _ _ _).
Qed.

Lemma decoderOutput_begin_in_quiet nv ld frame w :
  quiet nv = true →
  decoderOutput_begin_in nv ld frame w
  = ((decoderOutput_begin ld frame w).1,
     exitOf (decoderOutput_begin ld frame w).2).
Proof.
  intros Hq. unfold decoderOutput_begin_in, decoderOutput_begin.
  destruct (lookupAsset w (ld_assetId ld)) as [[addr asset]|]; [|done].
  destruct (matchOutput asset (vf_timestamp frame)) as [[entry|] asset1].
  - destruct (deliver entry); simpl; [|done].
    rewrite (deliverFrame_in_quiet _ _ _ _ _ _ _ Hq).
    by destruct (deliverFrame _ _ _ _ _ _) as [[w1 events] suspended].
  - cbv zeta. rewrite (deliverFrame_in_quiet _ _ _ _ _ _ _ Hq).
    by destruct (deliverFrame _ _ _ _ _ _) as [[w1 events] suspended].
Qed.

Lemma decoderOutput_resume_in_quiet nv ld k w :
  quiet nv = true →
  decoderOutput_resume_in nv ld k w = (decoderOutput_resume ld k w, Returned).
Proof.
  intros Hq. unfold decoderOutput_resume_in, decoderOutput_resume.
  destruct (objects w !! su_addr k) as [asset|]; [|done].
  destruct (copyToOk (su_frame k)).
  - destruct (match copyMethod asset with None => _ | Some _ => _ end)
      as [asset1 events].
    rewrite (finishCopy_in_quiet _ _ _ _ _ _ _ _ _ _ Hq).
    by destruct (finishCopy _ _ _ _ _ _ _ _ _).
  - destruct (match copyMethod asset with None => _ | Some _ => _ end)
      as [asset1 events].
    destruct (canvasCopy _ _ _ _ _ _) as [[asset2 copyEvents] ok].
    rewrite (finishCopy_in_quiet _ _ _ _ _ _ _ _ _ _ Hq).
    by destruct (finishCopy _ _ _ _ _ _ _ _ _).
Qed.

(** When the allocator hands out a block and every call returns, the
    general handler is the handler of the source. *)
Lemma decoderOutput_in_quiet nv ld frame w :
  quiet nv = true →
  decoderOutput_in nv ld frame w = (decoderOutput ld frame w, Returned).
Proof.
  intros Hq. unfold decoderOutput_in, decoderOutput.
  rewrite (decoderOutput_begin_in_quiet _ _ _ _ Hq).
  destruct (decoderOutput_begin ld frame w) as [[[ld1 w1] events] [k|]];
    simpl; [|done].
  rewrite (decoderOutput_resume_in_quiet _ _ _ _ Hq).
  by destruct (decoderOutput_resume ld1 k w1).
Qed.

(** C8. The decoded frame is closed exactly once on every path through
    the output handler on which the calls it makes outside a [try]
    ([_free], [_malloc], the [Uint8Array] view, [onPrefetchFrame],
    [render])
    return: missing asset, non-deliverable skip, warm-up drop, copy failure
    and successful delivery, also when the handler suspends at the direct
    copy and resumes on a world that has changed in between.  A run that
    one of these calls leaves by an exception has not closed the frame,
    and no run closes it twice. *)
Theorem frame_closed_once_on_return :
  (∀ nv ld frame w,
     let result := decoderOutput_in nv ld frame w in
     closes result.1.2
     = match result.2 with Returned => 1%nat | _ => 0%nat end ∧
     (returning nv = true → result.2 = Returned) ∧
     (quiet nv = true → result = (decoderOutput ld frame w, Returned))) ∧
  (∀ nv ld frame w,
     let result := decoderOutput_begin_in nv ld frame w in
     (returning nv = true → result.2 ≠ Thrown) ∧
     match result.2 with
     | Returned => closes result.1.2 = 1%nat
     | Thrown => closes result.1.2 = 0%nat
     | Awaiting k =>
         closes result.1.2 = 0%nat ∧
         ∀ nv' ld' w',
           let rest := decoderOutput_resume_in nv' ld' k w' in
           closes rest.1.2
           = match rest.2 with Returned => 1%nat | _ => 0%nat end ∧
           (returning nv' = true → rest.2 = Returned)
     end) ∧
  (∀ ld frame w, closes (decoderOutput ld frame w).2 = 1%nat) ∧
  (∀ ld frame w,
     match (decoderOutput_begin ld frame w).2 with
     | None => closes (decoderOutput_begin ld frame w).1.2 = 1%nat
     | Some k =>
         closes (decoderOutput_begin ld frame w).1.2 = 0%nat ∧
         ∀ ld' w', closes (decoderOutput_resume ld' k w').2 = 1%nat
     end).
Proof.
  split; [|split; [|exact handler_closes_once]].
  - intros nv ld frame w result. subst result.
    split; [|split; [|apply decoderOutput_in_quiet]].
    + unfold decoderOutput_in.
      destruct (decoderOutput_begin_in_closes nv ld frame w) as [Hb _].
      destruct (decoderOutput_begin_in nv ld frame w)
        as [[[ld1 w1] events] [|k|]]; simpl in *; [done| |done].
      destruct (decoderOutput_resume_in_closes nv ld1 k w1) as (Hr & _ & _).
      destruct (decoderOutput_resume_in nv ld1 k w1) as [[w2 rest] exit].
      simpl in *. rewrite closes_app, Hb, Hr. done.
    + intros Hret. unfold decoderOutput_in.
      destruct (decoderOutput_begin_in_closes nv ld frame w) as [_ Hb].
      specialize (Hb Hret).
      destruct (decoderOutput_begin_in nv ld frame w)
        as [[[ld1 w1] events] [|k|]]; simpl in *; [done| |done].
      destruct (decoderOutput_resume_in_closes nv ld1 k w1) as (_ & Hr & _).
      specialize (Hr Hret).
      by destruct (decoderOutput_resume_in nv ld1 k w1) as [[w2 rest] exit].
  - intros nv ld frame w result. subst result.
    destruct (decoderOutput_begin_in_closes nv ld frame w) as [Hb Hret].
    split; [done|].
    destruct ((decoderOutput_begin_in nv ld frame w).2) as [|k|];
      [done| |done].
    split; [done|]. intros nv' ld' w' rest. subst rest.
    destruct (decoderOutput_resume_in_closes nv' ld' k w') as (Hr & Hr' & _).
    by split.
Qed.

(** With nothing else amiss, [onPrefetchFrame] throwing leaves the frame
    that was just copied unclosed. *)
Lemma frame_open_after_throw :
  ¬ closed_exactly_once throwingEngine (startLoad "asset#2")
      (demoFrame 0 true) requestedWorld.
Proof. unfold closed_exactly_once. vm_compute. discriminate. Qed.

Example throwing_call_skips_close :
  let result :=
    decoderOutput_in throwingEngine (startLoad "asset#2") (demoFrame 0 true)
      requestedWorld in
  result.2 = Thrown ∧ delivered result.1.2 = [0%nat] ∧
  closes result.1.2 = 0%nat ∧
  closes (decoderOutput (startLoad "asset#2") (demoFrame 0 true)
            requestedWorld).2 = 1%nat.
Proof. by vm_compute. Qed.

(** ** Disposal *)

Lemma lookupAsset_None_dispose w :
  lookupAsset w (videoAssetId (player w)) = None →
  disposeVideoAsset w = (w, []).
Proof.
  unfold disposeVideoAsset. intros Hnone.
  destruct (videoAssets w); [|done]. by rewrite Hnone.
Qed.

(** What disposing a registered asset amounts to. *)
Lemma disposeVideoAsset_registered w assets addr asset :
  videoAssets w = Some assets →
  lookupAsset w (videoAssetId (player w)) = Some (addr, asset) →
  let w1 := (disposeVideoAsset w).1 in
  videoAssets w1 = Some (delete (videoAssetId (player w)) assets) ∧
  videoAssetId (player w1) = videoAssetId (player w) ∧
  decoders w1 !! decoder asset
  = (λ _, Closed) <$> decoders w !! decoder asset ∧
  (∀ p, ptr asset = Some p → ptr_truthy (ptr asset) = true →
        wasmLive w1 !! p = None) ∧
  ∃ asset', objects w1 !! addr = Some asset' ∧
            ptr_truthy (ptr asset') = false ∧
            decodeQueue asset' = [] ∧
            pendingPrefetch asset' = None ∧
            canvas asset' = None.
Proof.
  intros Hreg Hlook. unfold disposeVideoAsset. rewrite Hreg, Hlook.
  set (closed := if bool_decide _ then _ else _).
  assert (Hclosed :
    decoders closed.1 !! decoder asset
    = (λ _, Closed) <$> decoders w !! decoder asset ∧
    wasmLive closed.1 = wasmLive w ∧ objects closed.1 = objects w ∧
    videoAssets closed.1 = videoAssets w ∧ player closed.1 = player w).
  { subst closed. case_bool_decide as Hc; simpl.
    - by rewrite Hc.
    - unfold closeDecoder.
      destruct (decoders w !! decoder asset) as [[ | | ]|] eqn:Ed; simpl;
        try done; by rewrite lookup_insert_eq. }
  destruct closed as [w1 closeEvents]. simpl in Hclosed.
  destruct Hclosed as (Hdec & Hlive & Hobj & Hassets & Hplayer).
  set (freed := match ptr asset with Some p => _ | None => _ end).
  assert (Hfreed :
    ptr_truthy (ptr freed.1) = false ∧
    decoders freed.2 = decoders w1 ∧
    (∀ p, ptr asset = Some p → ptr_truthy (ptr asset) = true →
          wasmLive freed.2 !! p = None) ∧
    player freed.2 = player w1).
  { subst freed. destruct (ptr asset) as [p|] eqn:Ep.
    - destruct (ptr_truthy (Some p)) eqn:Et; simpl.
      + repeat split; try done. intros p' [= <-] _. apply lookup_delete_eq.
      + rewrite Ep. repeat split; try done.
    - simpl. rewrite Ep. repeat split; try done. }
  destruct freed as [asset1 w2]. simpl in Hfreed.
  destruct Hfreed as (Hptr & Hdec2 & Hgone & Hplayer2).
  simpl. rewrite Hplayer2, Hplayer.
  split; [done|]. split; [done|]. split; [by rewrite Hdec2|].
  split; [done|].
  eexists. split; [apply lookup_insert_eq|]. done.
Qed.

(** C9. Disposal leaves no asset registered under the player's asset
    identifier, the asset's decoder closed and its pixel buffer released;
    it is a no-op, without any event, when no asset is registered, and
    so in particular when called a second time in a row; and when the
    decoder is already closed it does not call [close] on it again (the
    one call that could throw sits inside a [try], so disposal never
    raises).  *)
Theorem disposal_idempotent (w : World) :
  let id := videoAssetId (player w) in
  let w1 := (disposeVideoAsset w).1 in
  lookupAsset w1 id = None ∧
  disposeVideoAsset w1 = (w1, []) ∧
  (lookupAsset w id = None → disposeVideoAsset w = (w, [])) ∧
  (∀ addr asset,
     lookupAsset w id = Some (addr, asset) →
     decoders w1 !! decoder asset
     = (λ _, Closed) <$> decoders w !! decoder asset ∧
     (∀ p, ptr asset = Some p → ptr_truthy (ptr asset) = true →
           wasmLive w1 !! p = None) ∧
     (∃ asset', objects w1 !! addr = Some asset' ∧
                ptr_truthy (ptr asset') = false ∧
                decodeQueue asset' = []) ∧
     (decoders w !! decoder asset = Some Closed →
      (disposeVideoAsset w).2
      = if canvasCleanup asset then [EvCanvasCleanup] else [])).
Proof.
  intros id w1.
  assert (Hgone : lookupAsset w1 id = None ∧
                  videoAssetId (player w1) = id).
  { subst w1 id.
    destruct (lookupAsset w (videoAssetId (player w))) as [[addr asset]|]
      eqn:Hlook.
    - destruct (videoAssets w) as [assets|] eqn:Hreg;
        [|by unfold lookupAsset in Hlook; rewrite Hreg in Hlook].
      destruct (disposeVideoAsset_registered w assets addr asset Hreg Hlook)
        as (Hreg1 & Hid & _).
      split; [|done]. unfold lookupAsset. rewrite Hreg1.
      by rewrite lookup_delete_eq.
    - by rewrite (lookupAsset_None_dispose w Hlook). }
  destruct Hgone as [Hgone Hid].
  split; [done|]. split.
  { apply lookupAsset_None_dispose. by rewrite Hid. }
  split; [apply lookupAsset_None_dispose|].
  intros addr asset Hlook. subst w1 id.
  destruct (videoAssets w) as [assets|] eqn:Hreg;
    [|by unfold lookupAsset in Hlook; rewrite Hreg in Hlook].
  destruct (disposeVideoAsset_registered w assets addr asset Hreg Hlook)
    as (_ & _ & Hdec & Hfree & asset' & Hobj & Hptr & Hq & _).
  split; [done|]. split; [done|]. split; [by exists asset'|].
  intros Hclosed. unfold disposeVideoAsset. rewrite Hreg, Hlook.
  rewrite bool_decide_eq_true_2 by done.
  destruct (ptr asset) as [p|]; [|done].
  by destruct (ptr_truthy (Some p)).
Qed.

Lemma disposal_idempotent_witness :
  let w := loadedWorld (regularStream 3 1) in
  let w1 := (disposeVideoAsset w).1 in
  lookupAsset w1 "asset#2" = None ∧
  disposeVideoAsset w1 = (w1, []) ∧
  decoders w1 !! 0%nat = Some Closed ∧
  wasmLive w1 !! 1%N = None.
Proof.
  intros w w1.
  destruct (disposal_idempotent w) as (Hgone & Htwice & _ & Hreg).
  destruct (Hreg 0%nat (loadedAsset (regularStream 3 1)))
    as (Hdec & Hfree & _).
  - reflexivity.
  - split; [exact Hgone|]. split; [exact Htwice|]. split.
    + exact Hdec.
    + apply Hfree; reflexivity.
Defined.

(** ** Load failures *)

Lemma reject_pending reason ld :
  ld_promise ld = Pending →
  ld_promise (reject reason ld).1 = Rejected reason ∧
  ld_assetId (reject reason ld).1 = ld_assetId ld ∧
  (reject reason ld).2 = [EvReject reason].
Proof. unfold reject. by intros ->. Qed.

(** C5, as stated, fails: a parse error, or a decoder error reported
    through the decoder's error callback, that arrives after [onReady] has
    registered the asset rejects the promise but leaves the asset
    registered; nothing on the failure paths deregisters it. *)
Lemma failure_leaves_asset_registered :
  let ready := onReady [audioTrack; demoTrack] (startLoad "asset#2")
                 blankWorld in
  let parseFailed := onError "invalid box size" ready.1.1 ready.1.2 in
  let decoderFailed :=
    decoderError "NotSupportedError" ready.1.1 ready.1.2 in
  ld_promise ready.1.1 = Pending ∧
  ld_promise parseFailed.1.1 = Rejected "MP4Box error: invalid box size" ∧
  is_Some (lookupAsset parseFailed.1.2 "asset#2") ∧
  ¬ failed_cleanly parseFailed.1.1 parseFailed.1.2 ∧
  ld_promise decoderFailed.1.1
  = Rejected "VideoDecoder error: NotSupportedError" ∧
  ¬ failed_cleanly decoderFailed.1.1 decoderFailed.1.2.
Proof.
  split; [by vm_compute|]. split; [by vm_compute|].
  split; [by vm_compute; eexists|]. split.
  - intros [_ Hnone]. vm_compute in Hnone. discriminate.
  - split; [by vm_compute|].
    intros [_ Hnone]. vm_compute in Hnone. discriminate.
Qed.

(** C5, amended. While the preparation promise is pending, every fatal
    load failure rejects it with a descriptive message: "No video track
    found." when the container has no video track, the decoder's message
    when [configure] throws, "MP4Box error: ..." on a parse error and
    "VideoDecoder error: ..." on a decoder error.  None of them registers
    an asset, and none deregisters one: the registry is left as it was, so
    a failure before [onReady] has registered the asset leaves none
    registered, and a failure after it leaves that asset registered. *)
Theorem load_failure_rejects (ld : Load) (w : World) :
  ld_promise ld = Pending →
  (∀ tracks, List.find tr_video tracks = None →
     ld_promise (onReady tracks ld w).1.1 = Rejected "No video track found." ∧
     (onReady tracks ld w).1.2 = w) ∧
  (∀ tracks videoTrack msg,
     List.find tr_video tracks = Some videoTrack →
     tr_configureThrows videoTrack = Some msg →
     ld_promise (onReady tracks ld w).1.1 = Rejected msg ∧
     videoAssets (onReady tracks ld w).1.2 = videoAssets w ∧
     objects (onReady tracks ld w).1.2 = objects w) ∧
  (∀ e, ld_promise (onError e ld w).1.1 = Rejected ("MP4Box error: " ++ e) ∧
        (onError e ld w).1.2 = w) ∧
  (∀ e, ld_promise (decoderError e ld w).1.1
        = Rejected ("VideoDecoder error: " ++ e) ∧
        (decoderError e ld w).1.2 = w).
Proof.
  intros Hpending. split; [|split; [|split]].
  - intros tracks Hfind. unfold onReady. rewrite Hfind.
    destruct (reject_pending "No video track found." ld Hpending)
      as (Hp & _ & _).
    by destruct (reject "No video track found." ld).
  - intros tracks videoTrack msg Hfind Hthrows. unfold onReady.
    rewrite Hfind, Hthrows. cbv zeta. unfold malloc.
    destruct (reject_pending msg ld Hpending) as (Hp & _ & _).
    by destruct (reject msg ld).
  - intros e. unfold onError.
    destruct (reject_pending ("MP4Box error: " ++ e) ld Hpending)
      as (Hp & _ & _).
    by destruct (reject ("MP4Box error: " ++ e) ld).
  - intros e. unfold decoderError.
    destruct (reject_pending ("VideoDecoder error: " ++ e) ld Hpending)
      as (Hp & _ & _).
    by destruct (reject ("VideoDecoder error: " ++ e) ld).
Qed.

Lemma load_failure_rejects_witness :
  ld_promise (onReady [audioTrack] (startLoad "asset#2") blankWorld).1.1
  = Rejected "No video track found." ∧
  lookupAsset (onReady [audioTrack] (startLoad "asset#2") blankWorld).1.2
    "asset#2" = None.
Proof.
  destruct (load_failure_rejects (startLoad "asset#2") blankWorld)
    as (Hnotrack & _).
  - reflexivity.
  - destruct (Hnotrack [audioTrack]) as [Hp Hw].
    + reflexivity.
    + split; [exact Hp|]. rewrite Hw. reflexivity.
Defined.

(** ** The cached copy method *)

Lemma succeeds_refl a : succeeds a a.
Proof. by split. Qed.

Lemma succeeds_trans a1 a2 a3 : succeeds a1 a2 → succeeds a2 a3 → succeeds a1 a3.
Proof. intros [Hm1 Hb1] [Hm2 Hb2]. split; auto. Qed.

(** A change that touches neither the timeline nor the cached method. *)
Lemma succeeds_same a a' :
  samples a' = samples a → frameToDecode a' = frameToDecode a →
  decodeToFrame a' = decodeToFrame a → copyMethod a' = copyMethod a →
  succeeds a a'.
Proof.
  intros Hs Hf Hd Hm. split.
  - intros m. by rewrite Hm.
  - intros (a0 & Hs0 & Hf0 & Hd0). exists a0. by rewrite Hs, Hf, Hd.
Qed.

(** Caching a method where none was cached. *)
Lemma succeeds_cache a m :
  copyMethod a = None → succeeds a (set_copyMethod (Some m) a).
Proof.
  intros Hnone. split.
  - intros m'. by rewrite Hnone.
  - intros (a0 & Hs0 & Hf0 & Hd0). by exists a0.
Qed.

Lemma updatePresentationTimeline_built asset :
  timeline_built (updatePresentationTimeline asset).
Proof. by exists asset. Qed.

Lemma updatePresentationTimeline_copyMethod asset :
  copyMethod (updatePresentationTimeline asset) = copyMethod asset.
Proof.
  unfold updatePresentationTimeline.
  by destruct (samples asset) as [[|s ss]|].
Qed.

Lemma updatePresentationTimeline_succeeds a a' :
  copyMethod a' = copyMethod a →
  succeeds a (updatePresentationTimeline a').
Proof.
  intros Hm. split.
  - intros m. by rewrite updatePresentationTimeline_copyMethod, Hm.
  - intros _. apply updatePresentationTimeline_built.
Qed.

Lemma newAsset_built p d cw ch ts rate total prefill bytes :
  timeline_built (newAsset p d cw ch ts rate total prefill bytes).
Proof. by exists (newAsset p d cw ch ts rate total prefill bytes). Qed.

Lemma keeps_refl w : keeps w w.
Proof.
  split.
  - intros addr a Ho. exists a. split; [done|apply succeeds_refl].
  - intros addr a Ho. left. by exists a.
Qed.

Lemma keeps_trans w1 w2 w3 : keeps w1 w2 → keeps w2 w3 → keeps w1 w3.
Proof.
  intros [H12 N12] [H23 N23]. split.
  - intros addr a1 Ho.
    destruct (H12 addr a1 Ho) as (a2 & Ho2 & Hs2).
    destruct (H23 addr a2 Ho2) as (a3 & Ho3 & Hs3).
    exists a3. split; [done|]. by eapply succeeds_trans.
  - intros addr a3 Ho3.
    destruct (N23 addr a3 Ho3) as [[a2 Ho2]|Hb]; [|by right].
    destruct (N12 addr a2 Ho2) as [Hold|Hb2]; [by left|]. right.
    destruct (H23 addr a2 Ho2) as (a3' & Ho3' & [_ Hs3]).
    rewrite Ho3 in Ho3'. injection Ho3' as <-. by apply Hs3.
Qed.

Lemma keeps_objects w w' : objects w' = objects w → keeps w w'.
Proof.
  intros Heq. split.
  - intros addr a Ho. exists a. rewrite Heq. split; [done|apply succeeds_refl].
  - intros addr a Ho. left. exists a. by rewrite <- Heq.
Qed.

(** Overwriting one object by a later state of it (or creating one whose
    timeline is built). *)
Lemma keeps_insert w w' addr asset' :
  objects w' = <[addr := asset']> (objects w) →
  (∀ asset, objects w !! addr = Some asset → succeeds asset asset') →
  (objects w !! addr = None → timeline_built asset') →
  keeps w w'.
Proof.
  intros Heq Hold Hnew. split.
  - intros addr0 asset0 Ho. rewrite Heq.
    destruct (decide (addr = addr0)) as [<-|Hne].
    + exists asset'. rewrite lookup_insert_eq. split; [done|]. by apply Hold.
    + exists asset0. rewrite lookup_insert_ne by done.
      split; [done|apply succeeds_refl].
  - intros addr0 asset0. rewrite Heq.
    destruct (decide (addr = addr0)) as [<-|Hne].
    + rewrite lookup_insert_eq. intros [= <-].
      destruct (objects w !! addr) as [asset|] eqn:Ho; [left; by eexists|].
      right. by apply Hnew.
    + rewrite lookup_insert_ne by done. intros Ho. left. by eexists.
Qed.

Lemma keeps_store w addr asset asset' :
  objects w !! addr = Some asset →
  succeeds asset asset' →
  keeps w (storeAsset addr asset' w).
Proof.
  intros Ho Hs. apply (keeps_insert _ _ addr asset'); [done| |].
  - intros asset0 Ho0. rewrite Ho in Ho0. by injection Ho0 as <-.
  - by rewrite Ho.
Qed.

Lemma keeps_keeps_method w w' : keeps w w' → keeps_method w w'.
Proof.
  intros [Hk _] addr asset m Ho Hm.
  destruct (Hk addr asset Ho) as (asset' & Ho' & [Hm' _]).
  exists asset'. split; [done|]. by apply Hm'.
Qed.

Lemma keeps_all_built w w' : keeps w w' → all_built w → all_built w'.
Proof.
  intros [Hk Hn] Hall addr asset' Ho'.
  destruct (Hn addr asset' Ho') as [[asset Ho]|Hb]; [|done].
  destruct (Hk addr asset Ho) as (asset2 & Ho2 & [_ Hb]).
  rewrite Ho' in Ho2. injection Ho2 as <-. apply Hb. by eapply Hall.
Qed.

Lemma submitSample_succeeds dtf wanted dstate ss index st :
  succeeds (fs_asset st) (fs_asset (submitSample dtf wanted dstate ss index st)).
Proof.
  unfold submitSample.
  destruct (ss !! index); [by apply succeeds_same|apply succeeds_refl].
Qed.

Lemma submitRange_succeeds dtf wanted dstate ss k e st :
  succeeds (fs_asset st) (fs_asset (submitRange dtf wanted dstate ss k e st)).
Proof.
  unfold submitRange. generalize (seq k (e - k)) as idxs. intros idxs.
  revert st. induction idxs as [|i idxs IH]; intros st; simpl;
    [apply succeeds_refl|].
  eapply succeeds_trans; [apply submitSample_succeeds|apply IH].
Qed.

Lemma feedBatch_keeps assetId start count w :
  keeps w (feedBatch assetId start count w).1.
Proof.
  unfold feedBatch.
  destruct (lookupAsset w assetId) as [[addr asset]|] eqn:Hlook;
    [|apply keeps_refl].
  apply lookupAsset_Some in Hlook.
  destruct (overlapsFetch asset start count); [apply keeps_refl|].
  destruct (samples asset) as [ss|] eqn:Hss; [|apply keeps_refl].
  destruct (length (frameToDecode asset) =? 0)%nat; [apply keeps_refl|].
  destruct (hasFramesForRange asset start count); cbv beta iota zeta.
  - destruct (decodeIndicesFor _ _ _) as [|d ds].
    + eapply (keeps_insert _ _ addr); [reflexivity| |by rewrite Hlook].
      intros asset0 Ho0. rewrite Hlook in Ho0. injection Ho0 as <-.
      by apply succeeds_same.
    + eapply (keeps_insert _ _ addr); [reflexivity| |by rewrite Hlook].
      intros asset0 Ho0. rewrite Hlook in Ho0. injection Ho0 as <-.
      eapply succeeds_trans; [|apply submitRange_succeeds].
      by apply succeeds_same.
  - eapply (keeps_insert _ _ addr); [reflexivity| |by rewrite Hlook].
    intros asset0 Ho0. rewrite Hlook in Ho0. injection Ho0 as <-.
    destruct (pendingDiffers asset start count);
      [by apply succeeds_same|apply succeeds_refl].
Qed.

Lemma fireTimer_keeps callback w : keeps w (fireTimer callback w).1.
Proof.
  destruct callback as [assetId start count|addr]; simpl.
  - apply feedBatch_keeps.
  - destruct (objects w !! addr) as [asset|] eqn:Ho; simpl;
      [|apply keeps_refl].
    apply (keeps_store _ _ asset); [done|]. by apply succeeds_same.
Qed.

Lemma prefetchFrames_keeps assetId start count w :
  keeps w (prefetchFrames assetId start count w).1.
Proof.
  unfold prefetchFrames.
  eapply keeps_trans; [|apply feedBatch_keeps].
  destruct (lookupAsset w assetId) as [[addr asset]|] eqn:Hlook;
    [|apply keeps_refl].
  apply lookupAsset_Some in Hlook.
  apply (keeps_store _ _ asset); [done|]. by apply succeeds_same.
Qed.

Lemma disposeVideoAsset_keeps w : keeps w (disposeVideoAsset w).1.
Proof.
  unfold disposeVideoAsset.
  destruct (videoAssets w) as [assets|]; [|apply keeps_refl].
  destruct (lookupAsset w (videoAssetId (player w))) as [[addr asset]|]
    eqn:Hlook; [|apply keeps_refl].
  apply lookupAsset_Some in Hlook.
  set (closed := if bool_decide _ then _ else _).
  assert (Hclosed : objects closed.1 = objects w).
  { subst closed. case_bool_decide; [done|]. unfold closeDecoder.
    by destruct (decoders w !! decoder asset) as [[ | | ]|]. }
  destruct closed as [w1 closeEvents]. simpl in Hclosed.
  set (freed := match ptr asset with Some p => _ | None => _ end).
  assert (Hfreed : objects freed.2 = objects w1 ∧ succeeds asset freed.1).
  { subst freed. destruct (ptr asset) as [p|]; [|by split; [|apply succeeds_refl]].
    destruct (ptr_truthy (Some p)); simpl;
      (split; [done|]); [by apply succeeds_same|apply succeeds_refl]. }
  destruct freed as [asset1 w2]. simpl in Hfreed. destruct Hfreed as [Ho Hm].
  simpl.
  eapply (keeps_insert _ _ addr);
    [simpl; by rewrite Ho, Hclosed| |by rewrite Hlook].
  intros asset0 Ho0. rewrite Hlook in Ho0. injection Ho0 as <-.
  eapply succeeds_trans; [exact Hm|]. by apply succeeds_same.
Qed.

Lemma onSamples_keeps id sampleList ld w :
  keeps w (onSamples id sampleList ld w).1.2.
Proof.
  unfold onSamples.
  destruct (lookupAsset w (ld_assetId ld)) as [[addr asset]|] eqn:Hlook;
    [|apply keeps_refl].
  apply lookupAsset_Some in Hlook.
  destruct (negb (id =? ld_trackId ld)%nat); [apply keeps_refl|].
  cbv zeta.
  set (asset1 := updatePresentationTimeline _).
  set (w1 := storeAsset addr asset1 w).
  assert (H1 : keeps w w1).
  { apply (keeps_store _ _ asset); [done|].
    subst asset1. by apply updatePresentationTimeline_succeeds. }
  set (pendingRun := match pendingPrefetch asset1 with
                     | Some _ => _ | None => _ end).
  assert (H2 : keeps w1 pendingRun.1).
  { subst pendingRun.
    destruct (pendingPrefetch asset1) as [[pstart pcount]|];
      [|apply keeps_refl].
    destruct (hasFramesForRange asset1 pstart pcount);
      [|apply keeps_refl].
    eapply keeps_trans; [|apply feedBatch_keeps].
    apply (keeps_store _ _ asset1); [|by apply succeeds_same].
    subst w1. apply lookup_insert_eq. }
  destruct pendingRun as [w2 events2]. simpl in H2.
  assert (H12 : keeps w w2) by by eapply keeps_trans.
  destruct (objects w2 !! addr) as [asset2|] eqn:Ho2; [|done].
  destruct (negb (prefillRequested asset2) && _); [|done].
  set (w3 := storeAsset addr (set_prefillRequested true asset2) w2).
  pose proof (feedBatch_keeps (ld_assetId ld) 0
                (JInt (ld_initialPrefillFrames ld)) w3) as H4.
  destruct (feedBatch _ _ _ w3) as [w4 events4]. simpl in H4.
  destruct (resolveOnce _) as [ld2 events5]. simpl.
  eapply keeps_trans; [exact H12|].
  eapply keeps_trans; [|exact H4].
  apply (keeps_store _ _ asset2); [done|]. by apply succeeds_same.
Qed.

Lemma onReady_keeps tracks ld w : keeps w (onReady tracks ld w).1.2.
Proof.
  unfold onReady. destruct (List.find tr_video tracks) as [videoTrack|].
  - cbv zeta. unfold malloc.
    destruct (tr_configureThrows videoTrack) as [msg|].
    + destruct (reject msg ld). by apply keeps_objects.
    + simpl. eapply (keeps_insert _ _ (fresh (dom (objects w))));
        [reflexivity| |].
      * intros asset Ho. exfalso.
        apply (is_fresh (dom (objects w))). apply elem_of_dom. by exists asset.
      * intros _. apply newAsset_built.
  - destruct (reject _ ld). apply keeps_refl.
Qed.

Lemma matchOutput_succeeds asset ts : succeeds asset (matchOutput asset ts).2.
Proof.
  unfold matchOutput, takeByTimestamp, takeQueueHead.
  destruct (decodeQueueByTimestamp asset !! ts) as [[|e rest]|];
    try (by apply succeeds_same);
    destruct (decodeQueue asset);
    first [apply succeeds_refl | by apply succeeds_same].
Qed.

Lemma finishCopy_objects assetId addr asset target fw fh bytes ok w :
  ∃ asset', objects (finishCopy assetId addr asset target fw fh bytes ok w).1
            = <[addr := asset']> (objects w) ∧
            succeeds asset asset'.
Proof.
  unfold finishCopy. destruct ok.
  - eexists. split; [reflexivity|].
    destruct (isInitialPrefill _); by apply succeeds_same.
  - destruct (ptr asset) as [p|];
      [|eexists; split; [reflexivity|apply succeeds_refl]].
    destruct (ptr_truthy (Some p)); eexists; (split; [reflexivity|]);
      [by apply succeeds_same|apply succeeds_refl].
Qed.

Lemma canvasCopy_succeeds pf frame asset rect fw fh :
  succeeds asset (canvasCopy pf frame asset rect fw fh).1.1.
Proof.
  unfold canvasCopy.
  assert (He : succeeds asset (ensureCanvasForAsset pf asset fw fh)).
  { unfold ensureCanvasForAsset. destruct (canvas asset) as [c|].
    - destruct (negb (canvas_width c =? fw) || negb (canvas_height c =? fh));
        [by apply succeeds_same|apply succeeds_refl].
    - destruct pf; first [apply succeeds_refl | by apply succeeds_same]. }
  destruct (canvas (ensureCanvasForAsset pf asset fw fh)); [|done].
  by destruct (canvasDrawOk frame).
Qed.

Lemma sizeBuffer_succeeds frame g asset :
  succeeds asset (sizeBuffer frame g asset).1.2.
Proof.
  unfold sizeBuffer. destruct (useStrideSize asset); [apply succeeds_refl|].
  destruct (allocationSize frame);
    [apply succeeds_refl|by apply succeeds_same].
Qed.

Lemma ensureBuffer_keeps bytes asset w :
  succeeds asset (ensureBuffer bytes asset w).1 ∧
  copyMethod (ensureBuffer bytes asset w).1 = copyMethod asset ∧
  objects (ensureBuffer bytes asset w).2 = objects w ∧
  platform (ensureBuffer bytes asset w).2 = platform w.
Proof.
  unfold ensureBuffer.
  destruct (negb (ptr_truthy (ptr asset)) || (frameBytes asset <? bytes)%N);
    [|by split; [apply succeeds_refl|]].
  unfold malloc. simpl. split; [by apply succeeds_same|].
  split; [done|]. destruct (ptr asset) as [p|]; [|done].
  by destruct (ptr_truthy (Some p)).
Qed.

Lemma deliverFrame_objects ld addr asset target frame w :
  ∃ asset',
    objects (deliverFrame ld addr asset target frame w).1.1
    = <[addr := asset']> (objects w) ∧
    succeeds asset asset'.
Proof.
  unfold deliverFrame.
  destruct (isInitialPrefill asset && _);
    [eexists; split; [reflexivity|apply succeeds_refl]|].
  cbv zeta.
  pose proof (sizeBuffer_succeeds frame (frameGeometry ld frame) asset) as Hs.
  destruct (sizeBuffer frame (frameGeometry ld frame) asset)
    as [[bytes asset1] sizeEvents]. simpl in Hs.
  destruct (ensureBuffer_keeps bytes asset1 w) as (Hb & _ & Ho & _).
  destruct (ensureBuffer bytes asset1 w) as [asset2 w1]. simpl in Hb, Ho.
  assert (H02 : succeeds asset asset2) by by eapply succeeds_trans.
  destruct (copyMethod asset2) as [[|]|] eqn:Em.
  - eexists. simpl. rewrite Ho. split; [reflexivity|done].
  - name_canvasCopy canvasCopy_succeeds Hc.
    match goal with
    | |- context [finishCopy ?a ?b ?c ?d ?e ?f ?g ?h ?i] =>
        destruct (finishCopy_objects a b c d e f g h i) as (asset' & Hf & Hm);
        destruct (finishCopy a b c d e f g h i) as [w2 endEvents]
    end.
    simpl in *. exists asset'. rewrite Hf, Ho. split; [done|].
    eapply succeeds_trans; [exact H02|]. by eapply succeeds_trans.
  - eexists. simpl. rewrite Ho. split; [reflexivity|done].
Qed.

Lemma decoderOutput_begin_keeps ld frame w :
  keeps w (decoderOutput_begin ld frame w).1.1.2.
Proof.
  unfold decoderOutput_begin.
  destruct (lookupAsset w (ld_assetId ld)) as [[addr asset]|] eqn:Hlook;
    [|apply keeps_refl].
  apply lookupAsset_Some in Hlook.
  pose proof (matchOutput_succeeds asset (vf_timestamp frame)) as Hm.
  destruct (matchOutput asset (vf_timestamp frame)) as [[entry|] asset1];
    simpl in Hm.
  - destruct (negb (deliver entry)); simpl.
    + by apply (keeps_store _ _ asset).
    + match goal with
      | |- context [deliverFrame ?a ?b ?c ?d ?e ?f] =>
          destruct (deliverFrame_objects a b c d e f) as (asset' & Ho & Hm');
          destruct (deliverFrame a b c d e f) as [[w1 events] suspended]
      end.
      simpl in *.
      apply (keeps_insert _ _ addr asset'); [done| |by rewrite Hlook].
      intros asset0 Ho0. rewrite Hlook in Ho0. injection Ho0 as <-.
      by eapply succeeds_trans.
  - match goal with
    | |- context [deliverFrame ?a ?b ?c ?d ?e ?f] =>
        destruct (deliverFrame_objects a b c d e f) as (asset' & Ho & Hm');
        destruct (deliverFrame a b c d e f) as [[w1 events] suspended]
    end.
    simpl in *.
    apply (keeps_insert _ _ addr asset'); [done| |by rewrite Hlook].
    intros asset0 Ho0. rewrite Hlook in Ho0. injection Ho0 as <-.
    by eapply succeeds_trans.
Qed.

Lemma finishCopy_canvasCopies assetId addr asset target fw fh bytes ok w :
  canvasCopies (finishCopy assetId addr asset target fw fh bytes ok w).2
  = 0%nat.
Proof.
  unfold finishCopy. destruct ok.
  - simpl. by destruct (surface (player w) && negb (playing (player w))).
  - destruct (ptr asset) as [p|]; [|done].
    by destruct (ptr_truthy (Some p)).
Qed.

Lemma canvasCopy_canvasCopies pf frame asset rect fw fh :
  canvasCopies (canvasCopy pf frame asset rect fw fh).1.2 = 1%nat.
Proof.
  unfold canvasCopy.
  destruct (canvas (ensureCanvasForAsset pf asset fw fh)); [|done].
  by destruct (canvasDrawOk frame).
Qed.

(** After the copy has settled: the asset object is in a later state; the
    canvas fallback is entered exactly when the direct copy failed. *)
Lemma decoderOutput_resume_method ld k w :
  keeps w (decoderOutput_resume ld k w).1 ∧
  (is_Some (objects w !! su_addr k) →
   canvasCopies (decoderOutput_resume ld k w).2
   = if copyToOk (su_frame k) then 0%nat else 1%nat).
Proof.
  unfold decoderOutput_resume.
  destruct (objects w !! su_addr k) as [asset|] eqn:Ho;
    [|split; [apply keeps_refl|by intros [? ?]]].
  destruct (copyToOk (su_frame k)).
  - set (cached := match copyMethod asset with None => _ | Some _ => _ end).
    assert (Hc : succeeds asset cached.1 ∧ canvasCopies cached.2 = 0%nat).
    { subst cached. destruct (copyMethod asset) as [m0|] eqn:E; simpl;
        (split; [|done]); [apply succeeds_refl|by apply succeeds_cache]. }
    destruct cached as [asset1 events]. simpl in Hc. destruct Hc as [Hk Hn].
    match goal with
    | |- context [finishCopy ?a ?b ?c ?d ?e ?f ?g ?h ?i] =>
        destruct (finishCopy_objects a b c d e f g h i) as (asset' & Hf & Hm);
        pose proof (finishCopy_canvasCopies a b c d e f g h i) as Hcc;
        destruct (finishCopy a b c d e f g h i) as [w1 endEvents]
    end.
    simpl in *. split.
    + apply (keeps_insert _ _ (su_addr k) asset'); [done| |by rewrite Ho].
      intros asset0 Ho0. rewrite Ho in Ho0. injection Ho0 as <-.
      by eapply succeeds_trans.
    + intros _. by rewrite canvasCopies_app, Hn, Hcc.
  - set (cached := match copyMethod asset with None => _ | Some _ => _ end).
    assert (Hc : succeeds asset cached.1 ∧ canvasCopies cached.2 = 0%nat).
    { subst cached. destruct (copyMethod asset) as [m0|] eqn:E; simpl;
        (split; [|done]); [apply succeeds_refl|by apply succeeds_cache]. }
    destruct cached as [asset1 events]. simpl in Hc. destruct Hc as [Hk Hn].
    match goal with
    | |- context [canvasCopy ?a ?b ?c ?d ?e ?f] =>
        pose proof (canvasCopy_succeeds a b c d e f) as Hcm;
        pose proof (canvasCopy_canvasCopies a b c d e f) as Hone;
        destruct (canvasCopy a b c d e f) as [[asset2 copyEvents] ok]
    end.
    match goal with
    | |- context [finishCopy ?a ?b ?c ?d ?e ?f ?g ?h ?i] =>
        destruct (finishCopy_objects a b c d e f g h i) as (asset' & Hf & Hm);
        pose proof (finishCopy_canvasCopies a b c d e f g h i) as Hcc;
        destruct (finishCopy a b c d e f g h i) as [w1 endEvents]
    end.
    simpl in *. split.
    + apply (keeps_insert _ _ (su_addr k) asset'); [done| |by rewrite Ho].
      intros asset0 Ho0. rewrite Ho in Ho0. injection Ho0 as <-.
      eapply succeeds_trans; [exact Hk|]. by eapply succeeds_trans.
    + intros _. by rewrite !canvasCopies_app, Hn, Hone, Hcc.
Qed.

Lemma run_keeps action ld w : keeps w (run action ld w).1.2.
Proof.
  destruct action; simpl.
  - pose proof (disposeVideoAsset_keeps w) as H.
    by destruct (disposeVideoAsset w).
  - apply onReady_keeps.
  - unfold onError. destruct (reject _ ld). apply keeps_refl.
  - unfold decoderError. destruct (reject _ ld). apply keeps_refl.
  - apply onSamples_keeps.
  - apply decoderOutput_begin_keeps.
  - pose proof (proj1 (decoderOutput_resume_method ld k w)) as H.
    by destruct (decoderOutput_resume ld k w).
  - pose proof (prefetchFrames_keeps assetId start count w) as H.
    by destruct (prefetchFrames assetId start count w).
  - pose proof (fireTimer_keeps callback w) as H.
    by destruct (fireTimer callback w).
  - pose proof (disposeVideoAsset_keeps w) as H.
    by destruct (disposeVideoAsset w).
Qed.

Lemma runAll_keeps actions : ∀ ld w, keeps w (runAll actions ld w).1.2.
Proof.
  induction actions as [|action rest IH]; intros ld w; simpl.
  - apply keeps_refl.
  - pose proof (run_keeps action ld w) as H1.
    destruct (run action ld w) as [[ld1 w1] events].
    pose proof (IH ld1 w1) as H2.
    destruct (runAll rest ld1 w1) as [[ld2 w2] events']. simpl in *.
    by eapply keeps_trans.
Qed.

(** Whatever callbacks run on a page that starts out without asset
    objects, every asset they leave behind has a timeline built by the
    builder. *)
Lemma reachable_all_built actions ld w :
  objects w = ∅ → all_built (runAll actions ld w).1.2.
Proof.
  intros Hempty. apply (keeps_all_built w); [apply runAll_keeps|].
  intros addr asset Ho. by rewrite Hempty, lookup_empty in Ho.
Qed.

Lemma deliverFrame_direct ld addr asset target frame w :
  copyMethod asset = Some Direct →
  canvasCopies (deliverFrame ld addr asset target frame w).1.2 = 0%nat ∧
  ∀ k, (deliverFrame ld addr asset target frame w).2 = Some k →
       su_frame k = frame ∧
       is_Some (objects (deliverFrame ld addr asset target frame w).1.1
                !! su_addr k).
Proof.
  intros Hd. unfold deliverFrame.
  destruct (isInitialPrefill asset && _); [done|].
  cbv zeta.
  pose proof (sizeBuffer_succeeds frame (frameGeometry ld frame) asset)
    as Hs.
  assert (Hn : canvasCopies
                 (sizeBuffer frame (frameGeometry ld frame) asset).2 = 0%nat).
  { unfold sizeBuffer. destruct (useStrideSize asset); [done|].
    by destruct (allocationSize frame). }
  destruct (sizeBuffer frame (frameGeometry ld frame) asset)
    as [[bytes asset1] sizeEvents]. simpl in Hs, Hn.
  destruct (ensureBuffer_keeps bytes asset1 w) as (_ & Hb & _ & _).
  destruct (ensureBuffer bytes asset1 w) as [asset2 w1]. simpl in Hb.
  destruct Hs as [Hs _]. specialize (Hs Direct Hd).
  replace (copyMethod asset2) with (Some Direct) by congruence.
  simpl. split.
  - by rewrite canvasCopies_app, Hn.
  - intros k [= <-]. simpl. split; [done|]. rewrite lookup_insert_eq. by eexists.
Qed.

Lemma decoderOutput_begin_direct ld frame w addr asset :
  lookupAsset w (ld_assetId ld) = Some (addr, asset) →
  copyMethod asset = Some Direct →
  canvasCopies (decoderOutput_begin ld frame w).1.2 = 0%nat ∧
  ∀ k, (decoderOutput_begin ld frame w).2 = Some k →
       su_frame k = frame ∧
       is_Some (objects (decoderOutput_begin ld frame w).1.1.2 !! su_addr k).
Proof.
  intros Hlook Hd. unfold decoderOutput_begin. rewrite Hlook.
  pose proof (matchOutput_succeeds asset (vf_timestamp frame)) as Hm.
  destruct (matchOutput asset (vf_timestamp frame)) as [[entry|] asset1];
    simpl in Hm; destruct Hm as [Hm _]; specialize (Hm Direct Hd).
  - destruct (negb (deliver entry)); [done|].
    match goal with
    | |- context [deliverFrame ?a ?b ?c ?d ?e ?f] =>
        destruct (deliverFrame_direct a b c d e f) as [Hn Hk]; [congruence|];
        destruct (deliverFrame a b c d e f) as [[w1 events] suspended]
    end.
    done.
  - match goal with
    | |- context [deliverFrame ?a ?b ?c ?d ?e ?f] =>
        destruct (deliverFrame_direct a b c d e f) as [Hn Hk]; [congruence|];
        destruct (deliverFrame a b c d e f) as [[w1 events] suspended]
    end.
    done.
Qed.

(** C6, as stated, fails: with the direct method cached after a first
    frame, a second frame whose [copyTo] throws is still copied through the
    canvas fallback (the cached method stays "direct"). *)
Lemma canvas_fallback_after_direct :
  let w := loadedWorld (regularStream 3 1) in
  let ld := startLoad "asset#2" in
  let first := decoderOutput ld (demoFrame 0 true) w in
  let second := decoderOutput first.1.1 (demoFrame 33333 false) first.1.2 in
  canvasCopies first.2 = 0%nat ∧
  (copyMethod <$> objects first.1.2 !! 0%nat) = Some (Some Direct) ∧
  canvasCopies second.2 = 1%nat ∧
  (copyMethod <$> objects second.1.2 !! 0%nat) = Some (Some Direct) ∧
  ¬ direct_excludes_canvas first.1.1 (demoFrame 33333 false) first.1.2.
Proof.
  intros w ld first second.
  split; [by vm_compute|]. split; [by vm_compute|].
  split; [by vm_compute|]. split; [by vm_compute|].
  intros Hclaim.
  assert (Hl : ∃ asset, lookupAsset first.1.2 (ld_assetId first.1.1)
                        = Some (0%nat, asset) ∧
                        copyMethod asset = Some Direct).
  { destruct (lookupAsset first.1.2 (ld_assetId first.1.1))
      as [[addr asset]|] eqn:E; vm_compute in E; [|discriminate].
    injection E as <- <-. eexists. split; reflexivity. }
  destruct Hl as (asset & Hl & Hd).
  specialize (Hclaim _ _ Hl Hd). vm_compute in Hclaim. discriminate.
Qed.

(** C6, amended. Once a copy method is cached on an asset it never
    changes again, whatever callbacks run afterwards, so the selection is
    decided once.  With "direct" cached, a decoder output does not enter
    the canvas fallback before its direct copy has settled and not at all
    when that copy succeeds; it enters it once, for that frame only, when
    the direct copy throws. *)
Theorem copy_method_decided_once :
  (∀ actions ld w, keeps_method w (runAll actions ld w).1.2) ∧
  (∀ ld frame w addr asset,
     lookupAsset w (ld_assetId ld) = Some (addr, asset) →
     copyMethod asset = Some Direct →
     canvasCopies (decoderOutput_begin ld frame w).1.2 = 0%nat ∧
     (copyToOk frame = true →
      canvasCopies (decoderOutput ld frame w).2 = 0%nat) ∧
     (canvasCopies (decoderOutput ld frame w).2 ≤ 1)%nat) ∧
  (∀ ld k w,
     is_Some (objects w !! su_addr k) →
     canvasCopies (decoderOutput_resume ld k w).2
     = if copyToOk (su_frame k) then 0%nat else 1%nat).
Proof.
  split; [intros; apply keeps_keeps_method, runAll_keeps|]. split.
  - intros ld frame w addr asset Hlook Hd.
    destruct (decoderOutput_begin_direct ld frame w addr asset Hlook Hd)
      as [Hn Hk].
    split; [done|]. unfold decoderOutput.
    destruct (decoderOutput_begin ld frame w) as [[[ld1 w1] events] [k|]];
      simpl in *; [|by rewrite Hn; split; [|lia]].
    destruct (Hk k eq_refl) as [Hframe Hobj].
    pose proof (proj2 (decoderOutput_resume_method ld1 k w1) Hobj) as Hr.
    destruct (decoderOutput_resume ld1 k w1) as [w2 rest]. simpl in *.
    rewrite canvasCopies_app, Hn, Hr, Hframe. split.
    + by intros ->.
    + destruct (copyToOk frame); simpl; lia.
  - intros ld k w. apply decoderOutput_resume_method.
Qed.

Lemma copy_method_decided_once_witness :
  let w := loadedWorld (regularStream 3 1) in
  let ld := startLoad "asset#2" in
  let first := decoderOutput ld (demoFrame 0 true) w in
  canvasCopies
    (decoderOutput first.1.1 (demoFrame 33333 true) first.1.2).2 = 0%nat.
Proof.
  intros w ld first.
  destruct (proj1 (proj2 copy_method_decided_once) first.1.1
              (demoFrame 33333 true) first.1.2 0%nat
              (set_currentPrefillIndex 1
                 (set_copyMethod (Some Direct)
                    (loadedAsset (regularStream 3 1)))))
    as (_ & Hok & _).
  - vm_compute. reflexivity.
  - reflexivity.
  - apply Hok. reflexivity.
Defined.

(** ** The frame matcher *)

Section queue_facts.
Implicit Types (q : list QueueEntry) (e x : QueueEntry).

Lemma same_id_same_entry q x e :
  NoDup (qe_id <$> q) → x ∈ q → e ∈ q → qe_id x = qe_id e → x = e.
Proof.
  induction q as [|y q IH]; [by intros _ ?%elem_of_nil|].
  rewrite fmap_cons, NoDup_cons. intros [Hy Hnd] Hx He Hid.
  apply elem_of_cons in Hx as [->|Hx]; apply elem_of_cons in He as [->|He].
  - done.
  - exfalso. apply Hy. rewrite Hid. by apply list_elem_of_fmap_2.
  - exfalso. apply Hy. rewrite <- Hid. by apply list_elem_of_fmap_2.
  - by apply IH.
Qed.

(** On a queue of distinct objects, [indexOf] and [splice] take out
    exactly the entry asked for. *)
Lemma removeEntry_filter q e :
  NoDup (qe_id <$> q) →
  removeEntry e q = filter (λ x, qe_id x ≠ qe_id e) q.
Proof.
  induction q as [|y q IH]; [done|].
  rewrite fmap_cons, NoDup_cons. intros [Hy Hnd]. simpl removeEntry.
  destruct (Nat.eqb_spec (qe_id y) (qe_id e)) as [Heq|Hne].
  - rewrite filter_cons_False by (intros Hc; by apply Hc).
    symmetry. apply filter_Forall_id, Forall_forall. intros x Hx Hid.
    apply Hy. rewrite Heq, <- Hid. by apply list_elem_of_fmap_2.
  - rewrite filter_cons_True by done. by rewrite IH.
Qed.

Lemma NoDup_ids_filter (P : QueueEntry → Prop) `{!∀ x, Decision (P x)} q :
  NoDup (qe_id <$> q) → NoDup (qe_id <$> filter P q).
Proof.
  intros Hnd. apply (sublist_NoDup (qe_id <$> filter P q) (qe_id <$> q));
    [exact Hnd|].
  apply fmap_sublist, sublist_filter.
Qed.

Lemma bucketOf_without ts q e :
  bucketOf ts (filter (λ x, qe_id x ≠ qe_id e) q)
  = filter (λ x, qe_id x ≠ qe_id e) (bucketOf ts q).
Proof.
  unfold bucketOf. rewrite !list_filter_filter.
  apply list_filter_iff. intros x. tauto.
Qed.

Lemma bucketOf_elem ts q x : x ∈ bucketOf ts q ↔ timestamp x = ts ∧ x ∈ q.
Proof.
  unfold bucketOf. by rewrite (list_elem_of_filter (λ e, timestamp e = ts)).
Qed.
End queue_facts.

(** Which rule applies, and what it does to bucket and queue. *)
Lemma matchOutput_rules asset ts : follows_rules asset ts.
Proof.
  unfold follows_rules, matchOutput, takeByTimestamp, takeQueueHead.
  destruct (decodeQueueByTimestamp asset !! ts) as [[|first rest]|] eqn:Eb.
  - destruct (decodeQueue asset) as [|head tail]; [done|]. simpl.
    split; [done|]. split; [done|].
    destruct (decodeQueueByTimestamp asset !! timestamp head)
      as [entries|] eqn:Eh; [|done].
    destruct (removeEntry head entries);
      [apply lookup_delete_eq|apply lookup_insert_eq].
  - simpl. split; [done|]. split; [|done].
    destruct rest; [apply lookup_delete_eq|apply lookup_insert_eq].
  - destruct (decodeQueue asset) as [|head tail]; [done|]. simpl.
    split; [done|]. split; [done|].
    destruct (decodeQueueByTimestamp asset !! timestamp head)
      as [entries|] eqn:Eh; [|done].
    destruct (removeEntry head entries);
      [apply lookup_delete_eq|apply lookup_insert_eq].
Qed.

Lemma consistent_after_removal (q : list QueueEntry)
    (buckets buckets' : gmap Z (list QueueEntry)) (e : QueueEntry) :
  NoDup (qe_id <$> q) → e ∈ q →
  (∀ ts, buckets !! ts
         = match bucketOf ts q with [] => None | b => Some b end) →
  buckets' !! timestamp e
  = match filter (λ x, qe_id x ≠ qe_id e) (bucketOf (timestamp e) q) with
    | [] => None
    | b => Some b
    end →
  (∀ ts, ts ≠ timestamp e → buckets' !! ts = buckets !! ts) →
  ∀ ts, buckets' !! ts
        = match bucketOf ts (filter (λ x, qe_id x ≠ qe_id e) q) with
          | [] => None
          | b => Some b
          end.
Proof.
  intros Hnd He Hb Hat Hother ts. rewrite bucketOf_without.
  destruct (decide (ts = timestamp e)) as [->|Hne]; [done|].
  rewrite Hother, Hb by done.
  rewrite (filter_Forall_id (λ x, qe_id x ≠ qe_id e)); [done|].
  apply Forall_forall. intros x [Hts Hx]%bucketOf_elem Hid.
  apply Hne. rewrite <- Hts. f_equal. by eapply same_id_same_entry.
Qed.

(** On a consistent asset the matched entry is the oldest one queued for
    the output's timestamp, else the oldest one queued at all; it is gone
    from the queue and from every bucket afterwards, nothing else is, and
    queue and buckets still agree. *)
Lemma matchOutput_consistent asset ts :
  queue_consistent asset → removes_matched asset ts.
Proof.
  intros [Hnd Hb]. unfold removes_matched.
  (* it is enough to know the entry, the queue and the buckets afterwards *)
  assert (Hmain :
    (matchOutput asset ts).1
    = match bucketOf ts (decodeQueue asset), decodeQueue asset with
      | first :: _, _ => Some first
      | [], head :: _ => Some head
      | [], [] => None
      end ∧
    match ((matchOutput asset ts).1) with
    | None => (matchOutput asset ts).2 = asset
    | Some e =>
        e ∈ decodeQueue asset ∧
        decodeQueue (matchOutput asset ts).2
        = filter (λ x, qe_id x ≠ qe_id e) (decodeQueue asset) ∧
        decodeQueueByTimestamp (matchOutput asset ts).2 !! timestamp e
        = match filter (λ x, qe_id x ≠ qe_id e)
                  (bucketOf (timestamp e) (decodeQueue asset)) with
          | [] => None
          | b => Some b
          end ∧
        ∀ ts', ts' ≠ timestamp e →
               decodeQueueByTimestamp (matchOutput asset ts).2 !! ts'
               = decodeQueueByTimestamp asset !! ts'
    end).
  { pose proof (matchOutput_rules asset ts) as Hrules.
    unfold follows_rules in Hrules.
    pose proof (Hb ts) as Hts. rewrite Hts in Hrules.
    destruct (bucketOf ts (decodeQueue asset)) as [|first rest] eqn:Ebucket.
    - (* no bucket: the head of the queue, if any *)
      destruct (decodeQueue asset) as [|head tail] eqn:Eq.
      + by rewrite Hrules.
      + destruct Hrules as (Hm & Hq & Hbk). rewrite Hm.
        split; [done|]. split; [by left|].
        rewrite fmap_cons, NoDup_cons in Hnd. destruct Hnd as [Hhead Hnd].
        assert (Hkeep :
          filter (λ x, qe_id x ≠ qe_id head) tail = tail).
        { apply filter_Forall_id, Forall_forall. intros x Hx Hid.
          apply Hhead. rewrite <- Hid. by apply list_elem_of_fmap_2. }
        split.
        { rewrite Hq, filter_cons_False by (intros Hc; by apply Hc).
          by rewrite Hkeep. }
        split.
        { rewrite Hbk, (Hb (timestamp head)), ?Eq. unfold bucketOf.
          rewrite filter_cons_True by done.
          simpl removeEntry. rewrite Nat.eqb_refl.
          rewrite filter_cons_False by (intros Hc; by apply Hc).
          rewrite (filter_Forall_id (λ x, qe_id x ≠ qe_id head)); [done|].
          apply Forall_forall.
          intros x [_ Hx]%(list_elem_of_filter (λ e, timestamp e = _)) Hid.
          apply Hhead. rewrite <- Hid. by apply list_elem_of_fmap_2. }
        intros ts' Hne. unfold matchOutput, takeByTimestamp, takeQueueHead.
        rewrite Hts, Eq. simpl.
        destruct (decodeQueueByTimestamp asset !! timestamp head)
          as [entries|]; [|done].
        destruct (removeEntry head entries);
          [by rewrite lookup_delete_ne|by rewrite lookup_insert_ne].
    - (* the bucket of the timestamp: its first entry *)
      destruct Hrules as (Hm & Hbk & Hq). rewrite Hm.
      assert (Hfirst : first ∈ bucketOf ts (decodeQueue asset))
        by (rewrite Ebucket; by left).
      apply bucketOf_elem in Hfirst as [Hts1 Hin].
      split; [done|]. split; [done|].
      split; [by rewrite Hq, removeEntry_filter|].
      split.
      { rewrite Hts1, Hbk, Ebucket.
        rewrite filter_cons_False by (intros Hc; by apply Hc).
        rewrite (filter_Forall_id (λ x, qe_id x ≠ qe_id first));
          [by destruct rest|].
        assert (Hnd' : NoDup (qe_id <$> first :: rest)).
        { rewrite <- Ebucket. by apply NoDup_ids_filter. }
        rewrite fmap_cons, NoDup_cons in Hnd'. destruct Hnd' as [Hf _].
        apply Forall_forall. intros x Hx Hid. apply Hf.
        rewrite <- Hid. by apply list_elem_of_fmap_2. }
      intros ts' Hne. unfold matchOutput, takeByTimestamp.
      rewrite Hts. simpl. rewrite Hts1 in Hne.
      destruct rest; [by rewrite lookup_delete_ne|by rewrite lookup_insert_ne].
  }
  destruct Hmain as [Hwhich Hafter]. split; [|split; [done|]].
  - destruct ((matchOutput asset ts).1) as [e|] eqn:Em.
    + destruct Hafter as (He & Hq & Hat & Hother). split.
      * rewrite Hq. by apply NoDup_ids_filter.
      * rewrite Hq. by eapply consistent_after_removal.
    + by rewrite Hafter.
  - intros e He. rewrite He in Hafter.
    destruct Hafter as (Hin & Hq & Hat & Hother).
    assert (Hgone : e ∉ decodeQueue (matchOutput asset ts).2).
    { rewrite Hq. intros [Hc _]%list_elem_of_filter. by apply Hc. }
    split; [done|]. split; [done|]. split; [done|].
    intros ts' bucket Hbucket Hc. apply Hgone.
    pose proof (consistent_after_removal _ _ _ e Hnd Hin Hb Hat Hother ts')
      as Hts'.
    rewrite Hbucket, <- Hq in Hts'.
    destruct (bucketOf ts' (decodeQueue (matchOutput asset ts).2))
      as [|x b] eqn:Eb; [done|].
    injection Hts' as ->.
    assert (Hc' : e ∈ bucketOf ts' (decodeQueue (matchOutput asset ts).2))
      by by rewrite Eb.
    by apply bucketOf_elem in Hc' as [_ ?].
Qed.

(** *** The feeder keeps queue and buckets in step *)

Lemma bucketOf_snoc ts q e :
  bucketOf ts (q ++ [e])
  = bucketOf ts q ++ (if decide (timestamp e = ts) then [e] else []).
Proof.
  unfold bucketOf. by rewrite filter_app.
Qed.

Lemma submitSample_queues_ok dtf wanted dstate ss index st :
  queues_ok (fs_nextEntry st) (fs_asset st) →
  queues_ok (fs_nextEntry (submitSample dtf wanted dstate ss index st))
            (fs_asset (submitSample dtf wanted dstate ss index st)).
Proof.
  intros [[Hnd Hb] Hids]. unfold submitSample.
  destruct (ss !! index) as [sample|]; [|done].
  set (e := makeEntry dtf wanted (fs_nextEntry st) index sample).
  simpl. split; [split|]; simpl.
  - rewrite fmap_app. apply NoDup_app. split; [done|]. split.
    + intros n Hn ->%list_elem_of_singleton.
      apply list_elem_of_fmap in Hn as (x & Hx & Hin).
      rewrite Forall_forall in Hids. specialize (Hids x Hin).
      simpl in Hx. lia.
    + apply NoDup_singleton.
  - intros ts. rewrite bucketOf_snoc. unfold bucketPush.
    pose proof (Hb (timestamp e)) as He.
    destruct (decide (timestamp e = ts)) as [<-|Hne].
    + destruct (bucketOf (timestamp e) (decodeQueue (fs_asset st)))
        as [|x b] eqn:Eb; rewrite He, lookup_insert_eq; done.
    + rewrite app_nil_r, <- Hb.
      destruct (decodeQueueByTimestamp (fs_asset st) !! timestamp e);
        by rewrite lookup_insert_ne.
  - apply Forall_app. split.
    + eapply Forall_impl; [exact Hids|]. intros x Hx. simpl in Hx. lia.
    + apply Forall_singleton. simpl. lia.
Qed.

Lemma submitRange_queues_ok dtf wanted dstate ss k e st :
  queues_ok (fs_nextEntry st) (fs_asset st) →
  queues_ok (fs_nextEntry (submitRange dtf wanted dstate ss k e st))
            (fs_asset (submitRange dtf wanted dstate ss k e st)).
Proof.
  unfold submitRange. generalize (seq k (e - k)) as idxs. intros idxs.
  revert st. induction idxs as [|i idxs IH]; intros st Hok; simpl; [done|].
  by apply IH, submitSample_queues_ok.
Qed.

Lemma newAsset_queues_ok n p d cw ch ts rate total prefill bytes :
  queues_ok n (newAsset p d cw ch ts rate total prefill bytes).
Proof.
  split; [split|]; simpl.
  - apply NoDup_nil_2.
  - intros t. apply lookup_empty.
  - constructor.
Qed.

(** [feedBatch] leaves the queues of the asset it serves in step. *)
Lemma feedBatch_queues_ok w assetId addr asset start count :
  lookupAsset w assetId = Some (addr, asset) →
  queues_ok (nextEntry w) asset →
  ∃ asset',
    objects (feedBatch assetId start count w).1 !! addr = Some asset' ∧
    queues_ok (nextEntry (feedBatch assetId start count w).1) asset'.
Proof.
  intros Hlook Hok. unfold feedBatch. rewrite Hlook.
  pose proof (lookupAsset_Some _ _ _ _ Hlook) as Hobj.
  destruct (overlapsFetch asset start count); [by exists asset|].
  destruct (samples asset) as [ss|]; [|by exists asset].
  destruct (length (frameToDecode asset) =? 0)%nat; [by exists asset|].
  destruct (hasFramesForRange asset start count); cbv beta iota zeta.
  - match goal with
    | |- context [decodeIndicesFor ?a ?b ?c] =>
        destruct (decodeIndicesFor a b c) as [|d ds]
    end.
    + eexists. simpl. rewrite lookup_insert_eq. split; [done|]. done.
    + eexists. simpl. rewrite lookup_insert_eq. split; [done|].
      by apply submitRange_queues_ok.
  - eexists. simpl. rewrite lookup_insert_eq. split; [done|].
    by destruct (pendingDiffers asset start count).
Qed.

(** *** Frame indices handed to the consumer *)

Lemma delivered_app t1 t2 : delivered (t1 ++ t2) = delivered t1 ++ delivered t2.
Proof. unfold delivered. apply omap_app. Qed.

Lemma finishCopy_delivered assetId addr asset target fw fh bytes ok w :
  delivered (finishCopy assetId addr asset target fw fh bytes ok w).2
  = if ok then [target] else [].
Proof.
  unfold finishCopy. destruct ok.
  - simpl. by destruct (surface (player w) && negb (playing (player w))).
  - destruct (ptr asset) as [p|]; [|done].
    by destruct (ptr_truthy (Some p)).
Qed.

Lemma canvasCopy_delivered pf frame asset rect fw fh :
  delivered (canvasCopy pf frame asset rect fw fh).1.2 = [].
Proof.
  unfold canvasCopy.
  destruct (canvas (ensureCanvasForAsset pf asset fw fh)); [|done].
  by destruct (canvasDrawOk frame).
Qed.

Lemma deliverFrame_delivered ld addr asset target frame w :
  (∀ f, f ∈ delivered (deliverFrame ld addr asset target frame w).1.2 →
        f = target) ∧
  ∀ k, (deliverFrame ld addr asset target frame w).2 = Some k →
       su_target k = target.
Proof.
  unfold deliverFrame.
  destruct (isInitialPrefill asset && _);
    [split; [by intros f ?%elem_of_nil|done]|].
  cbv zeta.
  assert (Hs : delivered (sizeBuffer frame (frameGeometry ld frame) asset).2
               = []).
  { unfold sizeBuffer. destruct (useStrideSize asset); [done|].
    by destruct (allocationSize frame). }
  destruct (sizeBuffer frame (frameGeometry ld frame) asset)
    as [[bytes asset1] sizeEvents]. simpl in Hs.
  destruct (ensureBuffer bytes asset1 w) as [asset2 w1].
  destruct (copyMethod asset2) as [[|]|].
  - simpl. rewrite delivered_app, Hs.
    split; [by intros f ?%elem_of_nil|]. by intros k [= <-].
  - name_canvasCopy canvasCopy_delivered Hc.
    name_finishCopy finishCopy_delivered Hf.
    simpl in *. rewrite !delivered_app, Hs, Hc, Hf. split; [|done].
    destruct ok; [by intros f ->%list_elem_of_singleton|
                  by intros f ?%elem_of_nil].
  - simpl. rewrite delivered_app, Hs.
    split; [by intros f ?%elem_of_nil|]. by intros k [= <-].
Qed.

Lemma decoderOutput_resume_delivered ld k w f :
  f ∈ delivered (decoderOutput_resume ld k w).2 → f = su_target k.
Proof.
  unfold decoderOutput_resume.
  destruct (objects w !! su_addr k) as [asset|]; [|by intros ?%elem_of_nil].
  destruct (copyToOk (su_frame k)).
  - set (cached := match copyMethod asset with None => _ | Some _ => _ end).
    assert (Hc : delivered cached.2 = []).
    { subst cached. by destruct (copyMethod asset). }
    destruct cached as [asset1 events].
    name_finishCopy finishCopy_delivered Hf.
    simpl in *. rewrite delivered_app, Hc, Hf.
    by intros ->%list_elem_of_singleton.
  - set (cached := match copyMethod asset with None => _ | Some _ => _ end).
    assert (Hc : delivered cached.2 = []).
    { subst cached. by destruct (copyMethod asset). }
    destruct cached as [asset1 events].
    name_canvasCopy canvasCopy_delivered Hcc.
    name_finishCopy finishCopy_delivered Hf.
    simpl in *. rewrite !delivered_app, Hc, Hcc, Hf.
    destruct ok; [by intros ->%list_elem_of_singleton|by intros ?%elem_of_nil].
Qed.

(** An output no queue entry answers for is given the running frame
    index of the loader, which then moves on by one. *)
Lemma unmatched_output_sequential ld frame w addr asset :
  lookupAsset w (ld_assetId ld) = Some (addr, asset) →
  (matchOutput asset (vf_timestamp frame)).1 = None →
  ld_frameIndex (decoderOutput ld frame w).1.1 = S (ld_frameIndex ld) ∧
  ∀ f, f ∈ delivered (decoderOutput ld frame w).2 → f = ld_frameIndex ld.
Proof.
  intros Hlook Hnone. unfold decoderOutput, decoderOutput_begin.
  rewrite Hlook.
  destruct (matchOutput asset (vf_timestamp frame)) as [[entry|] asset1];
    [done|].
  match goal with
  | |- context [deliverFrame ?a ?b ?c ?d ?e ?f] =>
      destruct (deliverFrame_delivered a b c d e f) as [Hd Hk];
      destruct (deliverFrame a b c d e f) as [[w1 events] [k|]]
  end.
  - specialize (Hk k eq_refl).
    match goal with
    | |- context [decoderOutput_resume ?a ?b ?c] =>
        pose proof (decoderOutput_resume_delivered a b c) as Hr;
        destruct (decoderOutput_resume a b c) as [w2 rest]
    end.
    simpl in *. split; [done|]. intros f.
    rewrite delivered_app. intros [Hf|Hf]%elem_of_app.
    + by apply Hd.
    + rewrite <- Hk. by apply Hr.
  - simpl in *. split; [done|]. intros f Hf. by apply Hd.
Qed.

Lemma loadedAsset_queues_ok sampleList n : queues_ok n (loadedAsset sampleList).
Proof.
  unfold loadedAsset, updatePresentationTimeline. simpl samples.
  destruct (appendSamples 30000 30 [] sampleList);
    (split; [split|]; simpl;
     [apply NoDup_nil_2 | intros t; apply lookup_empty | constructor]).
Qed.

Lemma twinAsset_consistent : queue_consistent twinAsset.
Proof.
  destruct (feedBatch_queues_ok (loadedWorld twinStream) "asset#2" 0%nat
              (loadedAsset twinStream) 0 (JInt 4))
    as (asset' & Hobj & [Hok _]).
  - apply lookupAsset_loadedWorld.
  - apply loadedAsset_queues_ok.
  - unfold twinAsset, twinWorld. by rewrite Hobj.
Qed.

(** C4. The matcher attributes a decoder output by three rules, in this
    order: a non-empty bucket for the output's timestamp yields its first
    entry, which leaves the bucket (the bucket disappearing when it empties)
    and is taken out of the flat queue; else a non-empty flat queue yields
    its head, which is taken out of its timestamp bucket; else no entry is
    matched and the frame is given the loader's running frame index,
    which then moves on by one.  On the queues the feeder builds, the
    entry matched is the oldest one queued for the timestamp (else the
    oldest queued), it is in neither queue nor buckets afterwards and
    nothing else is lost.  In particular, with two queued entries sharing
    timestamp 33333 behind an older entry, two outputs with timestamp
    33333 are matched to the first and to the second of the two, in that
    order, and not to the head of the queue. *)
Theorem output_matching_order :
  (∀ asset ts, follows_rules asset ts) ∧
  (∀ asset ts, queue_consistent asset → removes_matched asset ts) ∧
  (∀ ld frame w addr asset,
     lookupAsset w (ld_assetId ld) = Some (addr, asset) →
     (matchOutput asset (vf_timestamp frame)).1 = None →
     ld_frameIndex (decoderOutput ld frame w).1.1 = S (ld_frameIndex ld) ∧
     ∀ f, f ∈ delivered (decoderOutput ld frame w).2 → f = ld_frameIndex ld) ∧
  (let first := matchOutput twinAsset 33333 in
   let second := matchOutput first.2 33333 in
   let out1 :=
     decoderOutput (startLoad "asset#2") (demoFrame 33333 true) twinWorld in
   let out2 := decoderOutput out1.1.1 (demoFrame 33333 true) out1.1.2 in
   sampleIndex <$> decodeQueue twinAsset = [0; 1; 2; 3]%nat ∧
   timestamp <$> decodeQueue twinAsset = [0; 33333; 33333; 66667] ∧
   sampleIndex <$> first.1 = Some 1%nat ∧
   sampleIndex <$> second.1 = Some 2%nat ∧
   sampleIndex <$> decodeQueue second.2 = [0; 3]%nat ∧
   delivered out1.2 = [1%nat] ∧
   delivered out2.2 = [2%nat]).
Proof.
  split; [apply matchOutput_rules|].
  split; [apply matchOutput_consistent|].
  split; [apply unmatched_output_sequential|].
  repeat split; by vm_compute.
Qed.

Lemma output_matching_order_witness :
  removes_matched twinAsset 33333 ∧
  sampleIndex <$> (matchOutput twinAsset 33333).1 = Some 1%nat.
Proof.
  split.
  - apply (proj1 (proj2 output_matching_order) twinAsset 33333).
    apply twinAsset_consistent.
  - vm_compute. reflexivity.
Defined.

(** ** Batch requests *)

(** C3, as stated, fails: while a fetch of frames 40..49 is in flight, a
    request for frames 45..54 that the timeline fully covers is dropped;
    nothing is handed to the decoder and no entry is queued. *)
Lemma covered_request_suppressed :
  let w := fetchingWorld (regularStream 300 30) 40 49 in
  (∃ addr asset,
     lookupAsset w "asset#2" = Some (addr, asset) ∧
     hasFramesForRange asset 45 (JInt 10) = true) ∧
  feedBatch "asset#2" 45 (JInt 10) w = (w, []) ∧
  ¬ request_submitted w "asset#2" 45 (JInt 10).
Proof.
  intros w.
  assert (Hrun : feedBatch "asset#2" 45 (JInt 10) w = (w, [])).
  { unfold feedBatch. subst w. rewrite lookupAsset_fetchingWorld.
    reflexivity. }
  split; [|split; [done|]].
  - eexists _, _. split; [apply lookupAsset_fetchingWorld|].
    by vm_compute.
  - intros (addr & asset & asset' & ss & _ & _ & _ & _ & Hle & Hsub & _).
    assert (Hnil : submitted (feedBatch "asset#2" 45 (JInt 10) w).2 = [])
      by by rewrite Hrun.
    rewrite Hnil in Hsub. cbv zeta in Hle, Hsub.
    apply (f_equal length) in Hsub.
    rewrite length_seq in Hsub. change (length []) with 0%nat in Hsub. lia.
Qed.

(** C3, amended. For every batch request whose range the timeline covers
    and which overlaps no fetch range in flight, on an asset whose timeline
    is the builder's (as it is for every asset any sequence of callbacks
    leaves behind), [feedBatch] hands every sample from the resolved
    keyframe index through [maxDecodeIndex] inclusive to the decoder, in
    decode order, and of the queue entries it pushes exactly those whose
    resolved frame index lies in
    [[start, start + count)] are tagged deliverable; the entries decoded
    only for the keyframe dependency are tagged non-deliverable.  In
    particular, on a stream of 300 samples with a keyframe every 30
    samples and nothing in flight, a request for frames 45..54 submits the
    decode range 30..54, tags frames 45..54 deliverable and frames 30..44
    non-deliverable. *)
Theorem batch_submission_selective :
  (∀ w assetId addr asset start count,
     lookupAsset w assetId = Some (addr, asset) →
     timeline_built asset →
     overlapsFetch asset start count = false →
     hasFramesForRange asset start count = true →
     request_submitted w assetId start count) ∧
  (∀ actions ld w,
     objects w = ∅ → all_built (runAll actions ld w).1.2) ∧
  (let w := loadedWorld (regularStream 300 30) in
   let result := feedBatch "asset#2" 45 (JInt 10) w in
   submitted result.2 = seq 30 25 ∧
   ∃ asset', objects result.1 !! 0%nat = Some asset' ∧
             sampleIndex <$> decodeQueue asset' = seq 30 25 ∧
             deliverableFrames (decodeQueue asset') = Some <$> seq 45 10 ∧
             scaffoldFrames (decodeQueue asset') = Some <$> seq 30 15).
Proof.
  split; [|split].
  - intros w assetId addr asset start count. apply feedBatch_submits.
  - intros actions ld w. apply reachable_all_built.
  - split; [by vm_compute|].
    eexists. split; [by vm_compute|]. by vm_compute.
Qed.

Lemma batch_submission_selective_witness :
  let w := loadedWorld (regularStream 300 30) in
  request_submitted w "asset#2" 45 (JInt 10).
Proof.
  intros w.
  apply (proj1 batch_submission_selective w "asset#2" 0%nat
           (loadedAsset (regularStream 300 30))).
  - reflexivity.
  - eexists. split; [|split]; reflexivity.
  - reflexivity.
  - vm_compute. reflexivity.
Defined.

(** * Further properties of the code *)

(** ** The timeline builder: order, stamping, idempotence *)

Section fill_more.
Implicit Types (es : list TimelineEntry) (t : Tables).

Lemma fillTables_frameTimestamps es : ∀ k t,
  length (t_frameTimestamps t) = k →
  t_frameTimestamps (fillTables es k t)
  = t_frameTimestamps t ++ (Some <$> (te_timestampMicros <$> es)).
Proof.
  induction es as [|e es IH]; intros k t Hk; simpl.
  - by rewrite app_nil_r.
  - rewrite IH; simpl.
    + subst k. rewrite js_set_push. by rewrite <- app_assoc.
    + subst k. rewrite js_set_push, length_app. simpl. lia.
Qed.

Lemma fillTables_samples_other es : ∀ k t d,
  d ∉ te_decodeIndex <$> es →
  t_samples (fillTables es k t) !! d = t_samples t !! d.
Proof.
  induction es as [|e es IH]; intros k t d Hd; simpl; [done|].
  rewrite fmap_cons, not_elem_of_cons in Hd. destruct Hd as [Hne Hd].
  rewrite IH by done. simpl. apply list_lookup_alter_ne. congruence.
Qed.

Lemma fillTables_samples_at es : ∀ k t j e,
  NoDup (te_decodeIndex <$> es) →
  es !! j = Some e →
  t_samples (fillTables es k t) !! te_decodeIndex e
  = setFrameIndex (k + j) <$> t_samples t !! te_decodeIndex e.
Proof.
  induction es as [|e0 es IH]; intros k t j e Hnd Hj; [done|].
  rewrite fmap_cons in Hnd. apply NoDup_cons in Hnd as [Hfresh Hnd].
  destruct j as [|j]; simpl in *.
  - injection Hj as ->.
    rewrite fillTables_samples_other by done. simpl.
    rewrite list_lookup_alter, decide_True by done. by rewrite Nat.add_0_r.
  - rewrite (IH (S k) _ j e) by done. simpl.
    rewrite list_lookup_alter_ne.
    + do 2 f_equal. lia.
    + intros Heq. apply Hfresh. rewrite Heq.
      apply list_elem_of_fmap_2. by eapply list_elem_of_lookup_2.
Qed.
End fill_more.

(** An entry of the timeline carries the timestamp computed for the
    sample at its decode index. *)
Lemma timelineOf_entry (asset : Asset) ss e :
  e ∈ timelineOf (timescale asset) (fps asset) ss →
  ∃ s, ss !! te_decodeIndex e = Some s ∧
       te_timestampMicros e = microsAt asset (te_decodeIndex e) s.
Proof.
  intros He. apply list_elem_of_lookup in He as [i Hi].
  unfold timelineOf in Hi. rewrite list_lookup_imap in Hi.
  destruct (ss !! i) as [s|] eqn:Hs; [|done].
  injection Hi as <-. simpl. by exists s.
Qed.

Lemma updatePresentationTimeline_nonempty (asset : Asset) ss :
  samples asset = Some ss → ss ≠ [] →
  updatePresentationTimeline asset =
  let t := buildTables (timescale asset) (fps asset) ss in
  set_frameTimestamps (t_frameTimestamps t)
    (set_decodeToFrame (t_decodeToFrame t)
       (set_frameToDecode (t_frameToDecode t)
          (set_samples (Some (t_samples t)) asset))).
Proof.
  intros Hs Hne. unfold updatePresentationTimeline. rewrite Hs.
  by destruct ss.
Qed.

(** Everything the builder leaves in an asset, read off the sorted
    timeline. *)
Lemma updatePresentationTimeline_sorted (asset : Asset) ss :
  samples asset = Some ss →
  let a' := updatePresentationTimeline asset in
  let sorted :=
    merge_sort entry_le (timelineOf (timescale asset) (fps asset) ss) in
  frameToDecode a' = Some <$> (te_decodeIndex <$> sorted) ∧
  frameTimestamps a' = Some <$> (te_timestampMicros <$> sorted) ∧
  ∃ ss', samples a' = Some ss' ∧ length ss' = length ss ∧
    ∀ f e, sorted !! f = Some e →
      ∃ s, ss !! te_decodeIndex e = Some s ∧
           te_timestampMicros e = microsAt asset (te_decodeIndex e) s ∧
           js_get (decodeToFrame a') (te_decodeIndex e) = Some f ∧
           ss' !! te_decodeIndex e
           = Some (stamped asset (te_decodeIndex e) f s).
Proof.
  intros Hs a' sorted.
  destruct (decide (ss = [])) as [->|Hne].
  { subst a'. unfold updatePresentationTimeline. rewrite Hs.
    subst sorted. simpl. split; [done|]. split; [done|].
    exists []. rewrite Hs. split; [done|]. split; [done|].
    intros f e Hf. by destruct f. }
  pose proof (sorted_decodeIndex (timescale asset) (fps asset) ss) as Hperm.
  fold sorted in Hperm.
  destruct (fillTables_inverse (timescale asset) (fps asset) ss _ Hperm)
    as (Hftd & Hlen & Hinv).
  assert (Hnd : NoDup (te_decodeIndex <$> sorted)).
  { rewrite Hperm. apply NoDup_seq. }
  subst a'. rewrite (updatePresentationTimeline_nonempty asset ss) by done.
  cbv zeta. unfold buildTables. rewrite timelineOf_length.
  fold sorted. simpl.
  split; [exact Hftd|]. split.
  { by rewrite fillTables_frameTimestamps. }
  eexists. split; [done|]. split.
  { rewrite fillTables_samples_length. simpl. by rewrite length_imap. }
  intros f e Hf.
  destruct (timelineOf_entry asset ss e) as (s & Hls & Hts).
  { rewrite <- (merge_sort_Permutation entry_le). fold sorted.
    by eapply list_elem_of_lookup_2. }
  exists s. split; [done|]. split; [done|]. split.
  { apply Hinv. by rewrite list_lookup_fmap, Hf. }
  rewrite (fillTables_samples_at sorted 0 _ f e) by done.
  cbn [t_samples]. rewrite Nat.add_0_l, list_lookup_imap, Hls. done.
Qed.

Lemma StronglySorted_lookup {A} (R : relation A) (l : list A) i j x y :
  StronglySorted R l → (i < j)%nat →
  l !! i = Some x → l !! j = Some y → R x y.
Proof.
  intros Hsorted. revert i j.
  induction Hsorted as [|a l Hl IH Hall]; intros i j Hij Hi Hj; [done|].
  destruct j as [|j]; [lia|]. simpl in Hj.
  destruct i as [|i]; simpl in Hi.
  - injection Hi as <-. rewrite Forall_forall in Hall.
    apply Hall. by eapply list_elem_of_lookup_2.
  - apply (IH i j); [lia|done|done].
Qed.

(** X1. The timeline lists the samples by presentation timestamp, ties
    broken by decode order: frame [f] carries the timestamp computed for
    the sample it decodes from, and of two frames the later one has the
    larger timestamp or, at equal timestamps, the larger decode index. *)
Theorem timeline_presentation_order (asset : Asset) ss :
  samples asset = Some ss →
  let a' := updatePresentationTimeline asset in
  (∀ f d, js_get (frameToDecode a') f = Some d →
     ∃ s, ss !! d = Some s ∧
          js_get (frameTimestamps a') f = Some (microsAt asset d s)) ∧
  (∀ f g d e tf tg, (f < g)%nat →
     js_get (frameToDecode a') f = Some d →
     js_get (frameToDecode a') g = Some e →
     js_get (frameTimestamps a') f = Some tf →
     js_get (frameTimestamps a') g = Some tg →
     tf < tg ∨ (tf = tg ∧ (d < e)%nat)).
Proof.
  intros Hs a'.
  destruct (updatePresentationTimeline_sorted asset ss Hs)
    as (Hftd & Hfts & ss' & _ & _ & Hentries).
  fold a' in Hftd, Hfts, Hentries.
  set (sorted := merge_sort entry_le
                   (timelineOf (timescale asset) (fps asset) ss)) in *.
  rewrite Hftd, Hfts. split.
  - intros f d Hf. rewrite js_get_dense, list_lookup_fmap in Hf.
    destruct (sorted !! f) as [e|] eqn:He; [|done]. injection Hf as <-.
    destruct (Hentries f e He) as (s & Hls & Hts & _).
    exists s. split; [done|].
    by rewrite js_get_dense, list_lookup_fmap, He, <- Hts.
  - intros f g d e tf tg Hfg Hd He Htf Htg.
    rewrite js_get_dense, list_lookup_fmap in Hd.
    rewrite js_get_dense, list_lookup_fmap in He.
    rewrite js_get_dense, list_lookup_fmap in Htf.
    rewrite js_get_dense, list_lookup_fmap in Htg.
    destruct (sorted !! f) as [ef|] eqn:Hef; [|done].
    destruct (sorted !! g) as [eg|] eqn:Heg; [|done].
    simpl in *. injection Hd as <-. injection He as <-.
    injection Htf as <-. injection Htg as <-.
    assert (Hle : entry_le ef eg).
    { apply (StronglySorted_lookup entry_le sorted f g); try done.
      apply Sorted_StronglySorted; [apply _|].
      apply Sorted_merge_sort. apply _. }
    assert (Hne : te_decodeIndex ef ≠ te_decodeIndex eg).
    { intros Heq.
      assert (Hnd : NoDup (te_decodeIndex <$> sorted)).
      { subst sorted. rewrite sorted_decodeIndex. apply NoDup_seq. }
      assert (f = g); [|lia].
      eapply NoDup_lookup; [exact Hnd| |].
      - by rewrite list_lookup_fmap, Hef.
      - by rewrite list_lookup_fmap, Heg, Heq. }
    unfold entry_le, compareEntries in Hle.
    destruct (Z.eqb_spec (te_timestampMicros ef) (te_timestampMicros eg));
      simpl in Hle; lia.
Qed.

(** A stream stored in decode order 0, 3, 1, 2. *)
Lemma timeline_presentation_order_witness :
  ∃ s, appendSamples 30000 30 [] reorderedStream !! 2%nat = Some s ∧
       js_get (frameTimestamps (loadedAsset reorderedStream)) 1
       = Some (microsAt (loadedAsset reorderedStream) 2 s).
Proof.
  destruct (timeline_presentation_order
              (set_samples
                 (Some (appendSamples 30000 30 [] reorderedStream))
                 (newAsset 1 0 64 64 30000 30 4 10 16384))
              (appendSamples 30000 30 [] reorderedStream) eq_refl)
    as [Hstamp _].
  destruct (Hstamp 1%nat 2%nat) as (s & Hs & Hts).
  - by vm_compute.
  - exists s. split; [exact Hs | exact Hts].
Defined.

(** Every decode index has its place in the sorted timeline. *)
Lemma sorted_timeline_covers (asset : Asset) ss i :
  (i < length ss)%nat →
  ∃ f e, merge_sort entry_le (timelineOf (timescale asset) (fps asset) ss)
         !! f = Some e ∧ te_decodeIndex e = i.
Proof.
  intros Hi.
  assert (Hin : i ∈ te_decodeIndex <$>
                  merge_sort entry_le
                    (timelineOf (timescale asset) (fps asset) ss)).
  { rewrite sorted_decodeIndex. apply elem_of_seq. lia. }
  apply list_elem_of_fmap in Hin as (e & -> & He).
  apply list_elem_of_lookup in He as [f Hf]. by exists f, e.
Qed.

(** X2. The builder stamps every sample: the sample at decode index [i]
    keeps its payload and its decode index and receives its composition
    timestamp, that timestamp in microseconds and the presentation frame
    [decodeToFrame[i]]. *)
Theorem builder_stamps_samples (asset : Asset) ss :
  samples asset = Some ss →
  let a' := updatePresentationTimeline asset in
  ∃ ss', samples a' = Some ss' ∧ length ss' = length ss ∧
    ∀ i s, ss !! i = Some s →
      ∃ f, js_get (decodeToFrame a') i = Some f ∧
           ss' !! i = Some (stamped asset i f s).
Proof.
  intros Hs a'.
  destruct (updatePresentationTimeline_sorted asset ss Hs)
    as (_ & _ & ss' & Hs' & Hlen & Hentries).
  exists ss'. split; [done|]. split; [done|].
  intros i s Hi.
  destruct (sorted_timeline_covers asset ss i) as (f & e & Hf & <-).
  { by eapply lookup_lt_Some. }
  destruct (Hentries f e Hf) as (s1 & Hs1 & _ & Hdtf & Hst).
  exists f. split; [done|]. congruence.
Qed.

(** The second sample of a stream stored in decode order 0, 3, 1, 2: it
    is presented last, a tenth of a second in. *)
Lemma builder_stamps_samples_witness :
  let asset :=
    set_samples (Some (appendSamples 30000 30 [] reorderedStream))
      (newAsset 1 0 64 64 30000 30 4 10 16384) in
  let s := mkNSample (sampleAt 3000 false) 1 (Some 3000) 100000 None in
  ∃ ss', samples (updatePresentationTimeline asset) = Some ss' ∧
         ss' !! 1%nat = Some (stamped asset 1 3 s) ∧
         stamped asset 1 3 s
         = mkNSample (sampleAt 3000 false) 1 (Some 3000) 100000 (Some 3%nat).
Proof.
  intros asset s.
  destruct (builder_stamps_samples asset
              (appendSamples 30000 30 [] reorderedStream) eq_refl)
    as (ss' & Hs' & _ & Hall).
  destruct (Hall 1%nat s) as (f & Hf & Hst).
  - vm_compute. reflexivity.
  - assert (Hf3 : f = 3%nat).
    { vm_compute in Hf. by injection Hf. }
    subst f. exists ss'. split; [exact Hs'|]. split; [exact Hst|].
    vm_compute. reflexivity.
Defined.

Lemma updatePresentationTimeline_shape (asset : Asset) :
  let a' := updatePresentationTimeline asset in
  a' = set_frameTimestamps (frameTimestamps a')
         (set_decodeToFrame (decodeToFrame a')
            (set_frameToDecode (frameToDecode a')
               (set_samples (samples a') asset))).
Proof.
  unfold updatePresentationTimeline.
  destruct asset; simpl.
  match goal with |- context [match ?x with _ => _ end] =>
    destruct x as [[|? ?]|] end; reflexivity.
Qed.

Lemma set_tables_twice (asset : Asset) fts dtf ftd ss fts' dtf' ftd' ss' :
  set_frameTimestamps fts
    (set_decodeToFrame dtf
       (set_frameToDecode ftd
          (set_samples ss
             (set_frameTimestamps fts'
                (set_decodeToFrame dtf'
                   (set_frameToDecode ftd' (set_samples ss' asset)))))))
  = set_frameTimestamps fts
      (set_decodeToFrame dtf (set_frameToDecode ftd (set_samples ss asset))).
Proof. by destruct asset. Qed.

Lemma decodeToFrame_length (asset : Asset) :
  length (decodeToFrame (updatePresentationTimeline asset))
  = sampleCount asset.
Proof.
  by destruct (updatePresentationTimeline_tables asset)
    as (order & _ & _ & Hlen & _).
Qed.

Lemma updatePresentationTimeline_rate (asset : Asset) :
  timescale (updatePresentationTimeline asset) = timescale asset ∧
  fps (updatePresentationTimeline asset) = fps asset.
Proof.
  unfold updatePresentationTimeline.
  by destruct (samples asset) as [[|? ?]|].
Qed.

(** X3. Building the timeline is idempotent: a second run over the same
    samples leaves the asset exactly as the first run left it. *)
Theorem updatePresentationTimeline_idempotent (asset : Asset) :
  updatePresentationTimeline (updatePresentationTimeline asset)
  = updatePresentationTimeline asset.
Proof.
  set (a' := updatePresentationTimeline asset).
  pose proof (updatePresentationTimeline_shape a') as Hshape2.
  pose proof (updatePresentationTimeline_shape asset) as Hshape1.
  cbv zeta in Hshape1, Hshape2. fold a' in Hshape1.
  set (a'' := updatePresentationTimeline a') in *.
  assert (Hfields : samples a'' = samples a' ∧
                    frameToDecode a'' = frameToDecode a' ∧
                    decodeToFrame a'' = decodeToFrame a' ∧
                    frameTimestamps a'' = frameTimestamps a').
  { destruct (samples asset) as [ss|] eqn:Hs; cycle 1.
    { subst a'' a'. unfold updatePresentationTimeline. rewrite Hs. simpl.
      by rewrite Hs. }
    destruct (updatePresentationTimeline_sorted asset ss Hs)
      as (Hftd & Hfts & ss' & Hs' & Hlen & Hentries).
    fold a' in Hftd, Hfts, Hs', Hentries.
    destruct (updatePresentationTimeline_sorted a' ss' Hs')
      as (Hftd2 & Hfts2 & ss2 & Hs2 & Hlen2 & Hentries2).
    fold a'' in Hftd2, Hfts2, Hs2, Hentries2.
    destruct (updatePresentationTimeline_rate asset) as [Hts Hfps].
    fold a' in Hts, Hfps.
    assert (Hraw : ∀ i s', ss' !! i = Some s' →
                     ∃ s, ss !! i = Some s ∧ raw s' = raw s).
    { intros i s' Hi.
      destruct (sorted_timeline_covers asset ss i) as (f & e & Hf & <-).
      { rewrite <- Hlen. by eapply lookup_lt_Some. }
      destruct (Hentries f e Hf) as (s & Hls & _ & _ & Hst).
      exists s. split; [done|]. rewrite Hi in Hst. by injection Hst as ->. }
    assert (Htl : timelineOf (timescale a') (fps a') ss'
                  = timelineOf (timescale asset) (fps asset) ss).
    { rewrite Hts, Hfps. apply list_eq. intros i. unfold timelineOf.
      rewrite !list_lookup_imap.
      destruct (ss' !! i) as [s'|] eqn:Hi.
      - destruct (Hraw i s' Hi) as (s & Hsi & Hr).
        rewrite Hsi. simpl. by rewrite Hr.
      - apply lookup_ge_None in Hi. rewrite Hlen in Hi.
        apply lookup_ge_None in Hi. by rewrite Hi. }
    rewrite Htl in Hftd2, Hfts2, Hentries2.
    set (sorted := merge_sort entry_le
                     (timelineOf (timescale asset) (fps asset) ss)) in *.
    assert (Hlen1 : length (decodeToFrame a') = length ss).
    { subst a'. rewrite decodeToFrame_length.
      unfold sampleCount. by rewrite Hs. }
    assert (Hlen3 : length (decodeToFrame a'') = length ss).
    { subst a''. rewrite decodeToFrame_length.
      unfold sampleCount. by rewrite Hs', Hlen. }
    split; [|split; [|split]].
    - rewrite Hs2, Hs'. f_equal. apply list_eq. intros i.
      destruct (decide (i < length ss)%nat) as [Hi|Hi].
      + destruct (sorted_timeline_covers asset ss i) as (f & e & Hf & <-);
          [done|].
        destruct (Hentries f e Hf) as (s & Hls & _ & _ & Hst).
        destruct (Hentries2 f e Hf) as (s' & Hls' & _ & _ & Hst2).
        rewrite Hst2, Hst. f_equal.
        rewrite Hst in Hls'. injection Hls' as <-.
        unfold stamped, microsAt. simpl. by rewrite Hts, Hfps.
      + rewrite !lookup_ge_None_2; [done|lia|lia].
    - by rewrite Hftd2, Hftd.
    - apply list_eq. intros i.
      destruct (decide (i < length ss)%nat) as [Hi|Hi].
      + destruct (sorted_timeline_covers asset ss i) as (f & e & Hf & <-);
          [done|].
        destruct (Hentries f e Hf) as (_ & _ & _ & Hdtf & _).
        destruct (Hentries2 f e Hf) as (_ & _ & _ & Hdtf2 & _).
        unfold js_get in Hdtf, Hdtf2.
        destruct (decodeToFrame a' !! te_decodeIndex e) as [x|]; [|done].
        destruct (decodeToFrame a'' !! te_decodeIndex e) as [y|]; [|done].
        simpl in *. congruence.
      + rewrite !lookup_ge_None_2; [done|lia|lia].
    - by rewrite Hfts2, Hfts. }
  destruct Hfields as (E1 & E2 & E3 & E4).
  rewrite Hshape2, E1, E2, E3, E4.
  rewrite Hshape1 at 5. rewrite set_tables_twice. by rewrite <- Hshape1.
Qed.

Lemma StronglySorted_of_lookup {A} (R : relation A) (l : list A) :
  (∀ i j x y, (i < j)%nat → l !! i = Some x → l !! j = Some y → R x y) →
  StronglySorted R l.
Proof.
  induction l as [|a l IH]; intros H; constructor.
  - apply IH. intros i j x y Hij Hi Hj. by apply (H (S i) (S j)); [lia|..].
  - apply Forall_forall. intros y Hy.
    apply list_elem_of_lookup in Hy as [j Hj].
    by apply (H 0%nat (S j)); [lia|..].
Qed.

(** X4. On a stream whose timestamps never decrease along the decode
    order the timeline is the identity: presentation frame [f] is decoded
    from sample [f]. *)
Theorem in_order_timeline_identity (asset : Asset) :
  in_decode_order asset →
  let a' := updatePresentationTimeline asset in
  frameToDecode a' = Some <$> seq 0 (sampleCount asset) ∧
  decodeToFrame a' = Some <$> seq 0 (sampleCount asset).
Proof.
  intros Hord a'. unfold in_decode_order, decodeOrderTimestamps in Hord.
  unfold sampleCount.
  destruct (samples asset) as [ss|] eqn:Hs; cycle 1.
  { subst a'. unfold updatePresentationTimeline. by rewrite Hs. }
  apply (Sorted_StronglySorted _) in Hord.
  assert (Hsorted :
    timelineOf (timescale asset) (fps asset) ss
    = merge_sort entry_le (timelineOf (timescale asset) (fps asset) ss)).
  { apply sorted_timeline_unique; [|done].
    apply StronglySorted_Sorted, StronglySorted_of_lookup.
    intros i j x y Hij Hi Hj.
    unfold timelineOf in Hi, Hj. rewrite list_lookup_imap in Hi, Hj.
    destruct (ss !! i) as [si|] eqn:Hsi; [|done].
    destruct (ss !! j) as [sj|] eqn:Hsj; [|done].
    injection Hi as <-. injection Hj as <-.
    assert (Hle : microsAt asset i si ≤ microsAt asset j sj).
    { apply (StronglySorted_lookup Z.le (imap (microsAt asset) ss) i j);
        [done|done|..]; rewrite list_lookup_imap.
      - by rewrite Hsi.
      - by rewrite Hsj. }
    unfold microsAt in Hle. unfold entry_le, compareEntries. simpl.
    match goal with |- context [negb (?a =? ?b)] =>
      destruct (Z.eqb_spec a b) end; simpl; lia. }
  destruct (updatePresentationTimeline_sorted asset ss Hs)
    as (Hftd & _ & ss' & _ & _ & Hentries).
  fold a' in Hftd, Hentries. rewrite <- Hsorted in Hftd, Hentries.
  rewrite timelineOf_decodeIndex in Hftd. split; [done|].
  assert (Hlen : length (decodeToFrame a') = length ss).
  { subst a'. rewrite decodeToFrame_length. unfold sampleCount.
    by rewrite Hs. }
  apply list_eq. intros i. rewrite list_lookup_fmap.
  destruct (decide (i < length ss)%nat) as [Hi|Hi].
  - rewrite lookup_seq_lt by done. simpl.
    destruct (lookup_lt_is_Some_2 (timelineOf (timescale asset) (fps asset) ss)
                i) as [e He].
    { by rewrite timelineOf_length. }
    assert (Hdi : te_decodeIndex e = i).
    { assert (H : (te_decodeIndex <$>
                     timelineOf (timescale asset) (fps asset) ss) !! i
                  = Some i).
      { rewrite timelineOf_decodeIndex. by apply lookup_seq_lt. }
      rewrite list_lookup_fmap, He in H. by injection H. }
    destruct (Hentries i e He) as (_ & _ & _ & Hdtf & _).
    rewrite Hdi in Hdtf. unfold js_get in Hdtf.
    destruct (decodeToFrame a' !! i) as [x|]; [|done].
    simpl in Hdtf. by rewrite Hdtf.
  - rewrite lookup_ge_None_2 by lia.
    rewrite lookup_ge_None_2; [done|]. rewrite length_seq. lia.
Qed.

Lemma in_order_timeline_identity_witness :
  frameToDecode (loadedAsset (regularStream 3 4))
  = [Some 0; Some 1; Some 2]%nat.
Proof.
  refine (proj1 (in_order_timeline_identity
                   (set_samples
                      (Some (appendSamples 30000 30 [] (regularStream 3 4)))
                      (newAsset 1 0 64 64 30000 30 3 10 16384)) _)).
  vm_compute. repeat constructor; discriminate.
Defined.

(** Two samples whose composition times 250 and 249 are half a
    microsecond apart at a timescale of 2000000: their timestamps are 125
    and 124, and the second is presented first. *)
Example close_timestamps_reorder :
  let asset :=
    updatePresentationTimeline
      (set_samples
         (Some (appendSamples 2000000 30 []
                  [sampleAt 250 true; sampleAt 249 false]))
         (newAsset 1 0 64 64 2000000 30 2 10 16384)) in
  frameTimestamps asset = [Some 124; Some 125] ∧
  frameToDecode asset = [Some 1; Some 0]%nat.
Proof. by vm_compute. Qed.

(** The conversion rounds as binary64 does: [3003 / 48000] is the number
    just below 0.0625625, so that the product with [1e6] falls below
    62562.5, while the exact quotient would be rounded up to 62563. *)
Example convertTimestampToMicros_binary64 :
  convertTimestampToMicros (Some 3003) 48000 0 30 = 62562 ∧
  convertTimestampToMicros (Some 250) 2000000 0 30 = 125 ∧
  convertTimestampToMicros (Some 249) 2000000 1 30 = 124 ∧
  convertTimestampToMicros None 30000 3 (parseFps (RateRatio 30000 1001))
  = 3 * 33367.
Proof. by vm_compute. Qed.

(** ** The batch feeder: gate, suppression, delivery, polling *)

Lemma hasFramesForRange_ext a a' start count :
  frameToDecode a' = frameToDecode a →
  hasFramesForRange a' start count = hasFramesForRange a start count.
Proof. intros H. unfold hasFramesForRange. by rewrite H. Qed.

Lemma timeline_built_ext a a' :
  samples a' = samples a → frameToDecode a' = frameToDecode a →
  decodeToFrame a' = decodeToFrame a →
  timeline_built a → timeline_built a'.
Proof.
  intros H1 H2 H3 (a0 & ? & ? & ?). exists a0. rewrite H1, H2, H3. done.
Qed.

Lemma hasFramesForRange_intro (asset : Asset) (start c : Z) :
  0 < c →
  (∀ f, start ≤ f < start + c →
        is_Some (js_index (frameToDecode asset) f)) →
  hasFramesForRange asset start (JInt c) = true.
Proof.
  intros Hc Hcov.
  assert (Hlast : is_Some (js_index (frameToDecode asset) (start + c - 1))).
  { apply Hcov. lia. }
  unfold js_index in Hlast.
  destruct (Z.ltb_spec (start + c - 1) 0) as [Hneg|Hnn];
    [by destruct Hlast|].
  destruct Hlast as [d Hd]. unfold js_get in Hd.
  destruct (frameToDecode asset !! Z.to_nat (start + c - 1)) as [x|] eqn:Hx;
    [|done].
  apply lookup_lt_Some in Hx.
  unfold hasFramesForRange. simpl.
  destruct (Z.leb_spec c 0) as [?|_]; [lia|]. simpl.
  destruct (Nat.eqb_spec (length (frameToDecode asset)) 0) as [?|_]; [lia|].
  destruct (Z.leb_spec (Z.of_nat (length (frameToDecode asset)))
              (start + c - 1)) as [?|_]; [lia|].
  apply Is_true_true, forallb_True, Forall_forall.
  intros f Hf. apply bool_decide_pack, Hcov.
  apply elem_of_seqZ in Hf. lia.
Qed.

(** On a built timeline the gate is a test on the sample count. *)
Lemma hasFramesForRange_built (asset : Asset) (start : Z) (count : jsnum) :
  hasFramesForRange (updatePresentationTimeline asset) start count = true ↔
  ∃ c, count = JInt c ∧ 0 < c ∧ 0 ≤ start ∧
       start + c ≤ Z.of_nat (sampleCount asset).
Proof.
  destruct (updatePresentationTimeline_tables asset)
    as (order & Hperm & Hftd & _ & _ & _).
  assert (Hlen : length order = sampleCount asset).
  { by rewrite Hperm, length_seq. }
  split.
  - intros H. destruct (hasFramesForRange_true _ _ _ H)
      as (c & -> & Hc & Hstart & Hend & _).
    exists c. rewrite Hftd, length_fmap, Hlen in Hend. done.
  - intros (c & -> & Hc & Hstart & Hend).
    apply hasFramesForRange_intro; [done|].
    intros f Hf. unfold js_index.
    destruct (Z.ltb_spec f 0) as [?|_]; [lia|].
    rewrite Hftd, js_get_dense. apply lookup_lt_is_Some_2. lia.
Qed.

(** X6. Counts are integers or not finite here; the source has no test
    that a count is an integer.  For an integer count [c],
    [hasFramesForRange] answers [true] exactly when [c] is positive and
    every frame of [[start, start + c)] has a decode index, so that its
    two tests on the length of the timeline never decide anything on
    their own; for a count that is not finite it answers [false]. *)
Theorem hasFramesForRange_iff (asset : Asset) (start : Z) :
  (∀ c : Z,
     hasFramesForRange asset start (JInt c) = true ↔
     0 < c ∧
     ∀ f, start ≤ f < start + c →
          is_Some (js_index (frameToDecode asset) f)) ∧
  (∀ count, isFinite count = false →
            hasFramesForRange asset start count = false).
Proof.
  split.
  - intros c. split.
    + intros H. destruct (hasFramesForRange_true _ _ _ H)
        as (c' & [= <-] & Hc & _ & _ & Hcov).
      by split.
    + intros (Hc & Hcov). by apply hasFramesForRange_intro.
  - intros count Hfin. unfold hasFramesForRange. by rewrite Hfin.
Qed.

(** X7. For an asset whose timeline has been built and an integer
    count [c], a request passes the readiness gate exactly when [c] is
    positive and its frames lie within the samples received so far. *)
Theorem built_timeline_gate (asset : Asset) (start c : Z) :
  timeline_built asset →
  hasFramesForRange asset start (JInt c) = true ↔
  0 < c ∧ 0 ≤ start ∧ start + c ≤ Z.of_nat (sampleCount asset).
Proof.
  intros (a0 & Hs & Hf & _).
  rewrite (hasFramesForRange_ext (updatePresentationTimeline a0)) by done.
  assert (Hcount : sampleCount asset = sampleCount a0).
  { destruct (updatePresentationTimeline_tables a0)
      as (order & _ & _ & _ & _ & <-).
    unfold sampleCount. by rewrite Hs. }
  rewrite Hcount, hasFramesForRange_built. split.
  - by intros (c' & [= <-] & H).
  - intros H. by exists c.
Qed.

Lemma built_timeline_gate_witness :
  hasFramesForRange (loadedAsset (regularStream 6 3)) 4 (JInt 2) = true.
Proof.
  apply (built_timeline_gate (loadedAsset (regularStream 6 3)) 4 2).
  - by eexists.
  - vm_compute. repeat split; congruence.
Defined.

(** Six samples have arrived: frames 4 and 5 pass the gate, frames 4 to
    6 do not. *)
Example gate_counts_samples :
  hasFramesForRange (loadedAsset (regularStream 6 3)) 4 (JInt 2) = true ∧
  hasFramesForRange (loadedAsset (regularStream 6 3)) 4 (JInt 3) = false.
Proof. by vm_compute. Qed.

(** X8. The in-flight test is interval intersection: with a fetch range
    [[fetchStart, fetchEnd]] recorded, a request of [c > 0] frames counts
    as overlapping exactly when the two ranges share a frame. *)
Theorem overlapsFetch_iff (asset : Asset) (fetchStart fetchEnd start c : Z) :
  currentFetchRange asset = Some (fetchStart, fetchEnd) →
  fetchStart ≤ fetchEnd → 0 < c →
  overlapsFetch asset start (JInt c) = true ↔
  ∃ f, fetchStart ≤ f ≤ fetchEnd ∧ start ≤ f < start + c.
Proof.
  intros Hrange Hne Hc. unfold overlapsFetch. rewrite Hrange. simpl.
  rewrite negb_true_iff, orb_false_iff, !Z.ltb_ge. split.
  - intros [H1 H2]. exists (Z.max fetchStart start). lia.
  - intros (f & Hf1 & Hf2). lia.
Qed.

Lemma overlapsFetch_iff_witness :
  overlapsFetch (set_currentFetchRange (Some (4, 9)) (loadedAsset [])) 8
    (JInt 5) = true.
Proof.
  apply (overlapsFetch_iff _ 4 9 8 5); [reflexivity|lia|lia|].
  exists 8. lia.
Defined.

(** *** A request that is served *)

Lemma withQueues_twice q b q' b' asset :
  withQueues q b (withQueues q' b' asset) = withQueues q b asset.
Proof. by destruct asset. Qed.

Lemma withQueues_own asset :
  withQueues (decodeQueue asset) (decodeQueueByTimestamp asset) asset = asset.
Proof. by destruct asset. Qed.

(** The submission loop writes the two queues of the asset and nothing
    else, and numbers the entries it creates consecutively. *)
Lemma submitRange_only_queues dtf wanted dstate ss k e : ∀ st,
  let st' := submitRange dtf wanted dstate ss k e st in
  fs_asset st'
  = withQueues (decodeQueue (fs_asset st'))
      (decodeQueueByTimestamp (fs_asset st')) (fs_asset st) ∧
  fs_nextEntry st'
  = (fs_nextEntry st
     + (length (decodeQueue (fs_asset st')) - length (decodeQueue (fs_asset st))))%nat ∧
  (length (decodeQueue (fs_asset st)) ≤ length (decodeQueue (fs_asset st')))%nat.
Proof.
  unfold submitRange.
  induction (seq k (e - k)) as [|i idxs IH]; intros st; simpl.
  - split; [by rewrite withQueues_own|]. split; lia.
  - destruct (IH (submitSample dtf wanted dstate ss i st))
      as (Ha & Hn & Hl).
    cbv zeta in Ha, Hn, Hl.
    set (st' := foldl _ _ idxs) in *.
    assert (Hstep :
      fs_asset (submitSample dtf wanted dstate ss i st)
      = withQueues (decodeQueue (fs_asset (submitSample dtf wanted dstate ss i st)))
          (decodeQueueByTimestamp
             (fs_asset (submitSample dtf wanted dstate ss i st)))
          (fs_asset st) ∧
      fs_nextEntry (submitSample dtf wanted dstate ss i st)
      = (fs_nextEntry st
         + (length (decodeQueue
                      (fs_asset (submitSample dtf wanted dstate ss i st)))
            - length (decodeQueue (fs_asset st))))%nat ∧
      (length (decodeQueue (fs_asset st))
       ≤ length (decodeQueue
                   (fs_asset (submitSample dtf wanted dstate ss i st))))%nat).
    { unfold submitSample. destruct (ss !! i) as [sample|]; simpl.
      - split; [by destruct (fs_asset st)|].
        rewrite length_app. simpl. split; lia.
      - split; [by rewrite withQueues_own|]. split; lia. }
    destruct Hstep as (Ha1 & Hn1 & Hl1).
    split; [|split].
    + rewrite Ha, Ha1. by rewrite withQueues_twice.
    + rewrite Hn, Hn1. lia.
    + lia.
Qed.

(** The run of [feedBatch] on a request that passes every guard. *)
Lemma feedBatch_served_run w assetId addr asset start count :
  lookupAsset w assetId = Some (addr, asset) →
  timeline_built asset →
  overlapsFetch asset start count = false →
  hasFramesForRange asset start count = true →
  ∃ c ss, count = JInt c ∧ 0 < c ∧ 0 ≤ start ∧
    start + c ≤ Z.of_nat (length (frameToDecode asset)) ∧
    samples asset = Some ss ∧
    length ss = length (frameToDecode asset) ∧
    let ds := decodeIndicesFor (frameToDecode asset) start (start + c) in
    (findKeyframe ss (list_min ds) ≤ list_max ds < length ss)%nat ∧
    feedBatch assetId start count w
    = let st := submitRange (decodeToFrame asset)
                  (requestedFrames (frameToDecode asset) start (start + c))
                  (decoders w !! decoder asset) ss
                  (findKeyframe ss (list_min ds)) (list_max ds + 1)
                  (mkFeedState
                     (set_currentFetchRange (Some (start, start + c - 1))
                        (set_pendingPrefetch None asset))
                     (nextEntry w) []) in
      (set_nextEntry (fs_nextEntry st) (storeAsset addr (fs_asset st) w),
       fs_trace st ++ [EvSetTimeout (ClearFetchRange addr) 100]).
Proof.
  intros Hlook (a0 & Hs0 & Hf0 & _) Hover Hgate.
  destruct (hasFramesForRange_true _ _ _ Hgate)
    as (c & -> & Hc & Hstart & Hend & Hcov).
  destruct (updatePresentationTimeline_tables a0)
    as (order & Hperm & Hftd & _ & _ & Hcount).
  rewrite <- Hf0 in Hftd.
  assert (Hcount' : sampleCount asset = sampleCount a0).
  { rewrite <- Hcount. unfold sampleCount. by rewrite Hs0. }
  clear Hcount. rename Hcount' into Hcount.
  assert (Hlen : length (frameToDecode asset) = sampleCount asset).
  { rewrite Hftd, length_fmap, Hperm, length_seq. by rewrite Hcount. }
  assert (Hpos : (0 < length (frameToDecode asset))%nat) by lia.
  destruct (samples asset) as [ss|] eqn:Hss;
    [|unfold sampleCount in Hlen; rewrite Hss in Hlen; lia].
  assert (Hn : length ss = length (frameToDecode asset)).
  { unfold sampleCount in Hlen. by rewrite Hss in Hlen. }
  exists c, ss. do 6 (split; [done|]).
  set (ds := decodeIndicesFor (frameToDecode asset) start (start + c)).
  pose proof (decodeIndicesFor_covered _ _ _ Hcov) as Hds. fold ds in Hds.
  assert (Hbound : Forall (λ d, (d < length ss)%nat) ds).
  { apply Forall_forall. intros d Hd.
    assert (Hin : Some d ∈ Some <$> ds) by by apply list_elem_of_fmap_2.
    rewrite Hds in Hin. apply list_elem_of_fmap in Hin as (f & Hf & _).
    unfold js_index in Hf. destruct (f <? 0); [done|].
    symmetry in Hf. rewrite Hftd, js_get_dense in Hf.
    assert (Hd' : d ∈ order) by by eapply list_elem_of_lookup_2.
    rewrite Hperm in Hd'. apply elem_of_seq in Hd'.
    rewrite Hn, Hlen, Hcount. lia. }
  assert (Hne : ds ≠ []).
  { intros Hnil. rewrite Hnil in Hds. rewrite seqZ_cons in Hds by lia.
    done. }
  assert (Hmax : (list_max ds < length ss)%nat).
  { apply list_max_bound; [lia|done]. }
  assert (Hminmax : (list_min ds ≤ list_max ds)%nat).
  { destruct ds as [|d ds'] eqn:Eds; [done|].
    etrans; [apply (list_min_lb _ d); by left|].
    apply list_max_ub. by left. }
  pose proof (findKeyframe_le ss (list_min ds)) as Hkf.
  split; [lia|].
  unfold feedBatch. rewrite Hlook, Hover, Hss.
  destruct (Nat.eqb_spec (length (frameToDecode asset)) 0) as [E0|_];
    [lia|].
  rewrite Hgate. simpl negb. cbv beta iota zeta. simpl jsnum_toZ.
  rewrite (Z.min_l (start + c)) by lia.
  fold ds. rewrite (match_nonempty ds) by done.
  by rewrite (Nat.min_l (list_max ds + 1)) by lia.
Qed.

Lemma submitRange_timeouts dtf wanted dstate ss k e : ∀ st,
  timeouts (fs_trace (submitRange dtf wanted dstate ss k e st))
  = timeouts (fs_trace st).
Proof.
  unfold submitRange.
  induction (seq k (e - k)) as [|i idxs IH]; intros st; simpl; [done|].
  rewrite IH. unfold submitSample.
  destruct (ss !! i) as [sample|]; simpl; [|done].
  unfold timeouts. rewrite omap_app. simpl.
  destruct (bool_decide (dstate = Some Configured)); simpl;
    by rewrite app_nil_r.
Qed.

Lemma lookupAsset_set_nextEntry n w assetId :
  lookupAsset (set_nextEntry n w) assetId = lookupAsset w assetId.
Proof. done. Qed.

(** X9. An asset has one [currentFetchRange] slot.  Serving a request
    writes its frame range there and arms one 100 ms timer that empties
    the slot.  In any state in which the slot holds that range, a request
    sharing a frame with it is dropped without a trace; a timer of the
    asset empties the slot whatever it holds by then; and when the timer
    fires on the state the request left, the very same request is served
    in full again. *)
Theorem in_flight_range_suppresses (w : World) (assetId : string)
    (addr : nat) (asset : Asset) (start : Z) (count : jsnum) :
  lookupAsset w assetId = Some (addr, asset) →
  timeline_built asset →
  overlapsFetch asset start count = false →
  hasFramesForRange asset start count = true →
  let result := feedBatch assetId start count w in
  let range := (start, start + jsnum_toZ count - 1) in
  timeouts result.2 = [(ClearFetchRange addr, 100)] ∧
  (∃ asset', lookupAsset result.1 assetId = Some (addr, asset') ∧
             currentFetchRange asset' = Some range) ∧
  (∀ w' addr' asset' start2 c2,
     lookupAsset w' assetId = Some (addr', asset') →
     currentFetchRange asset' = Some range →
     0 < c2 → start2 < start + jsnum_toZ count → start < start2 + c2 →
     feedBatch assetId start2 (JInt c2) w' = (w', [])) ∧
  (∀ w' asset',
     objects w' !! addr = Some asset' →
     fireTimer (ClearFetchRange addr) w'
     = (storeAsset addr (set_currentFetchRange None asset') w', [])) ∧
  request_submitted (fireTimer (ClearFetchRange addr) result.1).1
    assetId start count.
Proof.
  intros Hlook Hbuilt Hover Hgate result range.
  destruct (feedBatch_served_run _ _ _ _ _ _ Hlook Hbuilt Hover Hgate)
    as (c & ss & -> & Hc & Hstart & Hend & Hss & Hn & _ & Hrun).
  cbv zeta in Hrun.
  set (st := submitRange _ _ _ _ _ _ _) in Hrun.
  destruct (submitRange_only_queues (decodeToFrame asset)
              (requestedFrames (frameToDecode asset) start (start + c))
              (decoders w !! decoder asset) ss
              (findKeyframe ss
                 (list_min (decodeIndicesFor (frameToDecode asset) start
                              (start + c))))
              (list_max (decodeIndicesFor (frameToDecode asset) start
                           (start + c)) + 1)
              (mkFeedState
                 (set_currentFetchRange (Some (start, start + c - 1))
                    (set_pendingPrefetch None asset))
                 (nextEntry w) [])) as (Hasset & _ & _).
  cbv zeta in Hasset. fold st in Hasset. simpl fs_asset in Hasset.
  assert (Hlook1 : lookupAsset result.1 assetId = Some (addr, fs_asset st)).
  { subst result. rewrite Hrun. simpl.
    rewrite lookupAsset_set_nextEntry. by eapply lookupAsset_storeAsset. }
  assert (Hrange : currentFetchRange (fs_asset st)
                   = Some (start, start + c - 1)).
  { rewrite Hasset. by destruct asset. }
  subst range. simpl jsnum_toZ.
  split; [|split; [|split; [|split]]].
  - subst result. rewrite Hrun. simpl. unfold timeouts.
    rewrite omap_app. fold (timeouts (fs_trace st)). subst st.
    by rewrite submitRange_timeouts.
  - by exists (fs_asset st).
  - intros w' addr' asset' start2 c2 Hlook' Hrange' Hc2 Hlo Hhi.
    unfold feedBatch. rewrite Hlook'.
    unfold overlapsFetch. rewrite Hrange'. simpl.
    destruct (Z.ltb_spec (start2 - 1 + c2) start) as [?|_]; [lia|].
    destruct (Z.ltb_spec (start + c - 1) start2) as [?|_]; [lia|].
    done.
  - intros w' asset' Hobj. simpl. by rewrite Hobj.
  - unfold fireTimer.
    rewrite (lookupAsset_Some _ _ _ _ Hlook1). simpl.
    apply (feedBatch_submits _ _ addr
             (set_currentFetchRange None (fs_asset st))).
    + by eapply lookupAsset_storeAsset.
    + apply (timeline_built_ext asset); [..|done];
        rewrite Hasset; by destruct asset.
    + unfold overlapsFetch. by destruct (fs_asset st).
    + rewrite <- Hgate. apply hasFramesForRange_ext.
      rewrite Hasset. by destruct asset.
Qed.

Lemma in_flight_range_suppresses_witness :
  let w := loadedWorld (regularStream 6 3) in
  feedBatch "asset#2" 3 (JInt 1) (feedBatch "asset#2" 2 (JInt 2) w).1
  = ((feedBatch "asset#2" 2 (JInt 2) w).1, []).
Proof.
  intros w.
  destruct (in_flight_range_suppresses w "asset#2" 0%nat
              (loadedAsset (regularStream 6 3)) 2 (JInt 2))
    as (_ & (asset' & Hlook' & Hrange') & Hdrop & _).
  - reflexivity.
  - by eexists.
  - reflexivity.
  - by vm_compute.
  - apply (Hdrop _ 0%nat asset'); [exact Hlook'|exact Hrange'|..];
      simpl; lia.
Defined.

(** The slot is a single one: a second served request overwrites the
    range of the first, after which a request for a frame of the first is
    served again although no timer has fired yet. *)
Example later_request_overwrites_range :
  let w := loadedWorld (regularStream 12 1) in
  let w1 := (feedBatch "asset#2" 0 (JInt 2) w).1 in
  let w2 := (feedBatch "asset#2" 10 (JInt 2) w1).1 in
  submitted (feedBatch "asset#2" 1 (JInt 1) w1).2 = [] ∧
  currentFetchRange <$> objects w2 !! 0%nat = Some (Some (10, 11)) ∧
  submitted (feedBatch "asset#2" 1 (JInt 1) w2).2 = [1%nat].
Proof. by vm_compute. Qed.

(** The tables of a built timeline: a dense permutation and its inverse. *)
Lemma built_tables asset :
  timeline_built asset →
  ∃ order : list nat,
    order ≡ₚ seq 0 (length order) ∧
    frameToDecode asset = Some <$> order ∧
    ∀ f d, order !! f = Some d ↔ js_get (decodeToFrame asset) d = Some f.
Proof.
  intros (a0 & _ & Hf0 & Hd0).
  destruct (updatePresentationTimeline_tables a0)
    as (order & Hperm & Hftd & Hlen & Hinv & _).
  rewrite <- Hf0 in Hftd. rewrite <- Hd0 in Hlen, Hinv.
  assert (Hlo : length order = sampleCount a0).
  { by rewrite Hperm, length_seq. }
  exists order. split; [by rewrite Hlo|]. split; [done|].
  intros f d. split; [apply Hinv|].
  intros Hd.
  assert (Hlt : (d < sampleCount a0)%nat).
  { rewrite <- Hlen. unfold js_get in Hd.
    destruct (decodeToFrame asset !! d) eqn:E; [|done].
    by eapply lookup_lt_Some. }
  assert (Hin : d ∈ order).
  { rewrite Hperm. apply elem_of_seq. lia. }
  apply list_elem_of_lookup in Hin as [f' Hf'].
  pose proof (Hinv f' d Hf') as Hd'. congruence.
Qed.

Lemma NoDup_fmap_eq {A B} (g : A → B) (l : list A) x y :
  NoDup (g <$> l) → x ∈ l → y ∈ l → g x = g y → x = y.
Proof.
  intros Hnd Hx Hy Heq.
  apply list_elem_of_lookup in Hx as [i Hi].
  apply list_elem_of_lookup in Hy as [j Hj].
  assert (i = j).
  { eapply NoDup_lookup; [exact Hnd| |];
      rewrite list_lookup_fmap; [by rewrite Hi|by rewrite Hj, Heq]. }
  congruence.
Qed.

(** X10. A served request queues exactly one deliverable entry for each
    frame it asked for: the frames tagged for delivery are the frames
    [[start, start + count)], none missing and none twice. *)
Theorem served_request_delivers_each_frame_once (w : World)
    (assetId : string) (addr : nat) (asset : Asset) (start : Z)
    (count : jsnum) :
  lookupAsset w assetId = Some (addr, asset) →
  timeline_built asset →
  overlapsFetch asset start count = false →
  hasFramesForRange asset start count = true →
  ∃ asset' new,
    objects (feedBatch assetId start count w).1 !! addr = Some asset' ∧
    decodeQueue asset' = decodeQueue asset ++ new ∧
    deliverableFrames new
    ≡ₚ Some <$> seq (Z.to_nat start) (Z.to_nat (jsnum_toZ count)).
Proof.
  intros Hlook Hbuilt Hover Hgate.
  destruct (feedBatch_submits _ _ _ _ _ _ Hlook Hbuilt Hover Hgate)
    as (addr' & asset0 & asset' & ss & Hlook' & Hss & Hobj & Hds & Hkf
        & _ & new & Hq & Hidx & Htag).
  rewrite Hlook in Hlook'. injection Hlook' as <- <-.
  destruct (hasFramesForRange_true _ _ _ Hgate)
    as (c & -> & Hc & Hstart & Hend & Hcov).
  simpl jsnum_toZ in *.
  destruct (built_tables asset Hbuilt) as (order & Hperm & Hftd & Hinv).
  set (ds := decodeIndicesFor (frameToDecode asset) start (start + c)) in *.
  exists asset', new. split; [done|]. split; [done|].
  rewrite Forall_forall in Htag.
  assert (Hndi : NoDup (sampleIndex <$> new)).
  { rewrite Hidx. apply NoDup_seq. }
  apply NoDup_Permutation.
  - unfold deliverableFrames. apply NoDup_fmap_2_strong.
    + intros x y Hx Hy Heq.
      apply list_elem_of_filter in Hx as [Hdx Hx].
      apply list_elem_of_filter in Hy as [Hdy Hy].
      apply (NoDup_fmap_eq sampleIndex new); try done.
      destruct (Htag x Hx) as [Hfx Hx'].
      destruct (Htag y Hy) as [Hfy _].
      apply Hx' in Hdx as (f & Hf & _).
      rewrite Hf in Hfx. rewrite <- Heq, Hf in Hfy.
      symmetry in Hfx, Hfy. apply Hinv in Hfx, Hfy. congruence.
    + apply NoDup_filter. by eapply NoDup_fmap_1.
  - apply NoDup_fmap_2; [apply _|apply NoDup_seq].
  - intros x. unfold deliverableFrames.
    rewrite list_elem_of_fmap. split.
    + intros (e & -> & He). apply list_elem_of_filter in He as [Hd He].
      destruct (Htag e He) as [_ Hdel]. apply Hdel in Hd as (f & -> & Hf).
      apply list_elem_of_fmap_2, elem_of_seq. lia.
    + intros Hx. apply list_elem_of_fmap in Hx as (f & -> & Hf).
      apply elem_of_seq in Hf.
      (* the sample frame [f] decodes from was submitted *)
      destruct (Hcov (Z.of_nat f)) as [d Hd]; [lia|].
      assert (Hin : d ∈ ds).
      { assert (H : Some d ∈ Some <$> ds).
        { rewrite Hds, <- Hd. apply list_elem_of_fmap_2, elem_of_seqZ. lia. }
        apply list_elem_of_fmap in H as (d' & [= <-] & H). done. }
      unfold js_index in Hd.
      destruct (Z.ltb_spec (Z.of_nat f) 0) as [?|_]; [lia|].
      rewrite Nat2Z.id, Hftd, js_get_dense in Hd.
      apply Hinv in Hd.
      assert (Hsub : d ∈ sampleIndex <$> new).
      { rewrite Hidx. apply elem_of_seq.
        pose proof (list_min_lb ds d Hin).
        pose proof (list_max_ub ds d Hin).
        pose proof (findKeyframe_le ss (list_min ds)). lia. }
      apply list_elem_of_fmap in Hsub as (e & -> & He).
      destruct (Htag e He) as [Hfi Hdel].
      exists e. split; [by rewrite Hfi, Hd|].
      apply list_elem_of_filter. split; [|done].
      apply Hdel. exists f. split; [by rewrite Hfi, Hd|lia].
Qed.

Lemma served_request_delivers_each_frame_once_witness :
  ∃ asset' new,
    objects (feedBatch "asset#2" 4 (JInt 2)
               (loadedWorld (regularStream 6 3))).1 !! 0%nat = Some asset' ∧
    decodeQueue asset' = new ∧
    deliverableFrames new ≡ₚ [Some 4; Some 5]%nat.
Proof.
  destruct (served_request_delivers_each_frame_once
              (loadedWorld (regularStream 6 3)) "asset#2" 0%nat
              (loadedAsset (regularStream 6 3)) 4 (JInt 2))
    as (asset' & new & Hobj & Hq & Hdel).
  - reflexivity.
  - by eexists.
  - reflexivity.
  - by vm_compute.
  - exists asset', new. split; [exact Hobj|]. split; [exact Hq | exact Hdel].
Defined.

(** What [feedBatch] leaves alone. *)
Lemma feedBatch_frame (assetId : string) (start : Z) (count : jsnum)
    (w : World) :
  let w' := (feedBatch assetId start count w).1 in
  feederSurroundings w' = feederSurroundings w ∧
  (nextEntry w ≤ nextEntry w')%nat ∧
  (lookupAsset w assetId = None → w' = w) ∧
  ∀ addr asset, lookupAsset w assetId = Some (addr, asset) →
    (∀ other, other ≠ addr → objects w' !! other = objects w !! other) ∧
    ∃ asset', objects w' !! addr = Some asset' ∧
              feederInputs asset' = feederInputs asset.
Proof.
  intros w'. subst w'. unfold feedBatch.
  destruct (lookupAsset w assetId) as [[addr asset]|] eqn:Hlook; cycle 1.
  { simpl. by repeat split. }
  pose proof (lookupAsset_Some _ _ _ _ Hlook) as Hobj.
  assert (Hstore : ∀ asset1,
    feederInputs asset1 = feederInputs asset →
    let w' := storeAsset addr asset1 w in
    feederSurroundings w' = feederSurroundings w ∧
    (nextEntry w ≤ nextEntry w')%nat ∧
    (Some (addr, asset) = None → w' = w) ∧
    ∀ addr0 asset0, Some (addr, asset) = Some (addr0, asset0) →
      (∀ other, other ≠ addr0 → objects w' !! other = objects w !! other) ∧
      ∃ asset', objects w' !! addr0 = Some asset' ∧
                feederInputs asset' = feederInputs asset0).
  { intros asset1 Hin. simpl. split; [done|]. split; [done|].
    split; [done|]. intros addr0 asset0 [= <- <-]. split.
    - intros other Hne. by apply lookup_insert_ne.
    - exists asset1. split; [apply lookup_insert_eq|done]. }
  assert (Hsame :
    feederSurroundings w = feederSurroundings w ∧
    (nextEntry w ≤ nextEntry w)%nat ∧
    (Some (addr, asset) = None → w = w) ∧
    ∀ addr0 asset0, Some (addr, asset) = Some (addr0, asset0) →
      (∀ other, other ≠ addr0 → objects w !! other = objects w !! other) ∧
      ∃ asset', objects w !! addr0 = Some asset' ∧
                feederInputs asset' = feederInputs asset0).
  { split; [done|]. split; [done|]. split; [done|].
    intros addr0 asset0 [= <- <-]. split; [done|]. by exists asset. }
  destruct (overlapsFetch asset start count); [exact Hsame|].
  destruct (samples asset) as [ss|] eqn:Hss; [|exact Hsame].
  destruct (length (frameToDecode asset) =? 0)%nat; [exact Hsame|].
  destruct (hasFramesForRange asset start count); simpl negb;
    cbv beta iota zeta.
  - match goal with |- context [match ?ds with [] => _ | _ :: _ => _ end] =>
      destruct ds as [|d0 ds0] eqn:Hds end.
    + apply Hstore.
      destruct (pendingDiffers _ start count); by destruct asset.
    + set (st := submitRange _ _ _ _ _ _ _).
      destruct (submitRange_only_queues (decodeToFrame asset)
        (requestedFrames (frameToDecode asset) start
           (Z.min (start + jsnum_toZ count)
              (Z.of_nat (length (frameToDecode asset)))))
        (decoders w !! decoder asset) ss
        (findKeyframe ss (list_min (d0 :: ds0)))
        (Nat.min (list_max (d0 :: ds0) + 1) (length ss))
        (mkFeedState
           (set_currentFetchRange
              (Some (start,
                     Z.min (start + jsnum_toZ count)
                       (Z.of_nat (length (frameToDecode asset))) - 1))
              (set_pendingPrefetch None asset))
           (nextEntry w) [])) as (Hasset & Hnext & _).
      cbv zeta in Hasset, Hnext. fold st in Hasset, Hnext.
      simpl fs_asset in Hasset. simpl fs_nextEntry in Hnext.
      destruct (Hstore (fs_asset st)) as (H1 & _ & _ & H4).
      { rewrite Hasset. by destruct asset. }
      split; [exact H1|]. split; [simpl; lia|]. split; [done|]. exact H4.
  - apply Hstore. destruct (pendingDiffers asset start count);
      by destruct asset.
Qed.

(** X11. [feedBatch] writes nothing but the queues and the bookkeeping of
    the asset it is called for: the registry, the decoder states, the
    native heap and the page are untouched, every other asset object is
    untouched, the asset stays registered at its address with its inputs
    (samples, timeline tables, buffer, copy method, warm-up flags)
    untouched and its timeline still built, and entry objects are only
    ever added. *)
Theorem feedBatch_footprint (assetId : string) (start : Z) (count : jsnum)
    (w : World) :
  let w' := (feedBatch assetId start count w).1 in
  feederSurroundings w' = feederSurroundings w ∧
  (nextEntry w ≤ nextEntry w')%nat ∧
  (lookupAsset w assetId = None → w' = w) ∧
  ∀ addr asset, lookupAsset w assetId = Some (addr, asset) →
    (∀ other, other ≠ addr → objects w' !! other = objects w !! other) ∧
    ∃ asset', lookupAsset w' assetId = Some (addr, asset') ∧
              feederInputs asset' = feederInputs asset ∧
              (timeline_built asset → timeline_built asset').
Proof.
  intros w'.
  destruct (feedBatch_frame assetId start count w)
    as (Hsur & Hnext & Hnone & Hreg).
  fold w' in Hsur, Hnext, Hnone, Hreg.
  split; [done|]. split; [done|]. split; [done|].
  intros addr asset Hlook.
  destruct (Hreg addr asset Hlook) as (Hother & asset' & Hobj & Hin).
  split; [done|]. exists asset'. split; [|split; [done|]].
  - subst w'.
    assert (Hassets : videoAssets (feedBatch assetId start count w).1
                      = videoAssets w) by (by injection Hsur).
    unfold lookupAsset in *. rewrite Hassets.
    destruct (videoAssets w) as [registry|]; [|done].
    destruct (registry !! assetId) as [addr'|]; [|done].
    destruct (objects w !! addr') as [asset0|]; [|done].
    injection Hlook as -> ->. by rewrite Hobj.
  - apply timeline_built_ext; by injection Hin.
Qed.

(** *** A request the gate turns away *)

Lemma storeAsset_twice addr a a' w :
  storeAsset addr a (storeAsset addr a' w) = storeAsset addr a w.
Proof.
  unfold storeAsset. destruct w; simpl. by rewrite insert_insert_eq.
Qed.

Lemma set_pendingPrefetch_own asset :
  set_pendingPrefetch (pendingPrefetch asset) asset = asset.
Proof. by destruct asset. Qed.

(** X12. A request the readiness gate turns away is polled for ever:
    when its retry timer fires, the feeder finds the world exactly as its
    first call left it, changes nothing, hands nothing to the decoder and
    arms the same 16 ms timer again, so the polling only ends when
    something else changes the asset.  A count of [NaN] never compares
    equal to the pending one, so such a request also flushes the demuxer
    on every round. *)
Theorem gated_request_polls_forever (w : World) (assetId : string)
    (addr : nat) (asset : Asset) (ss : list NSample) (start : Z)
    (count : jsnum) :
  lookupAsset w assetId = Some (addr, asset) →
  overlapsFetch asset start count = false →
  samples asset = Some ss →
  frameToDecode asset ≠ [] →
  hasFramesForRange asset start count = false →
  let retry := RetryFeedBatch assetId start count in
  let w1 := (feedBatch assetId start count w).1 in
  fireTimer retry w1
  = (w1, (if jsnum_strict_eq count count then [] else [EvFlush])
         ++ [EvSetTimeout retry 16]) ∧
  ∀ n, Nat.iter n (λ wt, (fireTimer retry wt).1) w1 = w1.
Proof.
  intros Hlook Hover Hss Hftd Hgate retry w1.
  assert (Hlen : (length (frameToDecode asset) =? 0)%nat = false).
  { apply Nat.eqb_neq. by destruct (frameToDecode asset). }
  set (asset1 := if pendingDiffers asset start count
                 then set_pendingPrefetch (Some (start, count)) asset
                 else asset).
  assert (Hw1 : w1 = storeAsset addr asset1 w).
  { subst w1. unfold feedBatch.
    by rewrite Hlook, Hover, Hss, Hlen, Hgate. }
  assert (Hpending : pendingPrefetch asset1 = Some (start, count)).
  { apply pending_recorded. }
  assert (Hrest : overlapsFetch asset1 start count = false ∧
                  samples asset1 = Some ss ∧
                  frameToDecode asset1 = frameToDecode asset).
  { subst asset1. destruct (pendingDiffers asset start count); [|done].
    split; [|split]; [|by destruct asset..].
    rewrite <- Hover. unfold overlapsFetch. by destruct asset. }
  destruct Hrest as (Hover1 & Hss1 & Hftd1).
  assert (Hstep : fireTimer retry w1
    = (w1, (if jsnum_strict_eq count count then [] else [EvFlush])
           ++ [EvSetTimeout retry 16])).
  { subst retry. unfold fireTimer, feedBatch. rewrite Hw1.
    rewrite (lookupAsset_storeAsset _ _ _ _ asset1 Hlook).
    rewrite Hover1, Hss1, Hftd1, Hlen.
    rewrite (hasFramesForRange_ext asset asset1) by done.
    rewrite Hgate. simpl negb. cbv beta iota zeta.
    unfold pendingDiffers. rewrite Hpending. rewrite Z.eqb_refl. simpl.
    destruct (jsnum_strict_eq count count); simpl.
    - by rewrite storeAsset_twice.
    - rewrite storeAsset_twice. rewrite <- Hpending.
      by rewrite set_pendingPrefetch_own. }
  split; [exact Hstep|].
  induction n as [|n IH]; [done|].
  rewrite Nat.iter_succ, IH. by rewrite Hstep.
Qed.

(** A request for two frames beyond the end of a three-frame stream. *)
Lemma gated_request_polls_forever_witness :
  let retry := RetryFeedBatch "asset#2" 5 (JInt 2) in
  let w1 := (feedBatch "asset#2" 5 (JInt 2)
               (loadedWorld (regularStream 3 1))).1 in
  fireTimer retry w1 = (w1, [EvSetTimeout retry 16]).
Proof.
  intros retry w1.
  destruct (gated_request_polls_forever (loadedWorld (regularStream 3 1))
              "asset#2" 0%nat (loadedAsset (regularStream 3 1))
              (default [] (samples (loadedAsset (regularStream 3 1))))
              5 (JInt 2))
    as [Hstep _].
  - reflexivity.
  - reflexivity.
  - vm_compute. reflexivity.
  - vm_compute. discriminate.
  - by vm_compute.
  - exact Hstep.
Defined.

(** *** The prefetch hook *)

Lemma feedBatch_lookup assetId start count w addr asset :
  lookupAsset w assetId = Some (addr, asset) →
  ∃ asset', lookupAsset (feedBatch assetId start count w).1 assetId
            = Some (addr, asset') ∧
            feederInputs asset' = feederInputs asset.
Proof.
  intros Hlook.
  destruct (feedBatch_frame assetId start count w) as (Hsur & _ & _ & Hobj).
  destruct (Hobj addr asset Hlook) as (_ & asset' & Hobj' & Hin).
  exists asset'. split; [|done].
  assert (Hreg : videoAssets (feedBatch assetId start count w).1
                 = videoAssets w) by (by injection Hsur).
  unfold lookupAsset in *. rewrite Hreg.
  destruct (videoAssets w) as [registry|]; [|done].
  destruct (registry !! assetId) as [addr'|]; [|done].
  destruct (objects w !! addr') as [asset0|]; [|done].
  injection Hlook as -> ->. by rewrite Hobj'.
Qed.

Lemma submitRange_warmed b dtf wanted dstate ss k e : ∀ st,
  submitRange dtf wanted dstate ss k e (warmed b st)
  = warmed b (submitRange dtf wanted dstate ss k e st).
Proof.
  unfold submitRange.
  induction (seq k (e - k)) as [|i idxs IH]; intros st; simpl; [done|].
  rewrite <- IH. f_equal.
  unfold submitSample, warmed. destruct (ss !! i) as [sample|]; simpl;
    [|done].
  by destruct (fs_asset st).
Qed.

(** The feeder neither reads nor writes the warm-up flag. *)
Lemma feedBatch_warmed b assetId start count w addr asset :
  lookupAsset w assetId = Some (addr, asset) →
  let plain := feedBatch assetId start count w in
  ∃ a, objects plain.1 !! addr = Some a ∧
       feedBatch assetId start count
         (storeAsset addr (set_isInitialPrefill b asset) w)
       = (storeAsset addr (set_isInitialPrefill b a) plain.1, plain.2).
Proof.
  intros Hlook plain. subst plain.
  pose proof (lookupAsset_Some _ _ _ _ Hlook) as Hobj.
  pose proof (lookupAsset_storeAsset _ _ _ _ (set_isInitialPrefill b asset)
                Hlook) as Hlook'.
  assert (Hstore : ∀ a0 a1 n,
    storeAsset addr (set_isInitialPrefill b a1)
      (set_nextEntry n (storeAsset addr a0 w))
    = set_nextEntry n
        (storeAsset addr (set_isInitialPrefill b a1)
           (storeAsset addr (set_isInitialPrefill b asset) w))).
  { intros a0 a1 n. unfold storeAsset. destruct w; simpl.
    by rewrite !insert_insert_eq. }
  unfold feedBatch at 2. rewrite Hlook'. unfold feedBatch. rewrite Hlook.
  replace (overlapsFetch (set_isInitialPrefill b asset) start count)
    with (overlapsFetch asset start count) by (by destruct asset).
  destruct (overlapsFetch asset start count); [by exists asset|].
  replace (samples (set_isInitialPrefill b asset)) with (samples asset)
    by (by destruct asset).
  destruct (samples asset) as [ss|] eqn:Hss; [|by exists asset].
  replace (frameToDecode (set_isInitialPrefill b asset))
    with (frameToDecode asset) by (by destruct asset).
  destruct (length (frameToDecode asset) =? 0)%nat; [by exists asset|].
  rewrite (hasFramesForRange_ext asset (set_isInitialPrefill b asset))
    by (by destruct asset).
  replace (decodeToFrame (set_isInitialPrefill b asset))
    with (decodeToFrame asset) by (by destruct asset).
  replace (decoder (set_isInitialPrefill b asset))
    with (decoder asset) by (by destruct asset).
  replace (pendingDiffers (set_isInitialPrefill b asset) start count)
    with (pendingDiffers asset start count) by (by destruct asset).
  destruct (hasFramesForRange asset start count); simpl negb;
    cbv beta iota zeta.
  - replace (pendingDiffers
               (set_pendingPrefetch None (set_isInitialPrefill b asset))
               start count)
      with (pendingDiffers (set_pendingPrefetch None asset) start count)
      by (by destruct asset).
    match goal with |- context [match ?ds with [] => _ | _ :: _ => _ end] =>
      destruct ds as [|d0 ds0] eqn:Hds end.
    + eexists. split; [apply lookup_insert_eq|].
      cbn [fst snd]. rewrite !storeAsset_twice.
      by destruct (pendingDiffers _ start count); destruct asset.
    + simpl decoders.
      replace (mkFeedState
                 (set_currentFetchRange
                    (Some (start,
                           Z.min (start + jsnum_toZ count)
                             (Z.of_nat (length (frameToDecode asset))) - 1))
                    (set_pendingPrefetch None (set_isInitialPrefill b asset)))
                 (nextEntry (storeAsset addr (set_isInitialPrefill b asset) w))
                 [])
        with (warmed b
                (mkFeedState
                   (set_currentFetchRange
                      (Some (start,
                             Z.min (start + jsnum_toZ count)
                               (Z.of_nat (length (frameToDecode asset))) - 1))
                      (set_pendingPrefetch None asset))
                   (nextEntry w) []))
        by (unfold warmed; simpl; by destruct asset).
      rewrite submitRange_warmed.
      set (st := submitRange _ _ _ _ _ _ _).
      exists (fs_asset st). split; [apply lookup_insert_eq|].
      simpl. by rewrite Hstore.
  - eexists. split; [apply lookup_insert_eq|].
    cbn [fst snd]. rewrite !storeAsset_twice.
    by destruct (pendingDiffers asset start count); destruct asset.
Qed.

(** X24. The hook handed to the rendering engine is [feedBatch] plus one
    side effect: it handles the request exactly as [feedBatch] does, with
    the same calls and timers, and in addition ends the warm-up phase of
    the asset, whether or not the request is served. *)
Theorem prefetch_hook_ends_warm_up (assetId : string) (start : Z)
    (count : jsnum) (w : World) (addr : nat) (asset : Asset) :
  lookupAsset w assetId = Some (addr, asset) →
  let hook := prefetchFrames assetId start count w in
  let plain := feedBatch assetId start count w in
  hook.2 = plain.2 ∧
  ∃ a, objects plain.1 !! addr = Some a ∧
       hook.1 = storeAsset addr (set_isInitialPrefill false a) plain.1 ∧
       lookupAsset hook.1 assetId
       = Some (addr, set_isInitialPrefill false a).
Proof.
  intros Hlook hook plain.
  destruct (feedBatch_warmed false assetId start count w addr asset Hlook)
    as (a & Hobj & Hrun).
  fold plain in Hobj, Hrun.
  subst hook. unfold prefetchFrames. rewrite Hlook, Hrun. simpl.
  split; [done|]. exists a. split; [done|]. split; [done|].
  destruct (feedBatch_lookup assetId start count w addr asset Hlook)
    as (a' & Hl' & _).
  fold plain in Hl'. by apply (lookupAsset_storeAsset _ _ _ a').
Qed.

Lemma prefetch_hook_ends_warm_up_witness :
  submitted (prefetchFrames "asset#2" 4 (JInt 2)
               (loadedWorld (regularStream 6 3))).2
  = submitted (feedBatch "asset#2" 4 (JInt 2)
                 (loadedWorld (regularStream 6 3))).2.
Proof.
  destruct (prefetch_hook_ends_warm_up "asset#2" 4 (JInt 2)
              (loadedWorld (regularStream 6 3)) 0%nat
              (loadedAsset (regularStream 6 3)) eq_refl) as [Htrace _].
  by rewrite Htrace.
Defined.

(** ** The loader: arrival of samples, settling the promise *)

Section append.
Variables (tscale : positive) (rate : Q).

Lemma appendSamples_snoc ss l x :
  appendSamples tscale rate ss (l ++ [x])
  = appendSamples tscale rate ss l
    ++ [normalizeSample tscale rate
          (length (appendSamples tscale rate ss l)) x].
Proof. unfold appendSamples. by rewrite foldl_app. Qed.

Lemma appendSamples_length ss l :
  length (appendSamples tscale rate ss l) = (length ss + length l)%nat.
Proof.
  induction l as [|x l IH] using rev_ind.
  - simpl. lia.
  - rewrite appendSamples_snoc, !length_app, IH. simpl. lia.
Qed.

Lemma appendSamples_raw ss l :
  raw <$> appendSamples tscale rate ss l = (raw <$> ss) ++ l.
Proof.
  induction l as [|x l IH] using rev_ind.
  - by rewrite app_nil_r.
  - rewrite appendSamples_snoc, fmap_app, IH. by rewrite <- app_assoc.
Qed.

Lemma appendSamples_decodeIndex ss l :
  decodeIndex <$> appendSamples tscale rate ss l
  = (decodeIndex <$> ss) ++ seq (length ss) (length l).
Proof.
  induction l as [|x l IH] using rev_ind.
  - by rewrite app_nil_r.
  - rewrite appendSamples_snoc, fmap_app, IH, length_app, seq_app.
    rewrite appendSamples_length. simpl. by rewrite <- app_assoc.
Qed.
End append.

(** The builder keeps the payload and the decode index of every sample. *)
Lemma updatePresentationTimeline_raw (asset : Asset) ss :
  samples asset = Some ss →
  ∃ ss', samples (updatePresentationTimeline asset) = Some ss' ∧
         raw <$> ss' = raw <$> ss ∧
         decodeIndex <$> ss' = decodeIndex <$> ss.
Proof.
  intros Hs.
  destruct (updatePresentationTimeline_sorted asset ss Hs)
    as (_ & _ & ss' & Hs' & Hlen & Hentries).
  exists ss'. split; [done|].
  assert (Hat : ∀ i, ∃ f, ss' !! i = stamped asset i f <$> ss !! i).
  { intros i. destruct (decide (i < length ss)%nat) as [Hi|Hi].
    - destruct (sorted_timeline_covers asset ss i Hi) as (f & e & Hf & <-).
      destruct (Hentries f e Hf) as (s & Hls & _ & _ & Hst).
      exists f. by rewrite Hst, Hls.
    - exists 0%nat. rewrite !lookup_ge_None_2; [done|lia|lia]. }
  split; apply list_eq; intros i; rewrite !list_lookup_fmap;
    destruct (Hat i) as [f ->]; by destruct (ss !! i).
Qed.

(** [onSamples] for the loader's own track, up to its test for the
    warm-up request. *)
Lemma onSamples_accepted id sampleList ld w addr asset :
  lookupAsset w (ld_assetId ld) = Some (addr, asset) →
  id = ld_trackId ld →
  let arrived :=
    appendSamples (ld_timescale ld) (fps asset) (ld_samples ld) sampleList in
  let asset1 :=
    updatePresentationTimeline (set_samples (Some arrived) asset) in
  let ld1 := set_ld_samples (default arrived (samples asset1)) ld in
  ∃ asset2 w2 events2,
    lookupAsset w2 (ld_assetId ld) = Some (addr, asset2) ∧
    feederInputs asset2 = feederInputs asset1 ∧
    onSamples id sampleList ld w
    = if negb (prefillRequested asset2)
         && hasFramesForRange asset2 0 (JInt (ld_initialPrefillFrames ld))
      then
        let w3 := storeAsset addr (set_prefillRequested true asset2) w2 in
        let '(w4, events4) :=
          feedBatch (ld_assetId ld) 0 (JInt (ld_initialPrefillFrames ld)) w3 in
        let '(ld2, events5) := resolveOnce ld1 in
        (ld2, w4, events2 ++ events4 ++ events5)
      else (ld1, w2, events2).
Proof.
  intros Hlook -> arrived asset1 ld1.
  unfold onSamples. rewrite Hlook, Nat.eqb_refl. simpl negb.
  cbv beta iota zeta. fold arrived. fold asset1.
  pose proof (lookupAsset_storeAsset _ _ _ _ asset1 Hlook) as Hlook1.
  set (pending :=
    match pendingPrefetch asset1 with
    | Some (pstart, pcount) =>
        if hasFramesForRange asset1 pstart pcount
        then feedBatch (ld_assetId ld) pstart pcount
               (storeAsset addr (set_pendingPrefetch None asset1)
                  (storeAsset addr asset1 w))
        else (storeAsset addr asset1 w, [])
    | None => (storeAsset addr asset1 w, [])
    end).
  assert (Hpending : ∃ asset2,
    lookupAsset pending.1 (ld_assetId ld) = Some (addr, asset2) ∧
    feederInputs asset2 = feederInputs asset1).
  { subst pending.
    destruct (pendingPrefetch asset1) as [[pstart pcount]|];
      [|by exists asset1].
    destruct (hasFramesForRange asset1 pstart pcount); [|by exists asset1].
    destruct (feedBatch_lookup (ld_assetId ld) pstart pcount
                (storeAsset addr (set_pendingPrefetch None asset1)
                   (storeAsset addr asset1 w)) addr
                (set_pendingPrefetch None asset1))
      as (asset2 & Hl2 & Hin2).
    { by apply (lookupAsset_storeAsset _ _ _ asset1). }
    exists asset2. split; [done|]. rewrite Hin2. by destruct asset1. }
  destruct Hpending as (asset2 & Hl2 & Hin2).
  destruct pending as [w2 events2]. simpl in Hl2.
  exists asset2, w2, events2. split; [done|]. split; [done|].
  by rewrite (lookupAsset_Some _ _ _ _ Hl2).
Qed.

Lemma resolveOnce_fields ld :
  ld_samples (resolveOnce ld).1 = ld_samples ld ∧
  ld_initialPrefillFrames (resolveOnce ld).1 = ld_initialPrefillFrames ld ∧
  ld_assetId (resolveOnce ld).1 = ld_assetId ld.
Proof.
  unfold resolveOnce. destruct (ld_resolved ld); [done|].
  by destruct (ld_promise ld).
Qed.

Lemma feederInputs_built a a0 :
  feederInputs a = feederInputs (updatePresentationTimeline a0) →
  timeline_built a.
Proof. intros Hin. exists a0. by injection Hin. Qed.

(** X13. [onSamples] only ever appends: after a batch for the loader's
    track the sample array holds the old samples followed by the arrived
    ones, in arrival order, each numbered with its position; the asset
    holds that very array and a timeline built from it. *)
Theorem onSamples_appends_in_order (id : nat) (sampleList : list Sample)
    (ld : Load) (w : World) (addr : nat) (asset : Asset) :
  lookupAsset w (ld_assetId ld) = Some (addr, asset) →
  id = ld_trackId ld →
  let result := onSamples id sampleList ld w in
  raw <$> ld_samples result.1.1 = (raw <$> ld_samples ld) ++ sampleList ∧
  decodeIndex <$> ld_samples result.1.1
  = (decodeIndex <$> ld_samples ld)
    ++ seq (length (ld_samples ld)) (length sampleList) ∧
  ∃ asset', lookupAsset result.1.2 (ld_assetId ld) = Some (addr, asset') ∧
            samples asset' = Some (ld_samples result.1.1) ∧
            timeline_built asset'.
Proof.
  intros Hlook Hid result.
  destruct (onSamples_accepted id sampleList ld w addr asset Hlook Hid)
    as (asset2 & w2 & events2 & Hl2 & Hin2 & Hrun).
  cbv zeta in Hin2, Hrun.
  set (arrived := appendSamples (ld_timescale ld) (fps asset) (ld_samples ld)
                    sampleList) in *.
  set (a0 := set_samples (Some arrived) asset) in *.
  destruct (updatePresentationTimeline_raw a0 arrived eq_refl)
    as (ss' & Hs' & Hraw & Hidx).
  rewrite Hs' in Hrun. simpl default in Hrun.
  assert (Hss2 : samples asset2 = Some ss') by (by injection Hin2 as ->).
  assert (Happ : raw <$> ss' = (raw <$> ld_samples ld) ++ sampleList ∧
                 decodeIndex <$> ss'
                 = (decodeIndex <$> ld_samples ld)
                   ++ seq (length (ld_samples ld)) (length sampleList)).
  { rewrite Hraw, Hidx. subst arrived.
    by rewrite appendSamples_raw, appendSamples_decodeIndex. }
  subst result. rewrite Hrun.
  destruct (negb (prefillRequested asset2)
            && hasFramesForRange asset2 0 (JInt (ld_initialPrefillFrames ld))).
  - cbv zeta.
    destruct (feedBatch_lookup (ld_assetId ld) 0
                (JInt (ld_initialPrefillFrames ld))
                (storeAsset addr (set_prefillRequested true asset2) w2) addr
                (set_prefillRequested true asset2))
      as (asset4 & Hl4 & Hin4).
    { by apply (lookupAsset_storeAsset _ _ _ asset2). }
    destruct (feedBatch _ _ _ _) as [w4 events4]. simpl in Hl4.
    destruct (resolveOnce_fields (set_ld_samples ss' ld)) as (Hrs & _ & _).
    destruct (resolveOnce _) as [ld2 events5]. simpl in *.
    rewrite Hrs. split; [apply Happ|]. split; [apply Happ|].
    exists asset4. split; [done|]. split.
    + injection Hin4 as -> _ _ _ _ _ _ _ _ _. by destruct asset2.
    + apply (timeline_built_ext asset2).
      * injection Hin4 as -> _ _ _ _ _ _ _ _ _. by destruct asset2.
      * injection Hin4 as _ -> _ _ _ _ _ _ _ _. by destruct asset2.
      * injection Hin4 as _ _ -> _ _ _ _ _ _ _. by destruct asset2.
      * by apply (feederInputs_built _ a0).
  - simpl. split; [apply Happ|]. split; [apply Happ|].
    exists asset2. split; [done|]. split; [done|].
    by apply (feederInputs_built _ a0).
Qed.

Lemma onSamples_appends_in_order_witness :
  raw <$> ld_samples
            (onSamples 0 (regularStream 2 1) (startLoad "asset#2")
               (loadedWorld [])).1.1
  = regularStream 2 1.
Proof.
  destruct (onSamples_appends_in_order 0 (regularStream 2 1)
              (startLoad "asset#2") (loadedWorld []) 0%nat (loadedAsset []))
    as (Hraw & _).
  - reflexivity.
  - reflexivity.
  - exact Hraw.
Defined.

(** X14. The promise of the loader resolves with the first batch of
    samples that brings the stream to [initialPrefillFrames] samples, and
    not before: as long as fewer samples have arrived, or when
    [initialPrefillFrames] is not positive, a batch leaves it pending. *)
Theorem load_resolves_with_warm_up_samples (id : nat)
    (sampleList : list Sample) (ld : Load) (w : World) (addr : nat)
    (asset : Asset) :
  lookupAsset w (ld_assetId ld) = Some (addr, asset) →
  id = ld_trackId ld →
  prefillRequested asset = false →
  ld_resolved ld = false →
  ld_promise ld = Pending →
  let result := onSamples id sampleList ld w in
  let received := Z.of_nat (length (ld_samples ld) + length sampleList) in
  ld_promise result.1.1
  = (if decide (0 < ld_initialPrefillFrames ld ≤ received)
     then Resolved else Pending) ∧
  ∃ asset', lookupAsset result.1.2 (ld_assetId ld) = Some (addr, asset') ∧
            prefillRequested asset'
            = bool_decide (0 < ld_initialPrefillFrames ld ≤ received).
Proof.
  intros Hlook Hid Hreq Hres Hpend result received.
  destruct (onSamples_accepted id sampleList ld w addr asset Hlook Hid)
    as (asset2 & w2 & events2 & Hl2 & Hin2 & Hrun).
  cbv zeta in Hin2, Hrun.
  set (arrived := appendSamples (ld_timescale ld) (fps asset) (ld_samples ld)
                    sampleList) in *.
  set (a0 := set_samples (Some arrived) asset) in *.
  assert (Hreq2 : prefillRequested asset2 = false).
  { injection Hin2 as _ _ _ _ _ _ _ _ -> _.
    rewrite <- Hreq. subst a0. unfold updatePresentationTimeline.
    simpl. by destruct arrived. }
  assert (Hgate : hasFramesForRange asset2 0 (JInt (ld_initialPrefillFrames ld))
                  = bool_decide (0 < ld_initialPrefillFrames ld ≤ received)).
  { rewrite (hasFramesForRange_ext (updatePresentationTimeline a0))
      by (by injection Hin2 as _ -> _ _ _ _ _ _ _ _).
    assert (Hcount : Z.of_nat (sampleCount a0) = received).
    { subst a0 arrived received. unfold sampleCount. simpl.
      by rewrite appendSamples_length. }
    pose proof (hasFramesForRange_built a0 0
                  (JInt (ld_initialPrefillFrames ld))) as Hiff.
    rewrite Hcount in Hiff.
    destruct (hasFramesForRange (updatePresentationTimeline a0) 0
                (JInt (ld_initialPrefillFrames ld))); symmetry.
    - apply bool_decide_eq_true.
      destruct Hiff as [Hiff _].
      destruct (Hiff eq_refl) as (c & [= <-] & ? & ? & ?). lia.
    - apply bool_decide_eq_false. intros Hp.
      destruct Hiff as [_ Hiff]. assert (false = true); [|done].
      apply Hiff. exists (ld_initialPrefillFrames ld). repeat split; lia. }
  subst result. rewrite Hrun, Hreq2, Hgate. simpl negb. simpl andb.
  destruct (decide (0 < ld_initialPrefillFrames ld ≤ received)) as [Hp|Hp].
  - rewrite bool_decide_eq_true_2 by done. cbv zeta.
    destruct (feedBatch_lookup (ld_assetId ld) 0
                (JInt (ld_initialPrefillFrames ld))
                (storeAsset addr (set_prefillRequested true asset2) w2) addr
                (set_prefillRequested true asset2))
      as (asset4 & Hl4 & Hin4).
    { by apply (lookupAsset_storeAsset _ _ _ asset2). }
    destruct (feedBatch _ _ _ _) as [w4 events4]. simpl in Hl4.
    unfold resolveOnce. simpl. rewrite Hres, Hpend. simpl.
    split; [done|]. exists asset4. split; [done|].
    injection Hin4 as _ _ _ _ _ _ _ _ -> _. by destruct asset2.
  - rewrite bool_decide_eq_false_2 by done. simpl.
    split; [done|]. by exists asset2.
Qed.

(** The third sample completes a warm-up of three frames. *)
Lemma load_resolves_with_warm_up_samples_witness :
  let ld := mkLoad "asset#2" 0 false Pending 64 64 30000 0 3 [] in
  ld_promise (onSamples 0 (regularStream 2 1) ld (loadedWorld [])).1.1
  = Pending ∧
  ld_promise (onSamples 0 (regularStream 3 1) ld (loadedWorld [])).1.1
  = Resolved.
Proof.
  intros ld. split.
  - destruct (load_resolves_with_warm_up_samples 0 (regularStream 2 1) ld
                (loadedWorld []) 0%nat (loadedAsset []))
      as [Hp _];
      [reflexivity|reflexivity|reflexivity|reflexivity|reflexivity|].
    exact Hp.
  - destruct (load_resolves_with_warm_up_samples 0 (regularStream 3 1) ld
                (loadedWorld []) 0%nat (loadedAsset []))
      as [Hp _];
      [reflexivity|reflexivity|reflexivity|reflexivity|reflexivity|].
    exact Hp.
Defined.

(** *** A load whose warm-up count is not positive *)

Lemma reject_keeps ld reason :
  ld_initialPrefillFrames (reject reason ld).1 = ld_initialPrefillFrames ld ∧
  (ld_promise ld ≠ Resolved → ld_promise (reject reason ld).1 ≠ Resolved).
Proof.
  unfold reject.
  destruct (ld_promise ld) eqn:E; simpl; rewrite ?E; split; congruence.
Qed.

Lemma decoderOutput_begin_load ld frame w :
  ∃ n, (decoderOutput_begin ld frame w).1.1.1 = set_ld_frameIndex n ld.
Proof.
  unfold decoderOutput_begin.
  destruct (lookupAsset w (ld_assetId ld)) as [[addr asset]|];
    [|exists (ld_frameIndex ld); by destruct ld].
  destruct (matchOutput asset (vf_timestamp frame)) as [[entry|] asset1].
  - destruct (deliver entry); simpl; [|by eexists].
    destruct (deliverFrame _ _ _ _ _ _) as [[w1 events] suspended].
    by eexists.
  - destruct (deliverFrame _ _ _ _ _ _) as [[w1 events] suspended].
    by eexists.
Qed.

(** No callback but a fresh [onReady] resolves a load whose warm-up
    count is not positive. *)
Lemma run_keeps_unresolved action ld w :
  starts_load action = false →
  ld_initialPrefillFrames ld ≤ 0 → ld_promise ld ≠ Resolved →
  ld_initialPrefillFrames (run action ld w).1.1 ≤ 0 ∧
  ld_promise (run action ld w).1.1 ≠ Resolved.
Proof.
  intros Hstart Hp Hunres. destruct action; try done; simpl.
  - unfold onError.
    destruct (reject_keeps ld ("MP4Box error: " ++ e)) as [H1 H2].
    destruct (reject _ ld) as [ld1 events]. simpl in *.
    split; [lia|auto].
  - unfold decoderError.
    destruct (reject_keeps ld ("VideoDecoder error: " ++ e)) as [H1 H2].
    destruct (reject _ ld) as [ld1 events]. simpl in *.
    split; [lia|auto].
  - destruct (lookupAsset w (ld_assetId ld)) as [[addr asset]|] eqn:Hlook;
      cycle 1.
    { unfold onSamples. by rewrite Hlook. }
    destruct (Nat.eqb_spec id (ld_trackId ld)) as [Hid|Hid]; cycle 1.
    { unfold onSamples. rewrite Hlook.
      apply Nat.eqb_neq in Hid. by rewrite Hid. }
    destruct (onSamples_accepted id sampleList ld w addr asset Hlook Hid)
      as (asset2 & w2 & events2 & _ & _ & Hrun).
    rewrite Hrun.
    rewrite (hasFramesForRange_not_positive asset2 0
               (JInt (ld_initialPrefillFrames ld))).
    + rewrite andb_false_r. done.
    + right. simpl. by apply Z.leb_le.
  - destruct (decoderOutput_begin_load ld frame w) as [n ->]. done.
  - by destruct (decoderOutput_resume ld k w).
  - by destruct (prefetchFrames assetId start count w).
  - by destruct (fireTimer callback w).
  - by destruct (disposeVideoAsset w).
Qed.

Lemma runAll_keeps_unresolved actions : ∀ ld w,
  Forall (λ action, starts_load action = false) actions →
  ld_initialPrefillFrames ld ≤ 0 → ld_promise ld ≠ Resolved →
  ld_promise (runAll actions ld w).1.1 ≠ Resolved.
Proof.
  induction actions as [|action rest IH]; intros ld w Hall Hp Hunres;
    [done|].
  inversion Hall as [|? ? Hstart Hrest]; subst. simpl.
  destruct (run_keeps_unresolved action ld w Hstart Hp Hunres) as [Hp1 Hu1].
  destruct (run action ld w) as [[ld1 w1] events]. simpl in *.
  specialize (IH ld1 w1 Hrest Hp1 Hu1).
  destruct (runAll rest ld1 w1) as [[ld2 w2] events']. done.
Qed.

(** X15. A track whose RGBA frame exceeds the 96 MB cap gets a warm-up
    count of zero, and its load then never resolves: whatever samples
    arrive, whatever frames are requested or decoded, the promise stays
    pending unless an error rejects it. *)
Theorem oversized_frames_never_resolve (tracks : list Track) (t : Track)
    (ld : Load) (w : World) (actions : list Action) :
  List.find tr_video tracks = Some t →
  tr_configureThrows t = None →
  96 * 1024 * 1024 < tr_width t * tr_height t * 4 →
  ld_promise ld = Pending →
  Forall (λ action, starts_load action = false) actions →
  let ready := onReady tracks ld w in
  ld_initialPrefillFrames ready.1.1 = 0 ∧
  (∃ addr asset, lookupAsset ready.1.2 (ld_assetId ld) = Some (addr, asset) ∧
                 initialPrefillFrames asset = 0) ∧
  ld_promise (runAll actions ready.1.1 ready.1.2).1.1 ≠ Resolved.
Proof.
  intros Hfind Hconf Hbig Hpend Hall ready.
  assert (Hzero : 96 * 1024 * 1024 / (tr_width t * tr_height t * 4) = 0).
  { apply Z.div_small. lia. }
  assert (Hready : ld_initialPrefillFrames ready.1.1 = 0 ∧
                   ld_promise ready.1.1 = Pending ∧
                   ∃ addr asset,
                     lookupAsset ready.1.2 (ld_assetId ld)
                     = Some (addr, asset) ∧
                     initialPrefillFrames asset = 0).
  { subst ready. unfold onReady. rewrite Hfind. cbv zeta.
    destruct (Z.eqb_spec (tr_width t * tr_height t * 4) 0) as [?|_]; [lia|].
    rewrite Hzero.
    destruct (malloc _ w) as [p w1]. rewrite Hconf. simpl.
    split; [done|]. split; [done|].
    eexists _, _. split.
    - unfold lookupAsset. simpl.
      rewrite lookup_insert_eq. by rewrite lookup_insert_eq.
    - reflexivity. }
  destruct Hready as (Hp & Hpending & Hasset).
  split; [done|]. split; [done|].
  apply runAll_keeps_unresolved; [done|lia|by rewrite Hpending].
Qed.

(** Twelve samples of an 8192x4096 track arrive; the load stays pending. *)
Lemma oversized_frames_never_resolve_witness :
  let ready := onReady [wideTrack] (startLoad "asset#2") blankWorld in
  ld_promise (runAll [ActSamples 1 (regularStream 12 1)] ready.1.1
                ready.1.2).1.1 ≠ Resolved.
Proof.
  intros ready.
  destruct (oversized_frames_never_resolve [wideTrack] wideTrack
              (startLoad "asset#2") blankWorld
              [ActSamples 1 (regularStream 12 1)])
    as (_ & _ & Hnever).
  - reflexivity.
  - reflexivity.
  - vm_compute. reflexivity.
  - reflexivity.
  - repeat constructor.
  - exact Hnever.
Defined.

(** The frame count of a track without a sample count is the floor of a
    binary64 product: [116 / 100] is the number just below 1.16, and 25
    times it stays below 29. *)
Example totalFrames_binary64 :
  let track := mkTrack true 1 64 64 (RateNumber 25) 100 0 116 None in
  (onReady [track] (startLoad "asset#2") blankWorld).2
  = [EvCreateWebAsset "asset#2"; EvSetVideoAssetInfo "asset#2" 28 25 10].
Proof. by vm_compute. Qed.

(** ** After disposal *)

(** Disposal deregisters the asset and leaves its object behind, without
    a buffer. *)
Lemma disposeVideoAsset_leaves w addr asset :
  lookupAsset w (videoAssetId (player w)) = Some (addr, asset) →
  let w1 := (disposeVideoAsset w).1 in
  lookupAsset w1 (videoAssetId (player w)) = None ∧
  ∃ asset', objects w1 !! addr = Some asset' ∧
            ptr_truthy (ptr asset') = false.
Proof.
  intros Hlook w1.
  destruct (videoAssets w) as [assets|] eqn:Hreg;
    [|by unfold lookupAsset in Hlook; rewrite Hreg in Hlook].
  destruct (disposeVideoAsset_registered w assets addr asset Hreg Hlook)
    as (Hreg1 & _ & _ & _ & asset' & Hobj & Hptr & _).
  split; [|by exists asset'].
  subst w1. unfold lookupAsset. rewrite Hreg1. by rewrite lookup_delete_eq.
Qed.

(** X16. Once an asset is disposed of, its callbacks are inert: a batch
    request, a prefetch hook call or a retry timer for it only logs a
    warning and arms no further timer, a decoded frame is closed without
    being delivered, and arriving samples are ignored. *)
Theorem disposed_asset_is_inert (w : World) (addr : nat) (asset : Asset) :
  lookupAsset w (videoAssetId (player w)) = Some (addr, asset) →
  let id := videoAssetId (player w) in
  let w1 := (disposeVideoAsset w).1 in
  let warning := [EvWarn "[feedBatch] Skipped: asset not found"] in
  (∀ start count,
     feedBatch id start count w1 = (w1, warning) ∧
     prefetchFrames id start count w1 = (w1, warning) ∧
     fireTimer (RetryFeedBatch id start count) w1 = (w1, warning)) ∧
  (∀ ld frame, ld_assetId ld = id →
     decoderOutput ld frame w1 = (ld, w1, [EvFrameClose])) ∧
  (∀ ld track sampleList, ld_assetId ld = id →
     onSamples track sampleList ld w1 = (ld, w1, [])).
Proof.
  intros Hlook id w1 warning.
  destruct (disposeVideoAsset_leaves w addr asset Hlook) as [Hgone _].
  fold id w1 in Hgone.
  split; [|split].
  - intros start count.
    assert (Hfeed : feedBatch id start count w1 = (w1, warning)).
    { unfold feedBatch. by rewrite Hgone. }
    split; [done|]. split; [|done].
    unfold prefetchFrames. by rewrite Hgone.
  - intros ld frame Hid. unfold decoderOutput, decoderOutput_begin.
    by rewrite Hid, Hgone.
  - intros ld track sampleList Hid. unfold onSamples. by rewrite Hid, Hgone.
Qed.

Lemma disposed_asset_is_inert_witness :
  let w1 := (disposeVideoAsset (loadedWorld (regularStream 3 1))).1 in
  feedBatch "asset#2" 0 (JInt 2) w1
  = (w1, [EvWarn "[feedBatch] Skipped: asset not found"]).
Proof.
  intros w1.
  destruct (disposed_asset_is_inert (loadedWorld (regularStream 3 1)) 0%nat
              (loadedAsset (regularStream 3 1)) eq_refl) as (Hfeed & _).
  destruct (Hfeed 0 (JInt 2)) as (H & _). exact H.
Defined.

Lemma finishCopy_pointer assetId addr asset target fw fh bytes w :
  delivered (finishCopy assetId addr asset target fw fh bytes true w).2
  = [target] ∧
  deliveredPointers (finishCopy assetId addr asset target fw fh bytes true w).2
  = [ptr asset].
Proof.
  unfold finishCopy. simpl.
  by destruct (surface (player w) && negb (playing (player w))).
Qed.

(** X17. A handler suspended at [copyTo] holds on to the asset object:
    when the copy settles successfully after the asset has been disposed
    of, the handler still hands its frame to the rendering engine, and
    the buffer pointer it passes is the null pointer disposal left in
    the object. *)
Theorem copy_settling_after_disposal (w : World) (addr : nat)
    (asset : Asset) (ld : Load) (k : Suspended) :
  lookupAsset w (videoAssetId (player w)) = Some (addr, asset) →
  su_addr k = addr →
  copyToOk (su_frame k) = true →
  let w1 := (disposeVideoAsset w).1 in
  let result := decoderOutput_resume ld k w1 in
  delivered result.2 = [su_target k] ∧
  ∃ p, deliveredPointers result.2 = [p] ∧ ptr_truthy p = false.
Proof.
  intros Hlook Haddr Hok w1 result.
  destruct (disposeVideoAsset_leaves w addr asset Hlook)
    as (_ & asset' & Hobj & Hptr).
  fold w1 in Hobj.
  subst result. unfold decoderOutput_resume. rewrite Haddr, Hobj, Hok.
  set (cached := match copyMethod asset' with None => _ | Some _ => _ end).
  assert (Hc : delivered cached.2 = [] ∧ deliveredPointers cached.2 = [] ∧
               ptr cached.1 = ptr asset').
  { subst cached. destruct (copyMethod asset'); [done|].
    by destruct asset'. }
  destruct cached as [asset1 events]. simpl in Hc.
  destruct Hc as (Hd & Hp & Hsame).
  destruct (finishCopy_pointer (ld_assetId ld) addr asset1 (su_target k)
              (su_frameWidth k) (su_frameHeight k) (su_requiredBytes k) w1)
    as [Hfd Hfp].
  destruct (finishCopy _ _ _ _ _ _ _ _ _) as [w2 endEvents]. simpl in *.
  rewrite delivered_app, Hd, Hfd. split; [done|].
  exists (ptr asset1). unfold deliveredPointers in *.
  rewrite omap_app, Hp, Hfp. split; [done|]. by rewrite Hsame.
Qed.

(** The first frame of a stream is being copied when the page disposes
    of the asset. *)
Lemma copy_settling_after_disposal_witness :
  let k := mkSuspended 0 (demoFrame 0 true) 0 (mkRect 0 0 64 64) 64 64 16384 in
  let w1 := (disposeVideoAsset (loadedWorld (regularStream 3 1))).1 in
  delivered (decoderOutput_resume (startLoad "asset#2") k w1).2 = [0%nat].
Proof.
  intros k w1.
  destruct (copy_settling_after_disposal (loadedWorld (regularStream 3 1))
              0%nat (loadedAsset (regularStream 3 1)) (startLoad "asset#2") k)
    as [Hdelivered _].
  - reflexivity.
  - reflexivity.
  - reflexivity.
  - exact Hdelivered.
Defined.

(** ** The output handler: the pixel buffer and the warm-up *)

#[local] Arguments output_outcome : simpl never.
#[local] Arguments warmUp : simpl never.

Lemma deliveredPointers_app t1 t2 :
  deliveredPointers (t1 ++ t2) = deliveredPointers t1 ++ deliveredPointers t2.
Proof. unfold deliveredPointers. apply omap_app. Qed.

Lemma matchOutput_copyState asset ts :
  let a1 := (matchOutput asset ts).2 in
  ptr a1 = ptr asset ∧ frameBytes a1 = frameBytes asset ∧
  useStrideSize a1 = useStrideSize asset ∧ warmUp a1 = warmUp asset.
Proof.
  unfold matchOutput, takeByTimestamp, takeQueueHead.
  destruct (decodeQueueByTimestamp asset !! ts) as [[|e rest]|];
    try done; by destruct (decodeQueue asset).
Qed.

Lemma sizeBuffer_copyState frame g asset :
  let a1 := (sizeBuffer frame g asset).1.2 in
  ptr a1 = ptr asset ∧ frameBytes a1 = frameBytes asset ∧
  warmUp a1 = warmUp asset ∧
  delivered (sizeBuffer frame g asset).2 = [] ∧
  deliveredPointers (sizeBuffer frame g asset).2 = [].
Proof.
  unfold sizeBuffer. destruct (useStrideSize asset); [done|].
  by destruct (allocationSize frame).
Qed.

Lemma sizeBuffer_ext frame g a a' :
  useStrideSize a' = useStrideSize a →
  (sizeBuffer frame g a').1.1 = (sizeBuffer frame g a).1.1.
Proof.
  intros H. unfold sizeBuffer. rewrite H.
  destruct (useStrideSize a); [done|]. by destruct (allocationSize frame).
Qed.

(** After [ensureBuffer] the asset has a live buffer of at least the
    required size. *)
Lemma ensureBuffer_fits bytes asset w :
  buffer_ok asset w →
  let a2 := (ensureBuffer bytes asset w).1 in
  let w1 := (ensureBuffer bytes asset w).2 in
  (∃ q n, ptr a2 = Some q ∧ q ≠ 0%N ∧ wasmLive w1 !! q = Some n ∧
          (bytes ≤ n)%N ∧ (frameBytes a2 ≤ n)%N) ∧
  warmUp a2 = warmUp asset ∧
  videoAssets w1 = videoAssets w ∧ objects w1 = objects w.
Proof.
  intros Hok. unfold ensureBuffer.
  destruct (negb (ptr_truthy (ptr asset)) || (frameBytes asset <? bytes)%N)
    eqn:Hneed.
  - set (w0 := match ptr asset with Some p => _ | None => _ end).
    assert (Hw0 : videoAssets w0 = videoAssets w ∧ objects w0 = objects w).
    { subst w0. destruct (ptr asset) as [p|]; [|done].
      by destruct (ptr_truthy (Some p)). }
    unfold malloc. simpl. split; [|by destruct Hw0].
    exists (N.max 1 (wasmNext w0)), bytes.
    split; [done|]. split; [lia|]. split; [apply lookup_insert_eq|]. lia.
  - simpl. apply orb_false_iff in Hneed as [Ht Hb].
    apply negb_false_iff in Ht. apply N.ltb_ge in Hb.
    destruct (ptr asset) as [p|] eqn:Hp; [|done].
    destruct (Hok p Hp Ht) as (n & Hlive & Hn).
    split; [|done]. exists p, n. split; [done|].
    split; [|split; [done|lia]].
    simpl in Ht. apply negb_true_iff, N.eqb_neq in Ht. done.
Qed.

Lemma canvasCopy_copyState pf frame asset rect fw fh :
  let a1 := (canvasCopy pf frame asset rect fw fh).1.1 in
  ptr a1 = ptr asset ∧ frameBytes a1 = frameBytes asset ∧
  warmUp a1 = warmUp asset ∧
  delivered (canvasCopy pf frame asset rect fw fh).1.2 = [] ∧
  deliveredPointers (canvasCopy pf frame asset rect fw fh).1.2 = [].
Proof.
  unfold canvasCopy.
  assert (He : ptr (ensureCanvasForAsset pf asset fw fh) = ptr asset ∧
               frameBytes (ensureCanvasForAsset pf asset fw fh)
               = frameBytes asset ∧
               warmUp (ensureCanvasForAsset pf asset fw fh) = warmUp asset).
  { unfold ensureCanvasForAsset. destruct (canvas asset) as [c|].
    - by destruct (negb _ || negb _).
    - by destruct pf. }
  destruct He as (H1 & H2 & H3).
  destruct (canvas (ensureCanvasForAsset pf asset fw fh)); [|done].
  by destruct (canvasDrawOk frame).
Qed.

(** The end of the handler, entered with a live buffer of at least
    [bytes] bytes. *)
Lemma finishCopy_outcome assetId addr asset target fw fh bytes ok w q n :
  ptr asset = Some q → q ≠ 0%N → wasmLive w !! q = Some n → (bytes ≤ n)%N →
  (isInitialPrefill asset = true →
   currentPrefillIndex asset < initialPrefillFrames asset) →
  let result := finishCopy assetId addr asset target fw fh bytes ok w in
  videoAssets result.1 = videoAssets w ∧
  ∃ asset', objects result.1 = <[addr := asset']> (objects w) ∧
            output_outcome bytes (warmUp asset) asset' result.1 result.2.
Proof.
  intros Hptr Hq Hlive Hn Hgate. unfold finishCopy. destruct ok.
  - cbv zeta.
    set (a' := if isInitialPrefill _ then _ else _).
    assert (Ha' : ptr a' = Some q ∧ frameBytes a' = bytes ∧
                  isInitialPrefill a' = isInitialPrefill asset ∧
                  initialPrefillFrames a' = initialPrefillFrames asset ∧
                  currentPrefillIndex a'
                  = currentPrefillIndex asset
                    + (if isInitialPrefill asset then 1 else 0)).
    { subst a'. simpl. destruct (isInitialPrefill asset) eqn:E; simpl;
        rewrite ?E, Hptr; repeat split; try done; lia. }
    destruct Ha' as (Hp' & Hb' & Hw' & Hf' & Hi').
    simpl. split; [done|]. exists a'. split; [done|].
    unfold output_outcome, warmUp. split; [|split; [|split]]; try done.
    + intros p Hp Ht. exists n. rewrite Hp' in Hp. injection Hp as <-.
      split; [done|]. by rewrite Hb'.
    + right. exists target, q, n. rewrite Hptr.
      split; [by destruct (surface (player w) && negb (playing (player w)))|].
      split; [by destruct (surface (player w) && negb (playing (player w)))|].
      done.
  - rewrite Hptr.
    assert (Ht : ptr_truthy (Some q) = true).
    { simpl. by apply negb_true_iff, N.eqb_neq. }
    rewrite Ht. simpl. split; [done|]. eexists. split; [done|].
    unfold output_outcome, warmUp. split; [|split; [|split]]; try done.
    by left.
Qed.

Lemma lookupAsset_insert w w' assetId addr a a' :
  lookupAsset w assetId = Some (addr, a) →
  videoAssets w' = videoAssets w →
  objects w' = <[addr := a']> (objects w) →
  lookupAsset w' assetId = Some (addr, a').
Proof.
  unfold lookupAsset. intros Hlook -> ->.
  destruct (videoAssets w) as [registry|]; [|done].
  destruct (registry !! assetId) as [addr'|]; [|done].
  destruct (objects w !! addr') as [asset0|]; [|done].
  injection Hlook as -> ->. by rewrite lookup_insert_eq.
Qed.

Lemma lookupAsset_ext w w' assetId :
  videoAssets w' = videoAssets w → objects w' = objects w →
  lookupAsset w' assetId = lookupAsset w assetId.
Proof. unfold lookupAsset. by intros -> ->. Qed.

Lemma output_outcome_app bytes before asset' w' t1 t2 :
  delivered t1 = [] → deliveredPointers t1 = [] →
  output_outcome bytes before asset' w' t2 →
  output_outcome bytes before asset' w' (t1 ++ t2).
Proof.
  intros H1 H2. unfold output_outcome. destruct before as [[? ?] ?].
  by rewrite delivered_app, deliveredPointers_app, H1, H2.
Qed.

Lemma frameGeometry_frameIndex n ld frame :
  frameGeometry (set_ld_frameIndex n ld) frame = frameGeometry ld frame.
Proof. done. Qed.

Opaque finishCopy canvasCopy frameGeometry.

(** From the warm-up test to the end of the handler, the copy settling
    at once. *)
Lemma deliverFrame_outcome ld addr asset target frame w a0 :
  lookupAsset w (ld_assetId ld) = Some (addr, a0) →
  buffer_ok asset w →
  let final := settle ld (deliverFrame ld addr asset target frame w) in
  ∃ asset', lookupAsset final.1 (ld_assetId ld) = Some (addr, asset') ∧
            output_outcome (requiredBytesFor ld frame asset) (warmUp asset)
              asset' final.1 final.2.
Proof.
  intros Hlook Hok. unfold deliverFrame, requiredBytesFor.
  destruct (isInitialPrefill asset
            && (initialPrefillFrames asset <=? currentPrefillIndex asset))
    eqn:Hdrop.
  { simpl. exists asset. split; [by eapply lookupAsset_storeAsset|].
    unfold output_outcome, warmUp. split; [done|]. split; [done|].
    split; [done|]. by left. }
  assert (Hgate : isInitialPrefill asset = true →
                  currentPrefillIndex asset < initialPrefillFrames asset).
  { intros Hw. rewrite Hw in Hdrop. simpl in Hdrop.
    by apply Z.leb_gt in Hdrop. }
  cbv zeta.
  destruct (sizeBuffer_copyState frame (frameGeometry ld frame) asset)
    as (Hsp & Hsb & Hsw & Hsd & Hsq).
  destruct (sizeBuffer frame (frameGeometry ld frame) asset)
    as [[bytes asset1] sizeEvents]. simpl in *.
  assert (Hok1 : buffer_ok asset1 w).
  { intros p Hp Ht. rewrite Hsp in Hp. rewrite Hsb. by apply Hok. }
  destruct (ensureBuffer_fits bytes asset1 w Hok1)
    as ((q & n & Hq & Hq0 & Hlive & Hn & Hfb) & Hew & Hereg & Heobj).
  destruct (ensureBuffer bytes asset1 w) as [asset2 w1]. simpl in *.
  assert (Hlook1 : lookupAsset w1 (ld_assetId ld) = Some (addr, a0)).
  { by rewrite (lookupAsset_ext w w1). }
  assert (Hgate2 : ∀ a, warmUp a = warmUp asset →
                        isInitialPrefill a = true →
                        currentPrefillIndex a < initialPrefillFrames a).
  { intros a Ha. unfold warmUp in Ha. injection Ha as -> -> ->. done. }
  (* the two ways to the end of the handler *)
  assert (Hcanvas : ∀ a w', warmUp a = warmUp asset → ptr a = Some q →
    wasmLive w' = wasmLive w1 → videoAssets w' = videoAssets w1 →
    (∃ a1, objects w' = <[addr := a1]> (objects w1)) ∨ objects w' = objects w1 →
    let '(asset3, copyEvents, ok) :=
      canvasCopy (platform w') frame a (g_rect (frameGeometry ld frame))
        (g_frameWidth (frameGeometry ld frame))
        (g_frameHeight (frameGeometry ld frame)) in
    let '(w2, endEvents) :=
      finishCopy (ld_assetId ld) addr asset3 target
        (g_frameWidth (frameGeometry ld frame))
        (g_frameHeight (frameGeometry ld frame)) bytes ok w' in
    ∃ asset', lookupAsset w2 (ld_assetId ld) = Some (addr, asset') ∧
              output_outcome bytes (warmUp asset) asset' w2
                (copyEvents ++ endEvents)).
  { intros a w' Hwa Hpa Hlive' Hreg' Hobj'.
    match goal with
    | |- context [canvasCopy ?a ?b ?c ?d ?e ?f] =>
        destruct (canvasCopy_copyState a b c d e f)
          as (Hcp & Hcb & Hcw & Hcd & Hcq);
        destruct (canvasCopy a b c d e f) as [[asset3 copyEvents] ok]
    end.
    simpl in *.
    match goal with
    | |- context [finishCopy ?a ?b ?c ?d ?e ?f ?g ?h ?i] =>
        destruct (finishCopy_outcome a b c d e f g h i q n)
          as (Hfreg & asset' & Hfobj & Hout);
        [congruence|done|by rewrite Hlive'|done|
         apply Hgate2; congruence|];
        destruct (finishCopy a b c d e f g h i) as [w2 endEvents]
    end.
    simpl in *. exists asset'. split.
    - destruct Hobj' as [[a1 Hobj']|Hobj'].
      + apply (lookupAsset_insert w1 _ _ _ a0); [done|congruence|].
        rewrite Hfobj, Hobj'. apply insert_insert_eq.
      + apply (lookupAsset_insert w1 _ _ _ a0); [done|congruence|].
        by rewrite Hfobj, Hobj'.
    - apply output_outcome_app; [done|done|].
      by rewrite Hcw, Hwa in Hout. }
  destruct (copyMethod asset2) as [[|]|] eqn:Hmethod.
  - (* direct, cached *)
    simpl. unfold decoderOutput_resume. simpl.
    rewrite lookup_insert_eq.
    destruct (copyToOk frame).
    + rewrite Hmethod.
      match goal with
      | |- context [finishCopy ?a ?b ?c ?d ?e ?f ?g ?h ?i] =>
          destruct (finishCopy_outcome a b c d e f g h i q n)
            as (Hfreg & asset' & Hfobj & Hout);
          [done|done|done|done|apply Hgate2; congruence|];
          destruct (finishCopy a b c d e f g h i) as [w2 endEvents]
      end.
      simpl in *. exists asset'. split.
      * apply (lookupAsset_insert w1 _ _ _ a0); [done|done|].
        rewrite Hfobj. apply insert_insert_eq.
      * rewrite <- app_assoc.
        apply output_outcome_app; [done|done|].
        apply (output_outcome_app _ _ _ _ [EvCopyTo _]); [done|done|].
        by rewrite Hew, Hsw in Hout.
    + rewrite Hmethod.
      specialize (Hcanvas asset2 (storeAsset addr asset2 w1)).
      simpl in Hcanvas.
      destruct (canvasCopy _ _ _ _ _ _) as [[asset3 copyEvents] ok].
      destruct (finishCopy _ _ _ _ _ _ _ _ _) as [w2 endEvents].
      destruct Hcanvas as (asset' & Hl' & Hout');
        [congruence|done|done|done|left; by eexists|].
      simpl. exists asset'. split; [done|].
      rewrite <- app_assoc.
      apply output_outcome_app; [done|done|].
      by apply (output_outcome_app _ _ _ _ [EvCopyTo _]).
  - (* canvas, cached *)
    specialize (Hcanvas asset2 w1).
    destruct (canvasCopy _ _ _ _ _ _) as [[asset3 copyEvents] ok].
    destruct (finishCopy _ _ _ _ _ _ _ _ _) as [w2 endEvents].
    destruct Hcanvas as (asset' & Hl' & Hout');
      [congruence|done|done|done|by right|].
    simpl. exists asset'. split; [done|].
    by apply output_outcome_app.
  - (* no method cached yet *)
    simpl. unfold decoderOutput_resume. simpl.
    rewrite lookup_insert_eq.
    destruct (copyToOk frame).
    + rewrite Hmethod.
      match goal with
      | |- context [finishCopy ?a ?b ?c ?d ?e ?f ?g ?h ?i] =>
          destruct (finishCopy_outcome a b c d e f g h i q n)
            as (Hfreg & asset' & Hfobj & Hout);
          [by destruct asset2|done|done|done|
           apply Hgate2; rewrite <- Hsw, <- Hew; by destruct asset2|];
          destruct (finishCopy a b c d e f g h i) as [w2 endEvents]
      end.
      simpl in *. exists asset'. split.
      * apply (lookupAsset_insert w1 _ _ _ a0); [done|done|].
        rewrite Hfobj. apply insert_insert_eq.
      * rewrite <- app_assoc.
        apply output_outcome_app; [done|done|].
        apply (output_outcome_app _ _ _ _ [EvCopyTo _; EvLog _]);
          [done|done|].
        replace (warmUp asset)
          with (warmUp (set_copyMethod (Some Direct) asset2)); [done|].
        rewrite <- Hsw, <- Hew. by destruct asset2.
    + rewrite Hmethod.
      specialize (Hcanvas (set_copyMethod (Some Canvas) asset2)
                    (storeAsset addr asset2 w1)).
      simpl in Hcanvas.
      destruct (canvasCopy _ _ _ _ _ _) as [[asset3 copyEvents] ok].
      destruct (finishCopy _ _ _ _ _ _ _ _ _) as [w2 endEvents].
      destruct Hcanvas as (asset' & Hl' & Hout');
        [rewrite <- Hsw, <- Hew; by destruct asset2|by destruct asset2|
         done|done|left; by eexists|].
      simpl. exists asset'. split; [done|].
      rewrite <- app_assoc.
      apply output_outcome_app; [done|done|].
      by apply (output_outcome_app _ _ _ _ [EvCopyTo _; EvWarn _]).
Qed.

(** One run of the output handler, the copy settling at once. *)
Lemma decoderOutput_outcome ld frame w addr asset :
  lookupAsset w (ld_assetId ld) = Some (addr, asset) →
  buffer_ok asset w →
  let result := decoderOutput ld frame w in
  ld_assetId result.1.1 = ld_assetId ld ∧
  ∃ asset', lookupAsset result.1.2 (ld_assetId ld) = Some (addr, asset') ∧
            output_outcome (requiredBytesFor ld frame asset) (warmUp asset)
              asset' result.1.2 result.2.
Proof.
  intros Hlook Hok. unfold decoderOutput, decoderOutput_begin.
  rewrite Hlook.
  destruct (matchOutput_copyState asset (vf_timestamp frame))
    as (Hmp & Hmb & Hms & Hmw).
  destruct (matchOutput asset (vf_timestamp frame)) as [entry asset1].
  simpl in Hmp, Hmb, Hms, Hmw.
  assert (Hok1 : buffer_ok asset1 w).
  { intros p Hp Ht. rewrite Hmp in Hp. rewrite Hmb. by apply Hok. }
  assert (Hrun : ∀ n target,
    let ld1 := set_ld_frameIndex n ld in
    let final := settle ld1 (deliverFrame ld1 addr asset1 target frame w) in
    ∃ asset', lookupAsset final.1 (ld_assetId ld) = Some (addr, asset') ∧
              output_outcome (requiredBytesFor ld frame asset) (warmUp asset)
                asset' final.1 final.2).
  { intros n target ld1 final.
    destruct (deliverFrame_outcome ld1 addr asset1 target frame w asset)
      as (asset' & Hl' & Hout); [done|done|].
    exists asset'. split; [done|].
    rewrite Hmw in Hout.
    replace (requiredBytesFor ld frame asset)
      with (requiredBytesFor ld1 frame asset1); [done|].
    unfold requiredBytesFor. subst ld1.
    rewrite frameGeometry_frameIndex. by apply sizeBuffer_ext. }
  destruct entry as [entry|].
  - cbv zeta. destruct (deliver entry); simpl negb; cbv iota.
    + set (n := Nat.max _ _).
      set (target := match qe_frameIndex entry with Some f => f | None => _ end).
      specialize (Hrun n target). cbv zeta in Hrun.
      unfold settle in Hrun.
      destruct (deliverFrame _ _ _ _ _ _) as [[w1 events] [k|]].
      * destruct (decoderOutput_resume _ k w1) as [w2 rest]. by split.
      * by split.
    + simpl. split; [done|]. exists asset1.
      split; [by eapply lookupAsset_storeAsset|].
      unfold output_outcome. rewrite <- Hmw. unfold warmUp.
      split; [done|]. split; [done|]. split; [done|]. by left.
  - cbv zeta.
    specialize (Hrun (S (ld_frameIndex ld)) (ld_frameIndex ld)).
    cbv zeta in Hrun. unfold settle in Hrun.
    destruct (deliverFrame _ _ _ _ _ _) as [[w1 events] [k|]].
    + destruct (decoderOutput_resume _ k w1) as [w2 rest].
      split; [done|].
      destruct Hrun as (asset' & Hl' & Hout). exists asset'.
      split; [done|].
      by apply (output_outcome_app _ _ _ _ [EvWarn _]).
    + split; [done|].
      destruct Hrun as (asset' & Hl' & Hout). exists asset'.
      split; [done|].
      by apply (output_outcome_app _ _ _ _ [EvWarn _]).
Qed.

Transparent finishCopy canvasCopy frameGeometry.

(** X18. When the allocator hands out a block on request and the calls
    into the engine return, a frame the output handler delivers lies in a
    live block of the native heap, referred to by a non-null pointer, that
    is at least as large as the frame requires.  The handler delivers at
    most one frame; after a delivery the asset has a live buffer of at
    least [frameBytes] bytes, and after a run that delivers nothing its
    buffer is live if it still has one (a failed copy releases it).  (The
    copy is taken to settle before any other callback runs.) *)
Theorem delivered_frame_fits_buffer (nv : Native) (ld : Load)
    (frame : VideoFrame) (w : World) (addr : nat) (asset : Asset) :
  lookupAsset w (ld_assetId ld) = Some (addr, asset) →
  buffer_ok asset w →
  quiet nv = true →
  let result := (decoderOutput_in nv ld frame w).1 in
  (length (delivered result.2) ≤ 1)%nat ∧
  (∀ p, p ∈ deliveredPointers result.2 →
        ∃ q n, p = Some q ∧ q ≠ 0%N ∧
               wasmLive result.1.2 !! q = Some n ∧
               (requiredBytesFor ld frame asset ≤ n)%N) ∧
  ∃ asset', lookupAsset result.1.2 (ld_assetId ld) = Some (addr, asset') ∧
            buffer_ok asset' result.1.2 ∧
            (delivered result.2 ≠ [] →
             ∃ q n, ptr asset' = Some q ∧ q ≠ 0%N ∧
                    wasmLive result.1.2 !! q = Some n ∧
                    (frameBytes asset' ≤ n)%N).
Proof.
  intros Hlook Hok Hq result. subst result.
  rewrite (decoderOutput_in_quiet _ _ _ _ Hq). cbn [fst].
  destruct (decoderOutput_outcome ld frame w addr asset Hlook Hok)
    as (_ & asset' & Hl' & Hout).
  unfold output_outcome, warmUp in Hout.
  destruct Hout as (Hok' & _ & _ & Hcases).
  destruct Hcases
    as [(Hd & Hp & _)|(f & q & n & Hd & Hp & Hq0 & Hptr & Hlive & Hn & Hfb & _)].
  - rewrite Hd, Hp. split; [simpl; lia|].
    split; [by intros p ?%elem_of_nil|].
    exists asset'. split; [done|]. by split.
  - rewrite Hd, Hp. split; [simpl; lia|].
    split; [intros p ->%list_elem_of_singleton; by exists q, n|].
    exists asset'. split; [done|]. split; [done|].
    intros _. exists q, n. by rewrite Hfb.
Qed.

(** The first frame of a stream, requested and decoded. *)
Lemma delivered_frame_fits_buffer_witness :
  let result :=
    (decoderOutput_in calm (startLoad "asset#2") (demoFrame 0 true)
       requestedWorld).1 in
  ∃ q n, deliveredPointers result.2 = [Some q] ∧ q ≠ 0%N ∧
         wasmLive result.1.2 !! q = Some n ∧
         (requiredBytesFor (startLoad "asset#2") (demoFrame 0 true)
            (default (loadedAsset []) (objects requestedWorld !! 0%nat))
          ≤ n)%N.
Proof.
  intros result.
  assert (Hp : deliveredPointers result.2 = [Some 1%N]).
  { vm_compute. reflexivity. }
  destruct (delivered_frame_fits_buffer calm (startLoad "asset#2")
              (demoFrame 0 true) requestedWorld 0%nat
              (default (loadedAsset []) (objects requestedWorld !! 0%nat)))
    as (_ & Hlive & _).
  - vm_compute. reflexivity.
  - intros p Hptr _. vm_compute in Hptr. injection Hptr as <-.
    exists 16384%N. split; [vm_compute; reflexivity|].
    vm_compute. discriminate.
  - reflexivity.
  - destruct (Hlive (Some 1%N)) as (q & n & Hq & Hq0 & Hl & Hn).
    + fold result. rewrite Hp. apply list_elem_of_singleton. reflexivity.
    + injection Hq as <-. exists 1%N, n.
      split; [exact Hp|]. split; [exact Hq0|]. split; [exact Hl|exact Hn].
Defined.

(** A frame that can be copied neither way: nothing is delivered, and the
    buffer is released and the asset left without one. *)
Example failed_copy_releases_buffer :
  let result :=
    (decoderOutput_in calm (startLoad "asset#2") (brokenFrame 0)
       requestedWorld).1 in
  delivered result.2 = [] ∧ closes result.2 = 1%nat ∧
  wasmLive result.1.2 = ∅ ∧
  (λ asset, (ptr asset, frameBytes asset)) <$> objects result.1.2 !! 0%nat
  = Some (None, 0%N).
Proof. by vm_compute. Qed.

(** The result of [_malloc] is not tested: when a larger frame arrives
    and the allocator has no block left, the frame is copied to and
    delivered with the null pointer. *)
Example null_allocation_is_delivered :
  let result :=
    (decoderOutput_in exhausted (startLoad "asset#2") (largeFrame 0)
       requestedWorld).1 in
  delivered result.2 = [0%nat] ∧ deliveredPointers result.2 = [Some 0%N] ∧
  wasmLive result.1.2 = ∅.
Proof. by vm_compute. Qed.

(** The handler run on a list of frames from a state with trace
    [events]. *)
Lemma decodeAll_bounded frames : ∀ ld w events addr asset,
  lookupAsset w (ld_assetId ld) = Some (addr, asset) →
  buffer_ok asset w →
  isInitialPrefill asset = true →
  let result :=
    foldl (fun st frame =>
             let '(ld1, w1, events) := st in
             let '(ld2, w2, events') := decoderOutput ld1 frame w1 in
             (ld2, w2, events ++ events'))
          (ld, w, events) frames in
  Z.of_nat (length (delivered result.2))
  ≤ Z.of_nat (length (delivered events))
    + Z.max 0 (initialPrefillFrames asset - currentPrefillIndex asset).
Proof.
  induction frames as [|frame frames IH];
    intros ld w events addr asset Hlook Hok Hwarm; simpl; [lia|].
  destruct (decoderOutput_outcome ld frame w addr asset Hlook Hok)
    as (Hid & asset' & Hl' & Hout).
  destruct (decoderOutput ld frame w) as [[ld2 w2] events'].
  simpl in Hid, Hl', Hout.
  unfold output_outcome, warmUp in Hout.
  destruct Hout as (Hok' & Hw' & Hf' & Hcases).
  rewrite <- Hid in Hl'.
  specialize (IH ld2 w2 (events ++ events') addr asset' Hl' Hok').
  rewrite Hw' in IH. specialize (IH Hwarm). cbv zeta in IH.
  etrans; [exact IH|].
  rewrite delivered_app, length_app, Hf'.
  destruct Hcases as [(Hd & _ & Hi)|(f & q & n & Hd & _ & _ & _ & _ & _ & _ & Hlt & Hi)].
  - rewrite Hd, Hi. simpl. lia.
  - rewrite Hd, Hi, Hwarm. specialize (Hlt Hwarm). simpl. lia.
Qed.

(** X19. While an asset is in its warm-up phase the output handler
    delivers at most [initialPrefillFrames] frames in all: however many
    frames the decoder emits, the frames delivered beyond those the
    warm-up index already counts never exceed what is left of the
    warm-up count.  (Each copy is taken to settle before the next frame
    is handled.) *)
Theorem warm_up_delivery_bounded (frames : list VideoFrame) (ld : Load)
    (w : World) (addr : nat) (asset : Asset) :
  lookupAsset w (ld_assetId ld) = Some (addr, asset) →
  buffer_ok asset w →
  isInitialPrefill asset = true →
  Z.of_nat (length (delivered (decodeAll frames ld w).2))
  ≤ Z.max 0 (initialPrefillFrames asset - currentPrefillIndex asset).
Proof.
  intros Hlook Hok Hwarm.
  pose proof (decodeAll_bounded frames ld w [] addr asset Hlook Hok Hwarm)
    as H.
  cbv zeta in H. simpl length in H. unfold decodeAll. lia.
Qed.

(** Twelve frames are requested and decoded during warm-up; ten are
    delivered. *)
Lemma warm_up_delivery_bounded_witness :
  let w := (feedBatch "asset#2" 0 (JInt 12)
              (loadedWorld (regularStream 12 1))).1 in
  let asset := default (loadedAsset []) (objects w !! 0%nat) in
  Z.of_nat (length (delivered
                      (decodeAll (framesOf (loadedAsset (regularStream 12 1)))
                         (startLoad "asset#2") w).2))
  ≤ Z.max 0 (initialPrefillFrames asset - currentPrefillIndex asset).
Proof.
  intros w asset.
  apply (warm_up_delivery_bounded
           (framesOf (loadedAsset (regularStream 12 1)))
           (startLoad "asset#2") w 0%nat asset).
  - vm_compute. reflexivity.
  - intros p Hp _. vm_compute in Hp. injection Hp as <-.
    exists 16384%N. split; [vm_compute; reflexivity|].
    vm_compute. discriminate.
  - vm_compute. reflexivity.
Defined.

Example warm_up_stops_at_ten :
  let w := (feedBatch "asset#2" 0 (JInt 12)
              (loadedWorld (regularStream 12 1))).1 in
  delivered (decodeAll (framesOf (loadedAsset (regularStream 12 1)))
               (startLoad "asset#2") w).2
  = seq 0 10.
Proof. by vm_compute. Qed.

(** *** The canvas fallback *)

(** X23. [ensureCanvasForAsset] leaves the asset with a canvas of the
    requested size whenever the platform can make one or the asset has
    one already; only without any canvas support does the asset stay
    without.  A second call with the same size changes nothing, and a
    clean-up handler is only ever added, for a canvas newly attached to
    the document. *)
Theorem ensureCanvasForAsset_sized (pf : Platform) (asset : Asset)
    (width height : Z) :
  let a' := ensureCanvasForAsset pf asset width height in
  (canvas a' = None ↔ canvas asset = None ∧ pf = NoCanvas) ∧
  (∀ c, canvas a' = Some c →
        canvas_width c = width ∧ canvas_height c = height) ∧
  ensureCanvasForAsset pf a' width height = a' ∧
  (canvasCleanup a' = true ↔
   canvasCleanup asset = true ∨ (canvas asset = None ∧ pf = HasDocument)).
Proof.
  unfold ensureCanvasForAsset.
  destruct (canvas asset) as [c|] eqn:Hc.
  - destruct (negb (canvas_width c =? width) || negb (canvas_height c =? height))
      eqn:Hsize; simpl.
    + rewrite !Z.eqb_refl. simpl. split; [by split; [|intros [? _]]|].
      split; [by intros ? [= <-]|]. split; [done|].
      split; [by left|]. by intros [?|[? _]].
    + rewrite Hc, Hsize. split; [by split; [|intros [? _]]|].
      apply orb_false_iff in Hsize as [Hw Hh].
      apply negb_false_iff, Z.eqb_eq in Hw, Hh.
      split; [by intros ? [= <-]|]. split; [done|].
      split; [by left|]. by intros [?|[? _]].
  - destruct pf; simpl; rewrite ?Hc, ?Z.eqb_refl; simpl.
    + split; [by split; [|intros [_ ?]]|].
      split; [by intros ? [= <-]|]. split; [done|].
      split; [by left|]. by intros [?|[_ ?]].
    + split; [by split; [|intros [_ ?]]|].
      split; [by intros ? [= <-]|]. split; [done|].
      split; [by right|done].
    + split; [done|]. split; [done|]. split; [done|].
      split; [by left|]. by intros [?|[_ ?]].
Qed.

(** *** The copy rectangle *)

(** X26. The rectangle the handler copies is at least one pixel wide and
    high, starts at non-negative coordinates and, unless it is larger
    than the coded frame, lies within the coded frame; a visible
    rectangle that lies within the coded frame is copied as it is; and
    the stride-based size is four bytes for each of its pixels. *)
Theorem frameGeometry_in_bounds (ld : Load) (frame : VideoFrame) :
  codedWidth frame ≠ 0 → codedHeight frame ≠ 0 →
  let g := frameGeometry ld frame in
  let r := g_rect g in
  (1 ≤ rect_width r ∧ 1 ≤ rect_height r ∧ 0 ≤ rect_x r ∧ 0 ≤ rect_y r) ∧
  (rect_width r = g_frameWidth g ∧ rect_height r = g_frameHeight g) ∧
  (rect_width r ≤ codedWidth frame →
   rect_x r + rect_width r ≤ codedWidth frame) ∧
  (rect_height r ≤ codedHeight frame →
   rect_y r + rect_height r ≤ codedHeight frame) ∧
  (∀ v, visibleRect frame = Some v →
        1 ≤ rect_width v → 1 ≤ rect_height v →
        0 ≤ rect_x v → 0 ≤ rect_y v →
        rect_x v + rect_width v ≤ codedWidth frame →
        rect_y v + rect_height v ≤ codedHeight frame →
        r = v) ∧
  g_strideBytes g = Z.to_N (4 * rect_width r * rect_height r).
Proof.
  intros Hw Hh g r. subst r g. unfold frameGeometry. cbv zeta. simpl.
  assert (Hcw : ∀ d, js_or (codedWidth frame) d = codedWidth frame).
  { intros d. unfold js_or. by destruct (Z.eqb_spec (codedWidth frame) 0). }
  assert (Hch : ∀ d, js_or (codedHeight frame) d = codedHeight frame).
  { intros d. unfold js_or. by destruct (Z.eqb_spec (codedHeight frame) 0). }
  rewrite !Hcw, !Hch.
  split; [lia|]. split; [done|]. split; [lia|]. split; [lia|].
  split; [|f_equal; lia].
  intros v -> ? ? ? ? ? ?. destruct v as [x y vw vh]. simpl in *.
  f_equal; lia.
Qed.

Lemma frameGeometry_in_bounds_witness :
  g_rect (frameGeometry (startLoad "asset#2") (demoFrame 0 true))
  = mkRect 0 0 64 64 ∧
  g_strideBytes (frameGeometry (startLoad "asset#2") (demoFrame 0 true))
  = 16384%N.
Proof.
  destruct (frameGeometry_in_bounds (startLoad "asset#2") (demoFrame 0 true))
    as (_ & _ & _ & _ & _ & Hbytes); [discriminate|discriminate|].
  split; [reflexivity|]. rewrite Hbytes. reflexivity.
Defined.

(** ** The pixel buffer along a run *)

Lemma buffers_kept_refl w : buffers_kept w w.
Proof. split; [done|]. split; [done|]. intros addr a H. by exists a. Qed.

Lemma buffers_kept_trans w1 w2 w3 :
  buffers_kept w1 w2 → buffers_kept w2 w3 → buffers_kept w1 w3.
Proof.
  intros (Hr & Hl & Ho) (Hr' & Hl' & Ho').
  split; [congruence|]. split; [congruence|].
  intros addr a Ha. destruct (Ho addr a Ha) as (a' & Ha' & Hp & Hb).
  destruct (Ho' addr a' Ha') as (a'' & Ha'' & Hp' & Hb').
  exists a''. split; [done|]. split; congruence.
Qed.

Lemma buffers_kept_store w addr a a' :
  objects w !! addr = Some a →
  ptr a' = ptr a → frameBytes a' = frameBytes a →
  buffers_kept w (storeAsset addr a' w).
Proof.
  intros Ha Hp Hb. split; [done|]. split; [done|].
  intros addr0 a0 Ha0. simpl.
  destruct (decide (addr0 = addr)) as [->|Hne].
  - rewrite lookup_insert_eq. exists a'. split; [done|]. split; congruence.
  - rewrite lookup_insert_ne by done. by exists a0.
Qed.

Lemma buffers_kept_serving ld w w' :
  buffers_kept w w' → serving ld w → serving ld w'.
Proof.
  intros (Hr & Hl & Ho) (addr & asset & Hlook & Hok).
  destruct (Ho addr asset (lookupAsset_Some _ _ _ _ Hlook))
    as (a' & Ha' & Hp & Hb).
  exists addr, a'. split.
  - unfold lookupAsset in *. rewrite Hr.
    destruct (videoAssets w) as [registry|]; [|done].
    destruct (registry !! ld_assetId ld) as [addr'|]; [|done].
    destruct (objects w !! addr') as [asset0|]; [|done].
    injection Hlook as -> ->. by rewrite Ha'.
  - intros p Hptr Ht. rewrite Hp in Hptr. rewrite Hl, Hb. by apply Hok.
Qed.

Lemma feedBatch_buffers_kept assetId start count w :
  buffers_kept w (feedBatch assetId start count w).1.
Proof.
  destruct (feedBatch_frame assetId start count w)
    as (Hsur & _ & Hnone & Hreg).
  destruct (lookupAsset w assetId) as [[addr asset]|] eqn:Hlook; cycle 1.
  { rewrite (Hnone eq_refl). apply buffers_kept_refl. }
  destruct (Hreg addr asset eq_refl) as (Hother & asset' & Hobj & Hin).
  split; [by injection Hsur|]. split; [by injection Hsur|].
  intros addr0 a0 Ha0. destruct (decide (addr0 = addr)) as [->|Hne].
  - rewrite (lookupAsset_Some _ _ _ _ Hlook) in Ha0. injection Ha0 as <-.
    exists asset'. split; [done|]. by injection Hin.
  - rewrite Hother by done. by exists a0.
Qed.

Lemma feedBatch_delivers_nothing assetId start count w :
  deliveredPointers (feedBatch assetId start count w).2 = [].
Proof.
  assert (Hrange : ∀ dtf wanted dstate ss k e st,
    deliveredPointers (fs_trace (submitRange dtf wanted dstate ss k e st))
    = deliveredPointers (fs_trace st)).
  { intros dtf wanted dstate ss k e. unfold submitRange.
    induction (seq k (e - k)) as [|i idxs IH]; intros st; simpl; [done|].
    rewrite IH. unfold submitSample.
    destruct (ss !! i) as [sample|]; simpl; [|done].
    rewrite deliveredPointers_app. simpl.
    destruct (bool_decide (dstate = Some Configured)); simpl;
      by rewrite app_nil_r. }
  unfold feedBatch.
  destruct (lookupAsset w assetId) as [[addr asset]|]; [|done].
  destruct (overlapsFetch asset start count); [done|].
  destruct (samples asset) as [ss|]; [|done].
  destruct (length (frameToDecode asset) =? 0)%nat; [done|].
  destruct (hasFramesForRange asset start count); simpl negb;
    cbv beta iota zeta.
  - match goal with |- context [match ?ds with [] => _ | _ :: _ => _ end] =>
      destruct ds as [|d0 ds0] end; [done|].
    simpl. rewrite deliveredPointers_app, Hrange. done.
  - simpl. by destruct (pendingDiffers asset start count).
Qed.

Lemma fireTimer_buffers_kept callback w :
  buffers_kept w (fireTimer callback w).1 ∧
  deliveredPointers (fireTimer callback w).2 = [].
Proof.
  destruct callback as [assetId start count|addr]; simpl.
  - split; [apply feedBatch_buffers_kept|apply feedBatch_delivers_nothing].
  - destruct (objects w !! addr) as [asset|] eqn:Ha; simpl.
    + split; [|done]. by apply (buffers_kept_store _ _ asset).
    + split; [apply buffers_kept_refl|done].
Qed.

Lemma prefetchFrames_buffers_kept assetId start count w :
  buffers_kept w (prefetchFrames assetId start count w).1 ∧
  deliveredPointers (prefetchFrames assetId start count w).2 = [].
Proof.
  unfold prefetchFrames. split; [|apply feedBatch_delivers_nothing].
  eapply buffers_kept_trans; [|apply feedBatch_buffers_kept].
  destruct (lookupAsset w assetId) as [[addr asset]|] eqn:Hlook;
    [|apply buffers_kept_refl].
  apply (buffers_kept_store _ _ asset); [|done|done].
  by apply lookupAsset_Some in Hlook.
Qed.

Lemma onSamples_buffers_kept id sampleList ld w :
  buffers_kept w (onSamples id sampleList ld w).1.2 ∧
  deliveredPointers (onSamples id sampleList ld w).2 = [] ∧
  ld_assetId (onSamples id sampleList ld w).1.1 = ld_assetId ld.
Proof.
  unfold onSamples.
  destruct (lookupAsset w (ld_assetId ld)) as [[addr asset]|] eqn:Hlook;
    [|by split; [apply buffers_kept_refl|]].
  destruct (negb (id =? ld_trackId ld)%nat);
    [by split; [apply buffers_kept_refl|]|].
  cbv zeta.
  set (asset1 := updatePresentationTimeline _).
  assert (H1 : ptr asset1 = ptr asset ∧ frameBytes asset1 = frameBytes asset).
  { subst asset1. unfold updatePresentationTimeline. simpl.
    by destruct (appendSamples _ _ _ _). }
  destruct H1 as [Hp1 Hb1].
  pose proof (lookupAsset_Some _ _ _ _ Hlook) as Hobj.
  assert (Hk1 : buffers_kept w (storeAsset addr asset1 w)).
  { by apply (buffers_kept_store _ _ asset). }
  set (pending := match pendingPrefetch asset1 with
                  | Some (pstart, pcount) => _
                  | None => _
                  end).
  assert (Hpending : buffers_kept w pending.1 ∧
                     deliveredPointers pending.2 = []).
  { subst pending.
    destruct (pendingPrefetch asset1) as [[pstart pcount]|]; [|done].
    destruct (hasFramesForRange asset1 pstart pcount); [|done].
    split; [|apply feedBatch_delivers_nothing].
    eapply buffers_kept_trans; [exact Hk1|].
    eapply buffers_kept_trans; [|apply feedBatch_buffers_kept].
    apply (buffers_kept_store _ _ asset1);
      [apply lookup_insert_eq|done|done]. }
  destruct pending as [w2 events2]. simpl in Hpending.
  destruct Hpending as [Hk2 Hd2].
  destruct (objects w2 !! addr) as [asset2|] eqn:Ha2; [|by simpl].
  destruct (negb (prefillRequested asset2) && _); [|by simpl].
  pose proof (feedBatch_buffers_kept (ld_assetId ld) 0
                (JInt (ld_initialPrefillFrames ld))
                (storeAsset addr (set_prefillRequested true asset2) w2))
    as Hk4.
  pose proof (feedBatch_delivers_nothing (ld_assetId ld) 0
                (JInt (ld_initialPrefillFrames ld))
                (storeAsset addr (set_prefillRequested true asset2) w2))
    as Hd4.
  destruct (feedBatch _ _ _ _) as [w4 events4]. simpl in Hk4, Hd4.
  match goal with |- context [resolveOnce ?l] =>
    destruct (resolveOnce_fields l) as (_ & _ & Hid);
    assert (Hd5 : deliveredPointers (resolveOnce l).2 = []);
    [unfold resolveOnce; destruct (ld_resolved l); [done|];
     by destruct (ld_promise l)|];
    destruct (resolveOnce l) as [ld2 events5]
  end.
  simpl in *. split; [|split; [|done]].
  - eapply buffers_kept_trans; [exact Hk2|].
    eapply buffers_kept_trans; [|exact Hk4].
    by apply (buffers_kept_store _ _ asset2).
  - by rewrite !deliveredPointers_app, Hd2, Hd4, Hd5.
Qed.

Lemma step_serving s ld w :
  serving ld w → undisturbed s = true →
  serving (step s ld w).1.1 (step s ld w).1.2 ∧
  ∀ p, p ∈ deliveredPointers (step s ld w).2 → ptr_truthy p = true.
Proof.
  intros Hserving Hquiet.
  destruct s as [id sampleList|nv frame|assetId start count|callback|e];
    simpl.
  - destruct (onSamples_buffers_kept id sampleList ld w) as (Hk & Hd & Hid).
    rewrite Hd. split; [|by intros p ?%elem_of_nil].
    destruct (buffers_kept_serving ld _ _ Hk Hserving)
      as (addr & asset & Hlook & Hok).
    exists addr, asset. by rewrite Hid.
  - simpl in Hquiet. rewrite (decoderOutput_in_quiet _ _ _ _ Hquiet).
    cbn [fst].
    destruct Hserving as (addr & asset & Hlook & Hok).
    destruct (decoderOutput_outcome ld frame w addr asset Hlook Hok)
      as (Hid & asset' & Hl' & Hout).
    unfold output_outcome, warmUp in Hout.
    destruct Hout as (Hok' & _ & _ & Hcases). split.
    + exists addr, asset'. by rewrite Hid.
    + destruct Hcases as [(_ & -> & _)|(f & q & n & _ & -> & Hq & _)].
      * by intros p ?%elem_of_nil.
      * intros p ->%list_elem_of_singleton. simpl.
        by apply negb_true_iff, N.eqb_neq.
  - destruct (prefetchFrames_buffers_kept assetId start count w) as [Hk Hd].
    destruct (prefetchFrames assetId start count w) as [w1 events].
    simpl in *. rewrite Hd. split; [|by intros p ?%elem_of_nil].
    by apply (buffers_kept_serving ld w).
  - destruct (fireTimer_buffers_kept callback w) as [Hk Hd].
    destruct (fireTimer callback w) as [w1 events].
    simpl in *. rewrite Hd. split; [|by intros p ?%elem_of_nil].
    by apply (buffers_kept_serving ld w).
  - unfold decoderError, reject.
    destruct (ld_promise ld); simpl; (split; [done|]);
      by intros p ?%elem_of_nil.
Qed.

(** X27. Let the loader's asset be registered with a buffer that, if the
    asset has one, is a live block of at least [frameBytes] bytes (the
    state a successful [onReady] leaves).  Then this remains so, whatever
    samples arrive, requests are made, timers fire or frames are decoded,
    as long as no copy is overtaken by another callback and, during each
    output, the allocator hands out a block on request and the calls into
    the engine return; and along such a run no frame is handed to the
    rendering engine with a null pointer.  (The asset may be without a
    buffer in between: a failed copy releases it and the next output
    allocates a new one.) *)
Theorem pipeline_keeps_buffer (ld : Load) (w : World) (ss : list Step) :
  serving ld w →
  forallb undisturbed ss = true →
  let run := steps ss ld w in
  serving run.1.1 run.1.2 ∧
  ∀ p, p ∈ deliveredPointers run.2 → ptr_truthy p = true.
Proof.
  intros Hserving Hquiet run. subst run.
  revert ld w Hserving Hquiet.
  induction ss as [|s rest IH]; intros ld w Hserving Hquiet; simpl.
  { split; [done|]. by intros p ?%elem_of_nil. }
  simpl in Hquiet. apply andb_true_iff in Hquiet as [Hs0 Hrest].
  destruct (step_serving s ld w Hserving Hs0) as [Hs Hp].
  destruct (step s ld w) as [[ld1 w1] events]. simpl in Hs, Hp.
  destruct (IH ld1 w1 Hs Hrest) as [Hs' Hp'].
  destruct (steps rest ld1 w1) as [[ld2 w2] events']. simpl in *.
  split; [done|]. intros p. rewrite deliveredPointers_app.
  intros [?|?]%elem_of_app; auto.
Qed.

(** A track is loaded, twelve samples arrive, and the decoder emits their
    frames, the first of which cannot be copied. *)
Lemma pipeline_keeps_buffer_witness :
  let ready := onReady [demoTrack] (startLoad "asset#2") blankWorld in
  let run :=
    steps (StepSamples 1 (regularStream 12 1)
           :: StepOutput calm (brokenFrame 0)
           :: (StepOutput calm
               <$> framesOf (loadedAsset (regularStream 12 1))))
      ready.1.1 ready.1.2 in
  serving run.1.1 run.1.2.
Proof.
  intros ready run.
  destruct (pipeline_keeps_buffer ready.1.1 ready.1.2
              (StepSamples 1 (regularStream 12 1)
               :: StepOutput calm (brokenFrame 0)
               :: (StepOutput calm
                   <$> framesOf (loadedAsset (regularStream 12 1)))))
    as (Hrun & _).
  - exists 0%nat, (default (loadedAsset []) (objects ready.1.2 !! 0%nat)).
    split; [vm_compute; reflexivity|].
    intros p Hp _. vm_compute in Hp. injection Hp as <-.
    exists 16384%N. split; [vm_compute; reflexivity|].
    vm_compute. discriminate.
  - vm_compute. reflexivity.
  - exact Hrun.
Defined.

(** In that run the first frame is dropped and its buffer released; the
    next output allocates a new block, and the frames delivered during
    warm-up all come with a non-null pointer. *)
Example pipeline_delivers_warm_up :
  let ready := onReady [demoTrack] (startLoad "asset#2") blankWorld in
  let run :=
    steps (StepSamples 1 (regularStream 12 1)
           :: StepOutput calm (brokenFrame 0)
           :: (StepOutput calm
               <$> framesOf (loadedAsset (regularStream 12 1))))
      ready.1.1 ready.1.2 in
  delivered run.2 = seq 1 10 ∧
  ptr_truthy <$> deliveredPointers run.2 = replicate 10 true.
Proof. by vm_compute. Qed.

(** ** The decoder configuration record *)

Section writer.
Implicit Types (pre rest bytes : list Z) (v : Z).

Lemma put_ready pre m v :
  put v (ready pre (S m)) = ready (pre ++ [u8 v]) m.
Proof.
  unfold put, ready. simpl. rewrite length_app. simpl. f_equal; [|lia].
  rewrite insert_app_r_alt by lia. rewrite Nat.sub_diag. simpl.
  by rewrite <- app_assoc.
Qed.

Lemma setAt_ready pre bytes m :
  setAt bytes (ready pre (length bytes + m)) = ready (pre ++ bytes) m.
Proof.
  unfold setAt, ready. simpl. rewrite length_app. f_equal.
  rewrite replicate_add.
  rewrite <- (Nat.add_0_r (length pre)), list_inserts_app_r.
  rewrite list_inserts_0_r by (by rewrite length_replicate).
  by rewrite <- app_assoc.
Qed.

Lemma byte_of_length (n : nat) :
  u8 (Z.land (Z.shiftr (Z.of_nat n) 8) 255) = (Z.of_nat n / 256) mod 256 ∧
  u8 (Z.land (Z.of_nat n) 255) = Z.of_nat n mod 256.
Proof.
  unfold u8. change 255 with (Z.ones 8).
  rewrite !Z.land_ones by lia. rewrite Z.shiftr_div_pow2 by lia.
  change (2 ^ 8) with 256. by rewrite !Z.mod_mod by lia.
Qed.
End writer.

(** The bytes written, in order. *)
Lemma buildAVCCDescription_bytes (box : AvcC)
    (spsList ppsList : list ParameterSet) (sps pps : list Z) :
  SPS box = Some spsList → PPS box = Some ppsList →
  firstData spsList = Some sps → firstData ppsList = Some pps →
  buildAVCCDescription (Some box)
  = Some ([1; u8 (AVCProfileIndication box); u8 (profile_compatibility box);
           u8 (AVCLevelIndication box); 255; 225;
           (Z.of_nat (length sps) / 256) mod 256;
           Z.of_nat (length sps) mod 256]
          ++ sps
          ++ [1; (Z.of_nat (length pps) / 256) mod 256;
              Z.of_nat (length pps) mod 256]
          ++ pps ++ default [] (ext box)).
Proof.
  intros Hsps Hpps Hs Hp. unfold buildAVCCDescription.
  rewrite Hsps, Hpps, Hs, Hp. cbv zeta. f_equal.
  set (e := default [] (ext box)).
  assert (Hlen : (11 + length sps + length pps
                  + match ext box with Some e => length e | None => 0 end)%nat
                 = (S (S (S (S (S (S (S (S
                     (length sps
                      + S (S (S (length pps + (length e + 0)))))))))))))%nat).
  { subst e. destruct (ext box); simpl; lia. }
  rewrite Hlen. clear Hlen.
  match goal with
  | |- context [(replicate ?n 0, 0%nat)] =>
      change (replicate n 0, 0%nat) with (ready [] n)
  end.
  destruct (byte_of_length (length sps)) as [Hs1 Hs0].
  destruct (byte_of_length (length pps)) as [Hp1 Hp0].
  rewrite !put_ready, setAt_ready, !put_ready, setAt_ready.
  rewrite Hs1, Hs0, Hp1, Hp0.
  assert (Hjs : js_or (profile_compatibility box) 0
                = profile_compatibility box).
  { unfold js_or. by destruct (Z.eqb_spec (profile_compatibility box) 0). }
  rewrite Hjs.
  assert (Hu : u8 1 = 1 ∧ u8 255 = 255 ∧ u8 225 = 225) by done.
  destruct Hu as (-> & -> & ->).
  subst e. destruct (ext box) as [e|]; simpl default.
  - rewrite setAt_ready. unfold ready. simpl fst.
    rewrite app_nil_r, <- !app_assoc. done.
  - unfold ready. simpl fst. simpl replicate.
    rewrite !app_nil_r, <- !app_assoc. done.
Qed.

(** X20. The record [buildAVCCDescription] returns when the box has a
    first SPS and a first PPS: version 1, the three profile bytes, the
    constants [0xFF] and [0xE1], the SPS behind its length in two bytes,
    the count 1, the PPS behind its length in two bytes, and the
    extension bytes, if any; further parameter sets of the box are left
    out. *)
Theorem buildAVCCDescription_layout (avcC : option AvcC) (box : AvcC)
    (sps pps : list Z) :
  avcC = Some box →
  SPS box ≫= firstData = Some sps →
  PPS box ≫= firstData = Some pps →
  buildAVCCDescription avcC
  = Some ([1; u8 (AVCProfileIndication box); u8 (profile_compatibility box);
           u8 (AVCLevelIndication box); 255; 225;
           (Z.of_nat (length sps) / 256) mod 256;
           Z.of_nat (length sps) mod 256]
          ++ sps
          ++ [1; (Z.of_nat (length pps) / 256) mod 256;
              Z.of_nat (length pps) mod 256]
          ++ pps ++ default [] (ext box)).
Proof.
  intros -> Hs Hp.
  destruct (SPS box) as [spsList|] eqn:Hsps; [|done].
  destruct (PPS box) as [ppsList|] eqn:Hpps; [|done].
  by apply (buildAVCCDescription_bytes box spsList ppsList).
Qed.

Lemma buildAVCCDescription_layout_witness :
  buildAVCCDescription (Some demoAvcC)
  = Some [1; 66; 192; 30; 255; 225; 0; 4; 103; 66; 192; 30; 1; 0; 2;
          104; 206].
Proof.
  apply (buildAVCCDescription_layout (Some demoAvcC) demoAvcC
           [103; 66; 192; 30] [104; 206]); reflexivity.
Defined.

(** X21. [buildAVCCDescription] returns [null] exactly when there is no
    box, or the box has no first SPS with data, or no first PPS with
    data; a parameter set without bytes still counts. *)
Theorem buildAVCCDescription_null (avcC : option AvcC) :
  buildAVCCDescription avcC = None ↔
  (avcC ≫= SPS) ≫= firstData = None ∨ (avcC ≫= PPS) ≫= firstData = None.
Proof.
  unfold buildAVCCDescription.
  destruct avcC as [box|]; simpl; [|by split; [left|]].
  destruct (SPS box) as [spsList|]; simpl; [|by split; [left|]].
  destruct (PPS box) as [ppsList|]; simpl.
  - destruct (firstData spsList) as [sps|]; [|by split; [left|]].
    destruct (firstData ppsList) as [pps|]; [|by split; [right|]].
    split; [done|]. by intros [?|?].
  - destruct (firstData spsList); by split; [right|].
Qed.

(** X22. The record can be read back: its length is 11 bytes more than
    its payloads; the two bytes before each parameter set hold the
    length of the set modulo 65536, high byte first; and a parameter set
    shorter than 65536 bytes is found again, unchanged, behind its
    length field. *)
Theorem buildAVCCDescription_reads_back (box : AvcC) (out : list Z) :
  buildAVCCDescription (Some box) = Some out →
  ∃ sps pps,
    SPS box ≫= firstData = Some sps ∧ PPS box ≫= firstData = Some pps ∧
    length out
    = (11 + length sps + length pps + length (default [] (ext box)))%nat ∧
    (∃ hi lo, out !! 6%nat = Some hi ∧ out !! 7%nat = Some lo ∧
              256 * hi + lo = Z.of_nat (length sps) mod 65536 ∧
              (Z.of_nat (length sps) < 65536 →
               take (Z.to_nat (256 * hi + lo)) (drop 8 out) = sps)) ∧
    (∃ hi lo, out !! (9 + length sps)%nat = Some hi ∧
              out !! (10 + length sps)%nat = Some lo ∧
              256 * hi + lo = Z.of_nat (length pps) mod 65536 ∧
              (Z.of_nat (length pps) < 65536 →
               take (Z.to_nat (256 * hi + lo)) (drop (11 + length sps) out)
               = pps)) ∧
    drop (11 + length sps + length pps) out = default [] (ext box).
Proof.
  intros Hout.
  destruct (SPS box) as [spsList|] eqn:Hsps; [|by simpl in Hout; rewrite Hsps in Hout].
  destruct (PPS box) as [ppsList|] eqn:Hpps;
    [|by simpl in Hout; rewrite Hsps, Hpps in Hout].
  destruct (firstData spsList) as [sps|] eqn:Hs;
    [|by simpl in Hout; rewrite Hsps, Hpps, Hs in Hout].
  destruct (firstData ppsList) as [pps|] eqn:Hp;
    [|by simpl in Hout; rewrite Hsps, Hpps, Hs, Hp in Hout].
  rewrite (buildAVCCDescription_bytes box spsList ppsList sps pps) in Hout
    by done.
  assert (Hsplit : ∀ n : Z, 256 * ((n / 256) mod 256) + n mod 256
                            = n mod 65536).
  { intros n. change 65536 with (256 * 256).
    rewrite Z.rem_mul_r by lia. lia. }
  set (hd := [1; u8 (AVCProfileIndication box);
              u8 (profile_compatibility box); u8 (AVCLevelIndication box);
              255; 225; (Z.of_nat (length sps) / 256) mod 256;
              Z.of_nat (length sps) mod 256]).
  set (mid := [1; (Z.of_nat (length pps) / 256) mod 256;
               Z.of_nat (length pps) mod 256]).
  set (e := default [] (ext box)).
  assert (Heq : out = hd ++ sps ++ mid ++ pps ++ e)
    by by injection Hout as <-.
  rewrite Heq. clear Hout Heq.
  assert (Hhd : length hd = 8%nat) by done.
  assert (Hmid : length mid = 3%nat) by done.
  assert (Hre2 : hd ++ sps ++ mid ++ pps ++ e
                 = ((hd ++ sps) ++ mid) ++ pps ++ e)
    by by rewrite <- !app_assoc.
  assert (Hre : hd ++ sps ++ mid ++ pps ++ e
                = (hd ++ sps) ++ mid ++ pps ++ e) by by rewrite <- app_assoc.
  assert (Hlen : length (hd ++ sps) = (8 + length sps)%nat).
  { by rewrite length_app, Hhd. }
  assert (Hback : ∀ n : nat, Z.of_nat n < 65536 →
                    Z.to_nat (Z.of_nat n mod 65536) = n).
  { intros n Hn. rewrite Z.mod_small by lia. lia. }
  exists sps, pps. split; [done|]. split; [done|]. split.
  { rewrite !length_app, Hhd, Hmid. lia. }
  split.
  { exists ((Z.of_nat (length sps) / 256) mod 256),
      (Z.of_nat (length sps) mod 256).
    split; [by rewrite lookup_app_l by (rewrite Hhd; lia)|].
    split; [by rewrite lookup_app_l by (rewrite Hhd; lia)|].
    split; [apply Hsplit|]. intros Hshort.
    rewrite Hsplit, Hback by done.
    rewrite (drop_app_length' hd) by done. by rewrite take_app_length. }
  split.
  { exists ((Z.of_nat (length pps) / 256) mod 256),
      (Z.of_nat (length pps) mod 256).
    split; [|split; [|split; [apply Hsplit|]]].
    - rewrite Hre, lookup_app_r by lia. rewrite Hlen.
      by replace (9 + length sps - (8 + length sps))%nat with 1%nat by lia.
    - rewrite Hre, lookup_app_r by lia. rewrite Hlen.
      by replace (10 + length sps - (8 + length sps))%nat with 2%nat by lia.
    - intros Hshort. rewrite Hsplit, Hback by done.
      rewrite Hre2, drop_app_length'
        by (rewrite length_app, Hlen, Hmid; lia).
      by rewrite take_app_length. }
  replace (hd ++ sps ++ mid ++ pps ++ e)
    with ((((hd ++ sps) ++ mid) ++ pps) ++ e)
    by by rewrite <- !app_assoc.
  rewrite drop_app_length'; [done|].
  rewrite !length_app, Hhd, Hmid. lia.
Qed.

Lemma buildAVCCDescription_reads_back_witness :
  ∃ sps pps,
    SPS demoAvcC ≫= firstData = Some sps ∧
    PPS demoAvcC ≫= firstData = Some pps ∧
    (length sps + length pps = 6)%nat.
Proof.
  destruct (buildAVCCDescription_reads_back demoAvcC
              [1; 66; 192; 30; 255; 225; 0; 4; 103; 66; 192; 30; 1; 0; 2;
               104; 206] eq_refl)
    as (sps & pps & Hs & Hp & Hlen & _).
  exists sps, pps. split; [exact Hs|]. split; [exact Hp|].
  simpl in Hlen. lia.
Defined.

(** ** The demo page *)

(** X25. Stepping never leaves the frame range of the scene: the frame
    set lies between the first and the last frame, is the neighbouring
    frame whenever that one is in range, and is never further from the
    current frame than the step asked for. *)
Theorem stepFrame_clamped (ready : bool)
    (current start endFrame direction target : Z) :
  start ≤ endFrame →
  stepFrame ready current start endFrame direction = Some target →
  start ≤ target ≤ endFrame ∧
  (start ≤ current + direction ≤ endFrame → target = current + direction) ∧
  (start ≤ current ≤ endFrame → Z.abs (target - current) ≤ Z.abs direction).
Proof.
  intros Hrange. unfold stepFrame. destruct ready; [|done]. simpl.
  intros [= <-].
  destruct (Z.ltb_spec (current + direction) start);
    destruct (Z.ltb_spec endFrame start);
    destruct (Z.ltb_spec endFrame (current + direction)); lia.
Qed.

Lemma stepFrame_clamped_witness :
  stepFrame true 40 0 40 1 = Some 40 ∧ 0 ≤ 40 ≤ 40.
Proof.
  split; [reflexivity|].
  apply (stepFrame_clamped true 40 0 40 1 40); [lia|reflexivity].
Defined.
